(** * Shift scheduler: preference normalisation and weekly assignment

    A shallow embedding of [python_app/scheduler.py]:
    [deterministic_shuffle], [collect_employee_preferences],
    [generate_schedule] and [schedule_courses], and of the request handler
    [create_schedule] of [python_app/python_app.py], together with the
    properties that follow from the code.

    Conventions of the embedding.
    - Python values that reach the scheduler are the JSON-like values of
      [pyval]; an [isinstance] test is a pattern match on the constructor.
    - A Python [dict] is an insertion-ordered association list ([dict]),
      a Python [set] of strings is a duplicate-free list.
    - A [raise] is the [Raise] branch of [result]; code that can raise is
      written in the error monad.
    - Python [int] is [Z]; Python [float] is IEEE-754 binary64, computed
      with the Standard Library's [SpecFloat] ([prec = 53], [emax = 1024]).
    - Python [str] is [string]; the model covers ASCII text, on which
      [str.lower] touches the letters A-Z only and [str.strip] removes the
      characters for which [str.isspace] holds.  On other text Python
      also folds letters and trims white space outside ASCII, which
      [lower] and [strip] do not: a statement whose truth depends on what
      they return is made for ASCII strings ([is_ascii]), or under a
      hypothesis that only ASCII strings meet.
    - [schedule[day][shift]] is appended to only while the cell
      [(day, shift)] is processed: each cell returns the list it built, and
      the schedule is assembled from the cells. *)

From Stdlib Require Import ZArith String Ascii Bool Arith Lia Permutation List.
From Stdlib Require Import Floats.SpecFloat.
From Stdlib Require Import Relations Sorted ListDec.
Import ListNotations.

Local Open Scope string_scope.
Local Open Scope list_scope.

Set Implicit Arguments.

(* ================================================================== *)
(** * Exceptions and the error monad *)

(** The two kinds of [ValueError] the scheduler raises.  Every [raise] of
    [collect_employee_preferences], and the top-level type check of
    [generate_schedule], is an [InvalidInput]; the staffing check of
    [generate_schedule] (fewer than six employees) is [InsufficientStaff]. *)
Inductive error_kind := InvalidInput | InsufficientStaff.

(** Exceptions: the [ValueError]s raised explicitly, and the built-in
    exceptions that a subscript, a method call on the wrong type or a float
    conversion raises. *)
Inductive exn :=
| ValueError (k : error_kind)
| AttributeError
| KeyError
| IndexError
| OverflowError.

Inductive result (A : Type) :=
| Ok (a : A)
| Raise (e : exn).

Arguments Ok {A} a.
Arguments Raise {A} e.

Definition bind {A B} (m : result A) (k : A -> result B) : result B :=
  match m with
  | Ok a => k a
  | Raise e => Raise e
  end.

Notation "x <- m ;; k" := (bind m (fun x => k))
  (at level 61, m at next level, right associativity).
Notation "' p <- m ;; k" := (bind m (fun x => let p := x in k))
  (at level 61, p pattern, m at next level, right associativity).

Definition is_ok {A} (r : result A) : bool :=
  match r with Ok _ => true | Raise _ => false end.

(** [for x in xs: body] over a state [s], where the body may raise. *)
Fixpoint for_each {A S} (body : S -> A -> result S) (xs : list A) (s : S)
  : result S :=
  match xs with
  | [] => Ok s
  | x :: xs' => s' <- body s x ;; for_each body xs' s'
  end.

(* ================================================================== *)
(** * Strings *)

Definition lower_ascii (c : ascii) : ascii :=
  let n := nat_of_ascii c in
  if (65 <=? n)%nat && (n <=? 90)%nat then ascii_of_nat (n + 32) else c.

(** [str.lower], on ASCII strings. *)
Fixpoint lower (s : string) : string :=
  match s with
  | EmptyString => EmptyString
  | String c s' => String (lower_ascii c) (lower s')
  end.

(** [str.isspace] on one character: TAB, LF, VT, FF, CR, FS, GS, RS, US and
    the space. *)
Definition is_space (c : ascii) : bool :=
  let n := nat_of_ascii c in
  ((9 <=? n)%nat && (n <=? 13)%nat) || ((28 <=? n)%nat && (n <=? 32)%nat).

Fixpoint lstrip (s : string) : string :=
  match s with
  | EmptyString => EmptyString
  | String c s' => if is_space c then lstrip s' else s
  end.

Fixpoint rstrip (s : string) : string :=
  match s with
  | EmptyString => EmptyString
  | String c s' =>
      match rstrip s' with
      | EmptyString => if is_space c then EmptyString else String c EmptyString
      | t => String c t
      end
  end.

(** [str.strip], on ASCII strings. *)
Definition strip (s : string) : string := rstrip (lstrip s).

(** [str.isascii]: every character is below 128.  On such strings [lower]
    and [strip] are Python's [str.lower] and [str.strip]. *)
Definition is_ascii (s : string) : bool :=
  forallb (fun c => (nat_of_ascii c <? 128)%nat) (list_ascii_of_string s).

(** [x in xs] for a list of strings. *)
Definition mem (x : string) (xs : list string) : bool :=
  existsb (String.eqb x) xs.

(** [s.add(x)] for a set of strings. *)
Definition set_add (x : string) (s : list string) : list string :=
  if mem x s then s else x :: s.

(** [len(xs) != len(set(xs))]: some element occurs twice. *)
Fixpoint has_dup (xs : list string) : bool :=
  match xs with
  | [] => false
  | x :: xs' => mem x xs' || has_dup xs'
  end.

(* ================================================================== *)
(** * Ordered dictionaries with string keys *)

Definition dict (V : Type) := list (string * V).

Fixpoint dict_get {V} (d : dict V) (k : string) : option V :=
  match d with
  | [] => None
  | (k', v) :: d' => if String.eqb k k' then Some v else dict_get d' k
  end.

(** [d[k] = v]: overwrite in place, or append a new key. *)
Fixpoint dict_set {V} (d : dict V) (k : string) (v : V) : dict V :=
  match d with
  | [] => [(k, v)]
  | (k', v') :: d' =>
      if String.eqb k k' then (k', v) :: d' else (k', v') :: dict_set d' k v
  end.

Definition dict_keys {V} (d : dict V) : list string := map fst d.

(** [d[k]], raising [KeyError] on a missing key. *)
Definition subscript {V} (d : dict V) (k : string) : result V :=
  match dict_get d k with
  | Some v => Ok v
  | None => Raise KeyError
  end.

(* ================================================================== *)
(** * Constants *)

Definition DAYS_OF_WEEK : list string :=
  ["Monday"; "Tuesday"; "Wednesday"; "Thursday"; "Friday"; "Saturday"; "Sunday"].

Definition VALID_SHIFTS : list string := ["morning"; "afternoon"; "evening"].

(* ================================================================== *)
(** * Binary64 arithmetic used by the tie-breaker *)

Definition prec : Z := 53.
Definition emax : Z := 1024.

(** [float(n)] for a Python int. *)
Definition float_of_int (n : Z) : spec_float := binary_normalize prec emax n 0 false.

(** [int(x)]: truncation towards zero; infinities and NaN raise. *)
Definition int_of_float (x : spec_float) : result Z :=
  match x with
  | S754_zero _ => Ok 0%Z
  | S754_finite s m e =>
      Ok (cond_Zopp s
            (match e with
             | Z0 => Zpos m
             | Zpos p => Zpos m * 2 ^ Zpos p
             | Zneg p => Zpos m / 2 ^ Zpos p
             end))%Z
  | S754_infinity _ => Raise OverflowError
  | S754_nan => Raise (ValueError InvalidInput)
  end.

(** [x * n] for a float [x] and an int [n]: the int is converted first, and
    an int too large for a float raises [OverflowError]. *)
Definition float_mul_int (x : spec_float) (n : Z) : result spec_float :=
  match float_of_int n with
  | S754_infinity _ => Raise OverflowError
  | y => Ok (SFmul prec emax x y)
  end.

(* ================================================================== *)
(** * The deterministic tie-breaker *)

(** One call of the closure [pseudo_random]: the three xorshift updates of
    [random_seed], then [abs(random_seed) % 1000 / 1000].  Returns the new
    seed and the float. *)
Definition pseudo_random (random_seed : Z) : Z * spec_float :=
  let s1 := Z.lxor random_seed (Z.land (Z.shiftl random_seed 13) 0xFFFFFFFF) in
  let s2 := Z.lxor s1 (Z.shiftr s1 17) in
  let s3 := Z.lxor s2 (Z.land (Z.shiftl s2 5) 0xFFFFFFFF) in
  (s3, SFdiv prec emax (float_of_int (Z.abs s3 mod 1000)) (float_of_int 1000)).

(** [arr[i]] for an int index: negative indices count from the end, and an
    index outside the list raises [IndexError]. *)
Definition index_of {A} (arr : list A) (i : Z) : result nat :=
  let n := Z.of_nat (length arr) in
  let j := if (i <? 0)%Z then (i + n)%Z else i in
  if (0 <=? j)%Z && (j <? n)%Z then Ok (Z.to_nat j) else Raise IndexError.

Fixpoint set_nth {A} (arr : list A) (n : nat) (x : A) : list A :=
  match arr, n with
  | [], _ => []
  | _ :: t, O => x :: t
  | h :: t, S n' => h :: set_nth t n' x
  end.

(** [arr[m], arr[i] = arr[i], arr[m]]: both reads, then the store at [m],
    then the store at [i]. *)
Definition swap {A} (arr : list A) (m i : Z) : result (list A) :=
  pi <- index_of arr i ;;
  pm <- index_of arr m ;;
  match nth_error arr pi, nth_error arr pm with
  | Some a, Some b => Ok (set_nth (set_nth arr pm a) pi b)
  | _, _ => Raise IndexError
  end.

(** The [while m:] loop; [m] is the loop counter, which starts at
    [len(arr)] and decreases by one per iteration. *)
Fixpoint shuffle_loop {A} (m : nat) (random_seed : Z) (arr : list A)
  : result (list A) :=
  match m with
  | O => Ok arr
  | S m' =>
      let '(random_seed', x) := pseudo_random random_seed in
      y <- float_mul_int x (Z.of_nat m) ;;
      i <- int_of_float y ;;
      arr' <- swap arr (Z.of_nat m') i ;;
      shuffle_loop m' random_seed' arr'
  end.

Definition deterministic_shuffle {A} (arr : list A) (seed : Z) : result (list A) :=
  shuffle_loop (length arr) seed arr.

(* ================================================================== *)
(** * Python values and [sorted] *)

(** The values a caller can pass: what [json.loads] produces, with
    arbitrary values as dictionary keys.  A dictionary is the list of its
    items in insertion order. *)
#[warnings="-register-all"]
Inductive pyval :=
| PyNone
| PyBool (b : bool)
| PyInt (z : Z)
| PyFloat (f : spec_float)
| PyStr (s : string)
| PyList (l : list pyval)
| PyDict (items : list (pyval * pyval)).

(** [k in d] for a string [k]: only a [str] key compares equal to it. *)
Definition has_key (k : string) (items : list (pyval * pyval)) : bool :=
  existsb (fun kv => match fst kv with
                     | PyStr s => String.eqb s k
                     | _ => false
                     end) items.

(** [v in xs] for a list of strings [xs] and an arbitrary value [v]. *)
Definition val_in (v : pyval) (xs : list string) : bool :=
  match v with
  | PyStr s => mem s xs
  | _ => false
  end.

(** [isinstance(p, int)], with the integer it denotes ([bool] is a subclass
    of [int]: [True] is 1 and [False] is 0). *)
Definition as_int (p : pyval) : option Z :=
  match p with
  | PyInt z => Some z
  | PyBool b => Some (Z.b2z b)
  | _ => None
  end.

(** The strings of a list of values (all of them, once every element has
    passed [val_in]). *)
Definition strings_of (l : list pyval) : list string :=
  flat_map (fun v => match v with PyStr s => [s] | _ => [] end) l.

Fixpoint insert_sorted {A} (leb : A -> A -> bool) (x : A) (l : list A) : list A :=
  match l with
  | [] => [x]
  | y :: t => if leb x y then x :: l else y :: insert_sorted leb x t
  end.

(** [sorted(l)] for the order [leb]; stable, as Python's sort is. *)
Definition sorted {A} (leb : A -> A -> bool) (l : list A) : list A :=
  fold_right (insert_sorted leb) [] l.

(** The order of [key=lambda x: (x[1], x[0])] on [(shift, priority)] items:
    by priority, then by shift name. *)
Definition item_leb (x y : string * Z) : bool :=
  (snd x <? snd y)%Z || ((snd x =? snd y)%Z && String.leb (fst x) (fst y)).

(** [[item[0] for item in sorted(priorities.items(), key=...)]] *)
Definition ranked (priorities : dict Z) : list string :=
  map fst (sorted item_leb priorities).

(* ================================================================== *)
(** * The preference normaliser *)

Definition invalid {A} : result A := Raise (ValueError InvalidInput).

(** The string case (lines 51-63): the named shift gets priority 1, the
    others 2 and 3 in the order of [VALID_SHIFTS]. *)
Definition normalize_str (pri_map : string) : result (list string) :=
  let s := strip (lower pri_map) in
  if negb (mem s VALID_SHIFTS) then invalid
  else
    let priorities := dict_set [] s 1%Z in
    let '(priorities, _) :=
      fold_left (fun '(pr, p) other =>
                   if negb (String.eqb other s)
                   then (dict_set pr other p, (p + 1)%Z)
                   else (pr, p))
                VALID_SHIFTS (priorities, 2%Z) in
    Ok (ranked priorities).

(** One iteration of [for shift_name, p in pri_map.items()] (lines 72-86);
    the state is [(priorities, pref_count, seen_shifts)]. *)
Definition priority_entry (st : dict Z * nat * list string) (item : pyval * pyval)
  : result (dict Z * nat * list string) :=
  let '(priorities, pref_count, seen_shifts) := st in
  let '(shift_name, p) := item in
  match shift_name with
  | PyStr shift_name =>
      let s_lower := strip (lower shift_name) in
      if negb (mem s_lower VALID_SHIFTS) then invalid
      else if mem s_lower seen_shifts then invalid
      else
        let seen_shifts := set_add s_lower seen_shifts in
        let pref_count := S pref_count in
        if (2 <? pref_count)%nat then invalid
        else
          match as_int p with
          | Some z => if (z <? 1)%Z then invalid
                      else Ok (dict_set priorities s_lower z, pref_count, seen_shifts)
          | None => invalid
          end
  | _ => invalid
  end.

(** Lines 88-90: the shifts not named get the default priority. *)
Definition with_defaults (shifts : list string) (pr : dict Z) (default_p : Z)
  : dict Z :=
  fold_left (fun pr s => if negb (mem s (dict_keys pr))
                         then dict_set pr s default_p else pr)
            shifts pr.

(** Line 87: [max(priorities.values(), default=0) + 10 if priorities else 1]. *)
Definition default_priority (priorities : dict Z) : Z :=
  match priorities with
  | [] => 1%Z
  | _ => (fold_right Z.max 0 (map snd priorities) + 10)%Z
  end.

(** The dictionary case (lines 69-92), for a non-empty [pri_map]. *)
Definition normalize_dict (pri_map : list (pyval * pyval)) : result (list string) :=
  '(priorities, _, _) <- for_each priority_entry pri_map ([], O, []) ;;
  let default_p := default_priority priorities in
  let priorities := with_defaults VALID_SHIFTS priorities default_p in
  Ok (ranked priorities).

(** The body of [for day, pri_map in day_map.items()] after the day name
    has been checked (lines 47-92): the normalised preference of one day. *)
Definition normalize_day (pri_map : pyval) : result (list string) :=
  match pri_map with
  | PyNone | PyDict [] => Ok (sorted String.leb VALID_SHIFTS)
  | PyStr s => normalize_str s
  | PyList l =>
      if (length l =? length VALID_SHIFTS)%nat
         && forallb (fun s => val_in s VALID_SHIFTS) l
      then Ok (strings_of l)
      else invalid
  | PyDict items => normalize_dict items
  | _ => invalid
  end.

(** One iteration of [for day, pri_map in day_map.items()]; the state is
    the dictionary object [normalized[emp_name]]. *)
Definition day_entry (entry : dict (list string)) (item : pyval * pyval)
  : result (dict (list string)) :=
  let '(day, pri_map) := item in
  match day with
  | PyStr day =>
      if negb (mem day DAYS_OF_WEEK) then invalid
      else v <- normalize_day pri_map ;; Ok (dict_set entry day v)
  | _ => invalid
  end.

(** One iteration of [for emp_name, day_map in raw_preferences.items()]
    (lines 35-96).  [normalized[emp_name]] is bound to a fresh dictionary,
    which the day loop fills in place; [entry] is that object. *)
Definition employee_entry (normalized : dict (dict (list string)))
           (item : pyval * pyval) : result (dict (dict (list string))) :=
  let '(emp_name, day_map) := item in
  match emp_name with
  | PyStr emp_name =>
      if String.eqb (strip emp_name) "" then invalid
      else
        match day_map with
        | PyDict day_map =>
            if negb (forallb (fun required_day => has_key required_day day_map)
                             DAYS_OF_WEEK)
            then invalid
            else
              let normalized := dict_set normalized emp_name [] in
              entry <- for_each day_entry day_map [] ;;
              let normalized := dict_set normalized emp_name entry in
              if forallb (fun day => match dict_get entry day with
                                     | Some v => (length v =? 3)%nat
                                     | None => false
                                     end) DAYS_OF_WEEK
              then Ok normalized
              else invalid
        | _ => invalid
        end
  | _ => invalid
  end.

(** [[n.strip().lower() for n in raw_preferences.keys()]]: a key without
    the method [strip] raises [AttributeError]. *)
Fixpoint emp_names (items : list (pyval * pyval)) : result (list string) :=
  match items with
  | [] => Ok []
  | (PyStr n, _) :: items' =>
      names <- emp_names items' ;; Ok (lower (strip n) :: names)
  | _ :: _ => Raise AttributeError
  end.

Definition collect_employee_preferences (raw_preferences : pyval)
  : result (dict (dict (list string))) :=
  match raw_preferences with
  | PyDict items =>
      match items with
      | [] => invalid
      | _ =>
          names <- emp_names items ;;
          if has_dup names then invalid
          else for_each employee_entry items []
      end
  | _ => invalid
  end.

(* ================================================================== *)
(** * The assignment engine *)

(** [assigned_count[emp]].  The dictionary is created with a key for every
    employee and is subscripted by employees only, so the subscript cannot
    raise; a missing key reads as 0. *)
Definition count_of (assigned_count : dict nat) (emp : string) : nat :=
  match dict_get assigned_count emp with
  | Some n => n
  | None => O
  end.

(** [pref_list.index(shift)], with the [except ValueError] branch giving
    [len(VALID_SHIFTS)]. *)
Fixpoint index_from (shift : string) (pref_list : list string) (i : nat) : option nat :=
  match pref_list with
  | [] => None
  | s :: rest => if String.eqb s shift then Some i else index_from shift rest (S i)
  end.

Definition rank_of (pref_list : list string) (shift : string) : nat :=
  match index_from shift pref_list 0 with
  | Some i => i
  | None => length VALID_SHIFTS
  end.

(** [rank_map]: a [defaultdict(list)] keyed by rank, in insertion order. *)
Definition rank_map := list (nat * list string).

(** [rank_map[r]]; a missing key reads as the empty list. *)
Fixpoint rank_map_get (rm : rank_map) (r : nat) : list string :=
  match rm with
  | [] => []
  | (r', group) :: rm' => if (r =? r')%nat then group else rank_map_get rm' r
  end.

(** [rank_map[r].append(emp)] *)
Fixpoint rank_map_append (rm : rank_map) (r : nat) (emp : string) : rank_map :=
  match rm with
  | [] => [(r, [emp])]
  | (r', group) :: rm' =>
      if (r =? r')%nat then (r', group ++ [emp]) :: rm'
      else (r', group) :: rank_map_append rm' r emp
  end.

(** The per-run counters: [assigned_count] lives for the whole week,
    [assigned_today] for one day. *)
Record counters := {
  assigned_count : dict nat;
  assigned_today : list string
}.

(** The guard of lines 114 and 130:
    [assigned_count[emp] >= 5 or emp in assigned_today]. *)
Definition unavailable (c : counters) (emp : string) : bool :=
  (5 <=? count_of (assigned_count c) emp)%nat || mem emp (assigned_today c).

Section Cell.
Variable preferences : dict (dict (list string)).
Variable employees : list string.
Variable day shift : string.

(** [first_scan] is [true] in the program; [false] leaves out the first
    fallback scan (lines 139-147), for comparison with it. *)
Variable first_scan : bool.

(** One iteration of [for emp in employees] at lines 113-121. *)
Definition rank_entry (c : counters) (rm : rank_map) (emp : string)
  : result rank_map :=
  if unavailable c emp then Ok rm
  else
    day_map <- subscript preferences emp ;;
    pref_list <- subscript day_map day ;;
    Ok (rank_map_append rm (rank_of pref_list shift) emp).

(** Lines 123-126: the groups in ascending rank, each one shuffled. *)
Definition flatten (rm : rank_map) : result (list string) :=
  for_each (fun ordered r =>
              group <- deterministic_shuffle (rank_map_get rm r) 1 ;;
              Ok (ordered ++ group))
           (sorted Nat.leb (map fst rm)) [].

(** The state of the three assignment loops of one cell:
    [schedule[day][shift]], the counters and [placed]. *)
Record cell := {
  slot : list string;
  ctr : counters;
  placed : nat
}.

(** Lines 132-135 (and 144-147): append, count, mark as placed today. *)
Definition assign (st : cell) (emp : string) : cell :=
  {| slot := slot st ++ [emp];
     ctr := {| assigned_count :=
                 dict_set (assigned_count (ctr st)) emp
                          (S (count_of (assigned_count (ctr st)) emp));
               assigned_today := set_add emp (assigned_today (ctr st)) |};
     placed := S (placed st) |}.

(** Lines 154-156: append and count, without marking. *)
Definition assign_again (st : cell) (emp : string) : cell :=
  {| slot := slot st ++ [emp];
     ctr := {| assigned_count :=
                 dict_set (assigned_count (ctr st)) emp
                          (S (count_of (assigned_count (ctr st)) emp));
               assigned_today := assigned_today (ctr st) |};
     placed := S (placed st) |}.

(** Lines 129-137: the walk over [ordered], leaving at the second
    placement. *)
Fixpoint walk (ordered : list string) (st : cell) : cell :=
  match ordered with
  | [] => st
  | emp :: rest =>
      if unavailable (ctr st) emp then walk rest st
      else
        let st' := assign st emp in
        if (2 <=? placed st')%nat then st' else walk rest st'
  end.

(** Lines 140-147: the first fallback scan. *)
Fixpoint first_fallback (emps : list string) (st : cell) : cell :=
  match emps with
  | [] => st
  | emp :: rest =>
      if (2 <=? placed st)%nat then st
      else if negb (unavailable (ctr st) emp)
           then first_fallback rest (assign st emp)
           else first_fallback rest st
  end.

(** Lines 150-156: the last-resort scan, which ignores [assigned_today]. *)
Fixpoint last_resort (emps : list string) (st : cell) : cell :=
  match emps with
  | [] => st
  | emp :: rest =>
      if (2 <=? placed st)%nat then st
      else if (count_of (assigned_count (ctr st)) emp <? 5)%nat
           then last_resort rest (assign_again st emp)
           else last_resort rest st
  end.

(** The body of [for shift in VALID_SHIFTS] (lines 111-156).  Returns the
    list built in [schedule[day][shift]], the counters, and whether the
    last-resort scan was entered (the test of line 149 succeeded). *)
Definition run_cell (c : counters) : result (list string * counters * bool) :=
  rm <- for_each (rank_entry c) employees [] ;;
  ordered <- flatten rm ;;
  let st := walk ordered {| slot := []; ctr := c; placed := 0 |} in
  let st := if first_scan && (placed st <? 2)%nat
            then first_fallback employees st else st in
  let entered := (placed st <? 2)%nat in
  let st := if entered then last_resort employees st else st in
  Ok (slot st, ctr st, entered).
End Cell.

(** A weekly schedule: day, then shift, then the employees assigned. *)
Definition schedule := dict (dict (list string)).

Section Week.
Variable preferences : dict (dict (list string)).
Variable employees : list string.
Variable first_scan : bool.

(** The body of [for day in DAYS_OF_WEEK]: [assigned_today] starts empty
    and the shifts are filled in the order of [VALID_SHIFTS].  The state
    is the lists built so far, the counters, and whether some cell has
    entered the last-resort scan. *)
Definition run_day (day : string) (counts : dict nat)
  : result (list (list string) * dict nat * bool) :=
  '(slots, c, entered) <-
    for_each (fun '(slots, c, entered) shift =>
                '(s, c', e) <- run_cell preferences employees day shift first_scan c ;;
                Ok (slots ++ [s], c', entered || e))
             VALID_SHIFTS
             ([], {| assigned_count := counts; assigned_today := [] |}, false) ;;
  Ok (slots, assigned_count c, entered).

(** [for day in DAYS_OF_WEEK], from [assigned_count = {emp: 0 ...}]. *)
Definition run_week : result (list (list (list string)) * dict nat * bool) :=
  for_each (fun '(days, counts, entered) day =>
              '(slots, counts', e) <- run_day day counts ;;
              Ok (days ++ [slots], counts', entered || e))
           DAYS_OF_WEEK
           ([], fold_left (fun d emp => dict_set d emp O) employees [], false).
End Week.

(** [schedule[day][shift]] is appended to only while the cell [(day, shift)]
    is processed; the dictionary returned holds, under each day and shift in
    the order of the constants, the list built there. *)
Definition schedule_of (cells : list (list (list string))) : schedule :=
  combine DAYS_OF_WEEK (map (combine VALID_SHIFTS) cells).

(** [generate_schedule] with the ghost flag of the last-resort scan; the
    parameter [first_scan] is [true] in the program. *)
Definition generate_schedule_with (first_scan : bool) (raw_preferences : pyval)
  : result (schedule * bool) :=
  match raw_preferences with
  | PyDict _ =>
      preferences <- collect_employee_preferences raw_preferences ;;
      let employees := dict_keys preferences in
      if (length employees <? 6)%nat then Raise (ValueError InsufficientStaff)
      else
        '(cells, _, entered) <- run_week preferences employees first_scan ;;
        Ok (schedule_of cells, entered)
  | _ => invalid
  end.

Definition generate_schedule (raw_preferences : pyval) : result schedule :=
  '(sched, _) <- generate_schedule_with true raw_preferences ;; Ok sched.

(** The variant compared with the program: no first fallback scan. *)
Definition generate_schedule_without_first_fallback (raw_preferences : pyval)
  : result schedule :=
  '(sched, _) <- generate_schedule_with false raw_preferences ;; Ok sched.

(* ================================================================== *)
(** * Definitions used by the statements and the proofs *)

(** The result of a computation, mapped when it returned. *)
Definition fmap {A B} (f : A -> B) (r : result A) : result B :=
  match r with
  | Ok a => Ok (f a)
  | Raise e => Raise e
  end.

(** [[xs[i] for i in idx]], for indices inside [xs]. *)
Definition pick {A} (xs : list A) (idx : list nat) : list A :=
  flat_map (fun i => match nth_error xs i with
                     | Some x => [x]
                     | None => []
                     end) idx.

(** The floats that [pseudo_random] can return: zero, or a normal number
    between [0.001] and [1023/1024]. *)
Definition good_fraction (x : spec_float) : bool :=
  match x with
  | S754_zero false => true
  | S754_finite false mx ex =>
      ((2 ^ 52 <=? Zpos mx) && (Zpos mx <? 2 ^ 53)
       && (-63 <=? ex) && (ex <=? -53)
       && (Zpos mx * 1024 <=? 1023 * 2 ^ (- ex)))%Z
  | _ => false
  end.

(** [assigned_count[emp]] in a cell state. *)
Definition cnt (st : cell) (e : string) : nat :=
  count_of (assigned_count (ctr st)) e.

(** The strings among the keys of a dictionary, in order. *)
Definition key_strings (items : list (pyval * pyval)) : list string :=
  strings_of (map fst items).

(** All the keys of a dictionary are strings. *)
Definition string_keyed (items : list (pyval * pyval)) : bool :=
  forallb (fun kv => match fst kv with PyStr _ => true | _ => false end) items.

(** The post-check of the normaliser (lines 94-96): every day is there,
    with a list of three. *)
Definition complete (entry : dict (list string)) : bool :=
  forallb (fun day => match dict_get entry day with
                      | Some v => (length v =? 3)%nat
                      | None => false
                      end) DAYS_OF_WEEK.

(** The size of a rank map: the number of employees in its groups. *)
Definition rank_map_size (rm : rank_map) : nat :=
  list_sum (map (fun g => length (snd g)) rm).

(** All the entries of a schedule, day after day. *)
Definition entries (s : schedule) : list string :=
  concat (map (fun d => concat (map snd (snd d))) s).

(** One employee's week, from the preference of each day. *)
Definition week_of (f : string -> pyval) : pyval :=
  PyDict (map (fun d => (PyStr d, f d)) DAYS_OF_WEEK).

(** A staff, from the preference of each employee on each day. *)
Definition staff (names : list string) (f : string -> string -> pyval) : pyval :=
  PyDict (map (fun n => (PyStr n, week_of (f n))) names).

(** Twelve employees without any preference. *)
Definition twelve_indifferent : pyval :=
  staff ["a"; "b"; "c"; "d"; "e"; "f"; "g"; "h"; "i"; "j"; "k"; "l"]
        (fun _ _ => PyNone).

(** Seven employees who all ask for the morning, every day. *)
Definition seven_mornings : pyval :=
  staff ["a"; "b"; "c"; "d"; "e"; "f"; "g"] (fun _ _ => PyStr "morning").

(** [schedule[day][shift]], and likewise [preferences[emp][day]]. *)
Definition at2 {V} (d : dict (dict (list V))) (k1 k2 : string) : list V :=
  match dict_get d k1 with
  | Some d1 => match dict_get d1 k2 with
               | Some l => l
               | None => []
               end
  | None => []
  end.

(** The other shifts in the order of [VALID_SHIFTS]. *)
Definition others (s : string) : list string :=
  filter (fun other => negb (String.eqb other s)) VALID_SHIFTS.

(** The other shifts in alphabetical order. *)
Definition others_alphabetical (s : string) : list string :=
  sorted String.leb (others s).

(** The input of the repository's test [test_conflict_carries_to_wednesday]:
    six employees who ask for the morning on Monday and Tuesday and state
    no preference afterwards. *)
Definition two_crowded_mornings : pyval :=
  staff ["A"; "B"; "C"; "D"; "E"; "F"]
        (fun _ d => if mem d ["Monday"; "Tuesday"] then PyStr "morning" else PyNone).

(** An ASCII string that is not one of the three shift names, once
    lower-cased and trimmed. *)
Definition unknown_shift (t : string) : Prop :=
  is_ascii t = true /\ mem (strip (lower t)) VALID_SHIFTS = false.

(** A raw preference of one day that the normaliser refuses: an unknown
    shift name (as the single choice, in a list, or as a key of a priority
    map), more than two explicit priorities, or a priority that is not a
    positive integer. *)
Inductive bad_preference : pyval -> Prop :=
| unknown_shift_string t :
    unknown_shift t -> bad_preference (PyStr t)
| unknown_shift_in_list l v :
    In v l -> val_in v VALID_SHIFTS = false -> bad_preference (PyList l)
| unknown_shift_key pri_map t p :
    In (PyStr t, p) pri_map -> unknown_shift t -> bad_preference (PyDict pri_map)
| too_many_priorities pri_map :
    (2 < length pri_map)%nat -> bad_preference (PyDict pri_map)
| non_positive_priority pri_map k p z :
    In (k, p) pri_map -> as_int p = Some z -> (z < 1)%Z ->
    bad_preference (PyDict pri_map)
| non_integer_priority pri_map k p :
    In (k, p) pri_map -> as_int p = None -> bad_preference (PyDict pri_map).

(** An employee entry that the normaliser refuses: a day missing, a key
    that is not a day, or a bad preference under some day. *)
Inductive bad_employee : pyval * pyval -> Prop :=
| missing_day n day_map d :
    In d DAYS_OF_WEEK -> has_key d day_map = false ->
    bad_employee (PyStr n, PyDict day_map)
| unknown_day n day_map k v :
    In (k, v) day_map -> val_in k DAYS_OF_WEEK = false ->
    bad_employee (PyStr n, PyDict day_map)
| bad_day n day_map k v :
    In (k, v) day_map -> bad_preference v ->
    bad_employee (PyStr n, PyDict day_map).

(** The inputs of the validation rules: not a mapping, an empty mapping,
    two names equal up to case, or some refused employee entry. *)
Inductive rejected : pyval -> Prop :=
| not_a_mapping raw :
    (forall items, raw <> PyDict items) -> rejected raw
| no_employee :
    rejected (PyDict [])
| duplicate_names items i j n1 n2 v1 v2 :
    i <> j ->
    nth_error items i = Some (PyStr n1, v1) ->
    nth_error items j = Some (PyStr n2, v2) ->
    lower n1 = lower n2 ->
    rejected (PyDict items)
| refused_employee items x :
    In x items -> bad_employee x -> rejected (PyDict items).

(** [string_keyed] for any value: every top-level key is a string. *)
Definition names_are_strings (raw : pyval) : bool :=
  match raw with
  | PyDict items => string_keyed items
  | _ => true
  end.

(** The number of assignments made so far, over the employees. *)
Definition total (emps : list string) (counts : dict nat) : nat :=
  list_sum (map (count_of counts) emps).

(** What the assignment loops keep true in a cell that started from the
    counters [c]. *)
Definition steady (employees : list string) (c : counters) (st : cell) : Prop :=
  length (slot st) = placed st
  /\ total employees (assigned_count (ctr st))
     = (total employees (assigned_count c) + placed st)%nat
  /\ (forall e, cnt st e <= 5)%nat
  /\ (forall e, In e (assigned_today (ctr st)) -> 1 <= cnt st e)%nat
  /\ (placed st <= 2)%nat.

(** Six employees, two asking for each shift every day: preferences spread
    over the three shifts. *)
Definition six_spread : pyval :=
  staff ["a"; "b"; "c"; "d"; "e"; "f"]
        (fun n _ => if mem n ["a"; "b"] then PyStr "morning"
                    else if mem n ["c"; "d"] then PyStr "afternoon"
                    else PyStr "evening").

(** Nine employees, three asking for each shift every day. *)
Definition nine_spread : pyval :=
  staff ["a"; "b"; "c"; "d"; "e"; "f"; "g"; "h"; "i"]
        (fun n _ => if mem n ["a"; "b"; "c"] then PyStr "morning"
                    else if mem n ["d"; "e"; "f"] then PyStr "afternoon"
                    else PyStr "evening").

(* ================================================================== *)
(** * Course scheduling *)

(** What [schedule_courses] can raise: its own [ValueError] ("Circular
    dependency detected in course prerequisites") and the [IndexError] of
    [deque.popleft] on an empty queue. *)
Inductive course_exn := CircularDependency | EmptyQueue.

(** The outcome of [schedule_courses]: a value, an exception, or the
    [while] loop still running after as many rounds as there are courses. *)
Inductive outcome (A : Type) :=
| Returns (a : A)
| Raises (e : course_exn)
| Running.

Arguments Returns {A} a.
Arguments Raises {A} e.
Arguments Running {A}.

(** [graph[course]] for the [defaultdict(list)]: a missing key reads as the
    empty list.  ([graph] and [in_degree] are subscripted only, never
    iterated, so the keys that a read inserts are not observable.) *)
Definition adjacent (graph : dict (list string)) (course : string) : list string :=
  match dict_get graph course with
  | Some l => l
  | None => []
  end.

(** [in_degree[course]] for the [defaultdict(int)]. *)
Definition degree (in_degree : dict Z) (course : string) : Z :=
  match dict_get in_degree course with
  | Some n => n
  | None => 0%Z
  end.

(** One iteration of [for prereq in prereqs] (lines 185-188); the state is
    [(graph, in_degree, all_courses)]. *)
Definition add_prereq (course : string)
           (st : dict (list string) * dict Z * list string) (prereq : string)
  : dict (list string) * dict Z * list string :=
  let '(graph, in_degree, all_courses) := st in
  (dict_set graph prereq (adjacent graph prereq ++ [course]),
   dict_set in_degree course (degree in_degree course + 1)%Z,
   set_add prereq all_courses).

(** One iteration of [for course, prereqs in courses.items()]
    (lines 183-188). *)
Definition add_course (st : dict (list string) * dict Z * list string)
           (item : string * list string)
  : dict (list string) * dict Z * list string :=
  let '(graph, in_degree, all_courses) := st in
  fold_left (add_prereq (fst item)) (snd item)
            (graph, in_degree, set_add (fst item) all_courses).

(** One iteration of [for dependent in graph[course]] (lines 206-209);
    the state is [(queue, in_degree)]. *)
Definition release (st : list string * dict Z) (dependent : string)
  : list string * dict Z :=
  let in_degree :=
    dict_set (snd st) dependent (degree (snd st) dependent - 1)%Z in
  if (degree in_degree dependent =? 0)%Z
  then (fst st ++ [dependent], in_degree)
  else (fst st, in_degree).

(** [for _ in range(len(queue))] (lines 201-209), with [n] iterations left:
    the course at the left of the queue is popped, appended to
    [current_semester], and its dependents are released. *)
Fixpoint semester (graph : dict (list string)) (n : nat) (queue : list string)
         (in_degree : dict Z) (current_semester : list string)
  : outcome (list string * list string * dict Z) :=
  match n with
  | O => Returns (current_semester, queue, in_degree)
  | S n' =>
      match queue with
      | [] => Raises EmptyQueue
      | course :: queue =>
          let st := fold_left release (adjacent graph course) (queue, in_degree) in
          semester graph n' (fst st) (snd st) (current_semester ++ [course])
      end
  end.

(** [while queue:] (lines 196-211), for at most [rounds] rounds. *)
Fixpoint semesters (rounds : nat) (graph : dict (list string))
         (queue : list string) (in_degree : dict Z)
         (schedule : list (list string)) : outcome (list (list string)) :=
  match queue with
  | [] => Returns schedule
  | _ :: _ =>
      match rounds with
      | O => Running
      | S rounds' =>
          match semester graph (length queue) queue in_degree [] with
          | Returns (current_semester, queue', in_degree') =>
              semesters rounds' graph queue' in_degree'
                        (schedule ++ [sorted String.leb current_semester])
          | Raises e => Raises e
          | Running => Running
          end
      end
  end.

(** [schedule_courses].  [all_courses] is a [set] of strings, whose
    iteration order Python does not fix (it changes with the hash seed of
    the process): [iteration] is that order, any arrangement of the
    elements.  The [while] loop is run for at most [len(all_courses)]
    rounds, which is shown to be enough. *)
Definition schedule_courses (iteration : list string -> list string)
           (courses : dict (list string)) : outcome (list (list string)) :=
  match courses with
  | [] => Returns []
  | _ :: _ =>
      let '(graph, in_degree, all_courses) :=
        fold_left add_course courses ([], [], []) in
      let queue := filter (fun course => (degree in_degree course =? 0)%Z)
                          (iteration all_courses) in
      match queue with
      | [] => Raises CircularDependency
      | _ :: _ =>
          match semesters (length all_courses) graph queue in_degree [] with
          | Returns schedule =>
              if negb (list_sum (map (@length string) schedule)
                       =? length all_courses)%nat
              then Raises CircularDependency
              else Returns schedule
          | r => r
          end
      end
  end.

(** [prereq] is listed among the prerequisites of [course]. *)
Definition prerequisite (courses : dict (list string)) (prereq course : string)
  : Prop :=
  exists prereqs, In (course, prereqs) courses /\ In prereq prereqs.

(** A course of the input: a key, or a prerequisite of some key. *)
Definition known (courses : dict (list string)) (course : string) : Prop :=
  In course (dict_keys courses) \/ exists c, prerequisite courses course c.

(** A circular dependency: a course that is, through a chain of
    prerequisites, required for itself. *)
Definition circular (courses : dict (list string)) : Prop :=
  exists course, clos_trans string (prerequisite courses) course course.

(** The prerequisite entries, as pairs [(prereq, course)] in input order. *)
Definition edges (courses : dict (list string)) : list (string * string) :=
  flat_map (fun item => map (fun prereq => (prereq, fst item)) (snd item))
           courses.

(** The number of prerequisite entries of [course] whose prerequisite is
    not in [done]. *)
Definition remaining (E : list (string * string)) (done : list string)
           (course : string) : nat :=
  length (filter (fun e => String.eqb (snd e) course && negb (mem (fst e) done)) E).

(** Alphabetical order, as a relation. *)
Definition alphabetical (s1 s2 : string) : Prop := String.leb s1 s2 = true.

(** What the first loop builds, in terms of the prerequisite entries read so
    far. *)
Definition built (E : list (string * string)) (keys : list string)
           (st : dict (list string) * dict Z * list string) : Prop :=
  (forall p, adjacent (fst (fst st)) p
             = map snd (filter (fun e => String.eqb (fst e) p) E))
  /\ (forall c, degree (snd (fst st)) c
                = Z.of_nat (length (filter (fun e => String.eqb (snd e) c) E)))
  /\ NoDup (snd st)
  /\ (forall x, In x (snd st) <-> In x keys \/ In x (map fst E)).

(** What holds of the queue and of [in_degree] while the courses of [done]
    have been popped and the dependents [rest] of the last of them are
    still to be released. *)
Definition ready (E : list (string * string)) (all_courses : list string)
           (rest done queue : list string) (in_degree : dict Z) : Prop :=
  NoDup (done ++ queue)
  /\ (forall c, In c (done ++ queue) -> In c all_courses)
  /\ (forall c, degree in_degree c
                = Z.of_nat (remaining E done c + count_occ string_dec rest c))
  /\ (forall c, In c (done ++ queue) -> degree in_degree c = 0%Z)
  /\ (forall c, In c all_courses -> degree in_degree c = 0%Z ->
                In c (done ++ queue)).

(** What holds of the semesters built so far: none is empty, each is in
    alphabetical order, every prerequisite entry of a course leads to an
    earlier semester, and a course after the first semester has a
    prerequisite in the semester just before. *)
Definition layered (E : list (string * string)) (schedule : list (list string))
  : Prop :=
  Forall (fun s => s <> [] /\ StronglySorted alphabetical s) schedule
  /\ (forall j c p, In c (nth j schedule []) -> In (p, c) E ->
                    exists i, (i < j)%nat /\ In p (nth i schedule []))
  /\ (forall j c, In c (nth (S j) schedule []) ->
                  exists p, In (p, c) E /\ In p (nth j schedule [])).

(** A list in which each element stands in [R] to the next one. *)
Inductive chain (R : string -> string -> Prop) : list string -> Prop :=
| chain_one x : chain R [x]
| chain_cons x y l : R x y -> chain R (y :: l) -> chain R (x :: y :: l).

(** What a returned schedule is: the semesters are layered along the
    prerequisites and hold every known course once. *)
Definition course_plan (courses : dict (list string))
           (schedule : list (list string)) : Prop :=
  layered (edges courses) schedule
  /\ NoDup (concat schedule)
  /\ (forall c, In c (concat schedule) <-> known courses c).

(** The courses of the docstring's example. *)
Definition example_courses : dict (list string) :=
  [("Algorithms", ["DataStructures"]); ("DataStructures", ["Programming"])].

(** Two courses that require each other. *)
Definition mutual_courses : dict (list string) :=
  [("Compilers", ["Languages"]); ("Languages", ["Compilers"])].


(* ================================================================== *)
(** * Definitions used by the further statements *)

(** Normalised preferences written back as a raw input: every day as the
    list of its three shifts. *)
Definition as_raw (preferences : dict (dict (list string))) : pyval :=
  PyDict (map (fun emp =>
                 (PyStr (fst emp),
                  PyDict (map (fun day => (PyStr (fst day),
                                           PyList (map PyStr (snd day))))
                              (snd emp))))
              preferences).

(** What the normaliser stores for one employee: a name that is not blank,
    the seven days and no other key, and three valid shift names under
    each day. *)
Definition normal_entry (emp_name : string) (entry : dict (list string)) : Prop :=
  strip emp_name <> ""
  /\ NoDup (dict_keys entry)
  /\ (forall day, In day (dict_keys entry) <-> In day DAYS_OF_WEEK)
  /\ (forall day l, In (day, l) entry ->
                    length l = 3%nat /\ Forall (fun s => In s VALID_SHIFTS) l).

(** The shifts that a priority map does not name, in alphabetical order. *)
Definition unnamed (named : list string) : list string :=
  sorted String.leb (filter (fun s => negb (mem s named)) VALID_SHIFTS).

(** A raw preference of one day that the normaliser refuses for its form: a
    number or a truth value, a list that has not three elements, or a
    priority map that names a shift twice (up to case and blanks). *)
Inductive malformed_preference : pyval -> Prop :=
| preference_is_bool b : malformed_preference (PyBool b)
| preference_is_int z : malformed_preference (PyInt z)
| preference_is_float f : malformed_preference (PyFloat f)
| list_of_wrong_length l :
    length l <> 3%nat -> malformed_preference (PyList l)
| shift_named_twice l1 t1 p1 l2 t2 p2 l3 :
    strip (lower t1) = strip (lower t2) ->
    malformed_preference
      (PyDict (l1 ++ (PyStr t1, p1) :: l2 ++ (PyStr t2, p2) :: l3)).

(** Inputs with string keys that the normaliser refuses besides: two names
    equal once trimmed and lower-cased, a blank name, a week that is not a
    mapping, a malformed preference. *)
Inductive malformed : list (pyval * pyval) -> Prop :=
| names_equal_once_trimmed items i j n1 n2 v1 v2 :
    i <> j ->
    nth_error items i = Some (PyStr n1, v1) ->
    nth_error items j = Some (PyStr n2, v2) ->
    lower (strip n1) = lower (strip n2) ->
    malformed items
| blank_name items n v :
    In (PyStr n, v) items -> strip n = "" -> malformed items
| week_not_a_mapping items n v :
    In (PyStr n, v) items -> (forall day_map, v <> PyDict day_map) ->
    malformed items
| malformed_day items n day_map day v :
    In (PyStr n, PyDict day_map) items -> In (day, v) day_map ->
    malformed_preference v -> malformed items.

(** A day on which every list holds two employees and nobody works twice. *)
Definition fully_staffed (slots : list (list string)) : Prop :=
  NoDup (concat slots) /\ Forall (fun s => length s = 2%nat) slots.

(** The rank that [emp] gives to [shift] on [day]: the position of the
    shift in the employee's normalised preference. *)
Definition rank_in_cell (preferences : dict (dict (list string)))
           (day shift emp : string) : nat :=
  rank_of (at2 preferences emp day) shift.


(* ================================================================== *)
(** * The request handler of [python_app.py] *)

(** What the body of [create_schedule] can raise: an exception of the
    scheduler or of a method call, or the [TypeError] of a value that
    cannot be iterated over or hashed. *)
Inductive raised := Exn (e : exn) | TypeError.

Inductive attempt (A : Type) :=
| Fine (a : A)
| Failed (e : raised).

Arguments Fine {A} a.
Arguments Failed {A} e.

(** A [for] loop whose body may raise, over a state. *)
Fixpoint attempt_each {A S} (body : S -> A -> attempt S) (xs : list A) (s : S)
  : attempt S :=
  match xs with
  | [] => Fine s
  | x :: xs' =>
      match body s x with
      | Fine s' => attempt_each body xs' s'
      | Failed e => Failed e
      end
  end.

(** [d.get(k, default)] for a dictionary value and a string [k]. *)
Fixpoint py_get (items : list (pyval * pyval)) (k : string) (default : pyval)
  : pyval :=
  match items with
  | [] => default
  | (PyStr k', v) :: items' =>
      if String.eqb k' k then v else py_get items' k default
  | _ :: items' => py_get items' k default
  end.

(** [d[k] = v] for a dictionary value and a string [k]: overwrite in place,
    or append a new key. *)
Fixpoint py_set (items : list (pyval * pyval)) (k : string) (v : pyval)
  : list (pyval * pyval) :=
  match items with
  | [] => [(PyStr k, v)]
  | (PyStr k', v') :: items' =>
      if String.eqb k' k then (PyStr k', v) :: items'
      else (PyStr k', v') :: py_set items' k v
  | item :: items' => item :: py_set items' k v
  end.

(** [bool(v)]: the truth value of a JSON value. *)
Definition truthy (v : pyval) : bool :=
  match v with
  | PyNone => false
  | PyBool b => b
  | PyInt z => negb (z =? 0)%Z
  | PyFloat (S754_zero _) => false
  | PyFloat _ => true
  | PyStr s => negb (String.eqb s "")
  | PyList l => match l with [] => false | _ :: _ => true end
  | PyDict items => match items with [] => false | _ :: _ => true end
  end.

(** [iter(v)]: the elements of a list, the characters of a string, the keys
    of a dictionary; the other values are not iterable. *)
Definition iterate (v : pyval) : option (list pyval) :=
  match v with
  | PyList l => Some l
  | PyStr s => Some (map (fun c => PyStr (String c EmptyString))
                         (list_ascii_of_string s))
  | PyDict items => Some (map fst items)
  | _ => None
  end.

(** One iteration of [for s in shifts] (lines 51-55); the state is
    [(pri_map, used, rank)].  The test is [s and s != 'none' and s not in
    used and s in VALID_SHIFTS]: a list or a dictionary that is not empty
    cannot be looked up in the set [used]. *)
Definition choose (st : list (pyval * pyval) * list string * Z) (s : pyval)
  : attempt (list (pyval * pyval) * list string * Z) :=
  if negb (truthy s) then Fine st
  else
    match s with
    | PyStr t =>
        if String.eqb t "none" then Fine st
        else if mem t (snd (fst st)) then Fine st
        else if mem t VALID_SHIFTS
             then Fine (py_set (fst (fst st)) t (PyInt (snd st)),
                        set_add t (snd (fst st)), (snd st + 1)%Z)
             else Fine st
    | PyList _ | PyDict _ => Failed TypeError
    | _ => Fine st
    end.

(** Lines 47-56: the value stored under one day. *)
Definition day_choice (prefs : list (pyval * pyval)) (day : string)
  : attempt pyval :=
  match iterate (py_get prefs day (PyList [PyNone; PyNone])) with
  | None => Failed TypeError
  | Some shifts =>
      match attempt_each choose shifts ([], [], 1%Z) with
      | Fine st =>
          Fine (match fst (fst st) with
                | [] => PyNone
                | _ :: _ => PyDict (fst (fst st))
                end)
      | Failed e => Failed e
      end
  end.

(** One iteration of [for day in DAYS_OF_WEEK] (lines 46-56); the state is
    [day_map]. *)
Definition add_day (prefs day_map : list (pyval * pyval)) (day : string)
  : attempt (list (pyval * pyval)) :=
  match day_choice prefs day with
  | Fine v => Fine (py_set day_map day v)
  | Failed e => Failed e
  end.

(** One iteration of [for emp in employees] (lines 39-57); the state is
    [raw_preferences]. *)
Definition convert_employee (raw_preferences : list (pyval * pyval))
           (emp : pyval) : attempt (list (pyval * pyval)) :=
  match emp with
  | PyDict fields =>
      match py_get fields "name" (PyStr "") with
      | PyStr n =>
          let name := strip n in
          match py_get fields "preferences" (PyDict []) with
          | PyDict prefs =>
              if String.eqb name "" then Fine raw_preferences
              else
                match attempt_each (add_day prefs) DAYS_OF_WEEK [] with
                | Fine day_map =>
                    Fine (py_set raw_preferences name (PyDict day_map))
                | Failed e => Failed e
                end
          | _ => Fine raw_preferences
          end
      | _ => Failed (Exn AttributeError)
      end
  | _ => Failed (Exn AttributeError)
  end.

(** What [create_schedule] renders: the schedule (line 60), the message
    that no employee was provided (line 36), or the exception caught at
    line 61 with the employee list read again (lines 63-70). *)
Inductive page :=
| SchedulePage (schedule : schedule)
| NoEmployeesPage
| ErrorPage (e : raised) (employees : pyval).

(** [create_schedule], for a request that is not JSON ([None]) or whose
    body is the JSON value [data]. *)
Definition create_schedule (body : option pyval) : page :=
  match body with
  | None => NoEmployeesPage
  | Some (PyDict fields) =>
      let employees := py_get fields "employees" (PyList []) in
      match employees with
      | PyList (emp :: emps) =>
          match attempt_each convert_employee (emp :: emps) [] with
          | Fine raw_preferences =>
              match generate_schedule (PyDict raw_preferences) with
              | Ok schedule => SchedulePage schedule
              | Raise e => ErrorPage (Exn e) employees
              end
          | Failed e => ErrorPage e employees
          end
      | _ => NoEmployeesPage
      end
  | Some _ => ErrorPage (Exn AttributeError) (PyList [])
  end.

(** An element of the lists that the page sends: a string, or nothing. *)
Definition ui_choice (v : pyval) : Prop :=
  v = PyNone \/ exists t, v = PyStr t.

(** An employee as the page sends it, with the name [n]: a name that is not
    blank and, for every day that is stated, a list of at most two
    choices. *)
Definition ui_employee (emp : pyval) (n : string) : Prop :=
  exists fields prefs,
    emp = PyDict fields
    /\ py_get fields "name" (PyStr "") = PyStr n
    /\ strip n <> ""
    /\ py_get fields "preferences" (PyDict []) = PyDict prefs
    /\ forall day, In day DAYS_OF_WEEK ->
         exists l, py_get prefs day (PyList [PyNone; PyNone]) = PyList l
                   /\ (length l <= 2)%nat /\ Forall ui_choice l.

(** The priority maps that lines 48-55 build from at most two choices. *)
Inductive ranked_choices : list (pyval * pyval) -> Prop :=
| ranked_none : ranked_choices []
| ranked_one (s : string) :
    In s VALID_SHIFTS -> ranked_choices [(PyStr s, PyInt 1)]
| ranked_two (s1 s2 : string) :
    In s1 VALID_SHIFTS -> In s2 VALID_SHIFTS -> s1 <> s2 ->
    ranked_choices [(PyStr s1, PyInt 1); (PyStr s2, PyInt 2)].

(** The mapping passed to [generate_schedule]: under each name, the seven
    days in order with the values [vs]. *)
Definition converted (weeks : list (string * list pyval))
  : list (pyval * pyval) :=
  map (fun nw => (PyStr (fst nw),
                  PyDict (combine (map PyStr DAYS_OF_WEEK) (snd nw))))
      weeks.

(** The values of a week that the normaliser accepts. *)
Definition accepted_week (vs : list pyval) : Prop :=
  length vs = length DAYS_OF_WEEK
  /\ Forall (fun v => exists l, normalize_day v = Ok l) vs.

(** A choice that line 52 passes over: nothing, or a string that is not
    one of the three shift names as they are written in [VALID_SHIFTS]
    (among them the empty string and ["none"]). *)
Definition ignored (v : pyval) : Prop :=
  v = PyNone \/ exists t, v = PyStr t /\ ~ In t VALID_SHIFTS.

(** An employee of a request, with the choices [first] and [second] on
    every day but Sunday, which is not stated. *)
Definition ui_entry (name : string) (first second : pyval) : pyval :=
  PyDict [(PyStr "name", PyStr name);
          (PyStr "preferences",
           PyDict (map (fun day => (PyStr day, PyList [first; second]))
                       ["Monday"; "Tuesday"; "Wednesday"; "Thursday";
                        "Friday"; "Saturday"]))].

(** A request with the employees [emps]. *)
Definition ui_request (emps : list pyval) : option pyval :=
  Some (PyDict [(PyStr "employees", PyList emps)]).

(** An employee whose name, once trimmed, is empty; a missing name reads
    as the empty string. *)
Definition blank_entry (emp : pyval) : Prop :=
  exists fields n,
    emp = PyDict fields
    /\ py_get fields "name" (PyStr "") = PyStr n
    /\ strip n = "".

(* ================================================================== *)
(** * Inputs of the statements on staffing and on employee names *)

(** A week given by one letter for each day, Monday first: [m], [a] or [e]
    for the morning, the afternoon or the evening as the single choice of
    the day. *)
Definition shift_of_letter (c : ascii) : string :=
  if Ascii.eqb c "m" then "morning"
  else if Ascii.eqb c "a" then "afternoon"
       else "evening".

Definition lettered_week (letters : string) : pyval :=
  PyDict (combine (map PyStr DAYS_OF_WEEK)
                  (map (fun c => PyStr (shift_of_letter c))
                       (list_ascii_of_string letters))).

(** The employees [a], [b], ... in this order, with the weeks [weeks]. *)
Definition lettered_staff (weeks : list string) : pyval :=
  PyDict (combine (map PyStr ["a"; "b"; "c"; "d"; "e"; "f"; "g"; "h"; "i";
                              "j"; "k"; "l"; "m"])
                  (map lettered_week weeks)).

(** Nine employees; employee [i] asks on day [j] for the shift
    [(i + j) mod 3], as in the repository's tests of the schedule. *)
Definition nine_rotating : pyval :=
  lettered_staff ["maemaem"; "aemaema"; "emaemae";
                  "maemaem"; "aemaema"; "emaemae";
                  "maemaem"; "aemaema"; "emaemae"].

(** Twelve employees whose choices leave, on Sunday evening, one employee
    under the cap who has not worked that day. *)
Definition twelve_crowded : pyval :=
  lettered_staff ["eeamaaa"; "aameeam"; "meeamem"; "eaeemae";
                  "eeaaeem"; "maaaaaa"; "meeemee"; "eamemmm";
                  "emeaaaa"; "maeeamm"; "aeaaeee"; "eeaemee"].

(** Thirteen employees who all ask for the morning, every day. *)
Definition thirteen_mornings : pyval :=
  staff ["a"; "b"; "c"; "d"; "e"; "f"; "g"; "h"; "i"; "j"; "k"; "l"; "m"]
        (fun _ _ => PyStr "morning").

(** A week without Sunday. *)
Definition short_week : pyval :=
  PyDict (map (fun d => (PyStr d, PyNone))
              ["Monday"; "Tuesday"; "Wednesday"; "Thursday"; "Friday";
               "Saturday"]).

(* ================================================================== *)
(** * Basic facts: the error monad, membership, dictionaries *)

Lemma bind_ok {A B} (m : result A) (k : A -> result B) (b : B) :
  bind m k = Ok b -> exists a, m = Ok a /\ k a = Ok b.
Proof. destruct m as [a|e]; simpl; intros H; [eauto | discriminate]. Qed.

Lemma Ok_inj {A} (a b : A) : Ok a = Ok b -> a = b.
Proof. intros H. now injection H. Qed.

Lemma bind_raise {A B} (m : result A) (k : A -> result B) (e : exn) :
  bind m k = Raise e -> m = Raise e \/ exists a, m = Ok a /\ k a = Raise e.
Proof. destruct m as [a|e']; simpl; intros H; [eauto | left; congruence]. Qed.

(** Unpacks every successful bind among the hypotheses. *)
Ltac inv_ok :=
  repeat match goal with
    | H : bind _ _ = Ok _ |- _ =>
        let a := fresh "a" in
        let Ha := fresh "Ha" in
        apply bind_ok in H; destruct H as [a [Ha H]]
    | H : Ok _ = Ok _ |- _ => injection H as H; try subst
    | H : Raise _ = Ok _ |- _ => discriminate H
    | H : invalid = Ok _ |- _ => discriminate H
    end.

Lemma mem_In (x : string) (xs : list string) : mem x xs = true <-> In x xs.
Proof.
  unfold mem. rewrite existsb_exists. split.
  - intros [y [Hy He]]. apply String.eqb_eq in He. now subst.
  - intros H. exists x. split; [assumption | apply String.eqb_refl].
Qed.

Lemma mem_false (x : string) (xs : list string) : mem x xs = false <-> ~ In x xs.
Proof.
  rewrite <- mem_In. destruct (mem x xs); split; congruence.
Qed.

Lemma set_add_In (x y : string) (s : list string) :
  In y (set_add x s) <-> y = x \/ In y s.
Proof.
  unfold set_add. destruct (mem x s) eqn:E; simpl.
  - apply mem_In in E. split; [tauto | intros [-> | H]; assumption].
  - split; intros [H | H]; auto.
Qed.

Lemma has_dup_false (xs : list string) : has_dup xs = false <-> NoDup xs.
Proof.
  induction xs as [|x xs IH]; simpl.
  - split; [constructor | reflexivity].
  - rewrite orb_false_iff, mem_false, IH. split.
    + intros [H1 H2]. now constructor.
    + intros H. inversion H; subst. now split.
Qed.

Lemma dict_get_set {V} (d : dict V) (k k' : string) (v : V) :
  dict_get (dict_set d k v) k' = if String.eqb k' k then Some v else dict_get d k'.
Proof.
  induction d as [|[k0 v0] d IH]; simpl.
  - reflexivity.
  - destruct (String.eqb k k0) eqn:E; simpl.
    + apply String.eqb_eq in E. subst k0. now destruct (String.eqb k' k).
    + rewrite IH. destruct (String.eqb k' k0) eqn:E0; [|reflexivity].
      apply String.eqb_eq in E0. subst k0.
      destruct (String.eqb k' k) eqn:E1; [|reflexivity].
      apply String.eqb_eq in E1. subst. rewrite String.eqb_refl in E. discriminate.
Qed.

Lemma dict_get_In {V} (d : dict V) (k : string) (v : V) :
  dict_get d k = Some v -> In (k, v) d.
Proof.
  induction d as [|[k0 v0] d IH]; simpl; [discriminate|].
  destruct (String.eqb k k0) eqn:E.
  - apply String.eqb_eq in E. intros H. injection H as ->. subst. now left.
  - intros H. right. auto.
Qed.

Lemma dict_get_None {V} (d : dict V) (k : string) :
  dict_get d k = None <-> ~ In k (dict_keys d).
Proof.
  induction d as [|[k0 v0] d IH]; simpl.
  - tauto.
  - destruct (String.eqb k k0) eqn:E.
    + apply String.eqb_eq in E. subst. split; [discriminate | intros H; exfalso; auto].
    + apply String.eqb_neq in E. rewrite IH. split.
      * intros H [H1 | H1]; [congruence | auto].
      * intros H H1. apply H. now right.
Qed.

Lemma dict_keys_set {V} (d : dict V) (k : string) (v : V) :
  dict_keys (dict_set d k v)
  = if mem k (dict_keys d) then dict_keys d else dict_keys d ++ [k].
Proof.
  induction d as [|[k0 v0] d IH]; simpl.
  - reflexivity.
  - unfold dict_keys in *. destruct (String.eqb k k0) eqn:E; simpl.
    + reflexivity.
    + rewrite IH. now destruct (mem k (map fst d)).
Qed.

Lemma dict_keys_set_NoDup {V} (d : dict V) (k : string) (v : V) :
  NoDup (dict_keys d) -> NoDup (dict_keys (dict_set d k v)).
Proof.
  intros H. rewrite dict_keys_set. destruct (mem k (dict_keys d)) eqn:E.
  - assumption.
  - apply mem_false in E. apply NoDup_app; [assumption | repeat constructor; auto | ].
    intros x Hx [<- | []]. contradiction.
Qed.

Lemma count_of_set (d : dict nat) (k k' : string) (n : nat) :
  count_of (dict_set d k n) k' = if String.eqb k' k then n else count_of d k'.
Proof.
  unfold count_of. rewrite dict_get_set. now destruct (String.eqb k' k).
Qed.

(* ================================================================== *)
(** * The tie-breaker returns a permutation, chosen by the length alone *)

Lemma set_nth_length {A} (arr : list A) (n : nat) (x : A) :
  length (set_nth arr n x) = length arr.
Proof.
  revert n; induction arr as [|h t IH]; intros [|n]; simpl; auto.
Qed.

Lemma set_nth_map {A B} (f : A -> B) (arr : list A) (n : nat) (x : A) :
  set_nth (map f arr) n (f x) = map f (set_nth arr n x).
Proof.
  revert n; induction arr as [|h t IH]; intros [|n]; simpl; auto.
  now rewrite IH.
Qed.

Lemma set_nth_app {A} (l1 l2 : list A) (y x : A) :
  set_nth (l1 ++ y :: l2) (length l1) x = l1 ++ x :: l2.
Proof. induction l1 as [|h t IH]; simpl; [reflexivity | now rewrite IH]. Qed.

Lemma set_nth_same {A} (arr : list A) (n : nat) (x : A) :
  nth_error arr n = Some x -> set_nth arr n x = arr.
Proof.
  revert n; induction arr as [|h t IH]; intros [|n]; simpl;
    try discriminate; intros H.
  - now injection H as ->.
  - now rewrite IH.
Qed.

Lemma Permutation_ends {A} (a b : A) (l2 l3 : list A) :
  Permutation (a :: l2 ++ b :: l3) (b :: l2 ++ a :: l3).
Proof.
  eapply Permutation_trans.
  - apply perm_skip. apply Permutation_sym. apply Permutation_middle.
  - eapply Permutation_trans; [apply perm_swap|].
    apply perm_skip. apply Permutation_middle.
Qed.

(** Exchanging two positions of a list permutes it. *)
Lemma exchange_Permutation {A} (arr : list A) (p q : nat) (a b : A) :
  nth_error arr p = Some a -> nth_error arr q = Some b ->
  Permutation arr (set_nth (set_nth arr q a) p b).
Proof.
  assert (Hlt : forall (l : list A) p q a b, (p < q)%nat ->
            nth_error l p = Some a -> nth_error l q = Some b ->
            exists l1 l2 l3, l = l1 ++ a :: l2 ++ b :: l3
                             /\ length l1 = p /\ length (l1 ++ a :: l2) = q).
  { intros l p0 q0 a0 b0 Hpq Hp Hq.
    destruct (nth_error_split _ _ Hp) as [l1 [r [-> Hl1]]].
    rewrite nth_error_app2 in Hq by lia.
    rewrite Hl1 in Hq. destruct (q0 - p0)%nat as [|d] eqn:Hd; [lia|].
    simpl in Hq. destruct (nth_error_split _ _ Hq) as [l2 [l3 [-> Hl2]]].
    exists l1, l2, l3. repeat split; auto.
    rewrite length_app. simpl. lia. }
  intros Hp Hq.
  destruct (Nat.lt_trichotomy p q) as [Hpq | [Hpq | Hpq]].
  - destruct (Hlt _ _ _ _ _ Hpq Hp Hq) as [l1 [l2 [l3 [-> [H1 H2]]]]].
    replace (set_nth (l1 ++ a :: l2 ++ b :: l3) q a)
      with ((l1 ++ a :: l2) ++ a :: l3).
    2:{ rewrite <- H2.
        replace (l1 ++ a :: l2 ++ b :: l3) with ((l1 ++ a :: l2) ++ b :: l3)
          by (rewrite <- app_assoc; reflexivity).
        now rewrite set_nth_app. }
    rewrite <- app_assoc. simpl. rewrite <- H1, set_nth_app.
    apply Permutation_app_head. apply Permutation_ends.
  - subst q. assert (a = b) by congruence. subst b.
    rewrite (set_nth_same _ _ Hp).
    rewrite (set_nth_same _ _ Hp). apply Permutation_refl.
  - destruct (Hlt _ _ _ _ _ Hpq Hq Hp) as [l1 [l2 [l3 [-> [H1 H2]]]]].
    replace (set_nth (l1 ++ b :: l2 ++ a :: l3) q a)
      with ((l1 ++ a :: l2) ++ a :: l3).
    2:{ rewrite <- H1, set_nth_app. rewrite <- app_assoc. reflexivity. }
    replace p with (length (l1 ++ a :: l2)).
    2:{ rewrite <- H2. rewrite !length_app. reflexivity. }
    rewrite set_nth_app. rewrite <- app_assoc. simpl.
    apply Permutation_app_head. apply Permutation_ends.
Qed.

Arguments pseudo_random : simpl never.
Arguments float_mul_int : simpl never.
Arguments int_of_float : simpl never.

Lemma index_of_map {A B} (f : A -> B) (arr : list A) (i : Z) :
  index_of (map f arr) i = index_of arr i.
Proof. unfold index_of. now rewrite length_map. Qed.

Lemma index_of_lt {A} (arr : list A) (i : Z) (p : nat) :
  index_of arr i = Ok p -> (p < length arr)%nat.
Proof.
  unfold index_of.
  destruct (_ && _) eqn:E; [|discriminate].
  intros H. injection H as <-.
  apply andb_true_iff in E. destruct E as [E1 E2].
  apply Z.leb_le in E1. apply Z.ltb_lt in E2. lia.
Qed.

Lemma swap_map {A B} (f : A -> B) (arr : list A) (m i : Z) :
  swap (map f arr) m i = fmap (map f) (swap arr m i).
Proof.
  unfold swap. rewrite !index_of_map.
  destruct (index_of arr i) as [pi|e]; simpl; [|reflexivity].
  destruct (index_of arr m) as [pm|e]; simpl; [|reflexivity].
  rewrite !nth_error_map.
  destruct (nth_error arr pi) as [a|]; simpl; [|reflexivity].
  destruct (nth_error arr pm) as [b|]; simpl; [|reflexivity].
  now rewrite !set_nth_map.
Qed.

Lemma swap_Permutation {A} (arr arr' : list A) (m i : Z) :
  swap arr m i = Ok arr' -> Permutation arr arr'.
Proof.
  unfold swap. intros H. inv_ok.
  destruct (nth_error arr a) as [x|] eqn:Ex; [|discriminate].
  destruct (nth_error arr a0) as [y|] eqn:Ey; [|discriminate].
  injection H as <-. now apply exchange_Permutation.
Qed.

Lemma shuffle_loop_map {A B} (f : A -> B) (m : nat) (seed : Z) (arr : list A) :
  shuffle_loop m seed (map f arr) = fmap (map f) (shuffle_loop m seed arr).
Proof.
  revert seed arr. induction m as [|m IH]; intros seed arr; cbn [shuffle_loop].
  - reflexivity.
  - destruct (pseudo_random seed) as [seed' x].
    destruct (float_mul_int x (Z.of_nat (S m))) as [y|e]; simpl; [|reflexivity].
    destruct (int_of_float y) as [i|e]; simpl; [|reflexivity].
    rewrite swap_map.
    destruct (swap arr (Z.of_nat m) i) as [arr'|e]; simpl; [|reflexivity].
    apply IH.
Qed.

Lemma shuffle_loop_Permutation {A} (m : nat) (seed : Z) (arr out : list A) :
  shuffle_loop m seed arr = Ok out -> Permutation arr out.
Proof.
  revert seed arr. induction m as [|m IH]; intros seed arr; cbn [shuffle_loop].
  - intros H. injection H as <-. apply Permutation_refl.
  - destruct (pseudo_random seed) as [seed' x]. intros H. inv_ok.
    eapply Permutation_trans; [eapply swap_Permutation; eassumption|].
    eapply IH; eassumption.
Qed.

(** [deterministic_shuffle] commutes with any renaming of the elements. *)
Lemma deterministic_shuffle_map {A B} (f : A -> B) (arr : list A) (seed : Z) :
  deterministic_shuffle (map f arr) seed
  = fmap (map f) (deterministic_shuffle arr seed).
Proof.
  unfold deterministic_shuffle. rewrite length_map. apply shuffle_loop_map.
Qed.

(** A shuffle that returns, returns a permutation of its argument. *)
Lemma deterministic_shuffle_Permutation {A} (arr out : list A) (seed : Z) :
  deterministic_shuffle arr seed = Ok out -> Permutation arr out.
Proof. apply shuffle_loop_Permutation. Qed.

Lemma pick_nth {A} (xs : list A) (d : A) (idx : list nat) :
  Forall (fun i => (i < length xs)%nat) idx ->
  pick xs idx = map (fun i => nth i xs d) idx.
Proof.
  induction 1 as [|i idx Hi _ IH]; simpl.
  - reflexivity.
  - change (flat_map _ idx) with (pick xs idx). rewrite IH.
    destruct (nth_error xs i) as [x|] eqn:E.
    + simpl. f_equal. symmetry. now apply nth_error_nth.
    + apply nth_error_None in E. lia.
Qed.

Lemma map_nth_seq {A} (xs : list A) (d : A) :
  map (fun i => nth i xs d) (seq 0 (length xs)) = xs.
Proof.
  apply nth_ext with (d := d) (d' := d).
  - now rewrite length_map, length_seq.
  - intros n Hn. rewrite length_map, length_seq in Hn.
    rewrite nth_indep with (d' := nth 0 xs d)
      by (now rewrite length_map, length_seq).
    change (nth 0 xs d) with ((fun i => nth i xs d) 0%nat).
    rewrite map_nth. now rewrite seq_nth.
Qed.

(** The shuffle of any list is the shuffle of its index list [0 .. n-1],
    read back through the list: the permutation applied depends on the
    length (and the seed) only. *)
Lemma deterministic_shuffle_by_index {A} (xs : list A) (seed : Z) :
  deterministic_shuffle xs seed
  = fmap (pick xs) (deterministic_shuffle (seq 0 (length xs)) seed).
Proof.
  destruct xs as [|d xs'] eqn:Exs.
  - reflexivity.
  - rewrite <- Exs. clear Exs xs'.
    rewrite <- (map_nth_seq xs d) at 1.
    rewrite deterministic_shuffle_map.
    destruct (deterministic_shuffle (seq 0 (length xs)) seed) as [p|e] eqn:E;
      simpl; [|reflexivity].
    f_equal. symmetry. apply pick_nth.
    apply deterministic_shuffle_Permutation in E.
    rewrite Forall_forall. intros i Hi.
    apply (Permutation_in _ (Permutation_sym E)) in Hi.
    apply in_seq in Hi. lia.
Qed.

(* ================================================================== *)
(** * The tie-breaker returns: bounds on the binary64 computation

    [int(pseudo_random() * m)] is computed in binary64.  The fraction is
    one of the thousand floats [r / 1000]; the product with [m] is rounded
    to 53 bits and truncated.  Below [2^53] elements the index stays in
    [0 .. m-1], so no subscript of the shuffle leaves the list. *)

Section FloatBounds.
Local Open Scope Z_scope.
Local Unset Implicit Arguments.

Lemma shr_1_m (mrs : shr_record) :
  0 <= shr_m mrs -> shr_m (shr_1 mrs) = shr_m mrs / 2 /\ 0 <= shr_m (shr_1 mrs).
Proof.
  destruct mrs as [m r s]. simpl. intros Hm.
  destruct m as [|p|p]; [| |lia].
  - simpl. split; [reflexivity | lia].
  - destruct p as [p|p|]; simpl shr_m.
    + split; [|lia]. rewrite (Pos2Z.inj_xI p).
      apply Z.div_unique with (r := 1); lia.
    + split; [|lia]. rewrite (Pos2Z.inj_xO p).
      apply Z.div_unique with (r := 0); lia.
    + split; [reflexivity | lia].
Qed.

Lemma shr_iter_m (p : positive) (mrs : shr_record) :
  0 <= shr_m mrs ->
  shr_m (iter_pos shr_1 p mrs) = shr_m mrs / 2 ^ Zpos p
  /\ 0 <= shr_m (iter_pos shr_1 p mrs).
Proof.
  revert mrs. induction p as [p IH|p IH|]; intros mrs Hm; simpl iter_pos.
  - destruct (shr_1_m mrs Hm) as [E1 P1].
    destruct (IH _ P1) as [E2 P2]. destruct (IH _ P2) as [E3 P3].
    split; [|assumption]. rewrite E3, E2, E1.
    rewrite (Pos2Z.inj_xI p).
    replace (2 * Z.pos p + 1) with (1 + Z.pos p + Z.pos p) by lia.
    rewrite (Z.pow_add_r 2 (1 + Z.pos p) (Z.pos p)) by lia.
    rewrite (Z.pow_add_r 2 1 (Z.pos p)) by lia. rewrite Z.pow_1_r.
    assert (0 < 2 ^ Z.pos p) by (apply Z.pow_pos_nonneg; lia).
    rewrite !Z.div_div by lia. f_equal. lia.
  - destruct (IH _ Hm) as [E2 P2]. destruct (IH _ P2) as [E3 P3].
    split; [|assumption]. rewrite E3, E2.
    rewrite (Pos2Z.inj_xO p).
    replace (2 * Z.pos p) with (Z.pos p + Z.pos p) by lia.
    rewrite (Z.pow_add_r 2 (Z.pos p) (Z.pos p)) by lia.
    assert (0 < 2 ^ Z.pos p) by (apply Z.pow_pos_nonneg; lia).
    rewrite !Z.div_div by lia. reflexivity.
  - destruct (shr_1_m mrs Hm) as [E1 P1]. split; [|assumption].
    rewrite E1. reflexivity.
Qed.

Lemma digits2_pos_bounds (p : positive) :
  2 ^ (Zpos (digits2_pos p) - 1) <= Zpos p < 2 ^ Zpos (digits2_pos p).
Proof.
  induction p as [p IH|p IH|]; simpl digits2_pos.
  - rewrite Pos2Z.inj_succ, (Pos2Z.inj_xI p).
    replace (Z.succ (Z.pos (digits2_pos p)) - 1) with (1 + (Z.pos (digits2_pos p) - 1)) by lia.
    rewrite Z.pow_succ_r by lia. rewrite Z.pow_add_r by lia.
    rewrite Z.pow_1_r. lia.
  - rewrite Pos2Z.inj_succ, (Pos2Z.inj_xO p).
    replace (Z.succ (Z.pos (digits2_pos p)) - 1) with (1 + (Z.pos (digits2_pos p) - 1)) by lia.
    rewrite Z.pow_succ_r by lia. rewrite Z.pow_add_r by lia.
    rewrite Z.pow_1_r. lia.
  - simpl. lia.
Qed.

Lemma digits2_pos_unique (p : positive) (d : Z) :
  2 ^ (d - 1) <= Zpos p < 2 ^ d -> Zpos (digits2_pos p) = d.
Proof.
  intros [H1 H2]. pose proof (digits2_pos_bounds p) as [B1 B2].
  assert (0 < d).
  { destruct (Z.lt_trichotomy d 0) as [Hd | [Hd | Hd]];
      [|subst; simpl in H2; lia | assumption].
    rewrite (Z.pow_neg_r 2 d) in H2 by lia. lia. }
  assert (Z.pos (digits2_pos p) - 1 < d).
  { apply (Z.pow_lt_mono_r_iff 2); lia. }
  assert (d - 1 < Z.pos (digits2_pos p)).
  { apply (Z.pow_lt_mono_r_iff 2); lia. }
  lia.
Qed.

Lemma fexp_normal (e : Z) : -1074 <= e - 53 -> fexp prec emax e = e - 53.
Proof. unfold fexp, emin, prec, emax. lia. Qed.

Lemma round_nearest_even_bounds (m : Z) (l : location) :
  m <= round_nearest_even m l <= m + 1.
Proof.
  destruct l as [|[]]; simpl; try lia. destruct (Z.even m); lia.
Qed.

Lemma round_aux_canonical (M : positive) (e : Z) :
  Zpos (digits2_pos M) = 53 -> -1074 <= e <= 971 ->
  binary_round_aux prec emax false (Zpos M) e loc_Exact = S754_finite false M e.
Proof.
  intros Hd He. unfold binary_round_aux, shr_fexp. cbn [Zdigits2].
  rewrite Hd, fexp_normal by lia.
  replace (53 + e - 53 - e) with 0 by lia.
  cbn [shr shr_record_of_loc shr_m loc_of_shr_record round_nearest_even Zdigits2].
  rewrite Hd, fexp_normal by lia.
  replace (53 + e - 53 - e) with 0 by lia.
  cbn [shr shr_record_of_loc shr_m].
  unfold emax, prec. destruct (Z.leb_spec e (1024 - 53)); [reflexivity | lia].
Qed.

Lemma iter_xO (p k : positive) : Zpos (Pos.iter xO p k) = Zpos p * 2 ^ Zpos k.
Proof.
  induction k as [|k IH] using Pos.peano_ind.
  - simpl. lia.
  - rewrite Pos.iter_succ, (Pos2Z.inj_xO (Pos.iter xO p k)), IH, Pos2Z.inj_succ.
    rewrite Z.pow_succ_r by lia. lia.
Qed.

(** [float(m)] is exact below [2^53]. *)
Lemma float_of_int_exact (m : Z) :
  0 < m < 2 ^ 53 ->
  exists my k, float_of_int m = S754_finite false my (- k)
               /\ 0 <= k <= 52 /\ Zpos my = m * 2 ^ k
               /\ Zpos (digits2_pos my) = 53.
Proof.
  intros [H0 H1]. destruct m as [|p|p]; try lia.
  unfold float_of_int, binary_normalize, binary_round.
  pose proof (digits2_pos_bounds p) as [B1 B2].
  set (d := Zpos (digits2_pos p)) in *.
  assert (Hd : 1 <= d <= 53).
  { split; [unfold d; lia|].
    destruct (Z.leb_spec d 53); [assumption|]. exfalso.
    assert (2 ^ 53 <= 2 ^ (d - 1)) by (apply Z.pow_le_mono_r; lia). lia. }
  rewrite Z.add_0_r, fexp_normal by lia.
  unfold shl_align. rewrite Z.sub_0_r.
  destruct (d - 53) as [|q|q] eqn:Eq; try lia.
  - exists p, 0. rewrite round_aux_canonical by (fold d; lia).
    repeat split; try lia.
  - assert (Hq : Zpos q = 53 - d) by lia.
    assert (Hm : Zpos (Pos.iter xO p q) = Zpos p * 2 ^ Zpos q) by apply iter_xO.
    assert (Hdig : Zpos (digits2_pos (Pos.iter xO p q)) = 53).
    { apply digits2_pos_unique. rewrite Hm, Hq.
      assert (E1 : 2 ^ (53 - 1) = 2 ^ (d - 1) * 2 ^ (53 - d))
        by (rewrite <- Z.pow_add_r by lia; f_equal; lia).
      assert (E2 : 2 ^ 53 = 2 ^ d * 2 ^ (53 - d))
        by (rewrite <- Z.pow_add_r by lia; f_equal; lia).
      assert (0 < 2 ^ (53 - d)) by (apply Z.pow_pos_nonneg; lia).
      split.
      - rewrite E1. apply Z.mul_le_mono_nonneg_r; lia.
      - rewrite E2. apply Z.mul_lt_mono_pos_r; lia. }
    exists (Pos.iter xO p q), (Zpos q).
    rewrite round_aux_canonical by (try assumption; lia).
    repeat split; try lia; try assumption.
Qed.

Lemma int_of_float_finite (m : positive) (e : Z) :
  int_of_float (S754_finite false m e)
  = Ok (if 0 <=? e then Zpos m * 2 ^ e else Zpos m / 2 ^ (- e)).
Proof.
  unfold int_of_float, cond_Zopp. destruct e as [|p|p]; simpl Z.leb; cbv iota.
  - now rewrite Z.pow_0_r, Z.mul_1_r.
  - reflexivity.
  - reflexivity.
Qed.

(** Rounding a long product to 53 bits, then truncating: the integer is
    at most the truncated quotient plus one, scaled down. *)
Lemma round_aux_big (P : positive) (E s T : Z) :
  s = Zpos (digits2_pos P) - 53 ->
  1 <= s ->
  T = - (E + s) ->
  0 <= T <= 1000 ->
  exists M e i,
    binary_round_aux prec emax false (Zpos P) E loc_Exact = S754_finite false M e
    /\ int_of_float (S754_finite false M e) = Ok i
    /\ 0 <= i <= (Zpos P / 2 ^ s + 1) / 2 ^ T.
Proof.
  intros Hs Hs1 HT HT0.
  pose proof (digits2_pos_bounds P) as [B1 B2].
  set (d := Zpos (digits2_pos P)) in *.
  assert (Hpow : 0 < 2 ^ s) by (apply Z.pow_pos_nonneg; lia).
  assert (HpowT : 0 < 2 ^ T) by (apply Z.pow_pos_nonneg; lia).
  (* the first shift *)
  unfold binary_round_aux, shr_fexp. cbn [Zdigits2]. fold d.
  rewrite fexp_normal by lia.
  replace (d + E - 53 - E) with s by lia.
  destruct s as [|sp|sp]; try lia.
  cbn [shr shr_record_of_loc].
  destruct (shr_iter_m sp {| shr_m := Z.pos P; shr_r := false; shr_s := false |})
    as [M0eq M0pos]; [simpl; lia|].
  cbn [shr_m] in M0eq.
  set (mrs' := iter_pos shr_1 sp
                 {| shr_m := Z.pos P; shr_r := false; shr_s := false |}) in *.
  set (s := Z.pos sp) in *.
  set (M0 := shr_m mrs') in *.
  (* bounds of the shifted mantissa *)
  assert (E52 : 2 ^ (d - 1) = 2 ^ 52 * 2 ^ s)
    by (rewrite <- Z.pow_add_r by lia; f_equal; lia).
  assert (E53 : 2 ^ d = 2 ^ 53 * 2 ^ s)
    by (rewrite <- Z.pow_add_r by lia; f_equal; lia).
  assert (HM0 : 2 ^ 52 <= M0 < 2 ^ 53).
  { rewrite M0eq. split.
    - apply Z.div_le_lower_bound; [assumption|]. lia.
    - apply Z.div_lt_upper_bound; [assumption|]. lia. }
  pose proof (round_nearest_even_bounds M0 (loc_of_shr_record mrs')) as HM1.
  set (M1 := round_nearest_even M0 (loc_of_shr_record mrs')) in *.
  assert (Hi : 0 <= M1 / 2 ^ T <= (Zpos P / 2 ^ s + 1) / 2 ^ T).
  { split; [apply Z.div_pos; lia|].
    apply Z.div_le_mono; [assumption|]. rewrite <- M0eq. lia. }
  destruct M1 as [|m1|m1] eqn:EM1; try lia.
  cbn [Zdigits2].
  destruct (Z.eq_dec (Zpos m1) (2 ^ 53)) as [Htop | Hnot].
  - (* the rounding carried: one more shift *)
    assert (Hm1 : m1 = 9007199254740992%positive)
      by (change (2 ^ 53) with 9007199254740992 in Htop; lia).
    clear EM1 Htop. subst m1.
    change (Zpos (digits2_pos 9007199254740992)) with 54.
    rewrite fexp_normal by lia.
    replace (54 + (E + s) - 53 - (E + s)) with 1 by lia.
    cbn [shr iter_pos shr_record_of_loc shr_1 shr_m].
    unfold emax, prec.
    destruct (Z.leb_spec (E + s + 1) (1024 - 53)); [|lia].
    eexists _, _, _. split; [reflexivity|].
    rewrite int_of_float_finite. split; [reflexivity|].
    change (Z.pos 9007199254740992) with (2 ^ 53) in Hi.
    destruct (Z.leb_spec 0 (E + s + 1)).
    + assert (T = 0 \/ T = 1) as [HT' | HT'] by lia; rewrite HT' in Hi |- *.
      * replace (E + s + 1) with 1 by lia.
        change (2 ^ 0) with 1 in Hi |- *. rewrite !Z.div_1_r in Hi |- *.
        change (2 ^ 53) with 9007199254740992 in Hi.
        change (2 ^ 1) with 2. lia.
      * replace (E + s + 1) with 0 by lia.
        change (2 ^ 53 / 2 ^ 1) with 4503599627370496 in Hi.
        change (2 ^ 0) with 1. lia.
    + replace (- (E + s + 1)) with (T - 1) by lia.
      assert (E2 : 2 ^ 53 / 2 ^ T = 4503599627370496 / 2 ^ (T - 1)).
      { replace T with (1 + (T - 1)) at 1 by lia.
        rewrite (Z.pow_add_r 2 1 (T - 1)) by lia.
        rewrite <- Z.div_div by (try apply Z.pow_pos_nonneg; lia).
        reflexivity. }
      rewrite <- E2. exact Hi.
  - (* no carry *)
    assert (Hd1 : Zpos (digits2_pos m1) = 53)
      by (apply digits2_pos_unique; simpl; lia).
    rewrite Hd1, fexp_normal by lia.
    replace (53 + (E + s) - 53 - (E + s)) with 0 by lia.
    cbn [shr shr_record_of_loc shr_m].
    unfold emax, prec.
    destruct (Z.leb_spec (E + s) (1024 - 53)); [|lia].
    eexists _, _, _. split; [reflexivity|].
    rewrite int_of_float_finite. split; [reflexivity|].
    destruct (Z.leb_spec 0 (E + s)).
    + assert (T = 0) as -> by lia. replace (E + s) with 0 by lia.
      simpl in *. rewrite Z.div_1_r in Hi. lia.
    + replace (- (E + s)) with T by lia. exact Hi.
Qed.

Lemma fractions_good :
  forallb (fun r => good_fraction
                      (SFdiv prec emax (float_of_int (Z.of_nat r))
                             (float_of_int 1000)))
          (seq 0 1000) = true.
Proof. vm_compute. reflexivity. Qed.

Lemma pseudo_random_good (seed : Z) :
  good_fraction (snd (pseudo_random seed)) = true.
Proof.
  unfold pseudo_random. cbn [snd].
  match goal with |- context [Z.abs ?s mod 1000] => set (r := Z.abs s mod 1000) end.
  assert (Hr : 0 <= r < 1000) by (apply Z.mod_pos_bound; lia).
  rewrite <- (Z2Nat.id r) by lia.
  pose proof fractions_good as H. rewrite forallb_forall in H.
  apply (H (Z.to_nat r)). apply in_seq. lia.
Qed.

Lemma index_in_range (x : spec_float) (m : Z) :
  good_fraction x = true -> 0 < m < 2 ^ 53 ->
  exists y i, float_mul_int x m = Ok y /\ int_of_float y = Ok i /\ 0 <= i < m.
Proof.
  intros Hx Hm.
  destruct (float_of_int_exact m Hm) as (my & k & Hf & Hk & Hmy & Hdig).
  unfold float_mul_int. rewrite Hf.
  destruct x as [[]| | |[] mx ex]; try discriminate.
  - (* zero *)
    eexists _, 0. cbn [SFmul xorb int_of_float]. repeat split; lia.
  - (* a fraction *)
    unfold good_fraction in Hx. rewrite !andb_true_iff in Hx.
    destruct Hx as [[[[X1 X2] X3] X4] X5].
    apply Z.leb_le in X1, X3, X4, X5. apply Z.ltb_lt in X2.
    cbn [SFmul xorb].
    pose proof (digits2_pos_bounds my) as [Y1 Y2]. rewrite Hdig in Y1, Y2.
    change (53 - 1) with 52 in Y1.
    set (P := (mx * my)%positive).
    assert (HP : Zpos P = Zpos mx * Zpos my) by reflexivity.
    assert (HPb : 2 ^ 104 <= Zpos P < 2 ^ 106).
    { rewrite HP. change (2 ^ 104) with (2 ^ 52 * 2 ^ 52).
      change (2 ^ 106) with (2 ^ 53 * 2 ^ 53).
      change (2 ^ 52) with 4503599627370496 in *.
      change (2 ^ 53) with 9007199254740992 in *. split; nia. }
    pose proof (digits2_pos_bounds P) as [D1 D2].
    set (d := Zpos (digits2_pos P)) in *.
    assert (Hd : 105 <= d <= 106).
    { split.
      - destruct (Z.leb_spec 105 d); [assumption|]. exfalso.
        assert (2 ^ d <= 2 ^ 104) by (apply Z.pow_le_mono_r; lia). lia.
      - destruct (Z.leb_spec d 106); [assumption|]. exfalso.
        assert (2 ^ 106 <= 2 ^ (d - 1)) by (apply Z.pow_le_mono_r; lia). lia. }
    destruct (@round_aux_big P (ex + - k) (d - 53) (- (ex + - k + (d - 53))))
      as (M & e & i & R1 & R2 & R3); try (fold d; lia).
    exists (S754_finite false M e), i. split; [now rewrite R1|].
    split; [assumption|]. split; [lia|].
    eapply Z.le_lt_trans; [apply R3|].
    set (s := d - 53) in *. set (T := - (ex + - k + s)) in *.
    assert (Hs : 0 < 2 ^ s) by (apply Z.pow_pos_nonneg; lia).
    assert (HT : 0 < 2 ^ T) by (apply Z.pow_pos_nonneg; lia).
    apply Z.div_lt_upper_bound; [assumption|].
    (* it suffices to compare after scaling by [2^s] *)
    apply (Z.mul_lt_mono_pos_r (2 ^ s)); [assumption|].
    pose proof (Z.mul_div_le (Zpos P) (2 ^ s) Hs) as Hq.
    assert (Hscale : 2 ^ T * m * 2 ^ s = Zpos my * 2 ^ (- ex)).
    { rewrite Hmy.
      replace (2 ^ T * m * 2 ^ s) with (m * (2 ^ T * 2 ^ s)) by ring.
      rewrite <- Z.pow_add_r by lia.
      replace (T + s) with (k + - ex) by lia.
      rewrite Z.pow_add_r by lia. ring. }
    rewrite Hscale.
    assert (Hs53 : 2 ^ s <= 2 ^ 53) by (apply Z.pow_le_mono_r; lia).
    assert (HW : 2 ^ 53 <= 2 ^ (- ex)) by (apply Z.pow_le_mono_r; lia).
    set (W := 2 ^ (- ex)) in *. set (S := 2 ^ s) in *.
    change (2 ^ 52) with 4503599627370496 in *.
    change (2 ^ 53) with 9007199254740992 in *.
    nia.
Qed.

Lemma nth_error_lt {A} (arr : list A) (n : nat) :
  (n < length arr)%nat -> exists a, nth_error arr n = Some a.
Proof.
  intros H. destruct (nth_error arr n) eqn:E; [eauto|].
  apply nth_error_None in E. lia.
Qed.

Lemma swap_in_range {A} (arr : list A) (m i : Z) :
  0 <= m < Z.of_nat (length arr) -> 0 <= i < Z.of_nat (length arr) ->
  exists arr', swap arr m i = Ok arr' /\ length arr' = length arr.
Proof.
  intros Hm Hi. unfold swap, index_of.
  destruct (Z.ltb_spec i 0); [lia|]. destruct (Z.ltb_spec m 0); [lia|].
  destruct (Z.leb_spec 0 i); [|lia]. destruct (Z.leb_spec 0 m); [|lia].
  destruct (Z.ltb_spec i (Z.of_nat (length arr))); [|lia].
  destruct (Z.ltb_spec m (Z.of_nat (length arr))); [|lia].
  cbn [andb bind].
  destruct (@nth_error_lt _ arr (Z.to_nat i)) as [a Ha]; [lia|].
  destruct (@nth_error_lt _ arr (Z.to_nat m)) as [b Hb]; [lia|].
  rewrite Ha, Hb. eexists. split; [reflexivity|].
  now rewrite !set_nth_length.
Qed.

(** The loop never leaves the list: below [2^53] elements, the shuffle
    returns. *)
Lemma shuffle_loop_total {A} (m : nat) (seed : Z) (arr : list A) :
  (m <= length arr)%nat -> Z.of_nat (length arr) < 2 ^ 53 ->
  exists out, shuffle_loop m seed arr = Ok out.
Proof.
  revert seed arr. induction m as [|m IH]; intros seed arr Hm Hlen;
    cbn [shuffle_loop].
  - eauto.
  - pose proof (pseudo_random_good seed) as Hg.
    destruct (pseudo_random seed) as [seed' x]. cbn [snd] in Hg.
    destruct (@index_in_range x (Z.of_nat (S m)) Hg) as (y & i & Hy & Hi & Hr);
      [lia|].
    rewrite Hy. cbn [bind]. rewrite Hi. cbn [bind].
    destruct (@swap_in_range _ arr (Z.of_nat m) i) as (arr' & Hs & Hl);
      [lia | lia |].
    rewrite Hs. cbn [bind]. apply IH; rewrite Hl; lia.
Qed.

Lemma deterministic_shuffle_total {A} (arr : list A) (seed : Z) :
  Z.of_nat (length arr) < 2 ^ 53 ->
  exists out, deterministic_shuffle arr seed = Ok out.
Proof. intros H. apply shuffle_loop_total; [lia | assumption]. Qed.
End FloatBounds.

(* ================================================================== *)
(** * Loops: invariants of [for_each], membership in [sorted] *)

(** An invariant of the processed prefix and the state holds at the end of
    a [for_each] that returns. *)
Lemma for_each_inv {A S} (body : S -> A -> result S) (P : list A -> S -> Prop)
      (xs : list A) (s0 s' : S) :
  P [] s0 ->
  (forall pre x s t, In x xs -> P pre s -> body s x = Ok t -> P (pre ++ [x]) t) ->
  for_each body xs s0 = Ok s' ->
  P xs s'.
Proof.
  intros H0 Hstep.
  assert (G : forall ys pre s, (forall y, In y ys -> In y xs) -> P pre s ->
                for_each body ys s = Ok s' -> P (pre ++ ys) s').
  { induction ys as [|y ys IH]; intros pre s Hin Hp; simpl.
    - intros H. injection H as <-. now rewrite app_nil_r.
    - intros H. inv_ok.
      replace (pre ++ y :: ys) with ((pre ++ [y]) ++ ys)
        by (rewrite <- app_assoc; reflexivity).
      apply IH with (s := a); auto.
      + intros z Hz. apply Hin. now right.
      + eapply Hstep; eauto. apply Hin. now left. }
  intros H. apply (G xs [] s0); auto.
Qed.

(** A [for_each] raises [e] as soon as its body raises [e] on one element
    whatever the state, provided the body raises nothing else. *)
Lemma for_each_raises {A S} (body : S -> A -> result S) (e : exn)
      (xs : list A) (x : A) :
  In x xs ->
  (forall s, body s x = Raise e) ->
  (forall s y e', body s y = Raise e' -> e' = e) ->
  forall s, for_each body xs s = Raise e.
Proof.
  intros Hin Hx Hall. induction xs as [|y ys IH]; [contradiction|].
  intros s. simpl. destruct Hin as [-> | Hin].
  - now rewrite Hx.
  - destruct (body s y) as [t|e'] eqn:E; simpl.
    + now apply IH.
    + f_equal. eapply Hall; eassumption.
Qed.

Lemma insert_sorted_In {A} (leb : A -> A -> bool) (x y : A) (l : list A) :
  In y (insert_sorted leb x l) <-> y = x \/ In y l.
Proof.
  induction l as [|h t IH]; simpl.
  - intuition.
  - destruct (leb x h); simpl; [intuition | rewrite IH; intuition].
Qed.

Lemma sorted_In {A} (leb : A -> A -> bool) (y : A) (l : list A) :
  In y (sorted leb l) <-> In y l.
Proof.
  induction l as [|h t IH]; simpl; [tauto|].
  rewrite insert_sorted_In, IH. intuition.
Qed.

Lemma insert_sorted_Permutation {A} (leb : A -> A -> bool) (x : A) (l : list A) :
  Permutation (x :: l) (insert_sorted leb x l).
Proof.
  induction l as [|h t IH]; simpl.
  - apply Permutation_refl.
  - destruct (leb x h); [apply Permutation_refl|].
    eapply Permutation_trans; [apply perm_swap|]. now apply perm_skip.
Qed.

Lemma sorted_Permutation {A} (leb : A -> A -> bool) (l : list A) :
  Permutation l (sorted leb l).
Proof.
  induction l as [|h t IH]; simpl; [constructor|].
  eapply Permutation_trans; [apply perm_skip, IH|].
  apply insert_sorted_Permutation.
Qed.

(* ================================================================== *)
(** * The candidate list of a cell *)

Lemma rank_map_get_append (rm : rank_map) (r r' : nat) (e e' : string) :
  In e' (rank_map_get (rank_map_append rm r e) r')
  <-> (r' = r /\ e' = e) \/ In e' (rank_map_get rm r').
Proof.
  induction rm as [|[r0 g] rm IH]; simpl.
  - destruct (Nat.eqb_spec r' r); simpl; intuition congruence.
  - destruct (Nat.eqb_spec r r0) as [-> | Hne]; simpl.
    + destruct (Nat.eqb_spec r' r0) as [-> | Hne'].
      * rewrite in_app_iff. simpl. intuition congruence.
      * intuition congruence.
    + destruct (Nat.eqb_spec r' r0) as [-> | Hne'].
      * intuition congruence.
      * apply IH.
Qed.

Lemma rank_map_get_key (rm : rank_map) (r : nat) (e : string) :
  In e (rank_map_get rm r) -> In r (map fst rm).
Proof.
  induction rm as [|[r0 g] rm IH]; simpl; [tauto|].
  destruct (Nat.eqb_spec r r0) as [-> | Hne]; auto.
Qed.

Section Candidates.
Variable preferences : dict (dict (list string)).
Variable employees : list string.
Variable day shift : string.
Variable c : counters.

(** The groups of [rank_map] hold exactly the available employees. *)
Lemma rank_map_members (rm : rank_map) :
  for_each (rank_entry preferences day shift c) employees [] = Ok rm ->
  forall e, (exists r, In e (rank_map_get rm r))
            <-> (In e employees /\ unavailable c e = false).
Proof.
  intros H.
  apply (@for_each_inv _ _ (rank_entry preferences day shift c)
           (fun pre rm => forall e, (exists r, In e (rank_map_get rm r))
                                    <-> (In e pre /\ unavailable c e = false))
           employees [] rm); [ | | exact H].
  - intros e. simpl. split; [intros [r []] | intros [[] _]].
  - intros pre x s t _ IH Hb e. unfold rank_entry in Hb.
    rewrite in_app_iff. simpl.
    destruct (unavailable c x) eqn:Ex.
    + injection Hb as <-. rewrite IH. split.
      * tauto.
      * intros [[H1 | [<- | []]] H2]; [tauto | congruence].
    + inv_ok. split.
      * intros [r Hr]. apply rank_map_get_append in Hr.
        destruct Hr as [[_ ->] | Hr]; [auto|].
        assert (Hex : exists r, In e (rank_map_get s r)) by eauto.
        apply IH in Hex. tauto.
      * intros [[H1 | [<- | []]] H2].
        -- assert (Hex : In e pre /\ unavailable c e = false) by auto.
           apply IH in Hex. destruct Hex as [r Hr]. exists r.
           apply rank_map_get_append. now right.
        -- eexists. apply rank_map_get_append. left. split; reflexivity.
Qed.

(** [ordered] holds the members of the groups. *)
Lemma flatten_members (rm : rank_map) (ordered : list string) :
  flatten rm = Ok ordered ->
  forall e, In e ordered <-> exists r, In e (rank_map_get rm r).
Proof.
  unfold flatten. intros H.
  assert (G : forall e, In e ordered
              <-> exists r, In r (sorted Nat.leb (map fst rm))
                            /\ In e (rank_map_get rm r)).
  2:{ intros e. rewrite G. split.
      - intros [r [_ Hr]]. eauto.
      - intros [r Hr]. exists r. split; [|assumption].
        apply sorted_In. eapply rank_map_get_key; eassumption. }
  apply (@for_each_inv _ _ _
           (fun pre ordered => forall e, In e ordered
              <-> exists r, In r pre /\ In e (rank_map_get rm r))
           _ _ _) with (3 := H).
  - intros e. simpl. split; [intros [] | intros [r [[] _]]].
  - intros pre r s t _ IH Hb e. inv_ok.
    apply deterministic_shuffle_Permutation in Ha.
    rewrite in_app_iff, IH. split.
    + intros [[r' [H1 H2]] | H1].
      * exists r'. rewrite in_app_iff. auto.
      * exists r. rewrite in_app_iff. simpl. split; [auto|].
        eapply Permutation_in; [apply Permutation_sym|]; eassumption.
    + intros [r' [H1 H2]]. apply in_app_iff in H1.
      destruct H1 as [H1 | [<- | []]].
      * left. eauto.
      * right. eapply Permutation_in; eassumption.
Qed.

(** The candidates of a cell are the employees available when it starts. *)
Lemma ordered_members (rm : rank_map) (ordered : list string) :
  for_each (rank_entry preferences day shift c) employees [] = Ok rm ->
  flatten rm = Ok ordered ->
  forall e, In e ordered <-> (In e employees /\ unavailable c e = false).
Proof.
  intros H1 H2 e. rewrite (flatten_members _ H2).
  now apply rank_map_members.
Qed.
End Candidates.

(* ================================================================== *)
(** * The three assignment loops *)

Lemma cnt_assign (st : cell) (e e' : string) :
  cnt (assign st e) e' = if String.eqb e' e then S (cnt st e) else cnt st e'.
Proof.
  unfold cnt, assign. simpl. rewrite count_of_set.
  destruct (String.eqb_spec e' e); [now subst | reflexivity].
Qed.

Lemma cnt_assign_again (st : cell) (e e' : string) :
  cnt (assign_again st e) e' = if String.eqb e' e then S (cnt st e) else cnt st e'.
Proof.
  unfold cnt, assign_again. simpl. rewrite count_of_set.
  destruct (String.eqb_spec e' e); [now subst | reflexivity].
Qed.

Lemma unavailable_true (c : counters) (e : string) :
  unavailable c e = true
  <-> (5 <= count_of (assigned_count c) e)%nat \/ In e (assigned_today c).
Proof.
  unfold unavailable. rewrite orb_true_iff, Nat.leb_le, mem_In. tauto.
Qed.

Lemma unavailable_false (c : counters) (e : string) :
  unavailable c e = false
  <-> (count_of (assigned_count c) e < 5)%nat /\ ~ In e (assigned_today c).
Proof.
  unfold unavailable. rewrite orb_false_iff, Nat.leb_gt, mem_false. tauto.
Qed.

(** Counters only grow: an unavailable employee stays unavailable. *)
Lemma unavailable_assign (st : cell) (e e' : string) :
  unavailable (ctr st) e' = true -> unavailable (ctr (assign st e)) e' = true.
Proof.
  rewrite !unavailable_true. fold (cnt st e') (cnt (assign st e) e').
  rewrite cnt_assign. simpl. rewrite set_add_In.
  destruct (String.eqb_spec e' e); [subst|]; intuition lia.
Qed.

Lemma unavailable_assigned (st : cell) (e : string) :
  unavailable (ctr (assign st e)) e = true.
Proof.
  rewrite unavailable_true. right. simpl. apply set_add_In. now left.
Qed.

Section Loops.
(** Invariants of the loops: whatever a guarded assignment preserves
    holds when the loop ends. *)
Variable P : cell -> Prop.

Lemma walk_inv (ordered : list string) (st : cell) :
  (forall st e, In e ordered -> P st -> unavailable (ctr st) e = false ->
                P (assign st e)) ->
  P st -> P (walk ordered st).
Proof.
  revert st. induction ordered as [|e rest IH]; intros st Hstep Hp; cbn [walk].
  - assumption.
  - assert (Hrest : forall st e, In e rest -> P st ->
              unavailable (ctr st) e = false -> P (assign st e))
      by (intros; apply Hstep; simpl; auto).
    destruct (unavailable (ctr st) e) eqn:E; [now apply IH|].
    assert (P (assign st e)) by (apply Hstep; simpl; auto).
    destruct (2 <=? placed (assign st e))%nat; [assumption | now apply IH].
Qed.

Lemma first_fallback_inv (emps : list string) (st : cell) :
  (forall st e, In e emps -> P st -> (placed st < 2)%nat ->
                unavailable (ctr st) e = false -> P (assign st e)) ->
  P st -> P (first_fallback emps st).
Proof.
  revert st. induction emps as [|e rest IH]; intros st Hstep Hp;
    cbn [first_fallback].
  - assumption.
  - assert (Hrest : forall st e, In e rest -> P st -> (placed st < 2)%nat ->
              unavailable (ctr st) e = false -> P (assign st e))
      by (intros; apply Hstep; simpl; auto).
    destruct (Nat.leb_spec 2 (placed st)); [assumption|].
    destruct (unavailable (ctr st) e) eqn:E; cbn [negb]; [now apply IH|].
    apply IH; [assumption|]. apply Hstep; simpl; auto.
Qed.

Lemma last_resort_inv (emps : list string) (st : cell) :
  (forall st e, In e emps -> P st -> (placed st < 2)%nat ->
                (cnt st e < 5)%nat -> P (assign_again st e)) ->
  P st -> P (last_resort emps st).
Proof.
  revert st. induction emps as [|e rest IH]; intros st Hstep Hp;
    cbn [last_resort].
  - assumption.
  - assert (Hrest : forall st e, In e rest -> P st -> (placed st < 2)%nat ->
              (cnt st e < 5)%nat -> P (assign_again st e))
      by (intros; apply Hstep; simpl; auto).
    destruct (Nat.leb_spec 2 (placed st)); [assumption|].
    destruct (Nat.ltb_spec (count_of (assigned_count (ctr st)) e) 5).
    + apply IH; [assumption|]. apply Hstep; simpl; auto.
    + now apply IH.
Qed.

(** In the walk too, an assignment happens below two placements. *)
Lemma walk_inv_placed (ordered : list string) (st : cell) :
  (forall st e, In e ordered -> P st -> (placed st < 2)%nat ->
                unavailable (ctr st) e = false -> P (assign st e)) ->
  (placed st < 2)%nat ->
  P st -> P (walk ordered st).
Proof.
  revert st. induction ordered as [|e rest IH]; intros st Hstep Hlt Hp;
    cbn [walk].
  - assumption.
  - assert (Hrest : forall st e, In e rest -> P st -> (placed st < 2)%nat ->
              unavailable (ctr st) e = false -> P (assign st e))
      by (intros; apply Hstep; simpl; auto).
    destruct (unavailable (ctr st) e) eqn:E; [now apply IH|].
    assert (P (assign st e)) by (apply Hstep; simpl; auto).
    destruct (Nat.leb_spec 2 (placed (assign st e))); [assumption|].
    now apply IH.
Qed.
End Loops.

(** The walk ends early only at the second placement: if fewer than two
    were placed, every candidate has become unavailable. *)
Lemma walk_exhausts (ordered : list string) (st : cell) :
  (placed (walk ordered st) < 2)%nat ->
  forall e, In e ordered -> unavailable (ctr (walk ordered st)) e = true.
Proof.
  revert st. induction ordered as [|e rest IH]; intros st Hlt e' Hin.
  - contradiction.
  - cbn [walk] in *.
    assert (Hmono : forall st0 x, unavailable (ctr st0) x = true ->
                      unavailable (ctr (walk rest st0)) x = true).
    { intros st0 x Hx.
      apply (walk_inv (fun s => unavailable (ctr s) x = true)); auto.
      intros. now apply unavailable_assign. }
    destruct (unavailable (ctr st) e) eqn:E.
    + destruct Hin as [<- | Hin]; [now apply Hmono | now apply IH].
    + destruct (2 <=? placed (assign st e))%nat eqn:E2.
      * apply Nat.leb_le in E2. lia.
      * destruct Hin as [<- | Hin]; [|now apply IH].
        apply Hmono. apply unavailable_assigned.
Qed.

(** A scan over employees none of whom is available changes nothing. *)
Lemma first_fallback_noop (emps : list string) (st : cell) :
  (forall e, In e emps -> unavailable (ctr st) e = true) ->
  first_fallback emps st = st.
Proof.
  induction emps as [|e rest IH]; intros H; cbn [first_fallback].
  - reflexivity.
  - destruct (2 <=? placed st)%nat; [reflexivity|].
    rewrite (H e) by (simpl; auto). cbn [negb]. apply IH.
    intros; apply H; simpl; auto.
Qed.

Section CellFacts.
Variable preferences : dict (dict (list string)).
Variable employees : list string.
Variable day shift : string.

(** The first fallback scan never assigns: after a walk that placed
    fewer than two, no employee is both under the cap and unplaced. *)
Lemma first_fallback_idle (c : counters) (rm : rank_map)
      (ordered : list string) :
  for_each (rank_entry preferences day shift c) employees [] = Ok rm ->
  flatten rm = Ok ordered ->
  let st := walk ordered {| slot := []; ctr := c; placed := 0 |} in
  (placed st < 2)%nat ->
  (forall e, In e employees -> unavailable (ctr st) e = true)
  /\ first_fallback employees st = st.
Proof.
  intros Hrm Hfl st Hlt.
  assert (G : forall e, In e employees -> unavailable (ctr st) e = true).
  { intros e He. destruct (unavailable c e) eqn:E.
    - unfold st.
      apply (walk_inv (fun s => unavailable (ctr s) e = true)); auto.
      intros. now apply unavailable_assign.
    - apply walk_exhausts; [assumption|].
      apply (@ordered_members _ _ _ _ _ _ _ Hrm Hfl). auto. }
  split; [assumption | now apply first_fallback_noop].
Qed.

(** The cell does the same with and without the first fallback scan. *)
Lemma run_cell_first_scan (c : counters) :
  run_cell preferences employees day shift false c
  = run_cell preferences employees day shift true c.
Proof.
  unfold run_cell.
  destruct (for_each (rank_entry preferences day shift c) employees [])
    as [rm|e] eqn:Hrm; cbn [bind]; [|reflexivity].
  destruct (flatten rm) as [ordered|e] eqn:Hfl; cbn [bind]; [|reflexivity].
  destruct (Nat.ltb_spec (placed (walk ordered
              {| slot := []; ctr := c; placed := 0 |})) 2) as [Hlt|Hge].
  - destruct (@first_fallback_idle _ _ _ Hrm Hfl Hlt) as [_ ->]. reflexivity.
  - reflexivity.
Qed.
End CellFacts.

(** What a cell that returns has computed. *)
Lemma run_cell_inv (preferences : dict (dict (list string)))
      (employees : list string) (day shift : string) (first_scan : bool)
      (c c' : counters) (s : list string) (entered : bool) :
  run_cell preferences employees day shift first_scan c = Ok (s, c', entered) ->
  exists ordered st1 st2 st3,
    (forall e, In e ordered <-> (In e employees /\ unavailable c e = false))
    /\ st1 = walk ordered {| slot := []; ctr := c; placed := 0 |}
    /\ st2 = (if first_scan && (placed st1 <? 2)%nat
              then first_fallback employees st1 else st1)
    /\ entered = (placed st2 <? 2)%nat
    /\ st3 = (if entered then last_resort employees st2 else st2)
    /\ s = slot st3 /\ c' = ctr st3.
Proof.
  unfold run_cell. intros H. inv_ok.
  exists a0. do 3 eexists.
  split; [exact (@ordered_members _ _ _ _ _ _ _ Ha Ha0)|].
  repeat split; reflexivity.
Qed.

Lemma count_occ_snoc (l : list string) (x e : string) :
  count_occ string_dec (l ++ [x]) e
  = (count_occ string_dec l e + if String.eqb e x then 1 else 0)%nat.
Proof.
  rewrite count_occ_app. simpl.
  destruct (string_dec x e) as [-> | Hne].
  - now rewrite String.eqb_refl.
  - destruct (String.eqb_spec e x); [congruence | reflexivity].
Qed.

Section CellInvariants.
Variable preferences : dict (dict (list string)).
Variable employees : list string.
Variable day shift : string.
Variable first_scan : bool.

(** Weekly cap, one cell: the counters count the entries of the slot,
    and never pass 5. *)
Lemma run_cell_counts (c c' : counters) (s : list string) (entered : bool) :
  run_cell preferences employees day shift first_scan c = Ok (s, c', entered) ->
  (forall e, count_of (assigned_count c) e <= 5)%nat ->
  forall e,
    (count_of (assigned_count c') e
     = count_of (assigned_count c) e + count_occ string_dec s e)%nat
    /\ (count_of (assigned_count c') e <= 5)%nat.
Proof.
  intros H H5.
  destruct (run_cell_inv _ _ _ _ _ _ H)
    as (ordered & st1 & st2 & st3 & _ & E1 & E2 & _ & E3 & -> & ->).
  set (Q := fun st : cell =>
              forall e, (cnt st e = count_of (assigned_count c) e
                                    + count_occ string_dec (slot st) e)%nat
                        /\ (cnt st e <= 5)%nat).
  assert (Qa : forall st e, Q st -> unavailable (ctr st) e = false ->
                 Q (assign st e)).
  { intros st e Hq Hu e'. apply unavailable_false in Hu. destruct Hu as [Hu _].
    fold (cnt st e) in Hu. destruct (Hq e') as [Q1 Q2].
    rewrite cnt_assign. cbn [slot assign]. rewrite count_occ_snoc.
    destruct (String.eqb_spec e' e); [subst|]; lia. }
  assert (Qb : forall st e, Q st -> (cnt st e < 5)%nat -> Q (assign_again st e)).
  { intros st e Hq Hu e'. destruct (Hq e') as [Q1 Q2].
    rewrite cnt_assign_again. cbn [slot assign_again]. rewrite count_occ_snoc.
    destruct (String.eqb_spec e' e); [subst|]; lia. }
  assert (Q1 : Q st1).
  { subst st1. apply walk_inv; [intros; now apply Qa|].
    intros e. unfold cnt. simpl. split; [lia | apply H5]. }
  assert (Q2 : Q st2).
  { subst st2. destruct (_ && _); [|assumption].
    apply first_fallback_inv; [intros; now apply Qa | assumption]. }
  assert (Q3 : Q st3).
  { subst st3. destruct entered; [|assumption].
    apply last_resort_inv; [intros; now apply Qb | assumption]. }
  exact Q3.
Qed.

(** Daily exclusivity, one cell: while the last-resort scan is not
    entered, the names placed today are pairwise distinct and all in
    [assigned_today]. *)
Lemma run_cell_exclusive (c c' : counters) (s prev : list string) :
  run_cell preferences employees day shift first_scan c = Ok (s, c', false) ->
  NoDup prev ->
  (forall e, In e prev -> In e (assigned_today c)) ->
  NoDup (prev ++ s)
  /\ (forall e, In e (prev ++ s) -> In e (assigned_today c')).
Proof.
  intros H Hnd Hprev.
  destruct (run_cell_inv _ _ _ _ _ _ H)
    as (ordered & st1 & st2 & st3 & _ & E1 & E2 & E & E3 & -> & ->).
  cbv iota in E3. subst st3.
  set (X := fun st : cell =>
              NoDup (prev ++ slot st)
              /\ (forall e, In e (prev ++ slot st)
                            -> In e (assigned_today (ctr st)))).
  assert (Xa : forall st e, X st -> unavailable (ctr st) e = false ->
                 X (assign st e)).
  { intros st e [X1 X2] Hu. apply unavailable_false in Hu.
    destruct Hu as [_ Hu]. unfold X. cbn [slot ctr assign assigned_today].
    rewrite app_assoc. split.
    - apply NoDup_app; [assumption | repeat constructor; auto | ].
      intros x Hx [<- | []]. auto.
    - intros x Hx. apply set_add_In. apply in_app_iff in Hx.
      destruct Hx as [Hx | [<- | []]]; auto. }
  assert (X1 : X st1).
  { subst st1. apply walk_inv; [intros; now apply Xa|].
    unfold X. simpl. rewrite app_nil_r. auto. }
  subst st2. destruct (_ && _); [|assumption].
  apply first_fallback_inv; [intros; now apply Xa | assumption].
Qed.
End CellInvariants.

(* ================================================================== *)
(** * Days and the week: the cap and the daily exclusivity *)

Lemma concat_snoc {A} (ls : list (list A)) (l : list A) :
  concat (ls ++ [l]) = concat ls ++ l.
Proof. rewrite concat_app. simpl. now rewrite app_nil_r. Qed.

Section WeekInvariants.
Variable preferences : dict (dict (list string)).
Variable employees : list string.
Variable first_scan : bool.

Lemma run_day_spec (day : string) (counts counts' : dict nat)
      (slots : list (list string)) (entered : bool) :
  run_day preferences employees first_scan day counts
  = Ok (slots, counts', entered) ->
  (forall e, count_of counts e <= 5)%nat ->
  length slots = 3%nat
  /\ (forall e, (count_of counts' e
                 = count_of counts e + count_occ string_dec (concat slots) e)%nat
                /\ (count_of counts' e <= 5)%nat)
  /\ (entered = false -> NoDup (concat slots)).
Proof.
  unfold run_day. intros H H5. inv_ok.
  destruct a as [[slots0 c0] entered0]. injection H as <- <- <-.
  assert (G : length slots0 = length VALID_SHIFTS
              /\ (forall e, (count_of (assigned_count c0) e
                             = count_of counts e
                               + count_occ string_dec (concat slots0) e)%nat
                            /\ (count_of (assigned_count c0) e <= 5)%nat)
              /\ (entered0 = false ->
                  NoDup (concat slots0)
                  /\ forall e, In e (concat slots0) -> In e (assigned_today c0))).
  { apply (@for_each_inv _ _ _
           (fun pre (s : list (list string) * counters * bool) =>
              let '(slots, c, entered) := s in
              length slots = length pre
              /\ (forall e, (count_of (assigned_count c) e
                             = count_of counts e
                               + count_occ string_dec (concat slots) e)%nat
                            /\ (count_of (assigned_count c) e <= 5)%nat)
              /\ (entered = false ->
                  NoDup (concat slots)
                  /\ forall e, In e (concat slots) -> In e (assigned_today c)))
           VALID_SHIFTS _ (slots0, c0, entered0)) with (3 := Ha).
    - simpl. repeat split; auto; try constructor.
    - intros pre shift [[sl c] en] [[sl' c'] en'] _ (L & C & X) Hb.
      cbv beta iota in Hb. inv_ok. destruct a as [[s c1] e1]. injection Hb as <- <- <-.
      assert (C5 : forall e, (count_of (assigned_count c) e <= 5)%nat)
        by (intros e; apply C).
      pose proof (run_cell_counts _ _ _ _ _ _ Ha0 C5) as Hc.
      rewrite !length_app, L. rewrite concat_snoc. split; [reflexivity|]. split.
      + intros e. destruct (Hc e) as [Hc1 Hc2]. destruct (C e) as [C1 _].
        rewrite count_occ_app. split; [lia | assumption].
      + intros Hen. apply orb_false_iff in Hen. destruct Hen as [-> ->].
        destruct (X eq_refl) as [X1 X2].
        exact (run_cell_exclusive _ _ _ _ _ _ Ha0 X1 X2). }
  destruct G as (L & C & X). split; [exact L|]. split; [exact C|].
  intros Hen. now apply X.
Qed.

Lemma initial_counts (emps : list string) (d : dict nat) (e : string) :
  count_of d e = O ->
  count_of (fold_left (fun d emp => dict_set d emp O) emps d) e = O.
Proof.
  revert d. induction emps as [|x emps IH]; intros d H; simpl.
  - assumption.
  - apply IH. rewrite count_of_set. now destruct (String.eqb e x).
Qed.

(** The week: seven days of three lists each; the counters count the
    entries; and, while no cell has entered the last-resort scan, no day
    repeats a name. *)
Lemma run_week_spec (cells : list (list (list string))) (counts : dict nat)
      (entered : bool) :
  run_week preferences employees first_scan = Ok (cells, counts, entered) ->
  length cells = 7%nat
  /\ Forall (fun slots => length slots = 3%nat) cells
  /\ (forall e, (count_occ string_dec (concat (concat cells)) e <= 5)%nat)
  /\ (entered = false -> Forall (fun slots => NoDup (concat slots)) cells).
Proof.
  unfold run_week. intros H.
  assert (G : length cells = length DAYS_OF_WEEK
       /\ Forall (fun slots => length slots = 3%nat) cells
       /\ (forall e, (count_of counts e
                      = count_occ string_dec (concat (concat cells)) e)%nat
                     /\ (count_of counts e <= 5)%nat)
       /\ (entered = false -> Forall (fun slots => NoDup (concat slots)) cells)).
  { apply (@for_each_inv _ _ _
           (fun pre (s : list (list (list string)) * dict nat * bool) =>
              let '(days, counts, entered) := s in
              length days = length pre
              /\ Forall (fun slots => length slots = 3%nat) days
              /\ (forall e, (count_of counts e
                             = count_occ string_dec (concat (concat days)) e)%nat
                            /\ (count_of counts e <= 5)%nat)
              /\ (entered = false ->
                  Forall (fun slots => NoDup (concat slots)) days))
           DAYS_OF_WEEK _ (cells, counts, entered)) with (3 := H).
    - simpl. repeat split; auto.
      + apply initial_counts. reflexivity.
      + rewrite initial_counts by reflexivity. lia.
    - intros pre day [[days cs] en] [[days' cs'] en'] _ (L & F & C & X) Hb.
      cbv beta iota in Hb. inv_ok. destruct a as [[slots cs1] e1]. injection Hb as <- <- <-.
      assert (C5 : forall e, (count_of cs e <= 5)%nat) by (intros e; apply C).
      destruct (run_day_spec _ _ Ha C5) as (L1 & C1 & X1).
      rewrite !length_app, L. split; [reflexivity|]. split.
      { apply Forall_app. split; [assumption | repeat constructor; assumption]. }
      split.
      + intros e. destruct (C1 e) as [D1 D2]. destruct (C e) as [D3 _].
        rewrite concat_snoc, concat_app, count_occ_app.
        split; [lia | assumption].
      + intros Hen. apply orb_false_iff in Hen. destruct Hen as [-> ->].
        apply Forall_app. split; [now apply X | repeat constructor; now apply X1]. }
  destruct G as (L & F & C & X). repeat split; auto.
  intros e. destruct (C e) as [C1 C2]. lia.
Qed.
End WeekInvariants.

(* ================================================================== *)
(** * What the normaliser returns *)

(** [for_each_inv], with the position of the element in the list. *)
Lemma for_each_inv_prefix {A S} (body : S -> A -> result S)
      (P : list A -> S -> Prop) (xs : list A) (s0 s' : S) :
  P [] s0 ->
  (forall pre x post s t, xs = pre ++ x :: post -> P pre s ->
                          body s x = Ok t -> P (pre ++ [x]) t) ->
  for_each body xs s0 = Ok s' ->
  P xs s'.
Proof.
  intros H0 Hstep.
  assert (G : forall ys pre s, xs = pre ++ ys -> P pre s ->
                for_each body ys s = Ok s' -> P xs s').
  { induction ys as [|y ys IH]; intros pre s Hxs Hp; simpl.
    - intros H. injection H as <-. rewrite app_nil_r in Hxs. now subst.
    - intros H. inv_ok.
      apply IH with (pre := pre ++ [y]) (s := a); auto.
      + rewrite <- app_assoc. exact Hxs.
      + eapply Hstep; eauto. }
  intros H. apply (G xs [] s0); auto.
Qed.

Lemma key_strings_app (l1 l2 : list (pyval * pyval)) :
  key_strings (l1 ++ l2) = key_strings l1 ++ key_strings l2.
Proof. unfold key_strings, strings_of. now rewrite map_app, flat_map_app. Qed.

Lemma emp_names_ok (items : list (pyval * pyval)) (names : list string) :
  emp_names items = Ok names ->
  map fst items = map PyStr (key_strings items)
  /\ names = map (fun n => lower (strip n)) (key_strings items).
Proof.
  revert names. induction items as [|[k v] items IH]; intros names; simpl.
  - intros H. injection H as <-. auto.
  - destruct k; try discriminate. intros H. inv_ok.
    destruct (IH _ Ha) as [IH1 IH2]. unfold key_strings in *. simpl.
    split; f_equal; assumption.
Qed.

Lemma emp_names_string_keyed (items : list (pyval * pyval)) :
  string_keyed items = true -> exists names, emp_names items = Ok names.
Proof.
  induction items as [|[k v] items IH]; simpl.
  - eauto.
  - destruct k; try discriminate. simpl. intros H.
    destruct (IH H) as [names ->]. simpl. eauto.
Qed.

Lemma emp_names_not_string_keyed (items : list (pyval * pyval)) :
  string_keyed items = false -> emp_names items = Raise AttributeError.
Proof.
  induction items as [|[k v] items IH]; simpl.
  - discriminate.
  - destruct k; try reflexivity. simpl. intros H. now rewrite IH.
Qed.

(** What one iteration of the employee loop stores. *)
Lemma employee_entry_ok (normalized t : dict (dict (list string)))
      (k v : pyval) :
  employee_entry normalized (k, v) = Ok t ->
  exists emp_name day_map entry,
    k = PyStr emp_name /\ v = PyDict day_map
    /\ for_each day_entry day_map [] = Ok entry
    /\ t = dict_set (dict_set normalized emp_name []) emp_name entry.
Proof.
  unfold employee_entry. destruct k; try discriminate.
  destruct (String.eqb (strip s) ""); [discriminate|].
  destruct v; try discriminate.
  destruct (negb _); [discriminate|].
  intros H. inv_ok. destruct (forallb _ DAYS_OF_WEEK); [|discriminate].
  injection H as <-. eauto 8.
Qed.

Section Collected.
Variable items : list (pyval * pyval).
Variable preferences : dict (dict (list string)).
Hypothesis Hcollect :
  collect_employee_preferences (PyDict items) = Ok preferences.

Lemma collect_names_NoDup : NoDup (key_strings items).
Proof.
  unfold collect_employee_preferences in Hcollect.
  destruct items as [|x xs] eqn:E; [discriminate|]. rewrite <- E in *.
  inv_ok. destruct (has_dup a) eqn:Hd; [discriminate|].
  apply has_dup_false in Hd. apply emp_names_ok in Ha. destruct Ha as [_ ->].
  eapply NoDup_map_inv; eassumption.
Qed.

Lemma collect_loop : for_each employee_entry items [] = Ok preferences.
Proof.
  unfold collect_employee_preferences in Hcollect.
  destruct items as [|x xs] eqn:E; [discriminate|]. rewrite <- E in *.
  inv_ok. destruct (has_dup a); [discriminate | assumption].
Qed.

Lemma collect_string_keys : map fst items = map PyStr (key_strings items).
Proof.
  unfold collect_employee_preferences in Hcollect.
  destruct items as [|x xs] eqn:E; [discriminate|]. rewrite <- E in *.
  inv_ok. now apply emp_names_ok in Ha.
Qed.

(** The result has one key per input employee: the identifier itself, in
    the order of the input; under it, the dictionary filled by the day
    loop of that employee. *)
Lemma collect_spec :
  dict_keys preferences = key_strings items
  /\ forall e dm, In (PyStr e, PyDict dm) items ->
       exists entry, dict_get preferences e = Some entry
                     /\ for_each day_entry dm [] = Ok entry.
Proof.
  pose proof collect_names_NoDup as Hnd.
  apply (@for_each_inv_prefix _ _ employee_entry
           (fun pre normalized =>
              dict_keys normalized = key_strings pre
              /\ forall e dm, In (PyStr e, PyDict dm) pre ->
                   exists entry, dict_get normalized e = Some entry
                                 /\ for_each day_entry dm [] = Ok entry)
           items [] preferences) with (3 := collect_loop).
  - split; [reflexivity | intros e dm []].
  - intros pre [k v] post s t Hitems [K L] Hb.
    apply employee_entry_ok in Hb.
    destruct Hb as (n & dm & entry & -> & -> & Hentry & ->).
    rewrite Hitems, key_strings_app in Hnd.
    change (key_strings ((PyStr n, PyDict dm) :: post))
      with (n :: key_strings post) in Hnd.
    apply NoDup_remove_2 in Hnd.
    assert (Hn : ~ In n (key_strings pre))
      by (intros Hn; apply Hnd; apply in_app_iff; auto).
    split.
    + rewrite !dict_keys_set, K.
      apply mem_false in Hn. rewrite Hn.
      assert (Hm : mem n (key_strings pre ++ [n]) = true)
        by (apply mem_In, in_app_iff; simpl; auto).
      rewrite Hm. now rewrite key_strings_app.
    + intros e dm' He. apply in_app_iff in He. rewrite !dict_get_set.
      destruct He as [He | [He | []]].
      * destruct (String.eqb_spec e n) as [-> | Hne].
        -- exfalso. apply Hn. unfold key_strings, strings_of.
           apply in_flat_map. exists (PyStr n). split; [|simpl; auto].
           apply in_map_iff. exists (PyStr n, PyDict dm'). auto.
        -- now apply L.
      * injection He as <- <-. rewrite String.eqb_refl. eauto.
Qed.

Lemma collect_length : length (dict_keys preferences) = length items.
Proof.
  destruct collect_spec as [-> _].
  rewrite <- (length_map PyStr), <- collect_string_keys. apply length_map.
Qed.

Lemma collect_keys_NoDup : NoDup (dict_keys preferences).
Proof. destruct collect_spec as [-> _]. apply collect_names_NoDup. Qed.
End Collected.

(** The day loop stores, under each day, the normalised preference of the
    value given for it. *)
Lemma day_loop_spec (day_map : list (pyval * pyval)) (entry : dict (list string)) :
  for_each day_entry day_map [] = Ok entry ->
  NoDup (map fst day_map) ->
  forall day v, In (PyStr day, v) day_map ->
    exists l, normalize_day v = Ok l /\ dict_get entry day = Some l.
Proof.
  intros H Hnd.
  apply (@for_each_inv_prefix _ _ day_entry
           (fun pre entry => forall day v, In (PyStr day, v) pre ->
              exists l, normalize_day v = Ok l /\ dict_get entry day = Some l)
           day_map [] entry) with (3 := H).
  - intros day v [].
  - intros pre [k v] post s t Hdm IH Hb day v' Hin.
    unfold day_entry in Hb. destruct k; try discriminate.
    destruct (negb _); [discriminate|]. inv_ok.
    rewrite dict_get_set. apply in_app_iff in Hin.
    destruct Hin as [Hin | [Hin | []]].
    + destruct (String.eqb_spec day s0) as [-> | Hne]; [|now apply IH].
      exfalso. rewrite map_app in Hnd. simpl in Hnd.
      apply NoDup_remove_2 in Hnd. apply Hnd. apply in_app_iff. left.
      apply in_map_iff. exists (PyStr s0, v'). auto.
    + injection Hin as <- <-. rewrite String.eqb_refl. eauto.
Qed.

(* ================================================================== *)
(** * Valid inputs get a schedule *)

Section Totality.
Local Unset Implicit Arguments.

(** A [for_each] whose body returns on every element returns. *)
Lemma for_each_total {A S} (body : S -> A -> result S) (xs : list A) :
  (forall s x, In x xs -> exists t, body s x = Ok t) ->
  forall s, exists s', for_each body xs s = Ok s'.
Proof.
  induction xs as [|x xs IH]; intros H s; simpl.
  - eauto.
  - destruct (H s x (or_introl eq_refl)) as [t ->]. simpl.
    apply IH. intros; apply H; now right.
Qed.

Lemma employee_entry_complete (normalized t : dict (dict (list string)))
      (item : pyval * pyval) :
  employee_entry normalized item = Ok t ->
  (forall e entry, dict_get normalized e = Some entry -> complete entry = true) ->
  forall e entry, dict_get t e = Some entry -> complete entry = true.
Proof.
  destruct item as [k v]. unfold employee_entry.
  destruct k; try discriminate.
  destruct (String.eqb (strip s) ""); [discriminate|].
  destruct v; try discriminate.
  destruct (negb _); [discriminate|].
  intros H. apply bind_ok in H. destruct H as [entry0 [He H]].
  fold (complete entry0) in H.
  destruct (complete entry0) eqn:Hc; [|discriminate].
  apply Ok_inj in H. subst t.
  intros IH e entry. rewrite !dict_get_set.
  destruct (String.eqb e s); [intros E; now injection E as <- | apply IH].
Qed.

Lemma collect_complete (items : list (pyval * pyval))
      (preferences : dict (dict (list string))) :
  collect_employee_preferences (PyDict items) = Ok preferences ->
  forall e entry, dict_get preferences e = Some entry -> complete entry = true.
Proof.
  intros H.
  apply (@for_each_inv _ _ employee_entry
           (fun _ normalized => forall e entry,
                dict_get normalized e = Some entry -> complete entry = true)
           items [] preferences) with (3 := @collect_loop _ _ H).
  - intros e entry. discriminate.
  - intros pre x s t _ IH Hb. eapply employee_entry_complete; eassumption.
Qed.

Lemma rank_map_append_size (rm : rank_map) (r : nat) (e : string) :
  rank_map_size (rank_map_append rm r e) = S (rank_map_size rm).
Proof.
  unfold rank_map_size. induction rm as [|[r0 g] rm IH]; simpl.
  - reflexivity.
  - destruct (r =? r0)%nat; simpl.
    + rewrite length_app. simpl. lia.
    + rewrite IH. lia.
Qed.

Lemma rank_map_get_size (rm : rank_map) (r : nat) :
  (length (rank_map_get rm r) <= rank_map_size rm)%nat.
Proof.
  unfold rank_map_size. induction rm as [|[r0 g] rm IH]; simpl.
  - lia.
  - destruct (r =? r0)%nat; simpl; lia.
Qed.

Section Returns.
Variable preferences : dict (dict (list string)).
Variable employees : list string.
Variable first_scan : bool.
Hypothesis Hkeys : forall e, In e employees -> In e (dict_keys preferences).
Hypothesis Hcomplete :
  forall e entry, dict_get preferences e = Some entry -> complete entry = true.
Hypothesis Hsize : (Z.of_nat (length employees) < 2 ^ 53)%Z.

Lemma rank_entry_total (day shift : string) (c : counters) (rm : rank_map)
      (emp : string) :
  In day DAYS_OF_WEEK -> In emp employees ->
  exists rm', rank_entry preferences day shift c rm emp = Ok rm'
              /\ (rank_map_size rm' <= S (rank_map_size rm))%nat.
Proof.
  intros Hd He. unfold rank_entry.
  destruct (unavailable c emp); [eexists; split; [reflexivity | lia]|].
  unfold subscript.
  destruct (dict_get preferences emp) as [entry|] eqn:E.
  - cbn [bind].
    assert (Hc : complete entry = true) by (eapply Hcomplete; eassumption).
    unfold complete in Hc.
    rewrite forallb_forall in Hc. specialize (Hc _ Hd).
    destruct (dict_get entry day) as [l|]; [|discriminate]. cbn [bind].
    eexists. split; [reflexivity|]. rewrite rank_map_append_size. lia.
  - exfalso. apply dict_get_None in E. apply E. now apply Hkeys.
Qed.

Lemma rank_loop_total (day shift : string) (c : counters) :
  In day DAYS_OF_WEEK ->
  exists rm, for_each (rank_entry preferences day shift c) employees [] = Ok rm
             /\ (rank_map_size rm <= length employees)%nat.
Proof.
  intros Hd.
  assert (G : forall emps rm0, (forall e, In e emps -> In e employees) ->
            exists rm, for_each (rank_entry preferences day shift c) emps rm0 = Ok rm
                       /\ (rank_map_size rm <= rank_map_size rm0 + length emps)%nat).
  { induction emps as [|e emps IH]; intros rm0 Hin; simpl.
    - eexists. split; [reflexivity | lia].
    - destruct (@rank_entry_total day shift c rm0 e Hd) as (rm1 & -> & Hs);
        [apply Hin; now left|].
      cbn [bind]. destruct (IH rm1) as (rm & -> & Hs2);
        [intros; apply Hin; now right|].
      eexists. split; [reflexivity | lia]. }
  destruct (G employees []) as (rm & Hrm & Hs); [auto|].
  exists rm. split; [assumption | exact Hs].
Qed.

Lemma flatten_total (rm : rank_map) :
  (rank_map_size rm <= length employees)%nat ->
  exists ordered, flatten rm = Ok ordered.
Proof.
  intros Hs. unfold flatten. apply for_each_total.
  intros ordered r _.
  destruct (@deterministic_shuffle_total _ (rank_map_get rm r) 1) as [g ->].
  - pose proof (rank_map_get_size rm r). lia.
  - cbn [bind]. eauto.
Qed.

Lemma run_cell_total (day shift : string) (c : counters) :
  In day DAYS_OF_WEEK ->
  exists out, run_cell preferences employees day shift first_scan c = Ok out.
Proof.
  intros Hd. unfold run_cell.
  destruct (@rank_loop_total day shift c Hd) as (rm & -> & Hs). cbn [bind].
  destruct (@flatten_total rm Hs) as [ordered ->]. cbn [bind]. eauto.
Qed.

Lemma run_day_total (day : string) (counts : dict nat) :
  In day DAYS_OF_WEEK ->
  exists out, run_day preferences employees first_scan day counts = Ok out.
Proof.
  intros Hd. unfold run_day.
  match goal with
  | |- context [for_each ?body VALID_SHIFTS ?s0] =>
      destruct (@for_each_total _ _ body VALID_SHIFTS) with (s := s0)
        as [[[slots c] en] ->]
  end.
  - intros [[slots c] en] shift _.
    destruct (@run_cell_total day shift c Hd) as [[[s c'] e] ->].
    cbn [bind]. eauto.
  - cbn [bind]. eauto.
Qed.

Lemma run_week_total :
  exists out, run_week preferences employees first_scan = Ok out.
Proof.
  unfold run_week. apply for_each_total.
  intros [[days counts] en] day Hd.
  destruct (@run_day_total day counts Hd) as [[[slots c'] e] ->].
  cbn [bind]. eauto.
Qed.
End Returns.

(** A valid input gets a schedule: when the normaliser accepts the input
    and there are at least six employees (and fewer than [2^53]),
    [generate_schedule] returns. *)
Lemma generate_schedule_returns (items : list (pyval * pyval))
      (preferences : dict (dict (list string))) :
  collect_employee_preferences (PyDict items) = Ok preferences ->
  (6 <= length items)%nat ->
  (Z.of_nat (length items) < 2 ^ 53)%Z ->
  exists sched, generate_schedule (PyDict items) = Ok sched.
Proof.
  intros Hc H6 Hsize.
  unfold generate_schedule, generate_schedule_with. rewrite Hc. cbn [bind].
  pose proof (@collect_length _ _ Hc) as Hl.
  destruct (Nat.ltb_spec (length (dict_keys preferences)) 6); [lia|].
  destruct (@run_week_total preferences (dict_keys preferences) true)
    as [[[cells counts] en] ->].
  - auto.
  - exact (@collect_complete items preferences Hc).
  - rewrite Hl. assumption.
  - cbn [bind]. eauto.
Qed.
End Totality.

(* ================================================================== *)
(** * The schedule returned *)

(** [for_each] depends on the body only through its values. *)
Lemma for_each_ext {A S} (f g : S -> A -> result S) (xs : list A) (s : S) :
  (forall s x, f s x = g s x) -> for_each f xs s = for_each g xs s.
Proof.
  intros H. revert s. induction xs as [|x xs IH]; intros s; simpl.
  - reflexivity.
  - rewrite H. destruct (g s x); simpl; auto.
Qed.

Lemma map_snd_combine {A B} (l1 : list A) (l2 : list B) :
  length l1 = length l2 -> map snd (combine l1 l2) = l2.
Proof.
  revert l2. induction l1 as [|a l1 IH]; intros [|b l2]; simpl;
    try discriminate; auto.
  intros H. injection H as H. now rewrite IH.
Qed.

(** The shape of the schedule built from the cells of a week. *)
Lemma schedule_of_shape (cells : list (list (list string))) :
  length cells = 7%nat ->
  Forall (fun slots => length slots = 3%nat) cells ->
  map fst (schedule_of cells) = DAYS_OF_WEEK
  /\ (forall day shifts, In (day, shifts) (schedule_of cells) ->
        map fst shifts = VALID_SHIFTS /\ In (map snd shifts) cells)
  /\ entries (schedule_of cells) = concat (concat cells).
Proof.
  intros L F. unfold schedule_of.
  assert (Hs : forall slots, In slots cells ->
                 map fst (combine VALID_SHIFTS slots) = VALID_SHIFTS
                 /\ map snd (combine VALID_SHIFTS slots) = slots).
  { intros slots Hin. rewrite Forall_forall in F. specialize (F _ Hin).
    destruct slots as [|s1 [|s2 [|s3 [|s4 slots]]]]; try discriminate.
    simpl. auto. }
  assert (Hm : map snd (combine DAYS_OF_WEEK (map (combine VALID_SHIFTS) cells))
               = map (combine VALID_SHIFTS) cells)
    by (apply map_snd_combine; now rewrite length_map, L).
  split; [|split].
  - destruct cells as [|c1 [|c2 [|c3 [|c4 [|c5 [|c6 [|c7 [|c8 cells]]]]]]]];
      try discriminate. reflexivity.
  - intros day shifts Hin.
    apply (in_map snd) in Hin. unfold dict in Hin. rewrite Hm in Hin.
    cbn [snd] in Hin.
    apply in_map_iff in Hin. destruct Hin as [slots [<- Hin]].
    destruct (Hs _ Hin) as [H1 H2]. unfold dict in *. rewrite H1, H2. auto.
  - unfold entries.
    rewrite <- (map_map snd (fun ds => concat (map snd ds))).
    unfold dict in *. rewrite Hm, map_map.
    clear Hm L F. induction cells as [|slots cells IH]; cbn [map concat].
    + reflexivity.
    + rewrite (proj2 (Hs slots (or_introl eq_refl))), concat_app. f_equal.
      apply IH. intros s Hin. apply Hs. now right.
Qed.

(** What a run that returns a schedule went through. *)
Lemma generate_schedule_with_ok (first_scan : bool) (raw : pyval)
      (sched : schedule) (entered : bool) :
  generate_schedule_with first_scan raw = Ok (sched, entered) ->
  exists items preferences cells counts,
    raw = PyDict items
    /\ collect_employee_preferences raw = Ok preferences
    /\ (6 <= length (dict_keys preferences))%nat
    /\ run_week preferences (dict_keys preferences) first_scan
       = Ok (cells, counts, entered)
    /\ sched = schedule_of cells.
Proof.
  unfold generate_schedule_with. destruct raw; try discriminate.
  intros H. inv_ok.
  destruct (Nat.ltb_spec (length (dict_keys a)) 6); [discriminate|].
  inv_ok. destruct a0 as [[cells counts] en]. injection H as <- <-.
  exists items, a, cells, counts. auto.
Qed.

Lemma generate_schedule_ok (raw : pyval) (sched : schedule) :
  generate_schedule raw = Ok sched ->
  exists entered, generate_schedule_with true raw = Ok (sched, entered).
Proof.
  unfold generate_schedule. intros H. inv_ok. destruct a as [s en].
  injection H as <-. eauto.
Qed.

(** The program and its variant without the first fallback scan go
    through the same states. *)
Lemma generate_schedule_with_first_scan (raw : pyval) :
  generate_schedule_with false raw = generate_schedule_with true raw.
Proof.
  unfold generate_schedule_with. destruct raw; try reflexivity.
  destruct (collect_employee_preferences (PyDict items)) as [prefs|e];
    simpl; [|reflexivity].
  destruct (length (dict_keys prefs) <? 6)%nat; [reflexivity|].
  f_equal. unfold run_week. apply for_each_ext.
  intros [[days counts] en] day. f_equal. unfold run_day. f_equal.
  apply for_each_ext. intros [[slots c] en'] shift.
  now rewrite run_cell_first_scan.
Qed.

(** The walk assigns whoever it finds available: an employee available
    when the cell starts and unavailable later is in the slot. *)
Lemma walk_assigns (c : counters) (ordered : list string) :
  let st := walk ordered {| slot := []; ctr := c; placed := 0 |} in
  forall e, unavailable c e = false -> unavailable (ctr st) e = true ->
            In e (slot st).
Proof.
  cbv zeta.
  apply (walk_inv (fun st => forall e, unavailable c e = false ->
                     unavailable (ctr st) e = true -> In e (slot st))).
  - intros st x _ IH Hx e He Hu. cbn [slot assign]. apply in_app_iff.
    destruct (String.eqb_spec e x) as [-> | Hne]; [simpl; auto|].
    left. apply IH; [assumption|].
    apply unavailable_true in Hu. apply unavailable_true.
    fold (cnt (assign st x) e) in Hu. rewrite cnt_assign in Hu.
    cbn [assign ctr assigned_today] in Hu. rewrite set_add_In in Hu.
    apply String.eqb_neq in Hne. rewrite Hne in Hu.
    apply String.eqb_neq in Hne. fold (cnt st e). intuition.
  - simpl. intros e He Hu. congruence.
Qed.

(* ================================================================== *)
(** * Properties of the schedule *)

(** C5 (weekly cap).  In the schedule returned by [generate_schedule], no
    employee identifier occurs in more than 5 entries in total over the 21
    lists: every assignment is guarded by [assigned_count[emp] < 5], and
    [assigned_count] counts the entries. *)
Theorem weekly_cap (raw : pyval) (sched : schedule) :
  generate_schedule raw = Ok sched ->
  forall emp, (count_occ string_dec (entries sched) emp <= 5)%nat.
Proof.
  intros H emp. apply generate_schedule_ok in H. destruct H as [entered H].
  apply generate_schedule_with_ok in H.
  destruct H as (items & prefs & cells & counts & _ & _ & _ & Hw & ->).
  apply run_week_spec in Hw. destruct Hw as (L & F & C & _).
  destruct (schedule_of_shape L F) as (_ & _ & ->). apply C.
Qed.

Lemma weekly_cap_witness :
  exists sched, generate_schedule seven_mornings = Ok sched
                /\ (count_occ string_dec (entries sched) "e" <= 5)%nat.
Proof.
  eexists. split; [vm_compute; reflexivity|].
  apply (@weekly_cap seven_mornings). vm_compute. reflexivity.
Defined.

(** C4 (daily exclusivity).  When no cell of the run enters the
    last-resort scan (the test [placed < 2] of line 149 never succeeds),
    the lists of one day, taken together, hold no employee twice: no
    employee is in two shift lists of the same day. *)
Theorem daily_exclusivity (raw : pyval) (sched : schedule) :
  generate_schedule_with true raw = Ok (sched, false) ->
  generate_schedule raw = Ok sched
  /\ forall day shifts, In (day, shifts) sched -> NoDup (concat (map snd shifts)).
Proof.
  intros H. split.
  - unfold generate_schedule. now rewrite H.
  - apply generate_schedule_with_ok in H.
    destruct H as (items & prefs & cells & counts & _ & _ & _ & Hw & ->).
    apply run_week_spec in Hw. destruct Hw as (L & F & _ & X).
    intros day shifts Hin.
    destruct (schedule_of_shape L F) as (_ & S & _).
    destruct (S _ _ Hin) as [_ Hc].
    specialize (X eq_refl). rewrite Forall_forall in X. now apply X.
Qed.

Lemma daily_exclusivity_witness :
  exists sched,
    generate_schedule_with true twelve_indifferent = Ok (sched, false)
    /\ forall day shifts, In (day, shifts) sched ->
                          NoDup (concat (map snd shifts)).
Proof.
  eexists. split; [vm_compute; reflexivity|].
  apply (@daily_exclusivity twelve_indifferent). vm_compute. reflexivity.
Defined.

(** C10 (the first fallback scan is idle).  Removing the first fallback
    scan gives the same function; in every cell, when the walk over the
    ranked candidates ends with fewer than two placed, the scan changes
    nothing, because no employee is then both under the cap and unplaced
    today: whoever was so when the cell started has been assigned by the
    walk. *)
Theorem first_fallback_never_assigns :
  (forall raw,
      generate_schedule_without_first_fallback raw = generate_schedule raw)
  /\ (forall preferences employees day shift c rm ordered,
         for_each (rank_entry preferences day shift c) employees [] = Ok rm ->
         flatten rm = Ok ordered ->
         let st := walk ordered {| slot := []; ctr := c; placed := 0 |} in
         (placed st < 2)%nat ->
         first_fallback employees st = st
         /\ forall e, In e employees ->
                      unavailable (ctr st) e = true
                      /\ (unavailable c e = false -> In e (slot st))).
Proof.
  split.
  - intros raw. unfold generate_schedule_without_first_fallback, generate_schedule.
    now rewrite generate_schedule_with_first_scan.
  - intros preferences employees day shift c rm ordered Hrm Hfl st Hlt.
    destruct (@first_fallback_idle _ _ _ _ _ _ _ Hrm Hfl Hlt) as [Hu Hf].
    split; [exact Hf|]. intros e He. split; [now apply Hu|].
    intros Ha. apply walk_assigns; [assumption | now apply Hu].
Qed.

(** A cell seen by eight employees of whom one is still available. *)
Lemma first_fallback_never_assigns_witness :
  let employees := ["a"; "b"; "c"; "d"; "e"; "f"; "g"; "h"] in
  let preferences := map (fun e => (e, map (fun d => (d, VALID_SHIFTS))
                                           DAYS_OF_WEEK)) employees in
  let c := {| assigned_count := map (fun e => (e, if String.eqb e "c" then 2 else 5)%nat)
                                    employees;
              assigned_today := ["a"] |} in
  let st := walk ["c"] {| slot := []; ctr := c; placed := 0 |} in
  first_fallback employees st = st
  /\ forall e, In e employees ->
               unavailable (ctr st) e = true
               /\ (unavailable c e = false -> In e (slot st)).
Proof.
  intros employees preferences c st.
  apply (proj2 first_fallback_never_assigns preferences employees
               "Saturday" "morning" c [(0%nat, ["c"])] ["c"]).
  - vm_compute. reflexivity.
  - vm_compute. reflexivity.
  - vm_compute. lia.
Defined.

(** C6 (determinism).  Two runs of [generate_schedule] on the same input
    give the same outcome; and [deterministic_shuffle] with the seed 1
    treats two sequences of the same length alike: one index list,
    computed from the length alone, is read back through either sequence.
    Below [2^53] elements the shuffle returns, and that index list is a
    permutation of the positions. *)
Theorem scheduling_deterministic :
  (forall raw r1 r2,
      generate_schedule raw = r1 -> generate_schedule raw = r2 -> r1 = r2)
  /\ (forall (A B : Type) (xs : list A) (ys : list B),
         length xs = length ys ->
         (exists perm : result (list nat),
             deterministic_shuffle xs 1 = fmap (pick xs) perm
             /\ deterministic_shuffle ys 1 = fmap (pick ys) perm)
         /\ ((Z.of_nat (length xs) < 2 ^ 53)%Z ->
             exists p : list nat,
               Permutation (seq 0 (length xs)) p
               /\ deterministic_shuffle xs 1 = Ok (pick xs p)
               /\ deterministic_shuffle ys 1 = Ok (pick ys p))).
Proof.
  split.
  - intros raw r1 r2 H1 H2. congruence.
  - intros A B xs ys Hlen.
    pose proof (deterministic_shuffle_by_index xs 1) as Hx.
    pose proof (deterministic_shuffle_by_index ys 1) as Hy.
    rewrite <- Hlen in Hy. split.
    + exists (deterministic_shuffle (seq 0 (length xs)) 1). auto.
    + intros Hsize.
      destruct (@deterministic_shuffle_total nat (seq 0 (length xs)) 1)
        as [p Hp]; [now rewrite length_seq|].
      exists p. rewrite Hx, Hy, Hp. repeat split.
      now apply deterministic_shuffle_Permutation in Hp.
Qed.

Lemma scheduling_deterministic_witness :
  exists p : list nat,
    Permutation (seq 0 6) p
    /\ deterministic_shuffle ["A"; "B"; "C"; "D"; "E"; "F"] 1
       = Ok (pick ["A"; "B"; "C"; "D"; "E"; "F"] p)
    /\ deterministic_shuffle [10; 11; 12; 13; 14; 15]%Z 1
       = Ok (pick [10; 11; 12; 13; 14; 15]%Z p).
Proof.
  refine (proj2 (proj2 scheduling_deterministic string Z
                   ["A"; "B"; "C"; "D"; "E"; "F"]
                   [10; 11; 12; 13; 14; 15]%Z eq_refl) _).
  simpl. lia.
Defined.

(** A valid input gets a schedule: together with the properties above,
    which hold of any schedule returned.  (X13: an accepted input of at
    least six, and fewer than [2^53], employees makes [generate_schedule]
    return; the schedule has the seven days in order, under each day the
    three shifts in order, and at most five entries per employee.) *)
Theorem valid_input_scheduled (items : list (pyval * pyval))
        (preferences : dict (dict (list string))) :
  collect_employee_preferences (PyDict items) = Ok preferences ->
  (6 <= length items)%nat ->
  (Z.of_nat (length items) < 2 ^ 53)%Z ->
  exists sched,
    generate_schedule (PyDict items) = Ok sched
    /\ map fst sched = DAYS_OF_WEEK
    /\ (forall day shifts, In (day, shifts) sched ->
                           map fst shifts = VALID_SHIFTS)
    /\ (forall emp, (count_occ string_dec (entries sched) emp <= 5)%nat).
Proof.
  intros Hc H6 Hs.
  destruct (generate_schedule_returns items preferences Hc H6 Hs) as [sched H].
  exists sched. split; [assumption|].
  apply generate_schedule_ok in H. destruct H as [entered H].
  apply generate_schedule_with_ok in H.
  destruct H as (items' & prefs & cells & counts & _ & _ & _ & Hw & ->).
  apply run_week_spec in Hw. destruct Hw as (L & F & C & _).
  destruct (schedule_of_shape L F) as (S1 & S2 & S3).
  repeat split; auto.
  - intros day shifts Hin. now apply (S2 _ _ Hin).
  - intros emp. rewrite S3. apply C.
Qed.

(* ================================================================== *)
(** * The normalised preferences *)

Lemma normalize_str_spec (t : string) (l : list string) :
  normalize_str t = Ok l ->
  In (strip (lower t)) VALID_SHIFTS /\ l = strip (lower t) :: others (strip (lower t)).
Proof.
  unfold normalize_str. remember (strip (lower t)) as s eqn:Es. clear Es.
  destruct (mem s VALID_SHIFTS) eqn:E; [|discriminate].
  apply mem_In in E. intros H. split; [assumption|].
  destruct E as [<- | [<- | [<- | []]]]; vm_compute in H;
    injection H as <-; reflexivity.
Qed.

(** C2 as stated fails: the string ["evening"] does not normalise to
    evening followed by the other two shifts in alphabetical order. *)
Lemma single_choice_not_alphabetical :
  at2 [("Ann", map (fun d => (d, ["evening"; "morning"; "afternoon"]))
                   DAYS_OF_WEEK)] "Ann" "Monday"
  <> "evening" :: others_alphabetical "evening"
  /\ collect_employee_preferences
       (staff ["Ann"] (fun _ _ => PyStr "evening"))
     = Ok [("Ann", map (fun d => (d, ["evening"; "morning"; "afternoon"]))
                       DAYS_OF_WEEK)]
  /\ others_alphabetical "evening" = ["afternoon"; "morning"].
Proof.
  split; [|split]; vm_compute; [discriminate | reflexivity | reflexivity].
Qed.

(** C9, as amended (keys of the result).  For an accepted input, the
    mapping returned by [collect_employee_preferences] is keyed by the
    input employee identifiers themselves, unchanged and in the order of
    the input; the lower-cased, trimmed names serve the duplicate check
    only. *)
Theorem normalized_keys_verbatim (items : list (pyval * pyval))
        (preferences : dict (dict (list string))) :
  collect_employee_preferences (PyDict items) = Ok preferences ->
  map PyStr (dict_keys preferences) = map fst items.
Proof.
  intros H. destruct (@collect_spec _ _ H) as [-> _].
  symmetry. exact (@collect_string_keys _ _ H).
Qed.

Lemma normalized_keys_verbatim_witness :
  exists preferences,
    collect_employee_preferences
      (staff ["Alice"; "BOB"] (fun _ _ => PyNone)) = Ok preferences
    /\ map PyStr (dict_keys preferences) = [PyStr "Alice"; PyStr "BOB"].
Proof.
  eexists. split; [vm_compute; reflexivity|].
  apply (@normalized_keys_verbatim
           [(PyStr "Alice", week_of (fun _ => PyNone));
            (PyStr "BOB", week_of (fun _ => PyNone))]).
  vm_compute. reflexivity.
Defined.

(** C9 as stated fails: the keys of the result are not lower-cased. *)
Lemma normalized_keys_not_lowered :
  ~ (forall items preferences,
        collect_employee_preferences (PyDict items) = Ok preferences ->
        dict_keys preferences = map lower (key_strings items)).
Proof.
  intros H.
  specialize (H [(PyStr "Alice", week_of (fun _ => PyNone))] _ eq_refl).
  vm_compute in H. discriminate H.
Qed.

(** C1 at the failing input: a list of three valid names with a repeat is
    accepted and stored as it is, so the normalised value is not a
    permutation of the three shifts. *)
Theorem repeated_list_accepted :
  exists preferences,
    collect_employee_preferences
      (staff ["Ann"] (fun _ _ => PyList [PyStr "morning"; PyStr "morning";
                                         PyStr "morning"]))
    = Ok preferences
    /\ at2 preferences "Ann" "Monday" = ["morning"; "morning"; "morning"]
    /\ ~ Permutation VALID_SHIFTS (at2 preferences "Ann" "Monday").
Proof.
  eexists. split; [vm_compute; reflexivity|]. split; [reflexivity|].
  intros H. apply (Permutation_in "evening") in H; [|simpl; auto].
  vm_compute in H. intuition discriminate.
Qed.

(** C7 at the failing input: the same two employees get the morning on
    Monday, on Tuesday and on Wednesday; the other four never do. *)
Theorem no_overflow_to_wednesday :
  exists sched,
    generate_schedule two_crowded_mornings = Ok sched
    /\ at2 sched "Monday" "morning" = ["E"; "A"]
    /\ at2 sched "Tuesday" "morning" = ["E"; "A"]
    /\ at2 sched "Wednesday" "morning" = ["E"; "A"].
Proof.
  eexists. split; [vm_compute; reflexivity|]. repeat split.
Qed.

(* ================================================================== *)
(** * Rejected inputs *)

Lemma for_each_raises_only {A S} (body : S -> A -> result S) (e : exn)
      (xs : list A) :
  (forall s y e', body s y = Raise e' -> e' = e) ->
  forall s e', for_each body xs s = Raise e' -> e' = e.
Proof.
  intros Hall. induction xs as [|x xs IH]; intros s e'; simpl.
  - discriminate.
  - intros H. apply bind_raise in H. destruct H as [H | [t [_ H]]].
    + eapply Hall; eassumption.
    + eapply IH; eassumption.
Qed.

Lemma priority_entry_raises (st : dict Z * nat * list string)
      (item : pyval * pyval) (e : exn) :
  priority_entry st item = Raise e -> e = ValueError InvalidInput.
Proof.
  destruct st as [[pr n] seen]. destruct item as [k p]. unfold priority_entry.
  destruct k; try (intros H; injection H as <-; reflexivity).
  destruct (negb _); [intros H; injection H as <-; reflexivity|].
  destruct (mem _ seen); [intros H; injection H as <-; reflexivity|].
  destruct (2 <? S n)%nat; [intros H; injection H as <-; reflexivity|].
  destruct (as_int p) as [z|]; [|intros H; injection H as <-; reflexivity].
  destruct (z <? 1)%Z; [intros H; injection H as <-; reflexivity|discriminate].
Qed.

Lemma priority_entry_count (pr pr' : dict Z) (n n' : nat)
      (seen seen' : list string) (item : pyval * pyval) :
  priority_entry (pr, n, seen) item = Ok (pr', n', seen') ->
  n' = S n /\ (n' <= 2)%nat.
Proof.
  destruct item as [k p]. unfold priority_entry.
  destruct k; try discriminate.
  destruct (negb _); [discriminate|].
  destruct (mem _ seen); [discriminate|].
  destruct (Nat.ltb_spec 2 (S n)); [discriminate|].
  destruct (as_int p) as [z|]; [|discriminate].
  destruct (z <? 1)%Z; [discriminate|].
  intros E. injection E as _ <- _. split; [reflexivity | lia].
Qed.

Lemma priority_loop_count (pri_map : list (pyval * pyval)) (pr pr' : dict Z)
      (n n' : nat) (seen seen' : list string) :
  for_each priority_entry pri_map (pr, n, seen) = Ok (pr', n', seen') ->
  (n' = n + length pri_map)%nat /\ (pri_map <> [] -> n' <= 2)%nat.
Proof.
  revert pr n seen.
  induction pri_map as [|item pri_map IH]; intros pr n seen; simpl.
  - intros H. injection H as _ <- _. split; [lia | congruence].
  - intros H. inv_ok. destruct a as [[pr1 n1] seen1].
    apply priority_entry_count in Ha. destruct Ha as [-> Hle].
    destruct (IH _ _ _ H) as [-> H2]. split; [lia|]. intros _.
    destruct pri_map; [simpl; lia | apply H2; discriminate].
Qed.

Lemma normalize_dict_raises (pri_map : list (pyval * pyval)) (e : exn) :
  normalize_dict pri_map = Raise e -> e = ValueError InvalidInput.
Proof.
  unfold normalize_dict. intros H. apply bind_raise in H.
  destruct H as [H | [[[pr n] seen] [_ H]]].
  - eapply for_each_raises_only; [|eassumption].
    intros; eapply priority_entry_raises; eassumption.
  - discriminate.
Qed.

Lemma normalize_day_raises (v : pyval) (e : exn) :
  normalize_day v = Raise e -> e = ValueError InvalidInput.
Proof.
  destruct v; simpl; try discriminate;
    try (intros H; injection H as <-; reflexivity).
  - unfold normalize_str. destruct (negb _).
    + intros H; injection H as <-; reflexivity.
    + destruct (fold_left _ _ _). discriminate.
  - destruct (_ && _); [discriminate | intros H; injection H as <-; reflexivity].
  - destruct items; [discriminate | apply normalize_dict_raises].
Qed.

Lemma day_entry_raises (entry : dict (list string)) (item : pyval * pyval)
      (e : exn) :
  day_entry entry item = Raise e -> e = ValueError InvalidInput.
Proof.
  destruct item as [k v]. unfold day_entry.
  destruct k; try (intros H; injection H as <-; reflexivity).
  destruct (negb _); [intros H; injection H as <-; reflexivity|].
  intros H. apply bind_raise in H. destruct H as [H | [l [_ H]]].
  - eapply normalize_day_raises; eassumption.
  - discriminate.
Qed.

Lemma employee_entry_raises (normalized : dict (dict (list string)))
      (item : pyval * pyval) (e : exn) :
  employee_entry normalized item = Raise e -> e = ValueError InvalidInput.
Proof.
  destruct item as [k v]. unfold employee_entry.
  destruct k; try (intros H; injection H as <-; reflexivity).
  destruct (String.eqb _ _); [intros H; injection H as <-; reflexivity|].
  destruct v; try (intros H; injection H as <-; reflexivity).
  destruct (negb _); [intros H; injection H as <-; reflexivity|].
  intros H. apply bind_raise in H. destruct H as [H | [entry [_ H]]].
  - eapply for_each_raises_only; [|eassumption].
    intros; eapply day_entry_raises; eassumption.
  - destruct (forallb _ DAYS_OF_WEEK); [discriminate|].
    injection H as <-; reflexivity.
Qed.

Lemma normalize_day_dict (items : list (pyval * pyval)) :
  items <> [] -> normalize_day (PyDict items) = normalize_dict items.
Proof. destruct items; [congruence | reflexivity]. Qed.

(** The normaliser refuses a bad preference. *)
Lemma bad_preference_refused (v : pyval) :
  bad_preference v -> normalize_day v = invalid.
Proof.
  assert (Hdict : forall pri_map item,
             In item pri_map ->
             (forall st, priority_entry st item = invalid) ->
             normalize_day (PyDict pri_map) = invalid).
  { intros pri_map item Hin Hst.
    rewrite normalize_day_dict by (intros ->; contradiction).
    unfold normalize_dict.
    rewrite (@for_each_raises _ _ priority_entry (ValueError InvalidInput)
               pri_map item); auto.
    intros; eapply priority_entry_raises; eassumption. }
  intros H. destruct H as [t Ht | l v Hin Hv | pm t p Hin Ht | pm Hlen
                           | pm k p z Hin Hp Hz | pm k p Hin Hp].
  - simpl. unfold normalize_str. destruct Ht as [_ Ht]. now rewrite Ht.
  - simpl.
    assert (Hf : forallb (fun s => val_in s VALID_SHIFTS) l = false).
    { apply not_true_is_false. intros Hf. rewrite forallb_forall in Hf.
      rewrite (Hf _ Hin) in Hv. discriminate. }
    rewrite Hf. now rewrite andb_false_r.
  - apply (Hdict _ _ Hin). intros [[pr n] seen]. unfold priority_entry.
    destruct Ht as [_ Ht]. now rewrite Ht.
  - assert (Hne : pm <> []) by (intros ->; simpl in Hlen; lia).
    rewrite normalize_day_dict by assumption. unfold normalize_dict.
    destruct (for_each priority_entry pm ([], 0%nat, [])) as [[[pr n] seen]|e] eqn:Hf.
    + apply priority_loop_count in Hf. destruct Hf as [-> Hf].
      specialize (Hf Hne). simpl in Hf. lia.
    + simpl. unfold invalid. f_equal.
      eapply for_each_raises_only; [|eassumption].
      intros; eapply priority_entry_raises; eassumption.
  - apply (Hdict _ _ Hin). intros [[pr n] seen]. unfold priority_entry.
    destruct k; try reflexivity.
    destruct (negb _); [reflexivity|]. destruct (mem _ seen); [reflexivity|].
    destruct (2 <? S n)%nat; [reflexivity|]. rewrite Hp.
    apply Z.ltb_lt in Hz. now rewrite Hz.
  - apply (Hdict _ _ Hin). intros [[pr n] seen]. unfold priority_entry.
    destruct k; try reflexivity.
    destruct (negb _); [reflexivity|]. destruct (mem _ seen); [reflexivity|].
    destruct (2 <? S n)%nat; [reflexivity|]. now rewrite Hp.
Qed.

(** The normaliser refuses a bad employee entry, whatever it has
    normalised before. *)
Lemma bad_employee_refused (x : pyval * pyval) :
  bad_employee x -> forall normalized, employee_entry normalized x = invalid.
Proof.
  assert (Hloop : forall day_map item,
             In item day_map ->
             (forall st, day_entry st item = invalid) ->
             for_each day_entry day_map [] = invalid).
  { intros day_map item Hin Hst.
    apply (@for_each_raises _ _ day_entry (ValueError InvalidInput)
             day_map item); auto.
    intros; eapply day_entry_raises; eassumption. }
  intros H normalized.
  destruct H as [n dm d Hd Hk | n dm k v Hin Hk | n dm k v Hin Hv];
    unfold employee_entry;
    (destruct (String.eqb (strip n) ""); [reflexivity|]).
  - assert (Hf : forallb (fun required_day => has_key required_day dm)
                         DAYS_OF_WEEK = false).
    { apply not_true_is_false. intros Hf. rewrite forallb_forall in Hf.
      rewrite (Hf _ Hd) in Hk. discriminate. }
    now rewrite Hf.
  - destruct (negb _); [reflexivity|].
    rewrite (Hloop _ _ Hin); [reflexivity|].
    intros st. unfold day_entry. destruct k; try reflexivity.
    cbn [val_in] in Hk. now rewrite Hk.
  - destruct (negb _); [reflexivity|].
    rewrite (Hloop _ _ Hin); [reflexivity|].
    intros st. unfold day_entry. destruct k; try reflexivity.
    destruct (negb _); [reflexivity|].
    now rewrite (bad_preference_refused Hv).
Qed.

Lemma is_space_lower (c : ascii) : is_space (lower_ascii c) = is_space c.
Proof. destruct c as [[] [] [] [] [] [] [] []]; reflexivity. Qed.

Lemma lstrip_lower (s : string) : lstrip (lower s) = lower (lstrip s).
Proof.
  induction s as [|c s IH]; simpl; [reflexivity|].
  rewrite is_space_lower. now destruct (is_space c).
Qed.

Lemma rstrip_lower (s : string) : rstrip (lower s) = lower (rstrip s).
Proof.
  induction s as [|c s IH]; simpl; [reflexivity|].
  rewrite IH, is_space_lower.
  destruct (rstrip s); simpl; [now destruct (is_space c) | reflexivity].
Qed.

(** Trimming and lower-casing commute. *)
Lemma strip_lower (s : string) : strip (lower s) = lower (strip s).
Proof. unfold strip. now rewrite lstrip_lower, rstrip_lower. Qed.

Lemma key_strings_nth (items : list (pyval * pyval)) (i : nat) (n : string)
      (v : pyval) :
  map fst items = map PyStr (key_strings items) ->
  nth_error items i = Some (PyStr n, v) ->
  nth_error (key_strings items) i = Some n.
Proof.
  intros Hk Hi. apply (map_nth_error fst) in Hi. rewrite Hk in Hi.
  rewrite nth_error_map in Hi.
  destruct (nth_error (key_strings items) i); simpl in Hi; congruence.
Qed.

(** With string keys only, the normaliser answers every rejected input
    with [InvalidInput]. *)
Lemma rejected_invalid (raw : pyval) :
  rejected raw -> names_are_strings raw = true ->
  collect_employee_preferences raw = invalid.
Proof.
  intros H Hs. destruct H as [raw Hn | | items i j n1 n2 v1 v2 Hij Hi Hj Hl
                              | items x Hin Hx].
  - destruct raw; try reflexivity. exfalso. now apply (Hn items).
  - reflexivity.
  - simpl in Hs. destruct (emp_names_string_keyed _ Hs) as [names Hnames].
    unfold collect_employee_preferences.
    destruct items as [|y ys] eqn:E; [destruct i; discriminate|].
    rewrite <- E in *. rewrite Hnames. simpl.
    destruct (has_dup names) eqn:Hd; [reflexivity|]. exfalso.
    apply has_dup_false in Hd. apply emp_names_ok in Hnames.
    destruct Hnames as [Hk ->].
    pose proof (key_strings_nth _ _ Hk Hi) as Ki.
    pose proof (key_strings_nth _ _ Hk Hj) as Kj.
    apply Hij. apply (proj1 (NoDup_nth_error _) Hd).
    + apply nth_error_Some. rewrite nth_error_map, Ki. discriminate.
    + rewrite !nth_error_map, Ki, Kj. simpl.
      now rewrite <- !strip_lower, Hl.
  - simpl in Hs. destruct (emp_names_string_keyed _ Hs) as [names Hnames].
    unfold collect_employee_preferences.
    destruct items as [|y ys] eqn:E; [contradiction|].
    rewrite <- E in *. rewrite Hnames. simpl.
    destruct (has_dup names); [reflexivity|].
    apply (@for_each_raises _ _ employee_entry (ValueError InvalidInput)
             items x); auto.
    + intros. now apply bad_employee_refused.
    + intros; eapply employee_entry_raises; eassumption.
Qed.

(** Without that, it still returns nothing. *)
Lemma rejected_not_ok (raw : pyval) :
  rejected raw -> is_ok (collect_employee_preferences raw) = false.
Proof.
  intros H. destruct (names_are_strings raw) eqn:Hs.
  - now rewrite rejected_invalid.
  - destruct raw; try discriminate. simpl in Hs.
    unfold collect_employee_preferences.
    destruct items as [|y ys] eqn:E; [reflexivity|]. rewrite <- E in *.
    now rewrite emp_names_not_string_keyed.
Qed.

(** [generate_schedule] raises what the normaliser raises. *)
Lemma generate_schedule_raises (raw : pyval) (e : exn) :
  collect_employee_preferences raw = Raise e ->
  generate_schedule raw = Raise e
  \/ generate_schedule raw = invalid.
Proof.
  intros H. unfold generate_schedule, generate_schedule_with.
  destruct raw; auto. rewrite H. auto.
Qed.

(** X22 (validation, with string names).  A top-level value that is not a
    mapping, an empty mapping, two employee names equal up to case, an
    employee with a day missing, a key that is not a day, an unknown shift
    name (an ASCII string), more than two explicit priorities, a priority
    that is not a positive integer: on each of these the normaliser and
    [generate_schedule] return nothing, and, the employee names being
    strings, what they raise is [InvalidInput].  On an accepted input with
    fewer than six employees, [generate_schedule] raises
    [InsufficientStaff]. *)
Theorem validation_rejects :
  (forall raw,
      rejected raw ->
      is_ok (collect_employee_preferences raw) = false
      /\ is_ok (generate_schedule raw) = false
      /\ (names_are_strings raw = true ->
          collect_employee_preferences raw = Raise (ValueError InvalidInput)
          /\ generate_schedule raw = Raise (ValueError InvalidInput)))
  /\ (forall items preferences,
         collect_employee_preferences (PyDict items) = Ok preferences ->
         (length items < 6)%nat ->
         generate_schedule (PyDict items) = Raise (ValueError InsufficientStaff)).
Proof.
  split.
  - intros raw H. pose proof (rejected_not_ok H) as Hn.
    split; [exact Hn|]. split.
    + destruct (collect_employee_preferences raw) as [p|e] eqn:E;
        [discriminate|].
      destruct (generate_schedule_raises _ E) as [-> | ->]; reflexivity.
    + intros Hs. pose proof (rejected_invalid H Hs) as Hi.
      split; [exact Hi|].
      destruct (generate_schedule_raises _ Hi) as [-> | ->]; reflexivity.
  - intros items preferences Hc Hlen.
    unfold generate_schedule, generate_schedule_with. rewrite Hc. simpl.
    rewrite (@collect_length _ _ Hc).
    apply Nat.ltb_lt in Hlen. now rewrite Hlen.
Qed.

(** Three priorities for one day are refused; five employees are too few. *)
Lemma validation_rejects_witness :
  collect_employee_preferences
    (staff ["Bob"] (fun _ _ => PyDict [(PyStr "morning", PyInt 1);
                                       (PyStr "afternoon", PyInt 2);
                                       (PyStr "evening", PyInt 3)]))
  = Raise (ValueError InvalidInput)
  /\ generate_schedule (staff ["a"; "b"; "c"; "d"; "e"] (fun _ _ => PyNone))
     = Raise (ValueError InsufficientStaff).
Proof.
  split.
  - refine (proj1 (proj2 (proj2 (proj1 validation_rejects _ _)) _));
      [|reflexivity].
    eapply refused_employee; [left; reflexivity|].
    eapply bad_day; [left; reflexivity|].
    apply too_many_priorities. simpl. lia.
  - eapply (proj2 validation_rejects); [vm_compute; reflexivity | simpl; lia].
Defined.

(** C8 at the failing input: an employee with a day missing, under a name
    that is not a string.  The list comprehension of line 31 calls
    [strip] on the name and raises [AttributeError] before any check, so
    neither function raises [InvalidInput]; under a string name the same
    week is refused with [InvalidInput].  The check of line 36, which asks
    for a [ValueError] when the name is not a string, is never reached by
    such a name: the input of the repository's test
    [test_invalid_employee_name], the name [None] with a full week, raises
    [AttributeError] as well. *)
Theorem missing_day_under_non_string_name :
  (exists day_map,
      short_week = PyDict day_map /\ has_key "Sunday" day_map = false)
  /\ collect_employee_preferences (PyDict [(PyNone, short_week)])
     = Raise AttributeError
  /\ generate_schedule (PyDict [(PyNone, short_week)]) = Raise AttributeError
  /\ collect_employee_preferences (PyDict [(PyStr "Alice", short_week)])
     = Raise (ValueError InvalidInput)
  /\ collect_employee_preferences (PyDict [(PyNone, week_of (fun _ => PyNone))])
     = Raise AttributeError.
Proof.
  split; [eexists; split; reflexivity|].
  repeat split.
Qed.

(* ================================================================== *)
(** * Staffing: two entries per list from nine employees on *)

Lemma total_set_other (emps : list string) (d : dict nat) (e : string) (n : nat) :
  ~ In e emps -> total emps (dict_set d e n) = total emps d.
Proof.
  unfold total. induction emps as [|x xs IH]; intros Hn; simpl.
  - reflexivity.
  - rewrite count_of_set, IH by (intros H; apply Hn; now right).
    destruct (String.eqb_spec x e) as [-> | Hne]; [|reflexivity].
    exfalso. apply Hn. now left.
Qed.

Lemma total_incr (emps : list string) (d : dict nat) (e : string) :
  NoDup emps -> In e emps ->
  total emps (dict_set d e (S (count_of d e))) = S (total emps d).
Proof.
  induction emps as [|x xs IH]; intros Hnd Hin; [contradiction|].
  inversion Hnd as [|? ? Hx Hxs]; subst.
  change (total (x :: xs) ?c) with (count_of c x + total xs c)%nat.
  rewrite count_of_set.
  destruct (String.eqb_spec x e) as [-> | Hne].
  - rewrite total_set_other by assumption. lia.
  - destruct Hin as [-> | Hin]; [congruence|]. rewrite IH by assumption. lia.
Qed.

(** Capacity: if everybody under the cap has worked at least once, the
    room left is at most four per employee under the cap. *)
Lemma capacity_bound (f : string -> nat) (emps : list string) :
  (forall e, In e emps -> f e <= 5)%nat ->
  (forall e, In e emps -> f e < 5 -> 1 <= f e)%nat ->
  (5 * length emps
   <= list_sum (map f emps) + 4 * length (filter (fun e => (f e <? 5)%nat) emps))%nat.
Proof.
  induction emps as [|x xs IH]; intros H5 H1; simpl; [lia|].
  assert (IH' := IH (fun e He => H5 e (or_intror He))
                    (fun e He => H1 e (or_intror He))).
  pose proof (H5 x (or_introl eq_refl)). pose proof (H1 x (or_introl eq_refl)).
  destruct (Nat.ltb_spec (f x) 5); simpl; lia.
Qed.

(** The last-resort scan places one entry per employee under the cap,
    up to two placements. *)
Lemma last_resort_fills (emps : list string) (st : cell) :
  NoDup emps -> (placed st <= 2)%nat ->
  placed (last_resort emps st)
  = Nat.min 2 (placed st + length (filter (fun e => (cnt st e <? 5)%nat) emps)).
Proof.
  revert st. induction emps as [|e rest IH]; intros st Hnd Hle;
    cbn [last_resort filter].
  - cbn [length]. lia.
  - inversion Hnd as [|? ? He Hrest]; subst.
    destruct (Nat.leb_spec 2 (placed st)); [lia|].
    unfold cnt at 1.
    destruct (Nat.ltb_spec (count_of (assigned_count (ctr st)) e) 5).
    + rewrite IH by (simpl; auto; lia).
      replace (filter (fun e0 => (cnt (assign_again st e) e0 <? 5)%nat) rest)
        with (filter (fun e0 => (cnt st e0 <? 5)%nat) rest).
      * cbn [length placed assign_again]. lia.
      * apply filter_ext_in. intros x Hx. rewrite cnt_assign_again.
        destruct (String.eqb_spec x e); [subst; contradiction | reflexivity].
    + now apply IH.
Qed.

(** After a walk that placed fewer than two, nobody is available. *)
Lemma walk_leaves_nobody (c : counters) (emps ordered : list string) :
  (forall e, In e ordered <-> (In e emps /\ unavailable c e = false)) ->
  let st := walk ordered {| slot := []; ctr := c; placed := 0 |} in
  (placed st < 2)%nat ->
  forall e, In e emps -> unavailable (ctr st) e = true.
Proof.
  intros Ho st Hlt e He. destruct (unavailable c e) eqn:E.
  - unfold st. apply (walk_inv (fun s => unavailable (ctr s) e = true)); auto.
    intros. now apply unavailable_assign.
  - apply walk_exhausts; [assumption|]. apply Ho. auto.
Qed.

Section Staffing.
Variable preferences : dict (dict (list string)).
Variable employees : list string.
Variable first_scan : bool.
Hypothesis Hnodup : NoDup employees.

Lemma steady_assign (c : counters) (st : cell) (e : string) :
  In e employees -> steady employees c st -> (placed st < 2)%nat ->
  unavailable (ctr st) e = false -> steady employees c (assign st e).
Proof.
  intros He (S1 & S2 & S3 & S4 & S5) Hlt Hu.
  apply unavailable_false in Hu. destruct Hu as [Hu _]. fold (cnt st e) in Hu.
  unfold steady. cbn [slot ctr placed assign assigned_count assigned_today].
  repeat split.
  - rewrite length_app. simpl. lia.
  - rewrite total_incr by assumption. lia.
  - intros x. specialize (S3 x). fold (cnt (assign st e) x).
    rewrite cnt_assign. destruct (String.eqb x e); lia.
  - intros x Hx. apply set_add_In in Hx. fold (cnt (assign st e) x).
    rewrite cnt_assign. destruct (String.eqb_spec x e); [lia|].
    destruct Hx as [Hx | Hx]; [congruence | now apply S4].
  - lia.
Qed.

Lemma steady_assign_again (c : counters) (st : cell) (e : string) :
  In e employees -> steady employees c st -> (placed st < 2)%nat ->
  (cnt st e < 5)%nat -> steady employees c (assign_again st e).
Proof.
  intros He (S1 & S2 & S3 & S4 & S5) Hlt Hu.
  unfold steady.
  cbn [slot ctr placed assign_again assigned_count assigned_today].
  repeat split.
  - rewrite length_app. simpl. lia.
  - rewrite total_incr by assumption. lia.
  - intros x. specialize (S3 x). fold (cnt (assign_again st e) x).
    rewrite cnt_assign_again. destruct (String.eqb x e); lia.
  - intros x Hx. fold (cnt (assign_again st e) x).
    rewrite cnt_assign_again. specialize (S4 x Hx).
    destruct (String.eqb_spec x e); [subst; lia | assumption].
  - lia.
Qed.

(** One cell: with room for five more assignments in the staff, the list
    gets exactly two entries. *)
Lemma run_cell_full (day shift : string) (c c' : counters) (s : list string)
      (entered : bool) :
  run_cell preferences employees day shift first_scan c = Ok (s, c', entered) ->
  (forall e, count_of (assigned_count c) e <= 5)%nat ->
  (forall e, In e (assigned_today c) -> 1 <= count_of (assigned_count c) e)%nat ->
  (total employees (assigned_count c) + 5 <= 5 * length employees)%nat ->
  length s = 2%nat
  /\ total employees (assigned_count c')
     = (total employees (assigned_count c) + 2)%nat
  /\ (forall e, count_of (assigned_count c') e <= 5)%nat
  /\ (forall e, In e (assigned_today c') ->
                1 <= count_of (assigned_count c') e)%nat.
Proof.
  intros H H5 H1 Hcap.
  destruct (run_cell_inv _ _ _ _ _ _ H)
    as (ordered & st1 & st2 & st3 & Ho & E1 & E2 & E & E3 & -> & ->).
  assert (T1 : steady employees c st1).
  { subst st1. apply walk_inv_placed.
    - intros st e He Hs Hlt Hu. apply steady_assign; auto. now apply Ho.
    - simpl. lia.
    - unfold steady, cnt. simpl. repeat split; auto; lia. }
  assert (G : steady employees c st3 /\ placed st3 = 2%nat).
  { destruct (Nat.ltb_spec (placed st1) 2) as [Hlt | Hge].
    - assert (Hu : forall e, In e employees -> unavailable (ctr st1) e = true).
      { subst st1. now apply walk_leaves_nobody. }
      assert (E2' : st2 = st1).
      { rewrite E2. destruct first_scan; [|reflexivity].
        cbn [andb]. now apply first_fallback_noop. }
      rewrite E2' in *. clear E2 E2'.
      apply Nat.ltb_lt in Hlt. rewrite Hlt in E. subst entered. subst st3.
      apply Nat.ltb_lt in Hlt.
      destruct T1 as (S1 & S2 & S3 & S4 & S5).
      split.
      + apply last_resort_inv; [|unfold steady; auto].
        intros st e He Hs Hp Hc. now apply steady_assign_again.
      + rewrite last_resort_fills by assumption.
        pose proof (@capacity_bound (cnt st1) employees
                      (fun e _ => S3 e)) as Hb.
        assert (Hb' : forall e, In e employees -> (cnt st1 e < 5)%nat ->
                                (1 <= cnt st1 e)%nat).
        { intros e He Hc. specialize (Hu e He). apply unavailable_true in Hu.
          destruct Hu as [Hu | Hu]; [unfold cnt in Hc; lia | now apply S4]. }
        specialize (Hb Hb'). unfold total in S2, Hcap. unfold cnt in Hb at 1.
        change (fun e => count_of (assigned_count (ctr st1)) e)
          with (count_of (assigned_count (ctr st1))) in Hb.
        lia.
    - assert (E2' : st2 = st1).
      { rewrite E2. now rewrite andb_false_r. }
      rewrite E2' in *. apply Nat.ltb_ge in Hge. rewrite Hge in E.
      subst entered. subst st3. split; [assumption|].
      apply Nat.ltb_ge in Hge. destruct T1 as (_ & _ & _ & _ & S5). lia. }
  destruct G as [(S1 & S2 & S3 & S4 & _) Hp].
  repeat split; [lia | lia | apply S3 | apply S4].
Qed.
End Staffing.

Section StaffedWeek.
Variable preferences : dict (dict (list string)).
Variable employees : list string.
Variable first_scan : bool.
Hypothesis Hnodup : NoDup employees.

(** One day: with room for nine more assignments, each of the three lists
    gets two entries. *)
Lemma run_day_full (day : string) (counts counts' : dict nat)
      (slots : list (list string)) (entered : bool) :
  run_day preferences employees first_scan day counts
  = Ok (slots, counts', entered) ->
  (forall e, count_of counts e <= 5)%nat ->
  (total employees counts + 9 <= 5 * length employees)%nat ->
  Forall (fun s => length s = 2%nat) slots
  /\ total employees counts' = (total employees counts + 6)%nat
  /\ (forall e, count_of counts' e <= 5)%nat.
Proof.
  unfold run_day. intros H H5 Hcap. inv_ok.
  destruct a as [[slots0 c0] entered0]. injection H as <- <- <-.
  assert (G : Forall (fun s => length s = 2%nat) slots0
              /\ total employees (assigned_count c0)
                 = (total employees counts + 2 * length VALID_SHIFTS)%nat
              /\ (forall e, count_of (assigned_count c0) e <= 5)%nat
              /\ (forall e, In e (assigned_today c0) ->
                            1 <= count_of (assigned_count c0) e)%nat).
  { apply (@for_each_inv_prefix _ _ _
             (fun pre (s : list (list string) * counters * bool) =>
                let '(slots, c, _) := s in
                Forall (fun s => length s = 2%nat) slots
                /\ total employees (assigned_count c)
                   = (total employees counts + 2 * length pre)%nat
                /\ (forall e, count_of (assigned_count c) e <= 5)%nat
                /\ (forall e, In e (assigned_today c) ->
                              1 <= count_of (assigned_count c) e)%nat)
             VALID_SHIFTS _ (slots0, c0, entered0)) with (3 := Ha).
    - simpl. repeat split; auto. intros e [].
    - intros pre shift post [[sl c] en] [[sl' c'] en'] Hpre (F & T & C & D) Hb.
      cbv beta iota in Hb. inv_ok. destruct a as [[s c1] e1].
      injection Hb as <- <- <-.
      assert (Hl : (length pre <= 2)%nat).
      { apply (f_equal (@length string)) in Hpre.
        rewrite length_app in Hpre. simpl in Hpre. lia. }
      destruct (@run_cell_full _ _ _ Hnodup _ _ _ _ _ _ Ha0 C D)
        as (L1 & T1 & C1 & D1); [lia|].
      repeat split; auto.
      + apply Forall_app. split; [assumption | repeat constructor; assumption].
      + rewrite length_app. simpl. lia. }
  destruct G as (F & T & C & _). simpl in T. repeat split; auto.
Qed.

Lemma total_initial (emps : list string) :
  total emps (fold_left (fun d emp => dict_set d emp O) employees []) = O.
Proof.
  unfold total. induction emps as [|x xs IH]; simpl; [reflexivity|].
  rewrite IH. now rewrite initial_counts.
Qed.

(** The week: from nine employees on, all 21 lists get two entries. *)
Lemma run_week_full (cells : list (list (list string))) (counts : dict nat)
      (entered : bool) :
  run_week preferences employees first_scan = Ok (cells, counts, entered) ->
  (9 <= length employees)%nat ->
  Forall (Forall (fun s => length s = 2%nat)) cells.
Proof.
  unfold run_week. intros H Hn.
  assert (G : Forall (Forall (fun s => length s = 2%nat)) cells
              /\ total employees counts = (6 * length DAYS_OF_WEEK)%nat
              /\ (forall e, count_of counts e <= 5)%nat).
  { apply (@for_each_inv_prefix _ _ _
             (fun pre (s : list (list (list string)) * dict nat * bool) =>
                let '(days, counts, _) := s in
                Forall (Forall (fun s => length s = 2%nat)) days
                /\ total employees counts = (6 * length pre)%nat
                /\ (forall e, count_of counts e <= 5)%nat)
             DAYS_OF_WEEK _ (cells, counts, entered)) with (3 := H).
    - split; [constructor|]. split; [apply total_initial|].
      intros e. rewrite initial_counts by reflexivity. lia.
    - intros pre day post [[days cs] en] [[days' cs'] en'] Hpre (F & T & C) Hb.
      cbv beta iota in Hb. inv_ok. destruct a as [[slots cs1] e1].
      injection Hb as <- <- <-.
      assert (Hl : (length pre <= 6)%nat).
      { apply (f_equal (@length string)) in Hpre.
        rewrite length_app in Hpre. simpl in Hpre. lia. }
      destruct (run_day_full _ _ Ha C) as (F1 & T1 & C1); [lia|].
      repeat split; auto.
      + apply Forall_app. split; [assumption | repeat constructor; assumption].
      + rewrite length_app. simpl. lia. }
  apply G.
Qed.
End StaffedWeek.

(** For every valid input with at least nine employees, the schedule
    returned has the seven days, each with the three shifts, and every
    shift list has exactly two entries; they need not be two employees,
    see [twelve_do_not_suffice]. *)
Lemma two_entries_from_nine (items : list (pyval * pyval))
        (sched : schedule) :
  generate_schedule (PyDict items) = Ok sched ->
  (9 <= length items)%nat ->
  map fst sched = DAYS_OF_WEEK
  /\ forall day shifts, In (day, shifts) sched ->
       map fst shifts = VALID_SHIFTS
       /\ forall shift l, In (shift, l) shifts -> length l = 2%nat.
Proof.
  intros H Hn. apply generate_schedule_ok in H. destruct H as [entered H].
  apply generate_schedule_with_ok in H.
  destruct H as (items' & prefs & cells & counts & E & Hc & _ & Hw & ->).
  injection E as <-.
  pose proof (run_week_spec _ _ _ Hw) as (L & F & _ & _).
  destruct (schedule_of_shape L F) as (S1 & S2 & _).
  split; [exact S1|]. intros day shifts Hin.
  destruct (S2 _ _ Hin) as [K Hcells]. split; [exact K|].
  intros shift l Hl.
  apply (@run_week_full _ _ _ (@collect_keys_NoDup _ _ Hc)) in Hw.
  - rewrite Forall_forall in Hw. specialize (Hw _ Hcells).
    rewrite Forall_forall in Hw. apply Hw.
    apply (in_map snd) in Hl. exact Hl.
  - now rewrite (@collect_length _ _ Hc).
Qed.

Lemma two_entries_from_nine_example :
  exists sched,
    generate_schedule nine_spread = Ok sched
    /\ forall day shifts, In (day, shifts) sched ->
         map fst shifts = VALID_SHIFTS
         /\ forall shift l, In (shift, l) shifts -> length l = 2%nat.
Proof.
  eexists. split; [vm_compute; reflexivity|].
  refine (proj2 (@two_entries_from_nine
                   (map (fun n => (PyStr n, week_of
                      (fun _ => if mem n ["a"; "b"; "c"] then PyStr "morning"
                                else if mem n ["d"; "e"; "f"] then PyStr "afternoon"
                                else PyStr "evening")))
                        ["a"; "b"; "c"; "d"; "e"; "f"; "g"; "h"; "i"])
                   _ _ _)).
  - vm_compute. reflexivity.
  - simpl. lia.
Defined.

(** C3 as stated fails: with six employees whose preferences are spread
    over the three shifts, the lists of Saturday are empty. *)
Lemma six_do_not_fill_the_week :
  exists sched,
    generate_schedule six_spread = Ok sched
    /\ at2 sched "Saturday" "morning" = []
    /\ ~ (2 <= length (at2 sched "Saturday" "morning"))%nat.
Proof.
  eexists. split; [vm_compute; reflexivity|].
  split; [reflexivity | vm_compute; lia].
Qed.

(* ================================================================== *)
(** * The shape of a normalised preference *)

Lemma priority_entry_ok (pr pr' : dict Z) (n n' : nat)
      (seen seen' : list string) (k p : pyval) :
  priority_entry (pr, n, seen) (k, p) = Ok (pr', n', seen') ->
  exists t z, k = PyStr t /\ mem (strip (lower t)) VALID_SHIFTS = true
              /\ as_int p = Some z /\ (1 <= z)%Z
              /\ pr' = dict_set pr (strip (lower t)) z.
Proof.
  unfold priority_entry. destruct k; try discriminate.
  destruct (mem (strip (lower s)) VALID_SHIFTS) eqn:Em; [|discriminate].
  cbn [negb]. destruct (mem _ seen); [discriminate|].
  destruct (2 <? S n)%nat; [discriminate|].
  destruct (as_int p) as [z|]; [|discriminate].
  destruct (Z.ltb_spec z 1); [discriminate|].
  intros E. injection E as <- _ _. exists s, z. auto.
Qed.

Lemma priority_loop_keys (pri_map : list (pyval * pyval)) (pr pr' : dict Z)
      (n n' : nat) (seen seen' : list string) :
  for_each priority_entry pri_map (pr, n, seen) = Ok (pr', n', seen') ->
  NoDup (dict_keys pr) ->
  (forall s, In s (dict_keys pr) -> In s VALID_SHIFTS) ->
  NoDup (dict_keys pr')
  /\ (forall s, In s (dict_keys pr') -> In s VALID_SHIFTS).
Proof.
  revert pr n seen.
  induction pri_map as [|[k p] pri_map IH]; intros pr n seen; simpl.
  - intros H. injection H as <- _ _. auto.
  - intros H Hnd Hv. inv_ok. destruct a as [[pr1 n1] seen1].
    apply priority_entry_ok in Ha.
    destruct Ha as (t & z & _ & Hm & _ & _ & ->).
    apply (IH _ _ _ H).
    + now apply dict_keys_set_NoDup.
    + intros x Hx. rewrite dict_keys_set in Hx.
      destruct (mem (strip (lower t)) (dict_keys pr)); [now apply Hv|].
      apply in_app_iff in Hx. destruct Hx as [Hx | [<- | []]];
        [now apply Hv | now apply mem_In].
Qed.

Lemma fill_defaults (shifts : list string) (pr : dict Z) (default_p : Z) :
  (NoDup (dict_keys pr) -> NoDup (dict_keys (with_defaults shifts pr default_p)))
  /\ (forall s, In s (dict_keys (with_defaults shifts pr default_p))
                <-> In s (dict_keys pr) \/ In s shifts).
Proof.
  unfold with_defaults.
  revert pr. induction shifts as [|x xs IH]; intros pr; simpl.
  - split; [auto | intros s; tauto].
  - destruct (IH (if negb (mem x (dict_keys pr))
                  then dict_set pr x default_p else pr)) as [IH1 IH2].
    split.
    + intros Hnd. apply IH1.
      destruct (negb _); [now apply dict_keys_set_NoDup | assumption].
    + intros s. rewrite IH2. clear IH1 IH2.
      destruct (mem x (dict_keys pr)) eqn:E; cbn [negb].
      * apply mem_In in E. intuition (subst; auto).
      * rewrite dict_keys_set, E, in_app_iff. simpl. intuition.
Qed.

Lemma normalize_dict_ok (pri_map : list (pyval * pyval)) (l : list string) :
  normalize_dict pri_map = Ok l ->
  exists pr n seen,
    for_each priority_entry pri_map ([], O, []) = Ok (pr, n, seen)
    /\ l = ranked (with_defaults VALID_SHIFTS pr (default_priority pr)).
Proof.
  unfold normalize_dict.
  destruct (for_each priority_entry pri_map ([], O, [])) as [[[pr n] seen]|e];
    cbn [bind]; [|discriminate].
  intros H. apply Ok_inj in H. exists pr, n, seen. split; [reflexivity|].
  symmetry. exact H.
Qed.

(** Every way of stating a preference other than the list gives the three
    shifts, each once. *)
Lemma normalize_day_Permutation (v : pyval) (l : list string) :
  normalize_day v = Ok l ->
  (forall l0, v <> PyList l0) ->
  Permutation VALID_SHIFTS l.
Proof.
  intros H Hl.
  assert (Hdict : forall items, normalize_dict items = Ok l ->
                                Permutation VALID_SHIFTS l).
  { intros items Hd. apply normalize_dict_ok in Hd.
    destruct Hd as (pr & n & seen & Ha & ->).
    destruct (@priority_loop_keys _ _ _ _ _ _ _ Ha (NoDup_nil _)
                (fun s F => match F with end))
      as [Hnd Hv].
    destruct (fill_defaults VALID_SHIFTS pr (default_priority pr)) as [F1 F2].
    generalize dependent (with_defaults VALID_SHIFTS pr (default_priority pr)).
    intros pr' _ F1 F2.
    apply perm_trans with (l' := dict_keys pr');
      [|apply Permutation_map; apply sorted_Permutation].
    apply NoDup_Permutation.
    - repeat (constructor; [simpl; intuition discriminate|]). constructor.
    - now apply F1.
    - intros s. rewrite F2.
      split; [auto | intros [Hs | Hs]; [now apply Hv | assumption]]. }
  destruct v; cbn [normalize_day] in H; try discriminate.
  - apply Ok_inj in H. subst l. apply sorted_Permutation.
  - apply normalize_str_spec in H. destruct H as [Hs ->].
    destruct Hs as [<- | [<- | [<- | []]]]; vm_compute;
      [apply Permutation_refl | apply perm_swap | ].
    eapply Permutation_trans; [apply perm_skip, perm_swap | apply perm_swap].
  - exfalso. now apply (Hl l0).
  - destruct items.
    + apply Ok_inj in H. subst l. apply sorted_Permutation.
    + now apply (Hdict (p :: items)).
Qed.

(** The list form is stored as it is: three valid names, in any
    combination. *)
Lemma normalize_day_list (l0 : list pyval) (l : list string) :
  normalize_day (PyList l0) = Ok l ->
  map PyStr l = l0 /\ length l = 3%nat
  /\ Forall (fun s => In s VALID_SHIFTS) l.
Proof.
  cbn [normalize_day].
  change (length VALID_SHIFTS) with 3%nat.
  destruct (Nat.eqb_spec (length l0) 3) as [Hlen|]; [|discriminate].
  destruct (forallb _ l0) eqn:Hf; [|discriminate].
  intros H. apply Ok_inj in H. subst l. rewrite forallb_forall in Hf.
  assert (G : map PyStr (strings_of l0) = l0
              /\ Forall (fun s => In s VALID_SHIFTS) (strings_of l0)).
  { clear Hlen. induction l0 as [|v l0 IH];
      [split; [reflexivity | constructor]|].
    destruct IH as [IH1 IH2]; [intros x Hx; apply Hf; now right|].
    specialize (Hf v (or_introl eq_refl)).
    destruct v; try discriminate. cbn [val_in] in Hf. apply mem_In in Hf.
    change (strings_of (PyStr s :: l0)) with (s :: strings_of l0).
    split; [cbn [map]; now rewrite IH1 | constructor; assumption]. }
  destruct G as [G1 G2]. repeat split; auto.
  transitivity (length (map PyStr (strings_of l0)));
    [symmetry; apply length_map | rewrite G1; exact Hlen].
Qed.

(* ================================================================== *)
(** * Course scheduling: the prerequisite graph *)

Lemma adjacent_set (graph : dict (list string)) (k k' : string) (l : list string) :
  adjacent (dict_set graph k l) k' = if String.eqb k' k then l else adjacent graph k'.
Proof.
  unfold adjacent. rewrite dict_get_set. now destruct (String.eqb k' k).
Qed.

Lemma degree_set (in_degree : dict Z) (k k' : string) (n : Z) :
  degree (dict_set in_degree k n) k' = if String.eqb k' k then n else degree in_degree k'.
Proof.
  unfold degree. rewrite dict_get_set. now destruct (String.eqb k' k).
Qed.

Lemma set_add_NoDup (x : string) (s : list string) :
  NoDup s -> NoDup (set_add x s).
Proof.
  intros H. unfold set_add. destruct (mem x s) eqn:E; [assumption|].
  apply mem_false in E. now constructor.
Qed.

Lemma prerequisite_edges (courses : dict (list string)) (p c : string) :
  prerequisite courses p c <-> In (p, c) (edges courses).
Proof.
  unfold prerequisite, edges. rewrite in_flat_map. split.
  - intros (prereqs & Hin & Hp). exists (c, prereqs). split; [assumption|].
    apply in_map_iff. now exists p.
  - intros ([c' prereqs] & Hin & Hp). apply in_map_iff in Hp.
    destruct Hp as (p' & Heq & Hp'). cbn [fst snd] in *.
    injection Heq as -> ->. now exists prereqs.
Qed.

Lemma known_edges (courses : dict (list string)) (x : string) :
  known courses x
  <-> In x (dict_keys courses) \/ In x (map fst (edges courses)).
Proof.
  unfold known. split; (intros [H | H]; [now left | right]).
  - destruct H as [c H]. apply prerequisite_edges in H.
    apply in_map_iff. now exists (x, c).
  - apply in_map_iff in H. destruct H as ([p c] & <- & H).
    exists c. now apply prerequisite_edges.
Qed.

Lemma add_prereq_built (E : list (string * string)) (keys : list string)
      (course : string) (prereqs : list string)
      (st : dict (list string) * dict Z * list string) :
  built E keys st ->
  built (E ++ map (fun prereq => (prereq, course)) prereqs) keys
        (fold_left (add_prereq course) prereqs st).
Proof.
  revert E st. induction prereqs as [|p prereqs IH]; intros E st H.
  - cbn [map fold_left]. now rewrite app_nil_r.
  - cbn [map fold_left].
    replace (E ++ (p, course) :: map (fun prereq => (prereq, course)) prereqs)
      with ((E ++ [(p, course)]) ++ map (fun prereq => (prereq, course)) prereqs)
      by (now rewrite <- app_assoc).
    apply IH. clear IH.
    destruct st as [[graph in_degree] all_courses].
    destruct H as (H1 & H2 & H3 & H4). cbn [fst snd] in *.
    unfold add_prereq. repeat split; cbn [fst snd].
    + intros q. rewrite adjacent_set, filter_app, map_app. cbn [filter fst snd].
      rewrite (String.eqb_sym p q).
      destruct (String.eqb q p) eqn:Eq.
      * apply String.eqb_eq in Eq. subst q. now rewrite H1.
      * cbn [map]. now rewrite app_nil_r.
    + intros c. rewrite degree_set, filter_app, length_app. cbn [filter fst snd].
      rewrite (String.eqb_sym course c).
      destruct (String.eqb c course) eqn:Eq.
      * apply String.eqb_eq in Eq. subst c. rewrite H2. cbn [length]. lia.
      * cbn [length]. rewrite H2. f_equal. lia.
    + now apply set_add_NoDup.
    + intros H. apply set_add_In in H. rewrite map_app, in_app_iff.
      cbn [map fst In]. destruct H as [-> | H]; [tauto|].
      apply H4 in H. tauto.
    + intros H. apply set_add_In. rewrite map_app, in_app_iff in H.
      cbn [map fst In] in H. rewrite H4. intuition.
Qed.

Lemma add_course_built (courses : dict (list string)) (E : list (string * string))
      (keys : list string) (st : dict (list string) * dict Z * list string) :
  built E keys st ->
  built (E ++ edges courses) (keys ++ dict_keys courses)
        (fold_left add_course courses st).
Proof.
  revert E keys st. induction courses as [|[course prereqs] courses IH];
    intros E keys st H.
  - cbn. now rewrite !app_nil_r.
  - cbn [fold_left]. unfold edges, dict_keys in *. cbn [flat_map map fst snd].
    replace (keys ++ course :: map fst courses)
      with ((keys ++ [course]) ++ map fst courses) by (now rewrite <- app_assoc).
    rewrite app_assoc. apply IH. clear IH.
    destruct st as [[graph in_degree] all_courses].
    unfold add_course. cbn [fst snd].
    apply add_prereq_built.
    destruct H as (H1 & H2 & H3 & H4). cbn [fst snd] in *.
    repeat split; cbn [fst snd]; auto.
    + now apply set_add_NoDup.
    + intros H. apply set_add_In in H. rewrite in_app_iff. cbn [In].
      destruct H as [-> | H]; [tauto|]. apply H4 in H. tauto.
    + intros H. apply set_add_In. rewrite in_app_iff in H. cbn [In] in H.
      rewrite H4. intuition.
Qed.

Lemma build_built (courses : dict (list string)) :
  built (edges courses) (dict_keys courses)
        (fold_left add_course courses ([], [], [])).
Proof.
  apply (@add_course_built courses [] [] ([], [], [])).
  repeat split; cbn; try tauto. constructor.
Qed.

(* ------------------------------------------------------------------ *)
(** The order of strings *)

Lemma ascii_compare_N (a b : ascii) :
  Ascii.compare a b = N.compare (N_of_ascii a) (N_of_ascii b).
Proof. reflexivity. Qed.

Lemma string_compare_trans (c : comparison) (s1 s2 s3 : string) :
  String.compare s1 s2 = c -> String.compare s2 s3 = c -> String.compare s1 s3 = c.
Proof.
  revert s2 s3. induction s1 as [|a1 s1 IH]; intros [|a2 s2] [|a3 s3];
    cbn [String.compare]; try congruence.
  rewrite !ascii_compare_N.
  destruct (N.compare_spec (N_of_ascii a1) (N_of_ascii a2)) as [E12|L12|L12];
    destruct (N.compare_spec (N_of_ascii a2) (N_of_ascii a3)) as [E23|L23|L23];
    try congruence.
  - rewrite E12, E23, N.compare_refl. apply IH.
  - intros _ <-. now rewrite (proj2 (N.compare_lt_iff _ _)) by lia.
  - intros _ <-. now rewrite (proj2 (N.compare_gt_iff _ _)) by lia.
  - intros <- _. now rewrite (proj2 (N.compare_lt_iff _ _)) by lia.
  - intros <- _. now rewrite (proj2 (N.compare_lt_iff _ _)) by lia.
  - intros <- _. now rewrite (proj2 (N.compare_gt_iff _ _)) by lia.
  - intros <- _. now rewrite (proj2 (N.compare_gt_iff _ _)) by lia.
Qed.

Lemma string_leb_trans (s1 s2 s3 : string) :
  String.leb s1 s2 = true -> String.leb s2 s3 = true -> String.leb s1 s3 = true.
Proof.
  unfold String.leb.
  destruct (String.compare s1 s2) eqn:E12; [| |discriminate];
    destruct (String.compare s2 s3) eqn:E23; try discriminate; intros _ _.
  - now rewrite (@string_compare_trans _ _ _ _ E12 E23).
  - apply String.compare_eq_iff in E12. subst. now rewrite E23.
  - apply String.compare_eq_iff in E23. subst. now rewrite E12.
  - now rewrite (@string_compare_trans _ _ _ _ E12 E23).
Qed.

Lemma insert_sorted_alphabetical (x : string) (l : list string) :
  StronglySorted alphabetical l ->
  StronglySorted alphabetical (insert_sorted String.leb x l).
Proof.
  induction 1 as [|h t Hs IH Hh]; cbn [insert_sorted].
  - repeat constructor.
  - destruct (String.leb x h) eqn:E.
    + constructor; [now constructor|]. constructor; [exact E|].
      revert Hh. apply Forall_impl. intros y Hy.
      exact (string_leb_trans _ _ _ E Hy).
    + constructor; [assumption|].
      apply Forall_forall. intros y Hy. apply insert_sorted_In in Hy.
      destruct Hy as [-> | Hy].
      * destruct (String.leb_total x h) as [T | T]; [congruence | exact T].
      * rewrite Forall_forall in Hh. now apply Hh.
Qed.

Lemma sorted_alphabetical (l : list string) :
  StronglySorted alphabetical (sorted String.leb l).
Proof.
  induction l as [|x l IH]; cbn; [constructor|].
  now apply insert_sorted_alphabetical.
Qed.

(** A list in alphabetical order is determined by its elements. *)
Lemma alphabetical_unique (l1 l2 : list string) :
  StronglySorted alphabetical l1 -> StronglySorted alphabetical l2 ->
  Permutation l1 l2 -> l1 = l2.
Proof.
  intros H1. revert l2. induction H1 as [|h1 t1 Hs1 IH Hh1]; intros l2 H2 HP.
  - apply Permutation_nil in HP. now subst.
  - destruct H2 as [|h2 t2 Hs2 Hh2].
    + symmetry in HP. apply Permutation_nil in HP. discriminate.
    + assert (h1 = h2) as ->.
      { rewrite Forall_forall in Hh1, Hh2.
        assert (I1 : In h1 (h2 :: t2))
          by (eapply Permutation_in; [exact HP | now left]).
        assert (I2 : In h2 (h1 :: t1))
          by (eapply Permutation_in; [symmetry; exact HP | now left]).
        destruct I1 as [-> | I1]; [reflexivity|].
        destruct I2 as [-> | I2]; [reflexivity|].
        apply String.leb_antisym; [now apply Hh1 | now apply Hh2]. }
      f_equal. apply IH; [assumption|]. now apply Permutation_cons_inv in HP.
Qed.

(* ------------------------------------------------------------------ *)
(** Prerequisites that are still missing *)

Lemma remaining_zero (E : list (string * string)) (done : list string)
      (c : string) :
  remaining E done c = 0%nat <-> forall p, In (p, c) E -> In p done.
Proof.
  unfold remaining. induction E as [|[p0 c0] E IH]; cbn [filter fst snd length].
  - split; [intros _ p [] | reflexivity].
  - destruct (String.eqb c0 c) eqn:Ec; cbn [andb].
    + apply String.eqb_eq in Ec. subst c0.
      destruct (mem p0 done) eqn:Em; cbn [negb].
      * apply mem_In in Em. rewrite IH. split.
        -- intros H p [Heq | Hin]; [injection Heq as <-; assumption | auto].
        -- intros H p Hin. apply H. now right.
      * apply mem_false in Em. cbn [length]. split; [discriminate|].
        intros H. exfalso. apply Em, H. now left.
    + apply String.eqb_neq in Ec. rewrite IH. split.
      * intros H p [Heq | Hin]; [injection Heq as _ Heq; congruence | auto].
      * intros H p Hin. apply H. now right.
Qed.

Lemma remaining_pop (E : list (string * string)) (done : list string)
      (course c : string) :
  ~ In course done ->
  remaining E done c
  = (remaining E (done ++ [course]) c
     + count_occ string_dec
         (map snd (filter (fun e => String.eqb (fst e) course) E)) c)%nat.
Proof.
  intros Hnot. unfold remaining.
  induction E as [|[p0 c0] E IH]; cbn [filter fst snd length map count_occ].
  - reflexivity.
  - assert (Hmem : mem p0 (done ++ [course])
                   = mem p0 done || String.eqb p0 course).
    { unfold mem. rewrite existsb_app. cbn. now rewrite orb_false_r. }
    rewrite Hmem.
    destruct (String.eqb p0 course) eqn:Ep.
    + apply String.eqb_eq in Ep. subst p0.
      apply mem_false in Hnot. rewrite Hnot. cbn [negb orb andb].
      rewrite andb_true_r, andb_false_r. cbn [map snd count_occ].
      destruct (String.eqb c0 c) eqn:Ec.
      * apply String.eqb_eq in Ec. subst c0. cbn [length].
        destruct (string_dec c c) as [_|N]; [|congruence]. rewrite IH. lia.
      * apply String.eqb_neq in Ec.
        destruct (string_dec c0 c) as [N|_]; [congruence|]. exact IH.
    + rewrite orb_false_r.
      destruct (String.eqb c0 c && negb (mem p0 done)); cbn [length];
        rewrite IH; lia.
Qed.

Lemma remaining_nil (E : list (string * string)) (c : string) :
  remaining E [] c = length (filter (fun e => String.eqb (snd e) c) E).
Proof.
  unfold remaining. f_equal. apply filter_ext. intros e. cbn.
  now rewrite andb_true_r.
Qed.

(* ------------------------------------------------------------------ *)
(** The loops of [schedule_courses] *)

Section CourseLoops.
Variable E : list (string * string).
Variable all_courses : list string.
Variable graph : dict (list string).
Hypothesis Hgraph :
  forall p, adjacent graph p = map snd (filter (fun e => String.eqb (fst e) p) E).
Hypothesis Hall : forall p c, In (p, c) E -> In p all_courses /\ In c all_courses.

Lemma adjacent_edge (course d : string) :
  In d (adjacent graph course) <-> In (course, d) E.
Proof.
  rewrite Hgraph, in_map_iff. split.
  - intros ([p c] & <- & H). apply filter_In in H. destruct H as [H He].
    cbn [fst snd] in *. apply String.eqb_eq in He. now subst.
  - intros H. exists (course, d). split; [reflexivity|].
    apply filter_In. split; [assumption | apply String.eqb_refl].
Qed.

Lemma release_ready (d : string) (rest done queue : list string)
      (in_degree : dict Z) :
  ready E all_courses (d :: rest) done queue in_degree ->
  In d all_courses ->
  ready E all_courses rest done (fst (release (queue, in_degree) d))
        (snd (release (queue, in_degree) d))
  /\ (fst (release (queue, in_degree) d) = queue
      \/ fst (release (queue, in_degree) d) = queue ++ [d]).
Proof.
  intros (R1 & R2 & R3 & R4 & R5) Hd.
  assert (Hpos : (degree in_degree d
                  = Z.of_nat (remaining E done d + count_occ string_dec rest d) + 1)%Z).
  { rewrite R3. cbn [count_occ]. destruct (string_dec d d); [lia | congruence]. }
  assert (Hfresh : ~ In d (done ++ queue)).
  { intros H. apply R4 in H. lia. }
  assert (Hdeg : forall c, degree (dict_set in_degree d (degree in_degree d - 1)%Z) c
                           = Z.of_nat (remaining E done c + count_occ string_dec rest c)).
  { intros c. rewrite degree_set. destruct (String.eqb c d) eqn:Ec.
    - apply String.eqb_eq in Ec. subst c. lia.
    - apply String.eqb_neq in Ec. rewrite R3. cbn [count_occ].
      destruct (string_dec d c); [congruence | reflexivity]. }
  unfold release. cbn [fst snd].
  destruct (degree (dict_set in_degree d (degree in_degree d - 1)%Z) d =? 0)%Z
    eqn:Ez; cbn [fst snd].
  - apply Z.eqb_eq in Ez. split; [|now right].
    repeat split.
    + rewrite app_assoc. apply NoDup_app; [assumption | repeat constructor; auto |].
      intros x Hx [<- | []]. contradiction.
    + intros c Hc. rewrite app_assoc, in_app_iff in Hc.
      destruct Hc as [Hc | [<- | []]]; auto.
    + exact Hdeg.
    + intros c Hc. rewrite app_assoc, in_app_iff in Hc.
      destruct Hc as [Hc | [<- | []]]; [|exact Ez].
      rewrite degree_set. destruct (String.eqb c d) eqn:Ec.
      * apply String.eqb_eq in Ec. subst c. contradiction.
      * now apply R4.
    + intros c Hc Hz. rewrite app_assoc, in_app_iff.
      rewrite degree_set in Hz. destruct (String.eqb c d) eqn:Ec.
      * apply String.eqb_eq in Ec. subst c. right. now left.
      * left. now apply R5.
  - apply Z.eqb_neq in Ez. split; [|now left].
    repeat split; auto.
    + intros c Hc. rewrite degree_set. destruct (String.eqb c d) eqn:Ec.
      * apply String.eqb_eq in Ec. subst c. contradiction.
      * now apply R4.
    + intros c Hc Hz. rewrite degree_set in Hz.
      destruct (String.eqb c d) eqn:Ec.
      * rewrite degree_set, String.eqb_refl in Ez. contradiction.
      * now apply R5.
Qed.

Lemma release_all (rest done queue : list string) (in_degree : dict Z) :
  ready E all_courses rest done queue in_degree ->
  (forall d, In d rest -> In d all_courses) ->
  exists new,
    fst (fold_left release rest (queue, in_degree)) = queue ++ new
    /\ (forall c, In c new -> In c rest)
    /\ ready E all_courses [] done (queue ++ new)
             (snd (fold_left release rest (queue, in_degree))).
Proof.
  revert queue in_degree. induction rest as [|d rest IH]; intros queue in_degree R Hin.
  - exists []. cbn [fold_left fst snd]. rewrite app_nil_r.
    repeat split; [intros c [] | apply R..].
  - cbn [fold_left].
    destruct (@release_ready d rest done queue in_degree R (Hin d (or_introl eq_refl)))
      as [R' Hq].
    destruct (release (queue, in_degree) d) as [queue' in_degree'] eqn:Er.
    cbn [fst snd] in R', Hq.
    destruct (IH queue' in_degree' R' (fun x Hx => Hin x (or_intror Hx)))
      as (new & N1 & N2 & N3).
    destruct Hq as [-> | ->].
    + exists new. split; [exact N1|]. split; [|exact N3].
      intros c Hc. right. auto.
    + exists (d :: new). rewrite <- app_assoc in N1, N3. cbn [app] in N1, N3.
      split; [exact N1|]. split; [|exact N3].
      intros c [<- | Hc]; [now left | right; auto].
Qed.

Lemma pop_ready (course : string) (done queue : list string) (in_degree : dict Z) :
  ready E all_courses [] done (course :: queue) in_degree ->
  ready E all_courses (adjacent graph course) (done ++ [course]) queue in_degree.
Proof.
  intros (R1 & R2 & R3 & R4 & R5).
  assert (Hnot : ~ In course done).
  { intros H. apply NoDup_remove_2 in R1. apply R1. apply in_app_iff. now left. }
  repeat split.
  - now rewrite <- app_assoc.
  - intros c Hc. apply R2. now rewrite <- app_assoc in Hc.
  - intros c. rewrite R3. cbn [count_occ]. rewrite Nat.add_0_r.
    rewrite Hgraph. f_equal. now apply remaining_pop.
  - intros c Hc. apply R4. now rewrite <- app_assoc in Hc.
  - intros c Hc Hz. rewrite <- app_assoc. now apply R5.
Qed.

(** One round of the inner loop takes the [n] courses at the left of the
    queue and leaves in the queue the courses they have released. *)
Lemma semester_spec (n : nat) :
  forall (old new done current : list string) (in_degree : dict Z),
    length old = n ->
    ready E all_courses [] (done ++ current) (old ++ new) in_degree ->
    (forall c, In c new -> exists p, In p current /\ In (p, c) E) ->
    exists new' in_degree',
      semester graph n (old ++ new) in_degree current
      = Returns (current ++ old, new', in_degree')
      /\ ready E all_courses [] (done ++ current ++ old) new' in_degree'
      /\ (forall c, In c new' -> exists p, In p (current ++ old) /\ In (p, c) E).
Proof.
  induction n as [|n IH]; intros old new done current in_degree Hlen R Hnew.
  - destruct old; [|discriminate]. cbn [app semester] in *. rewrite !app_nil_r.
    exists new, in_degree. split; [reflexivity|]. split; [exact R | exact Hnew].
  - destruct old as [|course old]; [discriminate|].
    cbn [app semester length] in *. injection Hlen as Hlen.
    apply pop_ready in R.
    destruct (@release_all _ _ _ _ R) as (fresh & F1 & F2 & F3).
    { intros d Hd. apply adjacent_edge in Hd. now apply Hall in Hd. }
    rewrite F1. rewrite <- !app_assoc in *.
    destruct (IH old (new ++ fresh) done (current ++ [course])
                 (snd (fold_left release (adjacent graph course)
                                 (old ++ new, in_degree))) Hlen)
      as (new' & in_degree' & S1 & S2 & S3).
    + exact F3.
    + intros c Hc. apply in_app_iff in Hc. destruct Hc as [Hc | Hc].
      * destruct (Hnew c Hc) as (p & Hp & He). exists p. split; [|assumption].
        apply in_app_iff. now left.
      * exists course. split; [apply in_app_iff; right; now left|].
        apply adjacent_edge. now apply F2.
    + rewrite <- !app_assoc in S1, S2, S3. cbn [app] in S1, S2, S3.
      exists new', in_degree'. split; [exact S1|]. split; [exact S2 | exact S3].
Qed.

Lemma in_concat_nth (schedule : list (list string)) (c : string) :
  In c (concat schedule)
  <-> exists i, (i < length schedule)%nat /\ In c (nth i schedule []).
Proof.
  rewrite in_concat. split.
  - intros (s & Hs & Hc). destruct (In_nth _ _ [] Hs) as (i & Hi & <-). eauto.
  - intros (i & Hi & Hc). exists (nth i schedule []). split; [|assumption].
    now apply nth_In.
Qed.

Lemma nth_snoc (schedule : list (list string)) (s : list string) (j : nat) :
  nth j (schedule ++ [s]) []
  = if (j <? length schedule)%nat then nth j schedule []
    else if (j =? length schedule)%nat then s else [].
Proof.
  destruct (Nat.ltb_spec j (length schedule)) as [Hlt | Hge].
  - now apply app_nth1.
  - rewrite app_nth2 by assumption.
    destruct (Nat.eqb_spec j (length schedule)) as [-> | Hne].
    + now rewrite Nat.sub_diag.
    + destruct (j - length schedule)%nat as [|[|k]] eqn:Ek; [lia | reflexivity..].
Qed.

Lemma last_as_nth (schedule : list (list string)) :
  last schedule [] = nth (length schedule - 1) schedule [].
Proof.
  induction schedule as [|a [|b l] IH]; try reflexivity.
  cbn [last length nth] in *. rewrite IH. cbn. now rewrite Nat.sub_0_r.
Qed.

Lemma semesters_spec (rounds : nat) :
  forall (queue : list string) (in_degree : dict Z) (schedule : list (list string)),
    ready E all_courses [] (concat schedule) queue in_degree ->
    layered E schedule ->
    (forall c, In c queue -> schedule <> [] ->
               exists p, In p (last schedule []) /\ In (p, c) E) ->
    (length all_courses <= rounds + length (concat schedule))%nat ->
    exists schedule' in_degree',
      semesters rounds graph queue in_degree schedule = Returns schedule'
      /\ ready E all_courses [] (concat schedule') [] in_degree'
      /\ layered E schedule'.
Proof.
  induction rounds as [|rounds IH]; intros queue in_degree schedule R L Hq Hr.
  - destruct queue as [|c queue].
    + exists schedule, in_degree. cbn. auto.
    + exfalso. destruct R as (R1 & R2 & _).
      assert (Hle : (length (concat schedule ++ c :: queue) <= length all_courses)%nat)
        by (apply NoDup_incl_length; [assumption | exact R2]).
      rewrite length_app in Hle. cbn [length] in Hle. lia.
  - destruct queue as [|c queue].
    + exists schedule, in_degree. cbn. auto.
    + cbn [semesters].
      destruct (@semester_spec (length (c :: queue)) (c :: queue) []
                               (concat schedule) [] in_degree eq_refl)
        as (new' & in_degree' & S1 & S2 & S3).
      * now rewrite !app_nil_r.
      * intros x [].
      * rewrite app_nil_r in S1. rewrite S1. cbn [app] in *.
        set (s := sorted String.leb (c :: queue)).
        assert (Hs : forall x, In x s <-> In x (c :: queue))
          by (intros x; apply sorted_In).
        assert (Hcat : Permutation (concat (schedule ++ [s]))
                                   (concat schedule ++ c :: queue)).
        { rewrite concat_app. cbn [concat]. rewrite app_nil_r.
          apply Permutation_app_head. symmetry. apply sorted_Permutation. }
        apply IH.
        -- destruct S2 as (T1 & T2 & T3 & T4 & T5).
           assert (Hiff : forall x, In x (concat (schedule ++ [s]) ++ new')
                                    <-> In x ((concat schedule ++ c :: queue) ++ new')).
           { intros x. rewrite !in_app_iff.
             split; (intros [H | H]; [left | now right]).
             - eapply Permutation_in in H; [|exact Hcat].
               now apply in_app_iff in H.
             - apply in_app_iff in H.
               eapply Permutation_in; [symmetry; exact Hcat | assumption]. }
           repeat split.
           ++ eapply Permutation_NoDup; [|exact T1].
              apply Permutation_app_tail. now symmetry.
           ++ intros x Hx. apply T2. now apply Hiff.
           ++ intros x. rewrite T3. f_equal. f_equal. unfold remaining.
              f_equal. apply filter_ext_in. intros e _. f_equal. f_equal.
              apply eq_true_iff_eq. rewrite !mem_In.
              split; intros H.
              ** eapply Permutation_in; [symmetry; exact Hcat | assumption].
              ** eapply Permutation_in; [exact Hcat | assumption].
           ++ intros x Hx. apply T4. now apply Hiff.
           ++ intros x Hx Hz. apply Hiff. now apply T5.
        -- destruct L as (L1 & L2 & L3). repeat split.
           ++ apply Forall_app. split; [assumption|]. constructor; [|constructor].
              split; [|apply sorted_alphabetical].
              intros Hnil. assert (Hc : In c s) by (apply Hs; now left).
              rewrite Hnil in Hc. destruct Hc.
           ++ intros j x p Hx He. rewrite nth_snoc in Hx.
              destruct (Nat.ltb_spec j (length schedule)) as [Hlt | Hge].
              ** destruct (L2 j x p Hx He) as (i & Hi & Hp). exists i.
                 split; [assumption|]. rewrite nth_snoc.
                 destruct (Nat.ltb_spec i (length schedule)); [assumption | lia].
              ** destruct (Nat.eqb_spec j (length schedule)) as [-> | Hne];
                   [|destruct Hx].
                 apply Hs in Hx.
                 destruct R as (_ & _ & R3 & R4 & _).
                 assert (Hz : remaining E (concat schedule) x = 0%nat).
                 { specialize (R3 x). rewrite R4 in R3
                     by (apply in_app_iff; now right).
                   cbn [count_occ] in R3. lia. }
                 rewrite remaining_zero in Hz. specialize (Hz p He).
                 apply in_concat_nth in Hz. destruct Hz as (i & Hi & Hp).
                 exists i. split; [assumption|]. rewrite nth_snoc.
                 destruct (Nat.ltb_spec i (length schedule)); [assumption | lia].
           ++ intros j x Hx. rewrite nth_snoc in Hx.
              destruct (Nat.ltb_spec (S j) (length schedule)) as [Hlt | Hge].
              ** destruct (L3 j x Hx) as (p & He & Hp). exists p.
                 split; [assumption|]. rewrite nth_snoc.
                 destruct (Nat.ltb_spec j (length schedule)); [assumption | lia].
              ** destruct (Nat.eqb_spec (S j) (length schedule)) as [Heq | Hne];
                   [|destruct Hx].
                 apply Hs in Hx.
                 assert (Hne : schedule <> [])
                   by (intros ->; discriminate).
                 destruct (Hq x Hx Hne) as (p & Hp & He). exists p.
                 split; [assumption|]. rewrite nth_snoc.
                 destruct (Nat.ltb_spec j (length schedule)); [|lia].
                 rewrite last_as_nth in Hp.
                 replace j with (length schedule - 1)%nat by lia. exact Hp.
        -- intros x Hx _. rewrite last_last.
           destruct (S3 x Hx) as (p & Hp & He). exists p.
           split; [now apply Hs | assumption].
        -- eapply Permutation_length in Hcat. rewrite Hcat, length_app.
           cbn [length]. lia.
Qed.

End CourseLoops.

(* ------------------------------------------------------------------ *)
(** Circular prerequisites *)

Lemma chain_suffix (R : string -> string -> Prop) (l1 l2 : list string) :
  chain R (l1 ++ l2) -> l2 <> [] -> chain R l2.
Proof.
  induction l1 as [|x l1 IH]; intros H Hne; [exact H|].
  apply IH; [|assumption]. cbn [app] in H. inversion H as [y Hy | y z l Hr Hc Hy].
  - destruct l1; [destruct l2; [contradiction | discriminate] | discriminate].
  - exact Hc.
Qed.

Lemma chain_clos_trans (R : string -> string -> Prop) (l : list string)
      (a b : string) (l' : list string) :
  chain R (a :: l ++ b :: l') -> clos_trans string R a b.
Proof.
  revert a. induction l as [|x l IH]; intros a H; cbn [app] in H;
    inversion H as [|y z t Hr Hc]; subst.
  - now apply t_step.
  - eapply t_trans; [apply t_step; exact Hr | now apply IH].
Qed.

(** A non-empty set of courses, each with a prerequisite in the set, holds
    a course that is required for itself. *)
Lemma knot_circular (R : string -> string -> Prop) (U : list string) :
  U <> [] ->
  (forall c, In c U -> exists p, In p U /\ R p c) ->
  exists c, clos_trans string R c c.
Proof.
  intros Hne Hknot.
  assert (Hpath : forall n, exists l, length l = S n /\ chain R l /\ incl l U).
  { induction n as [|n IH].
    - destruct U as [|u U]; [contradiction|]. exists [u].
      repeat split; [constructor | intros x [<- | []]; now left].
    - destruct IH as (l & Hlen & Hc & Hi).
      destruct l as [|h t]; [discriminate|].
      destruct (Hknot h (Hi h (or_introl eq_refl))) as (p & Hp & Hr).
      exists (p :: h :: t). repeat split.
      + cbn [length] in *. lia.
      + now constructor.
      + intros x [<- | Hx]; [assumption | now apply Hi]. }
  destruct (Hpath (length U)) as (l & Hlen & Hc & Hi).
  assert (Hdup : ~ NoDup l).
  { intros Hnd. apply (NoDup_incl_length Hnd) in Hi. lia. }
  apply not_NoDup in Hdup;
    [|intros x y; destruct (string_dec x y); [now left | now right]].
  destruct Hdup as (a & l1 & l2 & l3 & ->).
  exists a. apply chain_suffix in Hc; [|discriminate].
  eapply chain_clos_trans. exact Hc.
Qed.

Lemma NoDup_app_disjoint (l1 l2 : list string) (x : string) :
  NoDup (l1 ++ l2) -> In x l1 -> In x l2 -> False.
Proof.
  induction l1 as [|h l1 IH]; intros Hnd H1 H2; [destruct H1|].
  cbn [app] in Hnd. apply NoDup_cons_iff in Hnd. destruct Hnd as [Hh Hnd].
  destruct H1 as [-> | H1]; [|now apply IH].
  apply Hh, in_app_iff. now right.
Qed.

Lemma NoDup_concat_nth (schedule : list (list string)) (c : string) (i j : nat) :
  NoDup (concat schedule) ->
  In c (nth i schedule []) -> In c (nth j schedule []) -> i = j.
Proof.
  revert i j. induction schedule as [|s schedule IH]; intros i j Hnd Hi Hj.
  - destruct i; destruct Hi.
  - cbn [concat] in Hnd.
    assert (Hin : forall k, In c (nth k schedule []) -> In c (concat schedule)).
    { intros k Hk. apply in_concat. exists (nth k schedule []).
      split; [|assumption]. apply nth_In.
      destruct (Nat.lt_ge_cases k (length schedule)) as [|Hge]; [assumption|].
      rewrite nth_overflow in Hk by assumption. destruct Hk. }
    destruct i as [|i], j as [|j]; cbn [nth] in Hi, Hj.
    + reflexivity.
    + exfalso. apply Hin in Hj. exact (NoDup_app_disjoint _ _ _ Hnd Hi Hj).
    + exfalso. apply Hin in Hi. exact (NoDup_app_disjoint _ _ _ Hnd Hj Hi).
    + f_equal. apply IH; [|assumption..]. now apply NoDup_app_remove_l in Hnd.
Qed.

(* ------------------------------------------------------------------ *)
(** [schedule_courses] *)

Lemma unfinished_circular (courses : dict (list string))
      (all_courses done : list string) (in_degree : dict Z) :
  (forall c, In c all_courses <-> known courses c) ->
  ready (edges courses) all_courses [] done [] in_degree ->
  (exists c, In c all_courses /\ ~ In c done) ->
  circular courses.
Proof.
  intros Hall (R1 & R2 & R3 & R4 & R5) (c0 & Hc0 & Hn0).
  rewrite app_nil_r in *.
  apply (@knot_circular (prerequisite courses)
           (filter (fun c => negb (mem c done)) all_courses)).
  - intros Hnil. assert (H : In c0 (filter (fun c => negb (mem c done)) all_courses)).
    { apply filter_In. split; [assumption|].
      apply mem_false in Hn0. now rewrite Hn0. }
    rewrite Hnil in H. destruct H.
  - intros c Hc. apply filter_In in Hc. destruct Hc as [Hc Hd].
    apply negb_true_iff, mem_false in Hd.
    assert (Hpos : remaining (edges courses) done c <> 0%nat).
    { intros Hz. apply Hd, R5; [assumption|]. rewrite R3, Hz. reflexivity. }
    rewrite remaining_zero in Hpos.
    assert (Hex : exists p, In (p, c) (edges courses) /\ ~ In p done).
    { clear - Hpos. induction (edges courses) as [|[p c'] E IH].
      - exfalso. apply Hpos. intros p [].
      - destruct (string_dec c' c) as [-> | Hne].
        + destruct (in_dec string_dec p done) as [Hin | Hnin].
          * destruct IH as (q & Hq & Hnq).
            -- intros H. apply Hpos. intros q [Heq | Hq]; [|auto].
               now injection Heq as <-.
            -- exists q. split; [now right | assumption].
          * exists p. split; [now left | assumption].
        + destruct IH as (q & Hq & Hnq).
          * intros H. apply Hpos. intros q [Heq | Hq]; [|auto].
            injection Heq as _ Heq. congruence.
          * exists q. split; [now right | assumption]. }
    destruct Hex as (p & He & Hp). exists p. split.
    + apply filter_In. split.
      * apply Hall. right. exists c. now apply prerequisite_edges.
      * apply mem_false in Hp. now rewrite Hp.
    + now apply prerequisite_edges.
Qed.

Lemma schedule_courses_spec (iteration : list string -> list string)
      (courses : dict (list string)) :
  (forall s, Permutation s (iteration s)) ->
  match schedule_courses iteration courses with
  | Returns schedule => course_plan courses schedule
  | Raises CircularDependency => circular courses
  | Raises EmptyQueue => False
  | Running => False
  end.
Proof.
  intros Hiter. unfold schedule_courses.
  destruct courses as [|item courses'] eqn:Hcourses.
  { split; [split; [constructor | split]|split; [constructor | intros c; split]].
    - intros j c p Hc. destruct j; destruct Hc.
    - intros j c Hc. destruct j; destruct Hc.
    - intros [].
    - intros [[] | [c' (prereqs & [] & _)]]. }
  rewrite <- Hcourses.
  assert (Hne : exists c, In c (dict_keys courses))
    by (subst courses; exists (fst item); now left).
  clear Hcourses item courses'.
  pose proof (build_built courses) as B.
  destruct (fold_left add_course courses ([], [], []))
    as [[graph in_degree] all_courses].
  destruct B as (B1 & B2 & B3 & B4). cbn [fst snd] in *.
  assert (Hknown : forall c, In c all_courses <-> known courses c).
  { intros c. rewrite known_edges. apply B4. }
  assert (Hall : forall p c, In (p, c) (edges courses) ->
                             In p all_courses /\ In c all_courses).
  { intros p c He. apply prerequisite_edges in He. split; apply Hknown.
    - right. now exists c.
    - left. destruct He as (prereqs & Hin & _).
      apply in_map_iff. now exists (c, prereqs). }
  set (queue := filter (fun course => (degree in_degree course =? 0)%Z)
                       (iteration all_courses)).
  assert (R0 : ready (edges courses) all_courses [] [] queue in_degree).
  { repeat split; cbn [app].
    - apply NoDup_filter. eapply Permutation_NoDup; [apply Hiter | exact B3].
    - intros c Hc. apply filter_In in Hc. destruct Hc as [Hc _].
      eapply Permutation_in; [symmetry; apply Hiter | exact Hc].
    - intros c. rewrite B2, remaining_nil. cbn [count_occ]. f_equal. lia.
    - intros c Hc. apply filter_In in Hc. destruct Hc as [_ Hc].
      now apply Z.eqb_eq.
    - intros c Hc Hz. apply filter_In. split.
      + eapply Permutation_in; [apply Hiter | exact Hc].
      + now apply Z.eqb_eq. }
  destruct queue as [|c0 queue'] eqn:Hqueue.
  { destruct Hne as [c Hc].
    apply (@unfinished_circular courses all_courses [] in_degree Hknown R0).
    exists c. split; [|intros []]. apply Hknown. now left. }
  rewrite <- Hqueue in *. clear Hqueue c0 queue'.
  destruct (@semesters_spec (edges courses) all_courses graph B1 Hall
              (length all_courses) queue in_degree [] R0)
    as (schedule & in_degree' & S1 & S2 & S3).
  { split; [constructor | split].
    - intros j c p Hc. destruct j; destruct Hc.
    - intros j c Hc. destruct j; destruct Hc. }
  { intros c _ H. now contradiction H. }
  { cbn. lia. }
  rewrite S1, <- length_concat.
  destruct (Nat.eqb_spec (length (concat schedule)) (length all_courses))
    as [Heq | Hneq]; cbn [negb].
  - destruct S2 as (R1 & R2 & _). rewrite app_nil_r in *.
    repeat split; try apply S3; try assumption.
    + intros Hc. apply Hknown. now apply R2.
    + intros Hc. apply Hknown in Hc. revert c Hc.
      apply NoDup_length_incl; [assumption | lia | exact R2].
  - apply (@unfinished_circular courses all_courses (concat schedule) in_degree'
             Hknown S2).
    destruct S2 as (R1 & R2 & _). rewrite app_nil_r in *.
    destruct (Exists_dec (fun c => ~ In c (concat schedule)) all_courses) as [Hex | Hnex].
    + intros c. destruct (in_dec string_dec c (concat schedule)); [right | left]; tauto.
    + apply Exists_exists in Hex. exact Hex.
    + exfalso. apply Hneq. apply Nat.le_antisymm.
      * now apply NoDup_incl_length.
      * apply NoDup_incl_length; [assumption|]. intros c Hc.
        destruct (in_dec string_dec c (concat schedule)) as [|Hn]; [assumption|].
        exfalso. apply Hnex. apply Exists_exists. now exists c.
Qed.

(** In a plan no course is required for itself. *)
Lemma course_plan_acyclic (courses : dict (list string))
      (schedule : list (list string)) :
  course_plan courses schedule -> ~ circular courses.
Proof.
  intros ((_ & L2 & _) & _ & Hcover) [c Hc].
  assert (Hdown : forall a b, clos_trans string (prerequisite courses) a b ->
            forall j, In b (nth j schedule []) ->
                      exists i, (i < j)%nat /\ In a (nth i schedule [])).
  { induction 1 as [a b Hab | a m b _ IH1 _ IH2]; intros j Hj.
    - apply prerequisite_edges in Hab. eapply L2; eassumption.
    - destruct (IH2 j Hj) as (i & Hi & Hm).
      destruct (IH1 i Hm) as (i' & Hi' & Ha). exists i'. split; [lia | assumption]. }
  assert (Hkey : forall a b, clos_trans string (prerequisite courses) a b ->
                             In b (dict_keys courses)).
  { induction 1 as [a b (prereqs & Hin & _) | a m b _ _ _ IH]; [|exact IH].
    apply in_map_iff. now exists (b, prereqs). }
  assert (Hnever : forall j, ~ In c (nth j schedule [])).
  { induction j as [j IH] using lt_wf_ind. intros Hj.
    destruct (Hdown c c Hc j Hj) as (i & Hi & Hci). exact (IH i Hi Hci). }
  assert (Hk : known courses c).
  { left. exact (Hkey c c Hc). }
  apply Hcover, in_concat_nth in Hk. destruct Hk as (j & _ & Hj).
  exact (Hnever j Hj).
Qed.

(** Two plans of the same courses are equal. *)
Lemma course_plan_unique (courses : dict (list string))
      (s1 s2 : list (list string)) :
  course_plan courses s1 -> course_plan courses s2 -> s1 = s2.
Proof.
  assert (Hside : forall s1 s2,
            course_plan courses s1 -> course_plan courses s2 ->
            forall j, (forall i, (i < j)%nat ->
                                 forall x, In x (nth i s1 []) <-> In x (nth i s2 [])) ->
                      forall x, In x (nth j s1 []) -> In x (nth j s2 [])).
  { clear s1 s2. intros s1 s2 ((_ & A2 & A3) & And & Ac) ((_ & B2 & B3) & Bnd & Bc)
           j IH x Hx.
    assert (Hk : In x (concat s2)).
    { apply Bc, Ac, in_concat_nth. exists j. split; [|assumption].
      destruct (Nat.lt_ge_cases j (length s1)) as [|Hge]; [assumption|].
      rewrite nth_overflow in Hx by assumption. destruct Hx. }
    apply in_concat_nth in Hk. destruct Hk as (k & _ & Hk).
    destruct (Nat.lt_trichotomy k j) as [Hlt | [-> | Hgt]]; [|assumption|].
    - exfalso. apply (IH k Hlt) in Hk.
      pose proof (NoDup_concat_nth _ _ _ _ And Hk Hx). lia.
    - exfalso. destruct k as [|k]; [lia|].
      destruct (B3 k x Hk) as (p & He & Hp).
      destruct (A2 j x p Hx He) as (i & Hi & Hpi).
      apply (IH i Hi) in Hpi.
      pose proof (NoDup_concat_nth _ _ _ _ Bnd Hp Hpi). lia. }
  intros P1 P2.
  assert (Hsame : forall j x, In x (nth j s1 []) <-> In x (nth j s2 [])).
  { induction j as [j IH] using lt_wf_ind. intros x. split.
    - now apply (Hside s1 s2).
    - apply (Hside s2 s1); try assumption.
      intros i Hi y. symmetry. now apply IH. }
  assert (Hnodup : forall (s : list (list string)) j,
            NoDup (concat s) -> NoDup (nth j s [])).
  { intros s. induction s as [|a s IH]; intros j Hnd.
    - destruct j; constructor.
    - cbn [concat] in Hnd. destruct j as [|j]; cbn [nth].
      + now apply NoDup_app_remove_r in Hnd.
      + apply IH. now apply NoDup_app_remove_l in Hnd. }
  assert (Hsorted : forall (s : list (list string)) j,
            Forall (fun s => s <> [] /\ StronglySorted alphabetical s) s ->
            StronglySorted alphabetical (nth j s [])).
  { intros s j F. destruct (Nat.lt_ge_cases j (length s)) as [Hlt | Hge].
    - rewrite Forall_forall in F. apply F. now apply nth_In.
    - rewrite nth_overflow by assumption. constructor. }
  assert (Hnth : forall j, nth j s1 [] = nth j s2 []).
  { intros j. destruct P1 as ((A1 & _) & And & _), P2 as ((B1 & _) & Bnd & _).
    apply alphabetical_unique; [now apply Hsorted | now apply Hsorted |].
    apply NoDup_Permutation; [now apply Hnodup | now apply Hnodup | apply Hsame]. }
  assert (Hlen : forall s s' : list (list string),
            (forall j, nth j s [] = nth j s' []) ->
            Forall (fun s => s <> [] /\ StronglySorted alphabetical s) s' ->
            (length s' <= length s)%nat).
  { intros s s' Heq F. destruct (Nat.le_gt_cases (length s') (length s)) as [|Hgt];
      [assumption|]. exfalso.
    rewrite Forall_forall in F.
    destruct (F (nth (length s) s' []) (nth_In _ _ Hgt)) as [Hne _].
    apply Hne. rewrite <- Heq. now apply nth_overflow. }
  apply (nth_ext _ _ [] []); [|intros j _; apply Hnth].
  destruct P1 as ((A1 & _) & _), P2 as ((B1 & _) & _).
  apply Nat.le_antisymm; [apply (Hlen s2 s1) | apply (Hlen s1 s2)]; auto.
Qed.

(** X1 (prerequisites first).  In a schedule that [schedule_courses]
    returns, every prerequisite of a course stands in a strictly earlier
    semester than the course. *)
Theorem prerequisites_come_first (iteration : list string -> list string)
        (courses : dict (list string)) (schedule : list (list string)) :
  (forall s, Permutation s (iteration s)) ->
  schedule_courses iteration courses = Returns schedule ->
  forall prereq course,
    prerequisite courses prereq course ->
    exists i j, (i < j)%nat /\ In prereq (nth i schedule [])
                /\ In course (nth j schedule []).
Proof.
  intros Hiter Hret prereq course Hp.
  pose proof (@schedule_courses_spec _ courses Hiter) as Hspec.
  rewrite Hret in Hspec. destruct Hspec as ((_ & L2 & _) & _ & Hcover).
  assert (Hk : known courses course).
  { left. destruct Hp as (prereqs & Hin & _). apply in_map_iff.
    now exists (course, prereqs). }
  apply Hcover, in_concat_nth in Hk. destruct Hk as (j & _ & Hj).
  apply prerequisite_edges in Hp.
  destruct (L2 j course prereq Hj Hp) as (i & Hi & Hpi).
  exists i, j. auto.
Qed.

Lemma prerequisites_come_first_witness :
  exists i j, (i < j)%nat
              /\ In "Programming" (nth i [["Programming"]; ["DataStructures"];
                                          ["Algorithms"]] [])
              /\ In "DataStructures" (nth j [["Programming"]; ["DataStructures"];
                                             ["Algorithms"]] []).
Proof.
  apply (@prerequisites_come_first (fun s => s) example_courses
           [["Programming"]; ["DataStructures"]; ["Algorithms"]]
           (fun s => Permutation_refl s) eq_refl).
  exists ["Programming"]. split; [right; left; reflexivity | left; reflexivity].
Defined.

(** X2 (every course once).  A returned schedule holds every course of the
    input, the keys and the courses that occur as prerequisites only, exactly
    once; no semester is empty and each one is in alphabetical order. *)
Theorem every_course_once (iteration : list string -> list string)
        (courses : dict (list string)) (schedule : list (list string)) :
  (forall s, Permutation s (iteration s)) ->
  schedule_courses iteration courses = Returns schedule ->
  NoDup (concat schedule)
  /\ (forall course, In course (concat schedule) <-> known courses course)
  /\ Forall (fun s => s <> [] /\ StronglySorted alphabetical s) schedule.
Proof.
  intros Hiter Hret.
  pose proof (@schedule_courses_spec _ courses Hiter) as Hspec.
  rewrite Hret in Hspec. destruct Hspec as ((L1 & _) & Hnd & Hcover). auto.
Qed.

Lemma every_course_once_witness :
  NoDup (concat [["Programming"]; ["DataStructures"]; ["Algorithms"]])
  /\ (forall course,
         In course (concat [["Programming"]; ["DataStructures"]; ["Algorithms"]])
         <-> known example_courses course)
  /\ Forall (fun s => s <> [] /\ StronglySorted alphabetical s)
            [["Programming"]; ["DataStructures"]; ["Algorithms"]].
Proof.
  exact (@every_course_once (fun s => s) example_courses
           [["Programming"]; ["DataStructures"]; ["Algorithms"]]
           (fun s => Permutation_refl s) eq_refl).
Defined.

(** X3 (as early as possible).  The first semester holds exactly the courses
    without prerequisites; a course of a later semester has a prerequisite
    in the semester just before, and all its prerequisites by then. *)
Theorem courses_as_early_as_possible (iteration : list string -> list string)
        (courses : dict (list string)) (schedule : list (list string)) :
  (forall s, Permutation s (iteration s)) ->
  schedule_courses iteration courses = Returns schedule ->
  (forall course, In course (nth 0 schedule [])
                  <-> known courses course
                      /\ forall prereq, ~ prerequisite courses prereq course)
  /\ (forall j course, In course (nth (S j) schedule []) ->
        (exists prereq, prerequisite courses prereq course
                        /\ In prereq (nth j schedule []))
        /\ (forall prereq, prerequisite courses prereq course ->
                           exists i, (i <= j)%nat /\ In prereq (nth i schedule []))).
Proof.
  intros Hiter Hret.
  pose proof (@schedule_courses_spec _ courses Hiter) as Hspec.
  rewrite Hret in Hspec. destruct Hspec as ((_ & L2 & L3) & Hnd & Hcover).
  split.
  - intros course. split.
    + intros H0. split.
      * apply Hcover, in_concat_nth. exists 0%nat. split; [|assumption].
        destruct schedule; [destruct H0 | cbn; lia].
      * intros prereq Hp. apply prerequisite_edges in Hp.
        destruct (L2 0%nat course prereq H0 Hp) as (i & Hi & _). lia.
    + intros [Hk Hnone]. apply Hcover, in_concat_nth in Hk.
      destruct Hk as ([|j] & _ & Hj); [assumption|].
      destruct (L3 j course Hj) as (p & He & _).
      apply prerequisite_edges in He. now apply Hnone in He.
  - intros j course Hj. split.
    + destruct (L3 j course Hj) as (p & He & Hp). exists p.
      split; [now apply prerequisite_edges | assumption].
    + intros prereq Hp. apply prerequisite_edges in Hp.
      destruct (L2 (S j) course prereq Hj Hp) as (i & Hi & Hpi).
      exists i. split; [lia | assumption].
Qed.

Lemma courses_as_early_as_possible_witness :
  (forall course, In course ["Programming"]
                  <-> known example_courses course
                      /\ forall prereq, ~ prerequisite example_courses prereq course)
  /\ (forall j course,
         In course (nth (S j) [["Programming"]; ["DataStructures"]; ["Algorithms"]] []) ->
        (exists prereq, prerequisite example_courses prereq course
                        /\ In prereq (nth j [["Programming"]; ["DataStructures"];
                                             ["Algorithms"]] []))
        /\ (forall prereq, prerequisite example_courses prereq course ->
              exists i, (i <= j)%nat
                        /\ In prereq (nth i [["Programming"]; ["DataStructures"];
                                             ["Algorithms"]] []))).
Proof.
  exact (@courses_as_early_as_possible (fun s => s) example_courses
           [["Programming"]; ["DataStructures"]; ["Algorithms"]]
           (fun s => Permutation_refl s) eq_refl).
Defined.

(** X4 (circular dependencies).  [schedule_courses] raises its [ValueError]
    exactly when some course is, through a chain of prerequisites, required
    for itself; otherwise it returns a schedule.  The queue is never popped
    empty, and [len(all_courses)] rounds of the [while] loop are enough. *)
Theorem circular_dependency_raises (iteration : list string -> list string)
        (courses : dict (list string)) :
  (forall s, Permutation s (iteration s)) ->
  (schedule_courses iteration courses = Raises CircularDependency
   <-> circular courses)
  /\ (~ circular courses ->
      exists schedule, schedule_courses iteration courses = Returns schedule)
  /\ schedule_courses iteration courses <> Raises EmptyQueue
  /\ schedule_courses iteration courses <> Running.
Proof.
  intros Hiter.
  pose proof (@schedule_courses_spec _ courses Hiter) as Hspec.
  destruct (schedule_courses iteration courses) as [schedule | [|] | ];
    try contradiction.
  - split; [split; [discriminate|] | split; [eauto | split; discriminate]].
    intros Hc. exfalso. exact (@course_plan_acyclic _ _ Hspec Hc).
  - split; [tauto | split; [contradiction | split; discriminate]].
Qed.

Lemma circular_dependency_raises_witness :
  schedule_courses (fun s => s) mutual_courses = Raises CircularDependency
  /\ circular mutual_courses.
Proof.
  split; [reflexivity|].
  exact (proj1 (proj1 (@circular_dependency_raises (fun s => s) mutual_courses
                         (fun s => Permutation_refl s))) eq_refl).
Defined.

(** X5 (iteration order).  Whatever the order in which Python iterates over
    the set [all_courses], [schedule_courses] gives the same outcome. *)
Theorem iteration_order_irrelevant (iteration1 iteration2 : list string -> list string)
        (courses : dict (list string)) :
  (forall s, Permutation s (iteration1 s)) ->
  (forall s, Permutation s (iteration2 s)) ->
  schedule_courses iteration1 courses = schedule_courses iteration2 courses.
Proof.
  intros H1 H2.
  pose proof (@schedule_courses_spec _ courses H1) as S1.
  pose proof (@schedule_courses_spec _ courses H2) as S2.
  destruct (schedule_courses iteration1 courses) as [s1 | [|] | ];
    try contradiction;
    destruct (schedule_courses iteration2 courses) as [s2 | [|] | ];
    try contradiction.
  - f_equal. exact (@course_plan_unique _ _ _ S1 S2).
  - exfalso. exact (@course_plan_acyclic _ _ S1 S2).
  - exfalso. exact (@course_plan_acyclic _ _ S2 S1).
  - reflexivity.
Qed.

Lemma iteration_order_irrelevant_witness :
  schedule_courses (fun s => s) example_courses
  = schedule_courses (@rev string) example_courses.
Proof.
  exact (@iteration_order_irrelevant (fun s => s) (@rev string) example_courses
           (fun s => Permutation_refl s) (fun s => Permutation_rev s)).
Defined.

(* ================================================================== *)
(** * The tie-breaker, for every seed *)

(** X6 (the shuffle rearranges).  For every seed and every list of fewer
    than [2^53] elements, [deterministic_shuffle] returns, without an
    [IndexError], a list with the elements of its argument: none lost,
    none repeated. *)
Theorem shuffle_rearranges {A} (arr : list A) (seed : Z) :
  (Z.of_nat (length arr) < 2 ^ 53)%Z ->
  exists out, deterministic_shuffle arr seed = Ok out
              /\ Permutation arr out
              /\ length out = length arr.
Proof.
  intros H. destruct (deterministic_shuffle_total arr seed H) as [out Hout].
  exists out. split; [assumption|].
  pose proof (deterministic_shuffle_Permutation arr seed Hout) as HP.
  split; [assumption | symmetry; now apply Permutation_length].
Qed.

Lemma shuffle_rearranges_witness :
  exists out, deterministic_shuffle ["a"; "b"; "c"; "d"] 2024 = Ok out
              /\ Permutation ["a"; "b"; "c"; "d"] out
              /\ length out = 4%nat.
Proof.
  apply (@shuffle_rearranges string ["a"; "b"; "c"; "d"] 2024).
  vm_compute. reflexivity.
Defined.

Lemma zero_fraction : pseudo_random 0 = (0%Z, S754_zero false).
Proof. vm_compute. reflexivity. Qed.

Lemma zero_index (m : Z) :
  (0 < m < 2 ^ 53)%Z ->
  exists y, float_mul_int (S754_zero false) m = Ok y /\ int_of_float y = Ok 0%Z.
Proof.
  intros Hm. destruct (float_of_int_exact m Hm) as (my & k & Hf & _).
  unfold float_mul_int. rewrite Hf. exists (S754_zero false).
  split; reflexivity.
Qed.

Lemma shuffle_loop_step {A} (m : nat) (seed : Z) (arr : list A) :
  shuffle_loop (S m) seed arr
  = (let '(seed', x) := pseudo_random seed in
     y <- float_mul_int x (Z.of_nat (S m)) ;;
     i <- int_of_float y ;;
     arr' <- swap arr (Z.of_nat m) i ;;
     shuffle_loop m seed' arr').
Proof. reflexivity. Qed.

Lemma shuffle_loop_zero {A} (m : nat) :
  forall (a : A) (l1 l2 : list A),
    length l1 = m ->
    (Z.of_nat (length (a :: l1 ++ l2)) < 2 ^ 53)%Z ->
    shuffle_loop (S m) 0 (a :: l1 ++ l2) = Ok (l1 ++ a :: l2).
Proof.
  induction m as [|m IH]; intros a l1 l2 Hlen Hsize.
  - destruct l1; [|discriminate]. cbn [app] in *.
    rewrite shuffle_loop_step, zero_fraction.
    destruct (@zero_index (Z.of_nat 1)) as (y & -> & Hy); [cbn; lia|]. cbn [bind].
    rewrite Hy. cbn [bind]. reflexivity.
  - destruct (exists_last (l := l1)) as (l1' & z & ->);
      [intros ->; discriminate|].
    rewrite length_app in Hlen. cbn [length] in Hlen.
    assert (Hl : length l1' = m) by lia.
    rewrite shuffle_loop_step, zero_fraction.
    destruct (@zero_index (Z.of_nat (S (S m)))) as (y & -> & Hy).
    { cbn [length] in Hsize. rewrite !length_app in Hsize.
      cbn [length] in Hsize. lia. }
    cbn [bind]. rewrite Hy. cbn [bind].
    assert (Hswap : swap (a :: (l1' ++ [z]) ++ l2) (Z.of_nat (S m)) 0
                    = Ok (z :: l1' ++ a :: l2)).
    { unfold swap, index_of.
      assert (Hn : length (a :: (l1' ++ [z]) ++ l2) = S (S m + length l2)).
      { cbn [length]. rewrite !length_app. cbn [length]. lia. }
      rewrite Hn.
      replace (Z.of_nat (S m) <? 0)%Z with false by (symmetry; apply Z.ltb_ge; lia).
      replace (0 <? 0)%Z with false by reflexivity.
      replace ((0 <=? 0)%Z && (0 <? Z.of_nat (S (S m + length l2)))%Z) with true
        by (symmetry; apply andb_true_iff; split;
            [reflexivity | apply Z.ltb_lt; lia]).
      replace ((0 <=? Z.of_nat (S m))%Z
               && (Z.of_nat (S m) <? Z.of_nat (S (S m + length l2)))%Z) with true
        by (symmetry; apply andb_true_iff; split;
            [apply Z.leb_le; lia | apply Z.ltb_lt; lia]).
      cbn [bind]. rewrite Nat2Z.id. change (Z.to_nat 0) with 0%nat.
      rewrite <- app_assoc. cbn [app nth_error]. rewrite <- Hl.
      rewrite nth_error_app2, Nat.sub_diag by lia. cbn [nth_error set_nth].
      rewrite set_nth_app. reflexivity. }
    rewrite Hswap. cbn [bind].
    rewrite (IH z l1' (a :: l2) Hl).
    + now rewrite <- app_assoc.
    + cbn [length] in *. rewrite !length_app in *. cbn [length] in *. lia.
Qed.

(** X7 (seed 0).  The seed [0] is a fixed point of the generator:
    [pseudo_random] returns [0.0] for ever, and the shuffle moves the first
    element to the end, leaving the others in their order. *)
Theorem seed_zero_rotates {A} (a : A) (arr : list A) :
  (Z.of_nat (length (a :: arr)) < 2 ^ 53)%Z ->
  deterministic_shuffle (a :: arr) 0 = Ok (arr ++ [a]).
Proof.
  intros H. unfold deterministic_shuffle. cbn [length].
  rewrite <- (app_nil_r arr) at 2.
  apply shuffle_loop_zero; [reflexivity | now rewrite app_nil_r].
Qed.

Lemma seed_zero_rotates_witness :
  deterministic_shuffle ["a"; "b"; "c"; "d"] 0 = Ok ["b"; "c"; "d"; "a"].
Proof.
  apply (@seed_zero_rotates string "a" ["b"; "c"; "d"]). vm_compute. reflexivity.
Defined.

(* ================================================================== *)
(** * The shape of the normalised preferences *)

Lemma dict_set_In {V} (d : dict V) (k k' : string) (v v' : V) :
  In (k', v') (dict_set d k v) -> (k' = k /\ v' = v) \/ In (k', v') d.
Proof.
  induction d as [|[k0 v0] d IH]; cbn [dict_set].
  - intros [H | []]. injection H as <- <-. now left.
  - destruct (String.eqb_spec k k0) as [-> | Hne].
    + intros [H | H]; [injection H as <- <-; now left | right; now right].
    + intros [H | H]; [right; now left|].
      destruct (IH H) as [? | ?]; [now left | right; now right].
Qed.

Lemma dict_set_fresh {V} (d : dict V) (k : string) (v : V) :
  ~ In k (dict_keys d) -> dict_set d k v = d ++ [(k, v)].
Proof.
  induction d as [|[k0 v0] d IH]; cbn [dict_set dict_keys map fst In app];
    intros H; [reflexivity|].
  destruct (String.eqb_spec k k0) as [-> | Hne]; [exfalso; auto|].
  f_equal. apply IH. intros Hin. apply H. now right.
Qed.

Lemma dict_set_last {V} (d : dict V) (k : string) (v v' : V) :
  ~ In k (dict_keys d) -> dict_set (d ++ [(k, v)]) k v' = d ++ [(k, v')].
Proof.
  induction d as [|[k0 v0] d IH]; cbn [dict_set dict_keys map fst In app];
    intros H.
  - now rewrite String.eqb_refl.
  - destruct (String.eqb_spec k k0) as [-> | Hne]; [exfalso; auto|].
    f_equal. apply IH. intros Hin. apply H. now right.
Qed.

Lemma dict_get_NoDup {V} (d : dict V) (k : string) (v : V) :
  NoDup (dict_keys d) -> In (k, v) d -> dict_get d k = Some v.
Proof.
  induction d as [|[k0 v0] d IH]; cbn [dict_keys map fst dict_get];
    intros Hnd Hin; [destruct Hin|].
  apply NoDup_cons_iff in Hnd. destruct Hnd as [Hk Hnd].
  destruct Hin as [Heq | Hin].
  - injection Heq as -> ->. now rewrite String.eqb_refl.
  - destruct (String.eqb_spec k k0) as [-> | Hne]; [|now apply IH].
    exfalso. apply Hk. apply in_map_iff. now exists (k0, v).
Qed.

(** Every way of stating a preference gives three valid shift names. *)
Lemma normalize_day_shape (v : pyval) (l : list string) :
  normalize_day v = Ok l ->
  length l = 3%nat /\ Forall (fun s => In s VALID_SHIFTS) l.
Proof.
  intros H.
  assert (Hother : (forall l0, v <> PyList l0) ->
                   length l = 3%nat /\ Forall (fun s => In s VALID_SHIFTS) l).
  { intros Hn. pose proof (@normalize_day_Permutation _ _ H Hn) as HP. split.
    - now rewrite <- (Permutation_length HP).
    - apply Forall_forall. intros s Hs.
      eapply Permutation_in; [symmetry; exact HP | exact Hs]. }
  destruct v; try (apply Hother; intros l0; discriminate).
  apply normalize_day_list in H. tauto.
Qed.

Lemma day_entry_ok (entry t : dict (list string)) (k v : pyval) :
  day_entry entry (k, v) = Ok t ->
  exists day l, k = PyStr day /\ In day DAYS_OF_WEEK
                /\ normalize_day v = Ok l /\ t = dict_set entry day l.
Proof.
  unfold day_entry. destruct k; try discriminate.
  destruct (mem s DAYS_OF_WEEK) eqn:Hm; cbn [negb]; [|discriminate].
  apply mem_In in Hm. intros H. apply bind_ok in H.
  destruct H as (l & Hl & H). apply Ok_inj in H. exists s, l. auto.
Qed.

Lemma day_loop_shape (day_map : list (pyval * pyval)) (entry : dict (list string)) :
  for_each day_entry day_map [] = Ok entry ->
  NoDup (dict_keys entry)
  /\ (forall day l, In (day, l) entry ->
        In day DAYS_OF_WEEK
        /\ length l = 3%nat /\ Forall (fun s => In s VALID_SHIFTS) l).
Proof.
  intros H.
  apply (@for_each_inv _ _ day_entry
           (fun _ entry =>
              NoDup (dict_keys entry)
              /\ (forall day l, In (day, l) entry ->
                    In day DAYS_OF_WEEK
                    /\ length l = 3%nat
                    /\ Forall (fun s => In s VALID_SHIFTS) l))
           day_map [] entry); [| |exact H].
  - split; [constructor | intros day l []].
  - intros pre [k v] s t _ [Hnd Hall] Hstep.
    apply day_entry_ok in Hstep. destruct Hstep as (day & l & -> & Hd & Hl & ->).
    split; [now apply dict_keys_set_NoDup|].
    intros day' l' Hin. apply dict_set_In in Hin.
    destruct Hin as [[-> ->] | Hin]; [|now apply Hall].
    split; [assumption | now apply normalize_day_shape in Hl].
Qed.

Lemma complete_days (entry : dict (list string)) :
  complete entry = true ->
  forall day, In day DAYS_OF_WEEK -> In day (dict_keys entry).
Proof.
  unfold complete. rewrite forallb_forall. intros H day Hd.
  specialize (H day Hd). destruct (dict_get entry day) as [v|] eqn:E;
    [|discriminate].
  apply dict_get_In in E. apply in_map_iff. now exists (day, v).
Qed.

(** What one iteration of the employee loop has checked and stored. *)
Lemma employee_entry_normal (normalized t : dict (dict (list string)))
      (item : pyval * pyval) :
  employee_entry normalized item = Ok t ->
  exists emp_name day_map entry,
    item = (PyStr emp_name, PyDict day_map)
    /\ normal_entry emp_name entry
    /\ t = dict_set (dict_set normalized emp_name []) emp_name entry.
Proof.
  destruct item as [k v]. unfold employee_entry. destruct k; try discriminate.
  destruct (String.eqb_spec (strip s) "") as [|Hname]; [discriminate|].
  destruct v; try discriminate.
  destruct (negb _); [discriminate|].
  intros H. apply bind_ok in H. destruct H as (entry & Hloop & H).
  fold (complete entry) in H.
  destruct (complete entry) eqn:Hc; [|discriminate].
  apply Ok_inj in H. exists s, items, entry. repeat split; auto.
  - apply (day_loop_shape _ Hloop).
  - intros Hin. apply in_map_iff in Hin. destruct Hin as ([d l] & <- & Hin).
    now apply (day_loop_shape _ Hloop) in Hin.
  - now apply complete_days.
  - now apply (day_loop_shape _ Hloop) in H0.
  - now apply (day_loop_shape _ Hloop) in H0.
Qed.

Lemma collect_inv (items : list (pyval * pyval))
      (preferences : dict (dict (list string))) :
  collect_employee_preferences (PyDict items) = Ok preferences <->
  items <> []
  /\ exists names, emp_names items = Ok names /\ has_dup names = false
                   /\ for_each employee_entry items [] = Ok preferences.
Proof.
  unfold collect_employee_preferences. destruct items as [|x xs] eqn:E.
  - split; [discriminate | intros [H _]; congruence].
  - rewrite <- E. split.
    + intros H. split; [subst; discriminate|].
      apply bind_ok in H. destruct H as (names & Hn & H). exists names.
      destruct (has_dup names); [discriminate | auto].
    + intros (_ & names & Hn & Hd & H). rewrite Hn. cbn [bind]. now rewrite Hd.
Qed.

Lemma dict_set_twice {V} (d : dict V) (k : string) (v v' : V) :
  dict_set (dict_set d k v) k v' = dict_set d k v'.
Proof.
  induction d as [|[k0 v0] d IH]; cbn [dict_set].
  - now rewrite String.eqb_refl.
  - destruct (String.eqb k k0) eqn:E; cbn [dict_set]; rewrite E;
      [reflexivity | now rewrite IH].
Qed.

Lemma collect_normal (items : list (pyval * pyval))
      (preferences : dict (dict (list string))) :
  collect_employee_preferences (PyDict items) = Ok preferences ->
  forall emp_name entry, In (emp_name, entry) preferences ->
                         normal_entry emp_name entry.
Proof.
  intros H. apply collect_inv in H. destruct H as (_ & names & _ & _ & H).
  apply (@for_each_inv _ _ employee_entry
           (fun _ normalized =>
              forall emp_name entry, In (emp_name, entry) normalized ->
                                     normal_entry emp_name entry)
           items [] preferences); [| |exact H].
  - intros emp_name entry [].
  - intros pre item s t _ Hs Hstep emp_name entry Hin.
    apply employee_entry_normal in Hstep.
    destruct Hstep as (e & dm & en & -> & Hn & ->).
    rewrite dict_set_twice in Hin.
    apply dict_set_In in Hin. destruct Hin as [[-> ->] | Hin];
      [assumption | now apply Hs].
Qed.

Lemma emp_names_as_raw (preferences : dict (dict (list string))) :
  emp_names (map (fun emp =>
                    (PyStr (fst emp),
                     PyDict (map (fun day => (PyStr (fst day),
                                              PyList (map PyStr (snd day))))
                                 (snd emp))))
                 preferences)
  = Ok (map (fun n => lower (strip n)) (dict_keys preferences)).
Proof.
  induction preferences as [|[e dm] preferences IH]; cbn [map emp_names fst snd];
    [reflexivity|].
  rewrite IH. reflexivity.
Qed.

Lemma normalize_day_as_raw (l : list string) :
  length l = 3%nat -> Forall (fun s => In s VALID_SHIFTS) l ->
  normalize_day (PyList (map PyStr l)) = Ok l.
Proof.
  intros Hlen Hv. cbn [normalize_day]. rewrite length_map, Hlen.
  change (length VALID_SHIFTS) with 3%nat. rewrite Nat.eqb_refl. cbn [andb].
  assert (Hf : forallb (fun s => val_in s VALID_SHIFTS) (map PyStr l) = true).
  { apply forallb_forall. intros x Hx. apply in_map_iff in Hx.
    destruct Hx as (s & <- & Hs). cbn [val_in]. apply mem_In.
    rewrite Forall_forall in Hv. now apply Hv. }
  rewrite Hf. f_equal. clear. induction l as [|s l IH]; [reflexivity|].
  cbn [map]. change (strings_of (PyStr s :: map PyStr l))
    with (s :: strings_of (map PyStr l)). now rewrite IH.
Qed.

Lemma day_loop_as_raw (rest done : dict (list string)) :
  NoDup (dict_keys (done ++ rest)) ->
  (forall day l, In (day, l) rest ->
                 In day DAYS_OF_WEEK /\ length l = 3%nat
                 /\ Forall (fun s => In s VALID_SHIFTS) l) ->
  for_each day_entry
           (map (fun day => (PyStr (fst day), PyList (map PyStr (snd day)))) rest)
           done
  = Ok (done ++ rest).
Proof.
  revert done. induction rest as [|[d l] rest IH]; intros done Hnd Hall.
  - cbn. now rewrite app_nil_r.
  - cbn [map for_each fst snd].
    destruct (Hall d l (or_introl eq_refl)) as (Hd & Hlen & Hv).
    unfold day_entry at 1. apply mem_In in Hd. rewrite Hd. cbn [negb].
    rewrite (normalize_day_as_raw Hlen Hv). cbn [bind].
    rewrite dict_set_fresh.
    + replace (done ++ (d, l) :: rest) with ((done ++ [(d, l)]) ++ rest)
        by (now rewrite <- app_assoc).
      apply IH.
      * now rewrite <- app_assoc.
      * intros day l' Hin. apply Hall. now right.
    + unfold dict_keys in Hnd. rewrite map_app in Hnd. cbn [map fst] in Hnd.
      apply NoDup_remove_2 in Hnd. intros Hin. apply Hnd, in_app_iff. now left.
Qed.

Lemma has_key_as_raw (entry : dict (list string)) (day : string) :
  has_key day (map (fun day => (PyStr (fst day), PyList (map PyStr (snd day))))
                   entry)
  = mem day (dict_keys entry).
Proof.
  unfold has_key, mem, dict_keys.
  induction entry as [|[d l] entry IH]; [reflexivity|].
  cbn [existsb map fst]. now rewrite IH, String.eqb_sym.
Qed.

Lemma employee_loop_as_raw (rest done : dict (dict (list string))) :
  NoDup (dict_keys (done ++ rest)) ->
  (forall emp_name entry, In (emp_name, entry) rest ->
                          normal_entry emp_name entry) ->
  for_each employee_entry
           (map (fun emp =>
                   (PyStr (fst emp),
                    PyDict (map (fun day => (PyStr (fst day),
                                             PyList (map PyStr (snd day))))
                                (snd emp))))
                rest)
           done
  = Ok (done ++ rest).
Proof.
  revert done. induction rest as [|[e entry] rest IH]; intros done Hnd Hall.
  - cbn. now rewrite app_nil_r.
  - cbn [map for_each fst snd].
    destruct (Hall e entry (or_introl eq_refl)) as (Hname & Hkeys & Hdays & Hv).
    assert (Hfresh : ~ In e (dict_keys done)).
    { unfold dict_keys in Hnd. rewrite map_app in Hnd. cbn [map fst] in Hnd.
      apply NoDup_remove_2 in Hnd. intros Hin. apply Hnd, in_app_iff. now left. }
    unfold employee_entry at 1.
    destruct (String.eqb_spec (strip e) ""); [contradiction|].
    assert (Hhas : forallb (fun required_day =>
                     has_key required_day
                       (map (fun day => (PyStr (fst day),
                                         PyList (map PyStr (snd day)))) entry))
                     DAYS_OF_WEEK = true).
    { apply forallb_forall. intros d Hd. rewrite has_key_as_raw.
      apply mem_In. now apply Hdays. }
    rewrite Hhas. cbn [negb].
    rewrite (@day_loop_as_raw entry []); [|exact Hkeys|].
    2:{ intros d l Hin. split; [|now apply Hv in Hin].
        apply Hdays. apply in_map_iff. now exists (d, l). }
    cbn [bind app].
    assert (Hcomplete : forallb (fun day => match dict_get entry day with
                                            | Some v => (length v =? 3)%nat
                                            | None => false
                                            end) DAYS_OF_WEEK = true).
    { apply forallb_forall. intros d Hd. apply Hdays in Hd.
      apply in_map_iff in Hd. destruct Hd as ([d' l] & <- & Hin). cbn [fst].
      rewrite (@dict_get_NoDup _ _ _ _ Hkeys Hin).
      apply Nat.eqb_eq. now apply Hv in Hin. }
    rewrite Hcomplete.
    rewrite dict_set_twice, dict_set_fresh by assumption.
    replace (done ++ (e, entry) :: rest) with ((done ++ [(e, entry)]) ++ rest)
      by (now rewrite <- app_assoc).
    apply IH.
    + now rewrite <- app_assoc.
    + intros e' entry' Hin. apply Hall. now right.
Qed.

(** X8 (shape of the result).  In the mapping that
    [collect_employee_preferences] returns, every employee has a name that
    is not blank, the seven days as keys and no other, and under every day
    a list of three valid shift names. *)
Theorem normalized_shape (items : list (pyval * pyval))
        (preferences : dict (dict (list string))) :
  collect_employee_preferences (PyDict items) = Ok preferences ->
  forall emp_name entry,
    In (emp_name, entry) preferences ->
    strip emp_name <> ""
    /\ NoDup (dict_keys entry)
    /\ (forall day, In day (dict_keys entry) <-> In day DAYS_OF_WEEK)
    /\ (forall day l, In (day, l) entry ->
                      length l = 3%nat /\ Forall (fun s => In s VALID_SHIFTS) l).
Proof. exact (@collect_normal items preferences). Qed.

Lemma normalized_shape_witness :
  strip "Ann" <> ""
  /\ NoDup (dict_keys (map (fun d => (d, ["evening"; "morning"; "afternoon"]))
                           DAYS_OF_WEEK))
  /\ (forall day,
         In day (dict_keys (map (fun d => (d, ["evening"; "morning"; "afternoon"]))
                                DAYS_OF_WEEK))
         <-> In day DAYS_OF_WEEK)
  /\ (forall day l,
         In (day, l) (map (fun d => (d, ["evening"; "morning"; "afternoon"]))
                          DAYS_OF_WEEK) ->
         length l = 3%nat /\ Forall (fun s => In s VALID_SHIFTS) l).
Proof.
  apply (@normalized_shape
           [(PyStr "Ann", week_of (fun _ => PyStr "evening"))]
           [("Ann", map (fun d => (d, ["evening"; "morning"; "afternoon"]))
                        DAYS_OF_WEEK)]).
  - vm_compute. reflexivity.
  - left. reflexivity.
Defined.

(** X9 (normal form).  What [collect_employee_preferences] returns is
    accepted when passed to it again, and comes back unchanged. *)
Theorem normalized_is_fixed_point (items : list (pyval * pyval))
        (preferences : dict (dict (list string))) :
  collect_employee_preferences (PyDict items) = Ok preferences ->
  collect_employee_preferences (as_raw preferences) = Ok preferences.
Proof.
  intros H. pose proof (@collect_normal _ _ H) as Hn.
  pose proof (@collect_keys_NoDup _ _ H) as Hnd.
  destruct (@collect_spec _ _ H) as [Hkeys _].
  pose proof (@collect_length _ _ H) as Hlen.
  apply collect_inv in H. destruct H as (Hne & names & Hnames & Hdup & Hloop).
  unfold as_raw. apply collect_inv. split.
  - intros Hm. apply map_eq_nil in Hm. subst preferences.
    destruct items; [congruence | discriminate].
  - eexists. split; [apply emp_names_as_raw|]. split.
    + apply emp_names_ok in Hnames. destruct Hnames as [_ ->].
      now rewrite Hkeys.
    + now apply (@employee_loop_as_raw preferences []).
Qed.

Lemma normalized_is_fixed_point_witness :
  collect_employee_preferences
    (as_raw [("Ann", map (fun d => (d, ["evening"; "morning"; "afternoon"]))
                         DAYS_OF_WEEK)])
  = Ok [("Ann", map (fun d => (d, ["evening"; "morning"; "afternoon"]))
                    DAYS_OF_WEEK)].
Proof.
  apply (@normalized_is_fixed_point
           [(PyStr "Ann", week_of (fun _ => PyStr "evening"))]).
  vm_compute. reflexivity.
Defined.

(* ================================================================== *)
(** * Priority maps *)

Lemma normalize_one (t : string) (p : pyval) (z : Z) :
  In (strip (lower t)) VALID_SHIFTS -> as_int p = Some z -> (1 <= z)%Z ->
  normalize_day (PyDict [(PyStr t, p)])
  = Ok (strip (lower t) :: others_alphabetical (strip (lower t))).
Proof.
  intros Hs Hp Hz. cbn [normalize_day]. unfold normalize_dict.
  cbn [for_each]. unfold priority_entry.
  generalize dependent (strip (lower t)). intros s Hs.
  apply mem_In in Hs. rewrite Hs. cbn [negb mem existsb]. rewrite Hp.
  replace (z <? 1)%Z with false by (symmetry; apply Z.ltb_ge; lia).
  change (2 <? 1)%nat with false. cbn [bind]. cbv beta iota.
  apply mem_In in Hs.
  assert (Hd : default_priority (dict_set [] s z) = (z + 10)%Z).
  { cbn. lia. }
  rewrite Hd.
  destruct Hs as [<- | [<- | [<- | []]]]; cbv -[Z.add Z.ltb Z.eqb];
    repeat match goal with
      | |- context [(?a <? ?b)%Z] => destruct (Z.ltb_spec a b); try lia
      | |- context [(?a =? ?b)%Z] => destruct (Z.eqb_spec a b); try lia
      end; reflexivity.
Qed.

Ltac compare_priorities :=
  repeat match goal with
    | |- context [(?a <? ?b)%Z] => destruct (Z.ltb_spec a b); try lia
    | |- context [(?a =? ?b)%Z] => destruct (Z.eqb_spec a b); try lia
    end.

Lemma normalize_two (t1 t2 : string) (p1 p2 : pyval) (z1 z2 : Z) :
  In (strip (lower t1)) VALID_SHIFTS -> In (strip (lower t2)) VALID_SHIFTS ->
  strip (lower t1) <> strip (lower t2) ->
  as_int p1 = Some z1 -> as_int p2 = Some z2 -> (1 <= z1)%Z -> (1 <= z2)%Z ->
  normalize_day (PyDict [(PyStr t1, p1); (PyStr t2, p2)])
  = Ok ((if (z1 <? z2)%Z then [strip (lower t1); strip (lower t2)]
         else if (z2 <? z1)%Z then [strip (lower t2); strip (lower t1)]
         else sorted String.leb [strip (lower t1); strip (lower t2)])
        ++ unnamed [strip (lower t1); strip (lower t2)]).
Proof.
  intros Hs1 Hs2 Hne Hp1 Hp2 Hz1 Hz2. cbn [normalize_day]. unfold normalize_dict.
  cbn [for_each]. unfold priority_entry.
  generalize dependent (strip (lower t2)).
  generalize dependent (strip (lower t1)). intros s1 Hs1 s2 Hs2 Hne.
  apply mem_In in Hs1, Hs2. rewrite Hs1. cbn [negb mem existsb]. rewrite Hp1.
  replace (z1 <? 1)%Z with false by (symmetry; apply Z.ltb_ge; lia).
  change (2 <? 1)%nat with false. cbn [bind]. rewrite Hs2. cbn [negb].
  assert (Hseen : mem s2 (set_add s1 []) = false).
  { apply mem_false. intros H. apply set_add_In in H.
    destruct H as [-> | []]. congruence. }
  rewrite Hseen, Hp2.
  replace (z2 <? 1)%Z with false by (symmetry; apply Z.ltb_ge; lia).
  change (2 <? 2)%nat with false. cbn [bind]. cbv beta iota.
  apply mem_In in Hs1, Hs2.
  destruct Hs1 as [<- | [<- | [<- | []]]];
    destruct Hs2 as [<- | [<- | [<- | []]]]; try congruence;
    cbv -[Z.add Z.ltb Z.eqb Z.max]; compare_priorities; reflexivity.
Qed.

Lemma normalize_one_inv (t : string) (p : pyval) (l : list string) :
  normalize_day (PyDict [(PyStr t, p)]) = Ok l ->
  In (strip (lower t)) VALID_SHIFTS /\ exists z, as_int p = Some z /\ (1 <= z)%Z.
Proof.
  cbn [normalize_day]. unfold normalize_dict. cbn [for_each].
  unfold priority_entry.
  destruct (mem (strip (lower t)) VALID_SHIFTS) eqn:Hs; cbn [negb bind];
    [|discriminate].
  cbn [mem existsb]. change (2 <? 1)%nat with false.
  destruct (as_int p) as [z|]; [|discriminate].
  destruct (Z.ltb_spec z 1); [discriminate|]. intros _.
  split; [now apply mem_In | eauto].
Qed.

Lemma normalize_two_inv (t1 t2 : string) (p1 p2 : pyval) (l : list string) :
  normalize_day (PyDict [(PyStr t1, p1); (PyStr t2, p2)]) = Ok l ->
  In (strip (lower t1)) VALID_SHIFTS /\ In (strip (lower t2)) VALID_SHIFTS
  /\ strip (lower t1) <> strip (lower t2)
  /\ exists z1 z2, as_int p1 = Some z1 /\ as_int p2 = Some z2
                   /\ (1 <= z1)%Z /\ (1 <= z2)%Z.
Proof.
  cbn [normalize_day]. unfold normalize_dict. cbn [for_each].
  unfold priority_entry.
  destruct (mem (strip (lower t1)) VALID_SHIFTS) eqn:Hs1; cbn [negb bind];
    [|discriminate].
  cbn [mem existsb]. change (2 <? 1)%nat with false.
  destruct (as_int p1) as [z1|]; [|discriminate].
  destruct (Z.ltb_spec z1 1); [discriminate|]. cbn [bind].
  destruct (mem (strip (lower t2)) VALID_SHIFTS) eqn:Hs2; cbn [negb bind];
    [|discriminate].
  destruct (mem (strip (lower t2)) (set_add (strip (lower t1)) [])) eqn:Hseen;
    [discriminate|].
  change (2 <? 2)%nat with false.
  destruct (as_int p2) as [z2|]; [|discriminate].
  destruct (Z.ltb_spec z2 1); [discriminate|]. intros _.
  split; [now apply mem_In|]. split; [now apply mem_In|]. split; [|eauto 6].
  intros Heq. apply mem_false in Hseen. apply Hseen, set_add_In. now left.
Qed.

(** X10 (priority maps).  A day stated as [None] or [{}] gives the shifts
    in alphabetical order.  A priority map with one entry gives the shift
    it names, then the two others in alphabetical order (so
    [{"evening": 1}] gives evening, afternoon, morning, where the string
    ["evening"] gives evening, morning, afternoon).  A priority map with
    two entries gives the two shifts by ascending priority, alphabetically
    when the priorities are equal, then the third shift.  A key names a
    shift when, lower-cased and trimmed, it is one of the three names;
    only ASCII strings do. *)
Theorem explicit_priorities (items : list (pyval * pyval))
        (preferences : dict (dict (list string)))
        (emp : string) (day_map : list (pyval * pyval)) :
  collect_employee_preferences (PyDict items) = Ok preferences ->
  In (PyStr emp, PyDict day_map) items ->
  NoDup (map fst day_map) ->
  (forall day v,
      In (PyStr day, v) day_map -> v = PyNone \/ v = PyDict [] ->
      at2 preferences emp day = ["afternoon"; "evening"; "morning"])
  /\ (forall day t p,
      In (PyStr day, PyDict [(PyStr t, p)]) day_map ->
      In (strip (lower t)) VALID_SHIFTS ->
      at2 preferences emp day
      = strip (lower t) :: others_alphabetical (strip (lower t)))
  /\ (forall day t1 p1 t2 p2 z1 z2,
         In (PyStr day, PyDict [(PyStr t1, p1); (PyStr t2, p2)]) day_map ->
         In (strip (lower t1)) VALID_SHIFTS ->
         In (strip (lower t2)) VALID_SHIFTS ->
         as_int p1 = Some z1 -> as_int p2 = Some z2 ->
         at2 preferences emp day
         = (if (z1 <? z2)%Z then [strip (lower t1); strip (lower t2)]
            else if (z2 <? z1)%Z then [strip (lower t2); strip (lower t1)]
            else sorted String.leb [strip (lower t1); strip (lower t2)])
           ++ unnamed [strip (lower t1); strip (lower t2)]).
Proof.
  intros Hc He Hnd.
  destruct (@collect_spec _ _ Hc) as [_ L].
  destruct (L _ _ He) as (entry & Hentry & Hloop).
  split; [|split].
  - intros day v Hd Hv.
    destruct (@day_loop_spec _ _ Hloop Hnd _ _ Hd) as (l & Hl & Hget).
    unfold at2. rewrite Hentry, Hget.
    destruct Hv as [-> | ->]; cbn [normalize_day] in Hl; apply Ok_inj in Hl;
      now subst l.
  - intros day t p Hd _.
    destruct (@day_loop_spec _ _ Hloop Hnd _ _ Hd) as (l & Hl & Hget).
    unfold at2. rewrite Hentry, Hget.
    destruct (normalize_one_inv _ _ Hl) as (Hs & z & Hp & Hz).
    rewrite (normalize_one _ _ Hs Hp Hz) in Hl. now apply Ok_inj in Hl.
  - intros day t1 p1 t2 p2 z1 z2 Hd _ _ Hp1 Hp2.
    destruct (@day_loop_spec _ _ Hloop Hnd _ _ Hd) as (l & Hl & Hget).
    unfold at2. rewrite Hentry, Hget.
    destruct (normalize_two_inv _ _ _ _ Hl)
      as (Hs1 & Hs2 & Hne & z1' & z2' & Hp1' & Hp2' & Hz1 & Hz2).
    rewrite Hp1 in Hp1'. rewrite Hp2 in Hp2'.
    injection Hp1' as <-. injection Hp2' as <-.
    rewrite (normalize_two _ _ _ _ Hs1 Hs2 Hne Hp1 Hp2 Hz1 Hz2) in Hl.
    now apply Ok_inj in Hl.
Qed.

Lemma explicit_priorities_witness :
  exists preferences,
    collect_employee_preferences
      (staff ["Ann"] (fun _ d => if String.eqb d "Monday"
                                 then PyDict [(PyStr "Evening", PyInt 1)]
                                 else PyDict [(PyStr "evening", PyInt 2);
                                              (PyStr "morning", PyInt 1)]))
    = Ok preferences
    /\ at2 preferences "Ann" "Monday" = ["evening"; "afternoon"; "morning"]
    /\ at2 preferences "Ann" "Tuesday" = ["morning"; "evening"; "afternoon"].
Proof.
  eexists. split; [vm_compute; reflexivity|].
  pose proof (@explicit_priorities
                [(PyStr "Ann",
                  week_of (fun d => if String.eqb d "Monday"
                                    then PyDict [(PyStr "Evening", PyInt 1)]
                                    else PyDict [(PyStr "evening", PyInt 2);
                                                 (PyStr "morning", PyInt 1)]))]
                _ "Ann" _ eq_refl (or_introl eq_refl)) as H.
  destruct H as (_ & H1 & H2).
  { cbn. repeat (constructor; [cbn; intuition discriminate|]). constructor. }
  split.
  - apply (H1 "Monday" "Evening" (PyInt 1) (or_introl eq_refl)).
    vm_compute. tauto.
  - apply (H2 "Tuesday" "evening" (PyInt 2) "morning" (PyInt 1) 2%Z 1%Z
              (or_intror (or_introl eq_refl))); try reflexivity;
      vm_compute; tauto.
Defined.

(* ================================================================== *)
(** * Employee names that are not strings *)

(** X12 (names that are not strings).  When some top-level key is not a
    string, the list comprehension of line 31 raises [AttributeError]
    before any check: the normaliser and [generate_schedule] raise it, not
    the [ValueError] of the name check of line 36. *)
Theorem non_string_name_is_attribute_error (items : list (pyval * pyval)) :
  string_keyed items = false ->
  collect_employee_preferences (PyDict items) = Raise AttributeError
  /\ generate_schedule (PyDict items) = Raise AttributeError.
Proof.
  intros H.
  assert (Hc : collect_employee_preferences (PyDict items) = Raise AttributeError).
  { unfold collect_employee_preferences.
    destruct items as [|x xs] eqn:E; [discriminate|]. rewrite <- E in *.
    now rewrite emp_names_not_string_keyed. }
  split; [assumption|].
  unfold generate_schedule, generate_schedule_with. now rewrite Hc.
Qed.

Lemma non_string_name_is_attribute_error_witness :
  collect_employee_preferences
    (PyDict [(PyStr "Ann", week_of (fun _ => PyNone));
             (PyInt 7, week_of (fun _ => PyNone))])
  = Raise AttributeError
  /\ generate_schedule
       (PyDict [(PyStr "Ann", week_of (fun _ => PyNone));
                (PyInt 7, week_of (fun _ => PyNone))])
     = Raise AttributeError.
Proof.
  apply (@non_string_name_is_attribute_error
           [(PyStr "Ann", week_of (fun _ => PyNone));
            (PyInt 7, week_of (fun _ => PyNone))]).
  reflexivity.
Defined.

(* ================================================================== *)
(** * Further inputs that are refused *)

Lemma for_each_ok_each {A S} (body : S -> A -> result S) (xs : list A)
      (s0 s' : S) :
  for_each body xs s0 = Ok s' ->
  forall x, In x xs -> exists s t, body s x = Ok t.
Proof.
  revert s0. induction xs as [|y xs IH]; intros s0 H x Hin; [destruct Hin|].
  cbn [for_each] in H. apply bind_ok in H. destruct H as (t & Ht & H).
  destruct Hin as [<- | Hin]; [eauto | eapply IH; eassumption].
Qed.

(** With string keys only, whatever the normaliser raises is
    [InvalidInput]. *)
Lemma collect_raises_invalid (items : list (pyval * pyval)) (e : exn) :
  string_keyed items = true ->
  collect_employee_preferences (PyDict items) = Raise e ->
  e = ValueError InvalidInput.
Proof.
  intros Hs. unfold collect_employee_preferences.
  destruct items as [|x xs] eqn:E; [intros H; injection H as <-; reflexivity|].
  rewrite <- E in *. destruct (emp_names_string_keyed _ Hs) as [names ->].
  cbn [bind]. destruct (has_dup names);
    [intros H; injection H as <-; reflexivity|].
  apply for_each_raises_only. intros; eapply employee_entry_raises; eassumption.
Qed.

Lemma seen_shifts (pri_map : list (pyval * pyval)) (st st' : dict Z * nat * list string) :
  for_each priority_entry pri_map st = Ok st' ->
  (forall s, In s (snd st) -> In s (snd st'))
  /\ (forall t p, In (PyStr t, p) pri_map -> In (strip (lower t)) (snd st')).
Proof.
  revert st. induction pri_map as [|[k p] pri_map IH]; intros st H.
  - cbn in H. apply Ok_inj in H. subst. split; [auto | intros t p []].
  - cbn [for_each] in H. apply bind_ok in H. destruct H as (st1 & H1 & H).
    destruct (IH _ H) as [IH1 IH2].
    destruct st as [[pr n] seen]. unfold priority_entry in H1.
    destruct k; try discriminate.
    destruct (negb _); [discriminate|].
    destruct (mem _ seen); [discriminate|].
    destruct (2 <? S n)%nat; [discriminate|].
    destruct (as_int p) as [z|]; [|discriminate].
    destruct (z <? 1)%Z; [discriminate|].
    apply Ok_inj in H1. subst st1. cbn [snd] in *. split.
    + intros x Hx. apply IH1, set_add_In. now right.
    + intros t q [Heq | Hin]; [|eauto].
      injection Heq as -> ->. apply IH1, set_add_In. now left.
Qed.

Lemma for_each_app {A S} (body : S -> A -> result S) (l1 l2 : list A) (s : S) :
  for_each body (l1 ++ l2) s = (s1 <- for_each body l1 s ;; for_each body l2 s1).
Proof.
  revert s. induction l1 as [|x l1 IH]; intros s; cbn [app for_each bind];
    [reflexivity|].
  destruct (body s x) as [t|e]; cbn [bind]; [apply IH | reflexivity].
Qed.

Lemma priority_entry_seen (st st' : dict Z * nat * list string) (t : string)
      (p : pyval) :
  priority_entry st (PyStr t, p) = Ok st' ->
  ~ In (strip (lower t)) (snd st) /\ In (strip (lower t)) (snd st').
Proof.
  destruct st as [[pr n] seen]. unfold priority_entry.
  destruct (negb _); [discriminate|].
  destruct (mem _ seen) eqn:Hm; [discriminate|].
  destruct (2 <? S n)%nat; [discriminate|].
  destruct (as_int p) as [z|]; [|discriminate].
  destruct (z <? 1)%Z; [discriminate|].
  intros H. apply Ok_inj in H. subst st'. cbn [snd]. split.
  - now apply mem_false.
  - apply set_add_In. now left.
Qed.

Lemma malformed_preference_refused (v : pyval) :
  malformed_preference v -> is_ok (normalize_day v) = false.
Proof.
  intros H. destruct H as [b | z | f | l Hlen | l1 t1 p1 l2 t2 p2 l3 Heq];
    try reflexivity.
  - cbn [normalize_day]. change (length VALID_SHIFTS) with 3%nat.
    destruct (Nat.eqb_spec (length l) 3); [contradiction | reflexivity].
  - rewrite normalize_day_dict by (destruct l1; discriminate).
    unfold normalize_dict.
    destruct (for_each priority_entry _ ([], 0%nat, [])) as [st|e] eqn:Hf;
      [exfalso | reflexivity].
    rewrite for_each_app in Hf. apply bind_ok in Hf.
    destruct Hf as (sa & _ & Hf). cbn [for_each] in Hf.
    apply bind_ok in Hf. destruct Hf as (sb & Hb & Hf).
    rewrite for_each_app in Hf. apply bind_ok in Hf.
    destruct Hf as (sc & Hc & Hf). cbn [for_each] in Hf.
    apply bind_ok in Hf. destruct Hf as (sd & Hd & _).
    apply priority_entry_seen in Hb, Hd.
    apply seen_shifts in Hc. destruct Hc as [Hc _].
    destruct Hd as [Hd _]. apply Hd. rewrite <- Heq. apply Hc. tauto.
Qed.

Lemma employee_entry_checks (normalized t : dict (dict (list string)))
      (n : string) (v : pyval) :
  employee_entry normalized (PyStr n, v) = Ok t ->
  strip n <> ""
  /\ exists day_map entry, v = PyDict day_map
                           /\ for_each day_entry day_map [] = Ok entry.
Proof.
  unfold employee_entry.
  destruct (String.eqb_spec (strip n) ""); [discriminate|].
  destruct v; try discriminate.
  destruct (negb _); [discriminate|].
  intros H. apply bind_ok in H. destruct H as (entry & Hloop & _). eauto.
Qed.

Lemma malformed_not_ok (items : list (pyval * pyval)) :
  malformed items -> is_ok (collect_employee_preferences (PyDict items)) = false.
Proof.
  intros H.
  destruct (collect_employee_preferences (PyDict items)) as [preferences|e] eqn:Hc;
    [exfalso | reflexivity].
  pose proof Hc as Hinv. apply collect_inv in Hinv.
  destruct Hinv as (_ & names & Hnames & Hdup & Hloop).
  destruct H as [items i j n1 n2 v1 v2 Hij Hi Hj Hl | items n v Hin Hb
                 | items n v Hin Hv | items n dm d v Hin Hd Hv].
  - apply has_dup_false in Hdup. apply emp_names_ok in Hnames.
    destruct Hnames as [Hk ->].
    pose proof (key_strings_nth _ _ Hk Hi) as Ki.
    pose proof (key_strings_nth _ _ Hk Hj) as Kj.
    apply Hij. apply (proj1 (NoDup_nth_error _) Hdup).
    + apply nth_error_Some. rewrite nth_error_map, Ki. discriminate.
    + rewrite !nth_error_map, Ki, Kj. cbn. now rewrite Hl.
  - destruct (for_each_ok_each _ _ _ Hloop _ Hin) as (s & t & Hs).
    apply employee_entry_checks in Hs. tauto.
  - destruct (for_each_ok_each _ _ _ Hloop _ Hin) as (s & t & Hs).
    apply employee_entry_checks in Hs.
    destruct Hs as (_ & dm & _ & -> & _). now apply (Hv dm).
  - destruct (for_each_ok_each _ _ _ Hloop _ Hin) as (s & t & Hs).
    apply employee_entry_checks in Hs.
    destruct Hs as (_ & dm' & entry & Heq & Hdays). injection Heq as <-.
    destruct (for_each_ok_each _ _ _ Hdays _ Hd) as (s' & t' & Hs').
    apply day_entry_ok in Hs'. destruct Hs' as (day & l & _ & _ & Hl & _).
    apply malformed_preference_refused in Hv. rewrite Hl in Hv. discriminate.
Qed.

(** X11 (further rejections).  With string keys, the normaliser and
    [generate_schedule] raise [InvalidInput] as well when two names are
    equal once trimmed and lower-cased, when a name is blank, when the week
    of an employee is not a mapping, when the preference of a day is a
    number or a truth value or a list that has not three elements, and
    when a priority map names a shift twice. *)
Theorem malformed_input_rejected (items : list (pyval * pyval)) :
  string_keyed items = true ->
  malformed items ->
  collect_employee_preferences (PyDict items) = Raise (ValueError InvalidInput)
  /\ generate_schedule (PyDict items) = Raise (ValueError InvalidInput).
Proof.
  intros Hs Hm. apply malformed_not_ok in Hm.
  destruct (collect_employee_preferences (PyDict items)) as [p|e] eqn:Hc;
    [discriminate|].
  pose proof (@collect_raises_invalid _ _ Hs Hc) as ->.
  split; [reflexivity|].
  unfold generate_schedule, generate_schedule_with. now rewrite Hc.
Qed.

Lemma malformed_input_rejected_witness :
  collect_employee_preferences
    (PyDict [(PyStr "Ann", week_of (fun _ => PyNone));
             (PyStr " ann ", week_of (fun _ => PyNone))])
  = Raise (ValueError InvalidInput)
  /\ generate_schedule
       (PyDict [(PyStr "Ann", week_of (fun _ => PyNone));
                (PyStr " ann ", week_of (fun _ => PyNone))])
     = Raise (ValueError InvalidInput).
Proof.
  apply (@malformed_input_rejected
           [(PyStr "Ann", week_of (fun _ => PyNone));
            (PyStr " ann ", week_of (fun _ => PyNone))] eq_refl).
  eapply names_equal_once_trimmed with (i := 0%nat) (j := 1%nat);
    [discriminate | reflexivity | reflexivity | reflexivity].
Defined.

(* ================================================================== *)
(** * Invariants of the week, cell by cell *)

Section WeekByCell.
Variable preferences : dict (dict (list string)).
Variable employees : list string.
Variable first_scan : bool.

(** [I days slots c entered]: the state when the days [days] are done and,
    of the current day, the shifts [slots]. *)
Variable I : list (list (list string)) -> list (list string) -> counters -> bool
             -> Prop.

Hypothesis I_cell :
  forall days slots c entered s c' e,
    I days slots c entered ->
    (length days < 7)%nat -> (length slots < 3)%nat ->
    run_cell preferences employees (nth (length days) DAYS_OF_WEEK "")
             (nth (length slots) VALID_SHIFTS "") first_scan c
    = Ok (s, c', e) ->
    I days (slots ++ [s]) c' (entered || e).

Hypothesis I_day :
  forall days slots c entered,
    I days slots c entered -> length slots = 3%nat ->
    I (days ++ [slots]) []
      {| assigned_count := assigned_count c; assigned_today := [] |} entered.

Lemma nth_middle_default (l1 l2 : list string) (x : string) :
  nth (length l1) (l1 ++ x :: l2) "" = x.
Proof. induction l1 as [|h l1 IH]; [reflexivity | exact IH]. Qed.

Lemma run_day_invariant (days : list (list (list string))) (c : counters)
      (entered : bool) (slots : list (list string)) (counts' : dict nat)
      (e : bool) :
  (length days < 7)%nat ->
  I days [] {| assigned_count := assigned_count c; assigned_today := [] |} entered ->
  run_day preferences employees first_scan (nth (length days) DAYS_OF_WEEK "")
          (assigned_count c)
  = Ok (slots, counts', e) ->
  I (days ++ [slots]) []
    {| assigned_count := counts'; assigned_today := [] |} (entered || e).
Proof.
  intros Hlt H0 H. unfold run_day in H. apply bind_ok in H.
  destruct H as ([[slots0 c0] e0] & Hloop & H). apply Ok_inj in H.
  injection H as <- <- <-.
  assert (G : length slots0 = length VALID_SHIFTS
              /\ I days slots0 c0 (entered || e0)).
  { apply (@for_each_inv_prefix _ _ _
             (fun pre (s : list (list string) * counters * bool) =>
                let '(slots, c, e) := s in
                length slots = length pre /\ I days slots c (entered || e))
             VALID_SHIFTS _ (slots0, c0, e0)) with (3 := Hloop).
    - split; [reflexivity|]. now rewrite orb_false_r.
    - intros pre shift post [[sl cl] el] [[sl' cl'] el'] Hsplit [L Hi] Hb.
      cbv beta iota in Hb. apply bind_ok in Hb.
      destruct Hb as ([[s c1] e1] & Hcell & Hb). apply Ok_inj in Hb.
      injection Hb as <- <- <-.
      split; [now rewrite !length_app, L|].
      rewrite orb_assoc. apply (@I_cell days sl cl (entered || el) s c1 e1 Hi Hlt).
      + rewrite L. apply (f_equal (@length string)) in Hsplit.
        rewrite length_app in Hsplit. cbn [length] in Hsplit.
        change (length VALID_SHIFTS) with 3%nat in Hsplit. lia.
      + rewrite L, Hsplit, nth_middle_default. exact Hcell. }
  destruct G as [L G]. apply I_day in G; [|exact L].
  destruct c0 as [ac at0]. exact G.
Qed.

Lemma run_week_invariant (cells : list (list (list string))) (counts : dict nat)
      (entered : bool) :
  I [] [] {| assigned_count :=
               fold_left (fun d emp => dict_set d emp O) employees [];
             assigned_today := [] |} false ->
  run_week preferences employees first_scan = Ok (cells, counts, entered) ->
  I cells [] {| assigned_count := counts; assigned_today := [] |} entered.
Proof.
  intros H0 H. unfold run_week in H.
  apply (@for_each_inv_prefix _ _ _
           (fun pre (s : list (list (list string)) * dict nat * bool) =>
              let '(days, counts, entered) := s in
              length days = length pre
              /\ I days [] {| assigned_count := counts; assigned_today := [] |}
                   entered)
           DAYS_OF_WEEK _ (cells, counts, entered)) with (3 := H).
  - split; [reflexivity | exact H0].
  - intros pre day post [[days cs] en] [[days' cs'] en'] Hsplit [L Hi] Hb.
    cbv beta iota in Hb. apply bind_ok in Hb.
    destruct Hb as ([[slots cs1] e1] & Hday & Hb). apply Ok_inj in Hb.
    injection Hb as <- <- <-.
    split; [now rewrite !length_app, L|].
    apply (@run_day_invariant days
             {| assigned_count := cs; assigned_today := [] |}); [|exact Hi|].
    + rewrite L. apply (f_equal (@length string)) in Hsplit.
      rewrite length_app in Hsplit. cbn [length] in Hsplit.
      change (length DAYS_OF_WEEK) with 7%nat in Hsplit. lia.
    + cbn [assigned_count]. rewrite L, Hsplit, nth_middle_default. exact Hday.
Qed.
End WeekByCell.

(* ================================================================== *)
(** * Every list of the schedule *)

Lemma run_cell_bounds (preferences : dict (dict (list string)))
      (employees : list string) (day shift : string) (first_scan : bool)
      (c c' : counters) (s : list string) (entered : bool) :
  run_cell preferences employees day shift first_scan c = Ok (s, c', entered) ->
  (length s <= 2)%nat /\ (forall e, In e s -> In e employees).
Proof.
  intros H. apply run_cell_inv in H.
  destruct H as (ordered & st1 & st2 & st3 & Hord & H1 & H2 & He & H3 & -> & _).
  set (P := fun st : cell =>
              length (slot st) = placed st /\ (placed st <= 2)%nat
              /\ forall e, In e (slot st) -> In e employees).
  assert (Hassign : forall st e, In e employees -> P st -> (placed st < 2)%nat ->
                                 P (assign st e)).
  { intros st e He' (Q1 & Q2 & Q3) Hlt. unfold P, assign. cbn [slot placed].
    rewrite length_app. cbn [length]. repeat split; [lia | lia |].
    intros x Hx. apply in_app_iff in Hx. destruct Hx as [Hx | [<- | []]]; auto. }
  assert (Hagain : forall st e, In e employees -> P st -> (placed st < 2)%nat ->
                                P (assign_again st e)).
  { intros st e He' (Q1 & Q2 & Q3) Hlt. unfold P, assign_again. cbn [slot placed].
    rewrite length_app. cbn [length]. repeat split; [lia | lia |].
    intros x Hx. apply in_app_iff in Hx. destruct Hx as [Hx | [<- | []]]; auto. }
  assert (P1 : P st1).
  { subst st1. apply walk_inv_placed.
    - intros st e Hin Hp Hlt _. apply Hassign; auto. now apply Hord in Hin.
    - cbn. lia.
    - repeat split; cbn; [lia | intros e []]. }
  assert (P2 : P st2).
  { subst st2. destruct (first_scan && _); [|assumption].
    apply first_fallback_inv; [|assumption].
    intros st e Hin Hp Hlt _. now apply Hassign. }
  assert (P3 : P st3).
  { subst st3. destruct entered; [|assumption].
    apply last_resort_inv; [|assumption].
    intros st e Hin Hp Hlt _. now apply Hagain. }
  destruct P3 as (Q1 & Q2 & Q3). split; [lia | assumption].
Qed.

Lemma schedule_of_cells (cells : list (list (list string))) :
  length cells = 7%nat ->
  Forall (fun slots => length slots = 3%nat) cells ->
  map (fun d => map snd (snd d)) (schedule_of cells) = cells.
Proof.
  intros L F. unfold schedule_of.
  rewrite <- (map_map snd (map snd)).
  rewrite map_snd_combine
    by (rewrite length_map; change (length DAYS_OF_WEEK) with 7%nat; lia).
  rewrite map_map. rewrite <- (map_id cells) at 2.
  apply map_ext_in. intros slots Hin. rewrite Forall_forall in F.
  apply map_snd_combine. rewrite (F _ Hin). reflexivity.
Qed.

(** X14 (the lists).  Every list of a schedule that [generate_schedule]
    returns holds at most two entries, and every entry is one of the
    employee names of the input. *)
Theorem lists_hold_at_most_two_employees (items : list (pyval * pyval))
        (sched : schedule) :
  generate_schedule (PyDict items) = Ok sched ->
  forall day shifts shift l,
    In (day, shifts) sched -> In (shift, l) shifts ->
    (length l <= 2)%nat /\ forall e, In e l -> In (PyStr e) (map fst items).
Proof.
  intros H day shifts shift l Hd Hs.
  apply generate_schedule_ok in H. destruct H as [entered H].
  apply generate_schedule_with_ok in H.
  destruct H as (items' & preferences & cells & counts & Heq & Hc & _ & Hw & ->).
  injection Heq as <-.
  pose proof (run_week_spec _ _ _ Hw) as (L & F & _).
  destruct (schedule_of_shape L F) as (_ & S2 & _).
  destruct (S2 _ _ Hd) as [_ Hin].
  assert (G : Forall (Forall (fun s => (length s <= 2)%nat
                                       /\ forall e, In e s ->
                                                    In e (dict_keys preferences)))
                     cells).
  { apply (@run_week_invariant preferences (dict_keys preferences) true
             (fun days slots _ _ =>
                Forall (Forall (fun s => (length s <= 2)%nat
                                         /\ forall e, In e s ->
                                                      In e (dict_keys preferences)))
                       days
                /\ Forall (fun s => (length s <= 2)%nat
                                    /\ forall e, In e s ->
                                                 In e (dict_keys preferences))
                          slots)
             ) with (4 := Hw).
    - intros days slots c en s c' e [D S] _ _ Hcell. split; [assumption|].
      apply Forall_app. split; [assumption|]. constructor; [|constructor].
      exact (run_cell_bounds _ _ _ _ _ _ Hcell).
    - intros days slots c en [D S] _. split; [|constructor].
      apply Forall_app. split; [assumption | now constructor].
    - split; constructor. }
  rewrite Forall_forall in G. specialize (G _ Hin).
  rewrite Forall_forall in G.
  destruct (G l) as [G1 G2]; [apply in_map_iff; now exists (shift, l)|].
  split; [assumption|]. intros e He. apply G2 in He.
  destruct (@collect_spec _ _ Hc) as [Hk _].
  rewrite (@collect_string_keys _ _ Hc), <- Hk. now apply in_map.
Qed.

Lemma lists_hold_at_most_two_employees_witness :
  exists sched,
    generate_schedule six_spread = Ok sched
    /\ forall day shifts shift l,
         In (day, shifts) sched -> In (shift, l) shifts ->
         (length l <= 2)%nat
         /\ forall e, In e l ->
                      In (PyStr e) (map PyStr ["a"; "b"; "c"; "d"; "e"; "f"]).
Proof.
  eexists. split; [vm_compute; reflexivity|].
  apply (@lists_hold_at_most_two_employees
           (map (fun n => (PyStr n,
                           week_of (fun _ => if mem n ["a"; "b"] then PyStr "morning"
                                             else if mem n ["c"; "d"]
                                                  then PyStr "afternoon"
                                                  else PyStr "evening")))
                ["a"; "b"; "c"; "d"; "e"; "f"])).
  vm_compute. reflexivity.
Defined.

Lemma valid_input_scheduled_witness :
  exists sched,
    generate_schedule six_spread = Ok sched
    /\ map fst sched = DAYS_OF_WEEK
    /\ (forall day shifts, In (day, shifts) sched ->
                           map fst shifts = VALID_SHIFTS)
    /\ (forall emp, (count_occ string_dec (entries sched) emp <= 5)%nat).
Proof.
  eapply (@valid_input_scheduled
           (map (fun n => (PyStr n,
                           week_of (fun _ => if mem n ["a"; "b"] then PyStr "morning"
                                             else if mem n ["c"; "d"]
                                                  then PyStr "afternoon"
                                                  else PyStr "evening")))
                ["a"; "b"; "c"; "d"; "e"; "f"])).
  - vm_compute. reflexivity.
  - cbn. lia.
  - vm_compute. reflexivity.
Defined.

(* ================================================================== *)
(** * Monday to Friday *)

Lemma two_free (l t : list string) :
  NoDup l -> (length t + 2 <= length l)%nat ->
  exists a b, a <> b /\ In a l /\ In b l /\ ~ In a t /\ ~ In b t.
Proof.
  intros Hnd Hlen.
  assert (Hin : (length (filter (fun x => mem x t) l) <= length t)%nat).
  { assert (Hincl : incl (filter (fun x => mem x t) l) t).
    { intros x Hx. apply filter_In in Hx. now apply mem_In. }
    apply NoDup_incl_length; [now apply NoDup_filter | assumption]. }
  pose proof (filter_length (fun x => mem x t) l) as Hsum.
  assert (Hout : (2 <= length (filter (fun x => negb (mem x t)) l))%nat) by lia.
  assert (Hnd' : NoDup (filter (fun x => negb (mem x t)) l))
    by now apply NoDup_filter.
  destruct (filter (fun x => negb (mem x t)) l) as [|a [|b rest]] eqn:E;
    cbn [length] in Hout; try lia.
  assert (Ha : In a (filter (fun x => negb (mem x t)) l))
    by (rewrite E; now left).
  assert (Hb : In b (filter (fun x => negb (mem x t)) l))
    by (rewrite E; right; now left).
  apply filter_In in Ha, Hb. destruct Ha as [Ha Ha'], Hb as [Hb Hb'].
  apply negb_true_iff, mem_false in Ha', Hb'.
  exists a, b. repeat split; auto.
  intros ->. apply NoDup_cons_iff in Hnd'. apply (proj1 Hnd'). now left.
Qed.

Lemma walk_slot_length (ordered : list string) (c : counters) :
  let st := walk ordered {| slot := []; ctr := c; placed := 0 |} in
  length (slot st) = placed st /\ (placed st <= 2)%nat.
Proof.
  cbv zeta.
  apply (walk_inv_placed
           (fun st => length (slot st) = placed st /\ (placed st <= 2)%nat)).
  - intros st e _ [Q1 Q2] Hlt _. unfold assign. cbn [slot placed].
    rewrite length_app. cbn [length]. lia.
  - cbn. lia.
  - cbn. lia.
Qed.

(** With two candidates at hand, the walk places two. *)
Lemma walk_places_two (ordered : list string) (c : counters) (a b : string) :
  a <> b -> In a ordered -> In b ordered ->
  unavailable c a = false -> unavailable c b = false ->
  placed (walk ordered {| slot := []; ctr := c; placed := 0 |}) = 2%nat.
Proof.
  intros Hne Ha Hb Hua Hub.
  destruct (walk_slot_length ordered c) as [Hlen Hle].
  destruct (Nat.lt_ge_cases
              (placed (walk ordered {| slot := []; ctr := c; placed := 0 |})) 2)
    as [Hlt | Hge]; [exfalso | lia].
  pose proof (walk_exhausts _ _ Hlt) as Hex.
  pose proof (walk_assigns c ordered) as Has. cbv zeta in Has.
  pose proof (Has a Hua (Hex a Ha)) as Ia.
  pose proof (Has b Hub (Hex b Hb)) as Ib.
  destruct (slot (walk ordered {| slot := []; ctr := c; placed := 0 |}))
    as [|x [|y rest]]; cbn [length] in Hlen; [destruct Ia | | lia].
  destruct Ia as [<- | []]. destruct Ib as [<- | []]. congruence.
Qed.

Section Weekdays.
Variable preferences : dict (dict (list string)).
Variable employees : list string.
Variable first_scan : bool.
Hypothesis Hnodup : NoDup employees.
Hypothesis Hsix : (6 <= length employees)%nat.

(** A cell of a day that started with every employee under the cap. *)
Lemma run_cell_weekday (day shift : string) (c c' : counters) (s : list string)
      (entered : bool) (prev : list string) (k : nat) :
  run_cell preferences employees day shift first_scan c = Ok (s, c', entered) ->
  (k < 5)%nat -> (length prev <= 4)%nat -> NoDup prev ->
  (forall e, In e (assigned_today c) <-> In e prev) ->
  (forall e, ~ In e prev -> count_of (assigned_count c) e <= k)%nat ->
  (forall e, count_of (assigned_count c) e <= k + 1)%nat ->
  entered = false /\ length s = 2%nat
  /\ NoDup (prev ++ s)
  /\ (forall e, In e (assigned_today c') <-> In e (prev ++ s))
  /\ (forall e, ~ In e (prev ++ s) -> count_of (assigned_count c') e <= k)%nat
  /\ (forall e, count_of (assigned_count c') e <= k + 1)%nat.
Proof.
  intros H Hk Hprev Hnd Htoday Hfree Hall.
  destruct (run_cell_inv _ _ _ _ _ _ H)
    as (ordered & st1 & st2 & st3 & Hord & E1 & E2 & E & E3 & Es & Ec).
  destruct (@two_free employees prev Hnodup) as (a & b & Hab & Ha & Hb & Hna & Hnb);
    [lia|].
  assert (Hav : forall e, In e employees -> ~ In e prev -> unavailable c e = false).
  { intros e He Hn. apply unavailable_false. split.
    - specialize (Hfree e Hn). lia.
    - now rewrite Htoday. }
  assert (Hp : placed st1 = 2%nat).
  { subst st1. apply (@walk_places_two ordered c a b Hab);
      try (apply Hord; split); auto. }
  assert (E2' : st2 = st1).
  { subst st2. rewrite Hp. cbn. now rewrite andb_false_r. }
  assert (Een : entered = false) by (rewrite E, E2', Hp; reflexivity).
  clear E E2. subst st2. rewrite Een in *. cbv iota in E3. subst st3.
  destruct (walk_slot_length ordered c) as [Hlen _]. rewrite <- E1 in Hlen.
  assert (C5 : forall e, (count_of (assigned_count c) e <= 5)%nat).
  { intros e. specialize (Hall e). lia. }
  pose proof (@run_cell_counts _ _ _ _ _ _ _ _ _ H C5) as Hc.
  assert (Hsub : forall e, In e prev -> In e (assigned_today c))
    by (intros e; apply Htoday).
  pose proof (@run_cell_exclusive _ _ _ _ _ _ _ _ _ H Hnd Hsub) as [X1 X2].
  assert (Htoday' : forall e, In e (assigned_today c') -> In e (prev ++ s)).
  { subst c' s st1.
    apply (walk_inv (fun st => forall e, In e (assigned_today (ctr st)) ->
                                         In e (prev ++ slot st))).
    - intros st x _ IH _ e He. cbn [assign ctr assigned_today slot] in *.
      apply set_add_In in He. rewrite app_assoc, in_app_iff.
      destruct He as [-> | He]; [right; now left | left; now apply IH].
    - cbn. intros e He. rewrite app_nil_r. now apply Htoday. }
  split; [reflexivity|]. split; [subst s; lia|]. split; [assumption|].
  split; [intros e; split; [apply Htoday' | apply X2]|].
  assert (Hocc : forall e, (count_occ string_dec s e <= 1)%nat).
  { intros e. apply NoDup_count_occ. now apply NoDup_app_remove_l in X1. }
  split.
  - intros e Hn. destruct (Hc e) as [-> _].
    assert (~ In e s) by (intros Hin; apply Hn, in_app_iff; now right).
    assert (~ In e prev) by (intros Hin; apply Hn, in_app_iff; now left).
    rewrite (proj1 (count_occ_not_In string_dec s e)) by assumption.
    specialize (Hfree e H1). lia.
  - intros e. destruct (Hc e) as [-> _].
    destruct (in_dec string_dec e s) as [Hin | Hn].
    + assert (Hne : ~ In e prev).
      { intros Hp'. exact (NoDup_app_disjoint _ _ _ X1 Hp' Hin). }
      specialize (Hfree e Hne). specialize (Hocc e). lia.
    + rewrite (proj1 (count_occ_not_In string_dec s e)) by assumption.
      specialize (Hall e). lia.
Qed.
End Weekdays.

Lemma length_concat_pairs (slots : list (list string)) :
  Forall (fun s => length s = 2%nat) slots ->
  length (concat slots) = (2 * length slots)%nat.
Proof.
  induction 1 as [|s slots Hs _ IH]; [reflexivity|].
  cbn [concat length]. rewrite length_app, Hs, IH. lia.
Qed.

Lemma run_week_weekdays (preferences : dict (dict (list string)))
      (employees : list string) (first_scan : bool)
      (cells : list (list (list string))) (counts : dict nat) (entered : bool) :
  NoDup employees -> (6 <= length employees)%nat ->
  run_week preferences employees first_scan = Ok (cells, counts, entered) ->
  Forall fully_staffed (firstn 5 cells).
Proof.
  intros Hnodup Hsix Hw.
  apply (@run_week_invariant preferences employees first_scan
           (fun days slots c en =>
              Forall fully_staffed (firstn 5 days)
              /\ ((length days < 5)%nat ->
                  en = false
                  /\ fully_staffed slots
                  /\ (forall e, In e (assigned_today c) <-> In e (concat slots))
                  /\ (forall e, ~ In e (concat slots) ->
                                count_of (assigned_count c) e <= length days)%nat
                  /\ (forall e, count_of (assigned_count c) e
                                <= length days + 1)%nat)))
    with (4 := Hw).
  - intros days slots c en s c' e [F G] Hd Hs Hcell. split; [assumption|].
    intros Hlt. destruct (G Hlt) as (-> & [G1 G2] & G3 & G4 & G5).
    assert (Hlen : (length (concat slots) <= 4)%nat)
      by (rewrite (length_concat_pairs G2); lia).
    destruct (@run_cell_weekday preferences employees first_scan Hnodup Hsix
                _ _ _ _ _ _ (concat slots) (length days) Hcell Hlt Hlen G1 G3 G4 G5)
      as (-> & W1 & W2 & W3 & W4 & W5).
    unfold fully_staffed. rewrite concat_snoc.
    split; [reflexivity|]. split; [split; [exact W2|]|].
    { apply Forall_app. split; [assumption | now repeat constructor]. }
    split; [exact W3|]. split; [exact W4 | exact W5].
  - intros days slots c en [F G] Hlen. split.
    + destruct (Nat.lt_ge_cases (length days) 5) as [Hlt | Hge].
      * rewrite firstn_all2 by (rewrite length_app; cbn [length]; lia).
        rewrite firstn_all2 in F by lia.
        apply Forall_app. split; [assumption|]. constructor; [|constructor].
        now destruct (G Hlt) as (_ & G2 & _).
      * rewrite firstn_app.
        replace (5 - length days)%nat with 0%nat by lia.
        cbn [firstn]. now rewrite app_nil_r.
    + rewrite length_app. cbn [length]. intros Hlt.
      destruct G as (-> & _ & _ & _ & G5); [lia|].
      cbn [assigned_count assigned_today concat].
      split; [reflexivity|]. split; [split; constructor|].
      split; [tauto|]. split.
      * intros e _. specialize (G5 e). lia.
      * intros e. specialize (G5 e). lia.
  - split; [constructor|]. intros _.
    cbn [length assigned_count assigned_today concat].
    split; [reflexivity|]. split; [split; constructor|].
    split; [tauto|]. split.
    + intros e _. rewrite initial_counts by reflexivity. lia.
    + intros e. rewrite initial_counts by reflexivity. lia.
Qed.

(** X15 (Monday to Friday).  Whatever the preferences, in a schedule that
    [generate_schedule] returns every list of Monday, Tuesday, Wednesday,
    Thursday and Friday holds exactly two employees, and nobody is in two
    lists of one of these days. *)
Theorem weekdays_fully_staffed (items : list (pyval * pyval)) (sched : schedule) :
  generate_schedule (PyDict items) = Ok sched ->
  forall day shifts,
    In (day, shifts) sched ->
    In day ["Monday"; "Tuesday"; "Wednesday"; "Thursday"; "Friday"] ->
    NoDup (concat (map snd shifts))
    /\ forall shift l, In (shift, l) shifts -> length l = 2%nat.
Proof.
  intros H day shifts Hd Hday.
  apply generate_schedule_ok in H. destruct H as [entered H].
  apply generate_schedule_with_ok in H.
  destruct H as (items' & preferences & cells & counts & Heq & Hc & H6 & Hw & ->).
  pose proof (run_week_spec _ _ _ Hw) as (L & F & _).
  pose proof (run_week_weekdays _ _ (@collect_keys_NoDup _ _ Hc) H6 Hw) as G.
  assert (Hin : In (map snd shifts) (firstn 5 cells)
                /\ map fst shifts = VALID_SHIFTS).
  { destruct cells as [|c1 [|c2 [|c3 [|c4 [|c5 [|c6 [|c7 [|c8 cells]]]]]]]];
      try discriminate.
    unfold schedule_of in Hd. cbn [map combine DAYS_OF_WEEK In] in Hd.
    assert (Hsnd : forall c, In c [c1; c2; c3; c4; c5; c6; c7] ->
                             map snd (combine VALID_SHIFTS c) = c
                             /\ map fst (combine VALID_SHIFTS c) = VALID_SHIFTS).
    { intros c Hcin. rewrite Forall_forall in F. specialize (F c Hcin).
      destruct c as [|s1 [|s2 [|s3 [|s4 c]]]]; try discriminate. now split. }
    cbn [firstn].
    destruct Hd as [Hd | [Hd | [Hd | [Hd | [Hd | [Hd | [Hd | []]]]]]]];
      apply pair_equal_spec in Hd; destruct Hd as [<- <-].
    - destruct (Hsnd c1) as [-> ->]; cbn [In]; auto.
    - destruct (Hsnd c2) as [-> ->]; cbn [In]; auto.
    - destruct (Hsnd c3) as [-> ->]; cbn [In]; auto.
    - destruct (Hsnd c4) as [-> ->]; cbn [In]; auto 6.
    - destruct (Hsnd c5) as [-> ->]; cbn [In]; auto 7.
    - exfalso. cbn in Hday. intuition discriminate.
    - exfalso. cbn in Hday. intuition discriminate. }
  destruct Hin as [Hin _]. rewrite Forall_forall in G.
  destruct (G _ Hin) as [G1 G2]. split; [assumption|].
  intros shift l Hl. rewrite Forall_forall in G2. apply G2.
  apply in_map_iff. now exists (shift, l).
Qed.

Lemma weekdays_fully_staffed_witness :
  exists sched,
    generate_schedule six_spread = Ok sched
    /\ forall day shifts,
         In (day, shifts) sched ->
         In day ["Monday"; "Tuesday"; "Wednesday"; "Thursday"; "Friday"] ->
         NoDup (concat (map snd shifts))
         /\ forall shift l, In (shift, l) shifts -> length l = 2%nat.
Proof.
  eexists. split; [vm_compute; reflexivity|].
  apply (@weekdays_fully_staffed
           (map (fun n => (PyStr n,
                           week_of (fun _ => if mem n ["a"; "b"] then PyStr "morning"
                                             else if mem n ["c"; "d"]
                                                  then PyStr "afternoon"
                                                  else PyStr "evening")))
                ["a"; "b"; "c"; "d"; "e"; "f"])).
  vm_compute. reflexivity.
Defined.

(* ================================================================== *)
(** * Staffing: two employees per list from thirteen employees on *)

(** Counting the employees who cannot be taken: each of them is at the cap
    of five, or was placed today and so has at least one entry. *)
Lemma unavailable_count (c : counters) (emps : list string) :
  (forall e, In e (assigned_today c) -> 1 <= count_of (assigned_count c) e)%nat ->
  (5 * length (filter (unavailable c) emps)
   <= total emps (assigned_count c)
      + 4 * length (filter (fun e => mem e (assigned_today c)) emps))%nat.
Proof.
  intros H1. induction emps as [|x xs IH]; [cbn; lia|].
  change (total (x :: xs) (assigned_count c))
    with (count_of (assigned_count c) x + total xs (assigned_count c))%nat.
  cbn [filter]. unfold unavailable at 1.
  destruct (Nat.leb_spec 5 (count_of (assigned_count c) x)) as [H5 | H5];
    cbn [orb].
  - destruct (mem x (assigned_today c)); cbn [length]; lia.
  - destruct (mem x (assigned_today c)) eqn:Hm; cbn [length]; [|lia].
    apply mem_In in Hm. specialize (H1 x Hm). lia.
Qed.

(** With room left in the staff, two employees can be taken. *)
Lemma two_available (c : counters) (emps prev : list string) :
  NoDup emps -> NoDup prev ->
  (forall e, In e (assigned_today c) <-> In e prev) ->
  (forall e, In e prev -> 1 <= count_of (assigned_count c) e)%nat ->
  (total emps (assigned_count c) + 4 * length prev + 6 <= 5 * length emps)%nat ->
  exists a b, a <> b /\ In a emps /\ In b emps
              /\ unavailable c a = false /\ unavailable c b = false.
Proof.
  intros Hnd Hprev Htoday H1 Hroom.
  assert (Hbad := @unavailable_count c emps
                    (fun e He => H1 e (proj1 (Htoday e) He))).
  assert (Hin : (length (filter (fun e => mem e (assigned_today c)) emps)
                 <= length prev)%nat).
  { apply NoDup_incl_length; [now apply NoDup_filter|].
    intros e He. apply filter_In in He. destruct He as [_ He].
    apply mem_In in He. now apply Htoday. }
  pose proof (filter_length (unavailable c) emps) as Hsum.
  assert (Hfree : (2 <= length (filter (fun e => negb (unavailable c e)) emps))%nat)
    by lia.
  assert (Hnd' : NoDup (filter (fun e => negb (unavailable c e)) emps))
    by now apply NoDup_filter.
  destruct (filter (fun e => negb (unavailable c e)) emps) as [|a [|b rest]] eqn:E;
    cbn [length] in Hfree; try lia.
  assert (Ha : In a (filter (fun e => negb (unavailable c e)) emps))
    by (rewrite E; now left).
  assert (Hb : In b (filter (fun e => negb (unavailable c e)) emps))
    by (rewrite E; right; now left).
  apply filter_In in Ha, Hb. destruct Ha as [Ha Ha'], Hb as [Hb Hb'].
  apply negb_true_iff in Ha', Hb'.
  exists a, b. repeat split; auto.
  intros ->. apply NoDup_cons_iff in Hnd'. apply (proj1 Hnd'). now left.
Qed.

Section Thirteen.
Variable preferences : dict (dict (list string)).
Variable employees : list string.
Variable first_scan : bool.
Hypothesis Hnodup : NoDup employees.

(** A cell that starts with two employees at hand: the walk places both,
    and neither fallback runs. *)
Lemma run_cell_two_free (day shift : string) (c c' : counters) (s : list string)
      (entered : bool) (prev : list string) :
  run_cell preferences employees day shift first_scan c = Ok (s, c', entered) ->
  NoDup prev ->
  (forall e, In e (assigned_today c) <-> In e prev) ->
  (forall e, count_of (assigned_count c) e <= 5)%nat ->
  (forall e, In e prev -> 1 <= count_of (assigned_count c) e)%nat ->
  (exists a b, a <> b /\ In a employees /\ In b employees
               /\ unavailable c a = false /\ unavailable c b = false) ->
  entered = false /\ length s = 2%nat
  /\ NoDup (prev ++ s)
  /\ (forall e, In e (assigned_today c') <-> In e (prev ++ s))
  /\ total employees (assigned_count c')
     = (total employees (assigned_count c) + 2)%nat
  /\ (forall e, count_of (assigned_count c') e <= 5)%nat
  /\ (forall e, In e (prev ++ s) -> 1 <= count_of (assigned_count c') e)%nat.
Proof.
  intros H Hnd Htoday H5 H1 (a & b & Hab & Ha & Hb & Hua & Hub).
  destruct (run_cell_inv _ _ _ _ _ _ H)
    as (ordered & st1 & st2 & st3 & Hord & E1 & E2 & E & E3 & Es & Ec).
  assert (Hp : placed st1 = 2%nat).
  { subst st1. apply (@walk_places_two ordered c a b Hab);
      try (apply Hord; split); auto. }
  assert (E2' : st2 = st1).
  { subst st2. rewrite Hp. cbn. now rewrite andb_false_r. }
  assert (Een : entered = false) by (rewrite E, E2', Hp; reflexivity).
  clear E E2. subst st2. rewrite Een in *. cbv iota in E3. subst st3.
  assert (T1 : steady employees c st1).
  { subst st1. apply walk_inv_placed.
    - intros st e He Hs Hlt Hu. apply steady_assign; auto. now apply Hord.
    - simpl. lia.
    - unfold steady, cnt. simpl. repeat split; auto; try lia.
      intros e He. apply H1. now apply Htoday. }
  destruct T1 as (S1 & S2 & S3 & S4 & S5).
  assert (Hsub : forall e, In e prev -> In e (assigned_today c))
    by (intros e; apply Htoday).
  pose proof (@run_cell_exclusive _ _ _ _ _ _ _ _ _ H Hnd Hsub) as [X1 X2].
  assert (Htoday' : forall e, In e (assigned_today c') -> In e (prev ++ s)).
  { subst c' s st1.
    apply (walk_inv (fun st => forall e, In e (assigned_today (ctr st)) ->
                                         In e (prev ++ slot st))).
    - intros st x _ IH _ e He. cbn [assign ctr assigned_today slot] in *.
      apply set_add_In in He. rewrite app_assoc, in_app_iff.
      destruct He as [-> | He]; [right; now left | left; now apply IH].
    - cbn. intros e He. rewrite app_nil_r. now apply Htoday. }
  split; [reflexivity|]. split; [subst s; lia|]. split; [assumption|].
  split; [intros e; split; [apply Htoday' | apply X2]|].
  subst c'. split; [lia|]. split; [exact S3|].
  intros e He. apply S4. now apply X2.
Qed.

(** The week: from thirteen employees on, every cell starts with two
    employees at hand. *)
Lemma run_week_staffed (cells : list (list (list string))) (counts : dict nat)
      (entered : bool) :
  (13 <= length employees)%nat ->
  run_week preferences employees first_scan = Ok (cells, counts, entered) ->
  Forall fully_staffed cells /\ entered = false.
Proof.
  intros Hn Hw.
  assert (G : Forall fully_staffed cells
              /\ entered = false
              /\ fully_staffed []
              /\ (forall e, In e (@nil string) <-> In e (concat (@nil (list string))))
              /\ total employees counts = (6 * length cells + 2 * 0)%nat
              /\ (forall e, count_of counts e <= 5)%nat
              /\ (forall e, In e (concat (@nil (list string))) ->
                            1 <= count_of counts e)%nat).
  { apply (@run_week_invariant preferences employees first_scan
             (fun days slots c en =>
                Forall fully_staffed days
                /\ en = false
                /\ fully_staffed slots
                /\ (forall e, In e (assigned_today c) <-> In e (concat slots))
                /\ total employees (assigned_count c)
                   = (6 * length days + 2 * length slots)%nat
                /\ (forall e, count_of (assigned_count c) e <= 5)%nat
                /\ (forall e, In e (concat slots) ->
                              1 <= count_of (assigned_count c) e)%nat))
      with (4 := Hw).
    - intros days slots c en s c' e (F & -> & [G1 G2] & G3 & G4 & G5 & G6)
             Hd Hs Hcell.
      pose proof (length_concat_pairs G2) as Hlen.
      destruct (@run_cell_two_free _ _ _ _ _ _ (concat slots) Hcell G1 G3 G5 G6)
        as (-> & W1 & W2 & W3 & W4 & W5 & W6).
      { apply two_available with (prev := concat slots); auto.
        rewrite G4, Hlen. lia. }
      split; [assumption|]. split; [reflexivity|].
      unfold fully_staffed. rewrite concat_snoc. split; [split; [exact W2|]|].
      { apply Forall_app. split; [assumption | now repeat constructor]. }
      split; [exact W3|]. split; [|split; [exact W5 | exact W6]].
      rewrite W4, G4, length_app. cbn [length]. lia.
    - intros days slots c en (F & -> & G2 & _ & G4 & G5 & _) Hlen.
      cbn [assigned_count assigned_today concat].
      split; [apply Forall_app; split; [assumption | now constructor]|].
      split; [reflexivity|]. split; [split; constructor|].
      split; [tauto|]. split; [|split; [exact G5 | intros e []]].
      rewrite G4, Hlen, length_app. cbn [length]. lia.
    - cbn [assigned_count assigned_today concat length].
      split; [constructor|]. split; [reflexivity|]. split; [split; constructor|].
      split; [tauto|]. split; [apply total_initial|].
      split; [|intros e []].
      intros e. rewrite initial_counts by reflexivity. lia. }
  destruct G as (F & E & _). now split.
Qed.
End Thirteen.

(** C3, as amended (staffing floor).  For every valid input with at least
    thirteen employees, in the schedule that [generate_schedule] returns
    every shift list of every day holds exactly two employees, different
    from each other, and nobody is in two lists of the same day. *)
Theorem staffing_floor_from_thirteen (items : list (pyval * pyval))
        (sched : schedule) :
  generate_schedule (PyDict items) = Ok sched ->
  (13 <= length items)%nat ->
  map fst sched = DAYS_OF_WEEK
  /\ forall day shifts,
       In (day, shifts) sched ->
       map fst shifts = VALID_SHIFTS
       /\ NoDup (concat (map snd shifts))
       /\ forall shift l, In (shift, l) shifts ->
                          length l = 2%nat /\ NoDup l.
Proof.
  intros Hs Hn.
  apply generate_schedule_ok in Hs. destruct Hs as [entered H].
  apply generate_schedule_with_ok in H.
  destruct H as (items' & preferences & cells & counts & E & Hc & _ & Hw & ->).
  injection E as <-.
  pose proof (run_week_spec _ _ _ Hw) as (L & F & _ & _).
  destruct (schedule_of_shape L F) as (S1 & S2 & _).
  split; [exact S1|]. intros day shifts Hin.
  destruct (S2 _ _ Hin) as [K Hcells]. split; [exact K|].
  assert (Hn' : (13 <= length (dict_keys preferences))%nat)
    by now rewrite (@collect_length _ _ Hc).
  destruct (@run_week_staffed preferences (dict_keys preferences) true
              (@collect_keys_NoDup _ _ Hc) cells counts entered Hn' Hw)
    as [G _].
  rewrite Forall_forall in G. destruct (G _ Hcells) as [G1 G2].
  split; [exact G1|]. intros shift l Hl.
  assert (Hl' : In l (map snd shifts)) by (apply in_map_iff; now exists (shift, l)).
  rewrite Forall_forall in G2. split; [now apply G2|].
  clear - G1 Hl'. induction (map snd shifts) as [|x xs IH]; [destruct Hl'|].
  cbn [concat] in G1. destruct Hl' as [-> | Hl'].
  - now apply NoDup_app_remove_r in G1.
  - apply IH; [now apply NoDup_app_remove_l in G1 | assumption].
Qed.

Lemma staffing_floor_from_thirteen_witness :
  exists sched,
    generate_schedule thirteen_mornings = Ok sched
    /\ map fst sched = DAYS_OF_WEEK
    /\ forall day shifts,
         In (day, shifts) sched ->
         map fst shifts = VALID_SHIFTS
         /\ NoDup (concat (map snd shifts))
         /\ forall shift l, In (shift, l) shifts ->
                            length l = 2%nat /\ NoDup l.
Proof.
  eexists. split; [vm_compute; reflexivity|].
  apply (@staffing_floor_from_thirteen
           (map (fun n => (PyStr n, week_of (fun _ => PyStr "morning")))
                ["a"; "b"; "c"; "d"; "e"; "f"; "g"; "h"; "i"; "j"; "k"; "l";
                 "m"])).
  - vm_compute. reflexivity.
  - cbn [map length]. lia.
Defined.

(** Thirteen is the least number: with the twelve employees of
    [twelve_crowded], the list of Sunday evening holds one employee twice;
    so does the list of Saturday afternoon with the nine employees of
    [nine_rotating]. *)
Lemma twelve_do_not_suffice :
  (exists sched,
      generate_schedule twelve_crowded = Ok sched
      /\ at2 sched "Sunday" "evening" = ["d"; "d"])
  /\ (exists sched,
         generate_schedule nine_rotating = Ok sched
         /\ at2 sched "Saturday" "afternoon" = ["d"; "d"]).
Proof.
  split; eexists; (split; [vm_compute; reflexivity | reflexivity]).
Qed.

(* ================================================================== *)
(** * The room in a week *)

Lemma sum_count_fresh (emps l : list string) (x : string) :
  ~ In x emps ->
  list_sum (map (count_occ string_dec (x :: l)) emps)
  = list_sum (map (count_occ string_dec l) emps).
Proof.
  unfold list_sum. induction emps as [|e emps IH]; intros Hn; [reflexivity|].
  cbn [map fold_right]. rewrite IH by (intros H; apply Hn; now right).
  rewrite count_occ_cons_neq; [reflexivity|]. intros ->. apply Hn. now left.
Qed.

Lemma sum_count_cons (emps l : list string) (x : string) :
  NoDup emps -> In x emps ->
  list_sum (map (count_occ string_dec (x :: l)) emps)
  = S (list_sum (map (count_occ string_dec l) emps)).
Proof.
  induction emps as [|e emps IH]; intros Hnd Hx; [destruct Hx|].
  inversion Hnd as [|? ? He Hnd']; subst.
  change (list_sum (map ?f (e :: emps))) with (f e + list_sum (map f emps))%nat.
  destruct (string_dec x e) as [-> | Hne].
  - rewrite count_occ_cons_eq by reflexivity.
    now rewrite sum_count_fresh by assumption.
  - rewrite count_occ_cons_neq by assumption.
    destruct Hx as [-> | Hx]; [congruence|]. rewrite IH by assumption. lia.
Qed.

Lemma length_by_count (emps l : list string) :
  NoDup emps -> (forall e, In e l -> In e emps) ->
  length l = list_sum (map (count_occ string_dec l) emps).
Proof.
  intros Hnd. induction l as [|x l IH]; intros Hin.
  - clear. induction emps as [|e emps IHe]; [reflexivity | exact IHe].
  - cbn [length]. rewrite IH by (intros e He; apply Hin; now right).
    symmetry. apply sum_count_cons; [assumption | apply Hin; now left].
Qed.

Lemma list_sum_bound (f : string -> nat) (emps : list string) (n : nat) :
  (forall e, f e <= n)%nat -> (list_sum (map f emps) <= n * length emps)%nat.
Proof.
  intros H. induction emps as [|e emps IH]; [cbn; lia|].
  change (list_sum (map f (e :: emps))) with (f e + list_sum (map f emps))%nat.
  cbn [length]. specialize (H e). lia.
Qed.

(** X16 (room in a week).  A schedule for [N] employees holds at most [5 N]
    entries; with six employees, the minimum that [generate_schedule]
    accepts, every list of Saturday and of Sunday is empty, whatever the
    preferences. *)
Theorem five_entries_per_employee (items : list (pyval * pyval)) (sched : schedule) :
  generate_schedule (PyDict items) = Ok sched ->
  (length (entries sched) <= 5 * length items)%nat
  /\ (length items = 6%nat ->
      forall day shifts shift l,
        In (day, shifts) sched -> In day ["Saturday"; "Sunday"] ->
        In (shift, l) shifts -> l = []).
Proof.
  intros H.
  apply generate_schedule_ok in H. destruct H as [entered H].
  apply generate_schedule_with_ok in H.
  destruct H as (items' & preferences & cells & counts & Heq & Hc & H6 & Hw & ->).
  injection Heq as <-.
  pose proof (run_week_spec _ _ _ Hw) as (L & F & C & _).
  pose proof (@collect_keys_NoDup _ _ Hc) as Hnd.
  pose proof (run_week_weekdays _ _ Hnd H6 Hw) as G.
  destruct (schedule_of_shape L F) as (_ & _ & Hentries).
  assert (Hknown : forall e, In e (concat (concat cells)) ->
                             In e (dict_keys preferences)).
  { intros e He. apply in_concat in He. destruct He as (slots & Hs & He).
    apply in_concat in Hs. destruct Hs as (day & Hday & Hs).
    assert (B : Forall (Forall (fun s => forall e, In e s ->
                                                   In e (dict_keys preferences)))
                       cells).
    { apply (@run_week_invariant preferences (dict_keys preferences) true
               (fun days slots _ _ =>
                  Forall (Forall (fun s => forall e, In e s ->
                                                     In e (dict_keys preferences)))
                         days
                  /\ Forall (fun s => forall e, In e s ->
                                                In e (dict_keys preferences))
                            slots)) with (4 := Hw).
      - intros days sl c en s c' e' [D S] _ _ Hcell. split; [assumption|].
        apply Forall_app. split; [assumption|]. constructor; [|constructor].
        exact (proj2 (run_cell_bounds _ _ _ _ _ _ Hcell)).
      - intros days sl c en [D S] _. split; [|constructor].
        apply Forall_app. split; [assumption | now constructor].
      - split; constructor. }
    rewrite Forall_forall in B. specialize (B _ Hday).
    rewrite Forall_forall in B. exact (B _ Hs _ He). }
  assert (Hroom : (length (concat (concat cells))
                   <= 5 * length (dict_keys preferences))%nat).
  { rewrite (@length_by_count _ _ Hnd Hknown). now apply list_sum_bound. }
  rewrite Hentries, <- (@collect_length _ _ Hc). split; [exact Hroom|].
  intros Hsix day shifts shift l Hd Hday Hl.
  rewrite Hsix in Hroom.
  destruct cells as [|c1 [|c2 [|c3 [|c4 [|c5 [|c6 [|c7 [|c8 cells]]]]]]]];
    try discriminate.
  cbn [firstn] in G.
  assert (Hsix' : forall c, fully_staffed c -> length c = 3%nat ->
                            length (concat c) = 6%nat).
  { intros c [_ Hc2] Hc3. rewrite (length_concat_pairs Hc2). lia. }
  assert (Hempty : forall (c : list (list string)) x,
            length (concat c) = 0%nat -> In x c -> x = []).
  { intros c x Hlen Hx. apply length_zero_iff_nil in Hlen.
    destruct x as [|y x]; [reflexivity|]. exfalso.
    assert (Hy : In y (concat c)) by (apply in_concat; exists (y :: x); cbn; auto).
    rewrite Hlen in Hy. destruct Hy. }
  inversion F as [|? ? F1 F']; subst. inversion F' as [|? ? F2 F'']; subst.
  inversion F'' as [|? ? F3 F3']; subst. inversion F3' as [|? ? F4 F4']; subst.
  inversion F4' as [|? ? F5 F5']; subst. inversion F5' as [|? ? F6 F6']; subst.
  inversion F6' as [|? ? F7 _]; subst.
  inversion G as [|? ? G1 G']; subst. inversion G' as [|? ? G2 G'']; subst.
  inversion G'' as [|? ? G3 G3']; subst. inversion G3' as [|? ? G4 G4']; subst.
  inversion G4' as [|? ? G5 _]; subst.
  cbn [concat] in Hroom. rewrite !concat_app, !length_app in Hroom.
  rewrite (Hsix' c1 G1 F1), (Hsix' c2 G2 F2), (Hsix' c3 G3 F3),
    (Hsix' c4 G4 F4), (Hsix' c5 G5 F5) in Hroom.
  cbn [concat length] in Hroom.
  unfold schedule_of in Hd. cbn [map combine DAYS_OF_WEEK In] in Hd.
  destruct Hd as [Hd | [Hd | [Hd | [Hd | [Hd | [Hd | [Hd | []]]]]]]];
    apply pair_equal_spec in Hd; destruct Hd as [<- <-];
    try (exfalso; cbn in Hday; intuition discriminate).
  - apply (Hempty c6); [lia|].
    rewrite <- (@map_snd_combine _ _ VALID_SHIFTS c6) by (now rewrite F6).
    apply in_map_iff. now exists (shift, l).
  - apply (Hempty c7); [lia|].
    rewrite <- (@map_snd_combine _ _ VALID_SHIFTS c7) by (now rewrite F7).
    apply in_map_iff. now exists (shift, l).
Qed.

Lemma five_entries_per_employee_witness :
  exists sched,
    generate_schedule six_spread = Ok sched
    /\ (length (entries sched) <= 5 * 6)%nat
    /\ (forall day shifts shift l,
           In (day, shifts) sched -> In day ["Saturday"; "Sunday"] ->
           In (shift, l) shifts -> l = []).
Proof.
  eexists. split; [vm_compute; reflexivity|].
  match goal with
  | |- context [entries ?s] =>
      destruct (@five_entries_per_employee
                  (map (fun n => (PyStr n,
                                  week_of (fun _ => if mem n ["a"; "b"]
                                                    then PyStr "morning"
                                                    else if mem n ["c"; "d"]
                                                         then PyStr "afternoon"
                                                         else PyStr "evening")))
                       ["a"; "b"; "c"; "d"; "e"; "f"]) s) as [H1 H2]
  end.
  - vm_compute. reflexivity.
  - split; [exact H1 | exact (H2 eq_refl)].
Defined.

(* ================================================================== *)
(** * Candidates are taken by rank *)

Section SortedLists.
Variable A : Type.
Variable leb : A -> A -> bool.
Hypothesis leb_total : forall x y, leb x y = true \/ leb y x = true.
Hypothesis leb_trans :
  forall x y z, leb x y = true -> leb y z = true -> leb x z = true.

Lemma insert_sorted_sorted (x : A) (l : list A) :
  StronglySorted (fun a b => leb a b = true) l ->
  StronglySorted (fun a b => leb a b = true) (insert_sorted leb x l).
Proof.
  induction 1 as [|h t Hs IH Hh]; cbn [insert_sorted].
  - repeat constructor.
  - destruct (leb x h) eqn:E.
    + constructor; [now constructor|]. constructor; [exact E|].
      revert Hh. apply Forall_impl. intros y Hy. exact (leb_trans E Hy).
    + constructor; [assumption|].
      apply Forall_forall. intros y Hy. apply insert_sorted_In in Hy.
      destruct Hy as [-> | Hy].
      * destruct (leb_total x h) as [T | T]; [congruence | exact T].
      * rewrite Forall_forall in Hh. now apply Hh.
Qed.

Lemma sorted_sorted (l : list A) :
  StronglySorted (fun a b => leb a b = true) (sorted leb l).
Proof.
  induction l as [|x l IH]; cbn; [constructor|].
  now apply insert_sorted_sorted.
Qed.
End SortedLists.

Lemma StronglySorted_app {A} (R : A -> A -> Prop) (l1 l2 : list A) :
  StronglySorted R l1 -> StronglySorted R l2 ->
  (forall x y, In x l1 -> In y l2 -> R x y) ->
  StronglySorted R (l1 ++ l2).
Proof.
  induction 1 as [|h t Hs IH Hh]; intros H2 Hx; [exact H2|].
  cbn [app]. constructor.
  - apply IH; [assumption|]. intros x y Hx1 Hy. apply Hx; [now right | assumption].
  - apply Forall_app. split; [assumption|].
    apply Forall_forall. intros y Hy. apply Hx; [now left | assumption].
Qed.

Lemma StronglySorted_middle {A} (R : A -> A -> Prop) (l1 l2 : list A) (x : A) :
  StronglySorted R (l1 ++ x :: l2) ->
  (forall y, In y l1 -> R y x) /\ (forall y, In y l2 -> R x y).
Proof.
  induction l1 as [|h l1 IH]; cbn [app]; intros H; inversion H as [|? ? Hs Hh];
    subst.
  - split; [intros y [] | now apply Forall_forall].
  - destruct (IH Hs) as [I1 I2]. split; [|assumption].
    intros y [<- | Hy]; [|now apply I1].
    rewrite Forall_forall in Hh. apply Hh, in_app_iff. right. now left.
Qed.

Lemma constant_sorted {A} (f : A -> nat) (r : nat) (l : list A) :
  (forall x, In x l -> f x = r) ->
  StronglySorted (fun x y => f x <= f y)%nat l.
Proof.
  induction l as [|h t IH]; intros H; constructor.
  - apply IH. intros x Hx. apply H. now right.
  - apply Forall_forall. intros y Hy.
    rewrite (H h), (H y); [lia | now right | now left].
Qed.

Section RankOrder.
Variable preferences : dict (dict (list string)).
Variable employees : list string.
Variable day shift : string.

Lemma rank_map_ranked (c : counters) (rm : rank_map) :
  for_each (rank_entry preferences day shift c) employees [] = Ok rm ->
  forall r e, In e (rank_map_get rm r) -> rank_in_cell preferences day shift e = r.
Proof.
  intros H.
  apply (@for_each_inv _ _ (rank_entry preferences day shift c)
           (fun _ rm => forall r e, In e (rank_map_get rm r) ->
                        rank_in_cell preferences day shift e = r)
           employees [] rm); [| |exact H].
  - intros r e [].
  - intros pre x s t _ IH Hb r e He. unfold rank_entry in Hb.
    destruct (unavailable c x); [apply Ok_inj in Hb; subst t; now apply IH|].
    apply bind_ok in Hb. destruct Hb as (day_map & Hd & Hb).
    apply bind_ok in Hb. destruct Hb as (pref_list & Hp & Hb).
    apply Ok_inj in Hb. subst t. apply rank_map_get_append in He.
    destruct He as [[-> ->] | He]; [|now apply IH].
    unfold rank_in_cell, at2. unfold subscript in Hd, Hp.
    destruct (dict_get preferences x); [|discriminate]. apply Ok_inj in Hd.
    subst d. destruct (dict_get day_map day); [|discriminate].
    apply Ok_inj in Hp. now subst.
Qed.

Lemma flatten_by_rank (c : counters) (rm : rank_map) (ordered : list string) :
  for_each (rank_entry preferences day shift c) employees [] = Ok rm ->
  flatten rm = Ok ordered ->
  StronglySorted (fun x y => rank_in_cell preferences day shift x
                             <= rank_in_cell preferences day shift y)%nat
                 ordered.
Proof.
  intros Hrm H. pose proof (rank_map_ranked _ Hrm) as Hrank.
  unfold flatten in H.
  assert (Hkeys : StronglySorted (fun a b => Nat.leb a b = true)
                                 (sorted Nat.leb (map fst rm))).
  { apply sorted_sorted.
    - intros x y. rewrite !Nat.leb_le. lia.
    - intros x y z. rewrite !Nat.leb_le. lia. }
  assert (G : StronglySorted (fun x y =>
                                rank_in_cell preferences day shift x
                                <= rank_in_cell preferences day shift y)%nat
                             ordered
              /\ forall x, In x ordered ->
                           In (rank_in_cell preferences day shift x) (sorted Nat.leb (map fst rm))).
  2:{ exact (proj1 G). }
  apply (@for_each_inv_prefix _ _ _
           (fun pre ordered =>
              StronglySorted (fun x y =>
                                rank_in_cell preferences day shift x
                                <= rank_in_cell preferences day shift y)%nat
                             ordered
              /\ forall x, In x ordered -> In (rank_in_cell preferences day shift x) pre)
           _ _ _) with (3 := H).
  - split; [constructor | intros x []].
  - intros pre r post s t Hsplit [S1 S2] Hb.
    apply bind_ok in Hb. destruct Hb as (group & Hg & Hb). apply Ok_inj in Hb.
    subst t. apply deterministic_shuffle_Permutation in Hg.
    assert (Hgr : forall x, In x group -> rank_in_cell preferences day shift x = r).
    { intros x Hx. apply Hrank. eapply Permutation_in; [symmetry|]; eassumption. }
    rewrite Hsplit in Hkeys. apply StronglySorted_middle in Hkeys.
    destruct Hkeys as [Hbefore _]. split.
    + apply StronglySorted_app;
        [assumption
        | now apply (@constant_sorted _ (rank_in_cell preferences day shift) r) |].
      intros x y Hx Hy. rewrite (Hgr y Hy).
      apply Nat.leb_le. apply Hbefore. now apply S2.
    + intros x Hx. apply in_app_iff in Hx. apply in_app_iff.
      destruct Hx as [Hx | Hx]; [left; now apply S2 | right; left].
      symmetry. now apply Hgr.
Qed.

(** An employee placed by the walk stands in [ordered] behind candidates
    that the walk has all left unavailable. *)
Lemma walk_takes_in_order (ordered : list string) (st : cell) (e : string) :
  In e (slot (walk ordered st)) -> ~ In e (slot st) ->
  exists l1 l2, ordered = l1 ++ e :: l2
                /\ forall x, In x l1 -> unavailable (ctr (walk ordered st)) x = true.
Proof.
  revert st. induction ordered as [|x rest IH]; intros st Hin Hn.
  - contradiction.
  - cbn [walk] in *.
    assert (Hmono : forall st0 y, unavailable (ctr st0) y = true ->
                      unavailable (ctr (walk rest st0)) y = true).
    { intros st0 y Hy.
      apply (walk_inv (fun s => unavailable (ctr s) y = true)); auto.
      intros. now apply unavailable_assign. }
    destruct (unavailable (ctr st) x) eqn:E.
    + destruct (IH st Hin Hn) as (l1 & l2 & -> & Hl).
      exists (x :: l1), l2. split; [reflexivity|].
      intros y [<- | Hy]; [now apply Hmono | now apply Hl].
    + destruct (String.eqb_spec e x) as [-> | Hne].
      * exists [], rest. split; [reflexivity | intros y []].
      * destruct (2 <=? placed (assign st x))%nat.
        -- exfalso. cbn [assign slot] in Hin. apply in_app_iff in Hin.
           destruct Hin as [Hin | [<- | []]]; [contradiction | congruence].
        -- destruct (IH (assign st x) Hin) as (l1 & l2 & -> & Hl).
           { cbn [assign slot]. intros H. apply in_app_iff in H.
             destruct H as [H | [<- | []]]; [contradiction | congruence]. }
           exists (x :: l1), l2. split; [reflexivity|].
           intros y [<- | Hy]; [|now apply Hl].
           apply Hmono, unavailable_assigned.
Qed.

(** In a cell, nobody is placed while an available employee ranks the
    shift strictly better and is left out. *)
Lemma run_cell_respects (first_scan : bool) (c c' : counters) (s : list string)
      (entered : bool) :
  run_cell preferences employees day shift first_scan c = Ok (s, c', entered) ->
  forall e e', In e s -> In e' employees -> unavailable c e' = false ->
               (rank_in_cell preferences day shift e'
                < rank_in_cell preferences day shift e)%nat -> In e' s.
Proof.
  intros H e e' He He' Hu Hr.
  pose proof H as Hrun. unfold run_cell in Hrun.
  apply bind_ok in Hrun. destruct Hrun as (rm & Hrm & Hrun).
  apply bind_ok in Hrun. destruct Hrun as (ordered & Hfl & Hrun).
  apply Ok_inj in Hrun.
  pose proof (flatten_by_rank _ Hrm Hfl) as Hsorted.
  pose proof (@ordered_members _ _ _ _ _ _ _ Hrm Hfl) as Hord.
  set (st0 := {| slot := []; ctr := c; placed := 0 |}) in *.
  set (st1 := walk ordered st0) in *.
  assert (Hin' : In e' ordered) by (apply Hord; auto).
  assert (Hgrow : forall x, In x (slot st1) -> In x s).
  { intros x Hx. apply pair_equal_spec in Hrun. destruct Hrun as [Hrun _].
    apply pair_equal_spec in Hrun. destruct Hrun as [<- _].
    assert (G2 : In x (slot (if first_scan && (placed st1 <? 2)%nat
                             then first_fallback employees st1 else st1))).
    { destruct (first_scan && _); [|assumption].
      apply (first_fallback_inv (fun st => In x (slot st))); [|assumption].
      intros st y _ Hs _ _. cbn [assign slot]. apply in_app_iff. now left. }
    destruct (placed _ <? 2)%nat; [|assumption].
    apply (last_resort_inv (fun st => In x (slot st))); [|assumption].
    intros st y _ Hs _ _. cbn [assign_again slot]. apply in_app_iff. now left. }
  apply Hgrow. apply (walk_assigns c ordered); [assumption|].
  fold st0. fold st1.
  destruct (in_dec string_dec e (slot st1)) as [Hwalk | Hlater].
  - destruct (@walk_takes_in_order ordered st0 e Hwalk) as (l1 & l2 & Heq & Hl);
      [intros []|].
    apply Hl. rewrite Heq in Hsorted, Hin'.
    apply StronglySorted_middle in Hsorted. destruct Hsorted as [_ Hafter].
    apply in_app_iff in Hin'. destruct Hin' as [Hin' | [<- | Hin']];
      [assumption | lia | specialize (Hafter e' Hin'); lia].
  - apply walk_exhausts; [|assumption]. fold st1.
    destruct (Nat.lt_ge_cases (placed st1) 2) as [|Hge]; [assumption|].
    exfalso. apply Hlater.
    apply pair_equal_spec in Hrun. destruct Hrun as [Hrun _].
    apply pair_equal_spec in Hrun. destruct Hrun as [Hs _].
    assert (Hf : (placed st1 <? 2)%nat = false) by (apply Nat.ltb_ge; lia).
    rewrite Hf, andb_false_r in Hs. cbv iota in Hs. rewrite Hf in Hs.
    cbv iota in Hs. now rewrite Hs.
Qed.
End RankOrder.

Lemma nth_snoc_any {A} (l : list A) (x d : A) (j : nat) :
  nth j (l ++ [x]) d
  = if (j <? length l)%nat then nth j l d
    else if (j =? length l)%nat then x else d.
Proof.
  destruct (Nat.ltb_spec j (length l)) as [Hlt | Hge].
  - now apply app_nth1.
  - rewrite app_nth2 by assumption.
    destruct (Nat.eqb_spec j (length l)) as [-> | Hne].
    + now rewrite Nat.sub_diag.
    + destruct (j - length l)%nat as [|[|k]] eqn:Ek; [lia | reflexivity..].
Qed.

Lemma in_nth_concat {A} (l : list (list A)) (j : nat) (x : A) :
  In x (nth j l []) -> In x (concat l).
Proof.
  intros H. apply in_concat. exists (nth j l []). split; [|assumption].
  apply nth_In. destruct (Nat.lt_ge_cases j (length l)) as [|Hge]; [assumption|].
  rewrite nth_overflow in H by assumption. destruct H.
Qed.

(** The names that a cell adds to [assigned_today] are in its list. *)
Lemma run_cell_today (preferences : dict (dict (list string)))
      (employees : list string) (day shift : string) (first_scan : bool)
      (c c' : counters) (s : list string) (entered : bool) :
  run_cell preferences employees day shift first_scan c = Ok (s, c', entered) ->
  forall e, In e (assigned_today c') -> In e (assigned_today c) \/ In e s.
Proof.
  intros H. apply run_cell_inv in H.
  destruct H as (ordered & st1 & st2 & st3 & _ & H1 & H2 & _ & H3 & -> & ->).
  set (P := fun st : cell =>
              forall e, In e (assigned_today (ctr st)) ->
                        In e (assigned_today c) \/ In e (slot st)).
  assert (Hassign : forall st e, P st -> P (assign st e)).
  { intros st e Hp x Hx. cbn [assign ctr assigned_today slot] in *.
    apply set_add_In in Hx. rewrite in_app_iff.
    destruct Hx as [-> | Hx]; [right; right; now left|].
    destruct (Hp x Hx); auto. }
  assert (Hagain : forall st e, P st -> P (assign_again st e)).
  { intros st e Hp x Hx. cbn [assign_again ctr assigned_today slot] in *.
    rewrite in_app_iff. destruct (Hp x Hx); auto. }
  assert (P1 : P st1).
  { subst st1. apply walk_inv; [intros; now apply Hassign|].
    intros e He. now left. }
  assert (P2 : P st2).
  { subst st2. destruct (first_scan && _); [|assumption].
    apply first_fallback_inv; [intros; now apply Hassign | assumption]. }
  subst st3. destruct entered; [|assumption].
  apply last_resort_inv; [intros; now apply Hagain | assumption].
Qed.

Lemma schedule_day (cells : list (list (list string))) (day : string)
      (shifts : dict (list string)) :
  length cells = 7%nat ->
  In (day, shifts) (schedule_of cells) ->
  exists i, day = nth i DAYS_OF_WEEK ""
            /\ shifts = combine VALID_SHIFTS (nth i cells []).
Proof.
  intros L H. unfold schedule_of in H.
  destruct (In_nth _ _ ("", []) H) as (i & _ & Hi).
  rewrite combine_nth in Hi by (now rewrite length_map, L).
  change (@nil (string * list string))
    with (combine VALID_SHIFTS (@nil (list string))) in Hi.
  rewrite map_nth in Hi. apply pair_equal_spec in Hi. destruct Hi as [<- <-].
  now exists i.
Qed.

Lemma schedule_shift (slots : list (list string)) (shift : string)
      (l : list string) :
  length slots = 3%nat ->
  In (shift, l) (combine VALID_SHIFTS slots) ->
  exists j, shift = nth j VALID_SHIFTS "" /\ l = nth j slots [].
Proof.
  intros L H. destruct (In_nth _ _ ("", []) H) as (j & _ & Hj).
  rewrite combine_nth in Hj by (now rewrite L).
  apply pair_equal_spec in Hj. destruct Hj as [<- <-]. now exists j.
Qed.

Lemma nth_length_three (cells : list (list (list string))) (i : nat) :
  Forall (fun slots => length slots = 3%nat) cells ->
  nth i cells [] = [] \/ length (nth i cells []) = 3%nat.
Proof.
  intros F. destruct (Nat.lt_ge_cases i (length cells)) as [Hlt | Hge].
  - right. rewrite Forall_forall in F. apply F. now apply nth_In.
  - left. now apply nth_overflow.
Qed.

(** X17 (nobody is passed over).  If an employee is in no list of a day and
    has fewer than five entries in the whole schedule, then everyone in a
    list of that day ranks the shift of that list at least as high as that
    employee does. *)
Theorem idle_employee_not_passed_over (items : list (pyval * pyval))
        (preferences : dict (dict (list string))) (sched : schedule) :
  collect_employee_preferences (PyDict items) = Ok preferences ->
  generate_schedule (PyDict items) = Ok sched ->
  forall day shifts shift l e e',
    In (day, shifts) sched -> In (shift, l) shifts ->
    In e l ->
    In e' (dict_keys preferences) ->
    ~ In e' (concat (map snd shifts)) ->
    (count_occ string_dec (entries sched) e' < 5)%nat ->
    (rank_of (at2 preferences e day) shift
     <= rank_of (at2 preferences e' day) shift)%nat.
Proof.
  intros Hc H day shifts shift l e e' Hd Hs He He' Hidle Hroom.
  apply generate_schedule_ok in H. destruct H as [entered H].
  apply generate_schedule_with_ok in H.
  destruct H as (items' & prefs' & cells & counts & Heq & Hc' & _ & Hw & ->).
  rewrite Hc in Hc'. apply Ok_inj in Hc'. subst prefs'.
  pose proof (run_week_spec _ _ _ Hw) as (L & F & _).
  destruct (schedule_of_shape L F) as (_ & _ & Hentries).
  rewrite Hentries in Hroom.
  destruct (@schedule_day _ _ _ L Hd) as (i & -> & ->).
  assert (L3 : length (nth i cells []) = 3%nat).
  { destruct (@nth_length_three _ i F) as [Hnil | H3]; [|assumption].
    rewrite Hnil in Hs. destruct Hs. }
  rewrite map_snd_combine in Hidle by (now rewrite L3).
  destruct (@schedule_shift _ _ _ L3 Hs) as (j & -> & ->).
  set (employees := dict_keys preferences) in *.
  assert (G : forall i j e e',
             In e (nth j (nth i cells []) []) -> In e' employees ->
             (rank_of (at2 preferences e' (nth i DAYS_OF_WEEK ""))
                      (nth j VALID_SHIFTS "")
              < rank_of (at2 preferences e (nth i DAYS_OF_WEEK ""))
                        (nth j VALID_SHIFTS ""))%nat ->
             In e' (concat (nth i cells []))
             \/ (5 <= count_occ string_dec (concat (concat cells)) e')%nat).
  { clear - Hw.
    assert (I : (forall e, count_of counts e
                           = count_occ string_dec (concat (concat cells) ++ []) e
                           /\ (count_of counts e <= 5)%nat)
                /\ (forall e, In e (@nil string) -> In e (@concat string []))
                /\ (forall i j e e',
                      In e (nth j (nth i cells []) []) -> In e' employees ->
                      (rank_of (at2 preferences e' (nth i DAYS_OF_WEEK ""))
                               (nth j VALID_SHIFTS "")
                       < rank_of (at2 preferences e (nth i DAYS_OF_WEEK ""))
                                 (nth j VALID_SHIFTS ""))%nat ->
                      In e' (concat (nth i cells []))
                      \/ (5 <= count_occ string_dec
                                         (concat (concat cells) ++ []) e')%nat)
                /\ (forall j e e',
                      In e (nth j (@nil (list string)) []) -> In e' employees ->
                      (rank_of (at2 preferences e'
                                    (nth (length cells) DAYS_OF_WEEK ""))
                               (nth j VALID_SHIFTS "")
                       < rank_of (at2 preferences e
                                      (nth (length cells) DAYS_OF_WEEK ""))
                                 (nth j VALID_SHIFTS ""))%nat ->
                      In e' (@concat string [])
                      \/ (5 <= count_occ string_dec
                                         (concat (concat cells) ++ []) e')%nat)).
    2:{ destruct I as (_ & _ & I3 & _). intros i j e e' H1 H2 H3.
        specialize (I3 i j e e' H1 H2 H3). now rewrite app_nil_r in I3. }
    apply (@run_week_invariant preferences employees true
             (fun days slots c _ =>
                (forall e, count_of (assigned_count c) e
                           = count_occ string_dec
                                       (concat (concat days) ++ concat slots) e
                           /\ (count_of (assigned_count c) e <= 5)%nat)
                /\ (forall e, In e (assigned_today c) -> In e (concat slots))
                /\ (forall i j e e',
                      In e (nth j (nth i days []) []) -> In e' employees ->
                      (rank_of (at2 preferences e' (nth i DAYS_OF_WEEK ""))
                               (nth j VALID_SHIFTS "")
                       < rank_of (at2 preferences e (nth i DAYS_OF_WEEK ""))
                                 (nth j VALID_SHIFTS ""))%nat ->
                      In e' (concat (nth i days []))
                      \/ (5 <= count_occ string_dec
                                         (concat (concat days) ++ concat slots)
                                         e')%nat)
                /\ (forall j e e',
                      In e (nth j slots []) -> In e' employees ->
                      (rank_of (at2 preferences e'
                                    (nth (length days) DAYS_OF_WEEK ""))
                               (nth j VALID_SHIFTS "")
                       < rank_of (at2 preferences e
                                      (nth (length days) DAYS_OF_WEEK ""))
                                 (nth j VALID_SHIFTS ""))%nat ->
                      In e' (concat slots)
                      \/ (5 <= count_occ string_dec
                                         (concat (concat days) ++ concat slots)
                                         e')%nat)))
      with (4 := Hw).
    - (* one more cell *)
      intros days slots c en s c' en' (I1 & I2 & I3 & I4) _ _ Hcell.
      assert (C5 : forall e, (count_of (assigned_count c) e <= 5)%nat)
        by (intros e; apply I1).
      pose proof (@run_cell_counts _ _ _ _ _ _ _ _ _ Hcell C5) as Hcount.
      assert (Hocc : forall e,
                 count_occ string_dec
                           (concat (concat days) ++ concat (slots ++ [s])) e
                 = (count_occ string_dec (concat (concat days) ++ concat slots) e
                    + count_occ string_dec s e)%nat).
      { intros e. rewrite concat_snoc, app_assoc, count_occ_app. reflexivity. }
      split; [|split; [|split]].
      + intros e. destruct (Hcount e) as [Heq Hle]. destruct (I1 e) as [Hold _].
        split; [rewrite Heq, Hocc, Hold; reflexivity | exact Hle].
      + intros e Hin. rewrite concat_snoc, in_app_iff.
        destruct (run_cell_today _ _ _ _ _ _ Hcell e Hin) as [Ht | Ht]; auto.
      + intros i j e e' H1 H2 H3. destruct (I3 i j e e' H1 H2 H3) as [G | G];
          [now left | right]. rewrite Hocc. lia.
      + intros j e e' H1 H2 H3. rewrite nth_snoc_any in H1.
        destruct (Nat.ltb_spec j (length slots)) as [Hlt | Hge].
        * destruct (I4 j e e' H1 H2 H3) as [G | G].
          -- left. rewrite concat_snoc, in_app_iff. now left.
          -- right. rewrite Hocc. lia.
        * destruct (Nat.eqb_spec j (length slots)) as [-> | Hne]; [|destruct H1].
          destruct (unavailable c e') eqn:Hu.
          -- apply unavailable_true in Hu. destruct Hu as [Hu | Hu].
             ++ right. rewrite Hocc. destruct (I1 e') as [<- _]. lia.
             ++ left. rewrite concat_snoc, in_app_iff. left. now apply I2.
          -- left. rewrite concat_snoc, in_app_iff. right.
             exact (@run_cell_respects _ _ _ _ _ _ _ _ _ Hcell e e' H1 H2 Hu H3).
    - (* the day is over *)
      intros days slots c en (I1 & I2 & I3 & I4) Hlen.
      cbn [assigned_count assigned_today concat].
      assert (Hcat : concat (concat (days ++ [slots])) ++ []
                     = concat (concat days) ++ concat slots).
      { now rewrite app_nil_r, concat_snoc, concat_app. }
      rewrite Hcat. split; [exact I1|]. split; [intros e []|]. split.
      + intros i j e e' H1 H2 H3. rewrite nth_snoc_any in H1 |- *.
        destruct (Nat.ltb_spec i (length days)) as [Hlt | Hge];
          [now apply (I3 i j e e')|].
        destruct (Nat.eqb_spec i (length days)) as [-> | Hne].
        * now apply (I4 j e e').
        * destruct j; destruct H1.
      + intros j e e' H1. destruct j; destruct H1.
    - (* the start of the week *)
      cbn [assigned_count assigned_today concat app]. split; [|split; [|split]].
      + intros e. rewrite initial_counts by reflexivity. cbn. lia.
      + intros e [].
      + intros i j e e' H1. destruct i, j; destruct H1.
      + intros j e e' H1. destruct j; destruct H1. }
  destruct (Nat.le_gt_cases
              (rank_of (at2 preferences e (nth i DAYS_OF_WEEK ""))
                       (nth j VALID_SHIFTS ""))
              (rank_of (at2 preferences e' (nth i DAYS_OF_WEEK ""))
                       (nth j VALID_SHIFTS ""))) as [|Hgt]; [assumption|].
  exfalso. destruct (G i j e e' He He' Hgt) as [G1 | G1]; [contradiction | lia].
Qed.

Lemma idle_employee_not_passed_over_witness :
  exists preferences,
    collect_employee_preferences nine_spread = Ok preferences
    /\ (rank_of (at2 preferences "a" "Monday") "morning"
        <= rank_of (at2 preferences "h" "Monday") "morning")%nat.
Proof.
  eexists. split; [vm_compute; reflexivity|].
  eapply (@idle_employee_not_passed_over
            (map (fun n => (PyStr n,
                            week_of (fun _ => if mem n ["a"; "b"; "c"]
                                              then PyStr "morning"
                                              else if mem n ["d"; "e"; "f"]
                                                   then PyStr "afternoon"
                                                   else PyStr "evening")))
                 ["a"; "b"; "c"; "d"; "e"; "f"; "g"; "h"; "i"]))
    with (day := "Monday") (shift := "morning") (l := ["a"; "c"])
         (e := "a") (e' := "h").
  - vm_compute. reflexivity.
  - vm_compute. reflexivity.
  - left. reflexivity.
  - left. reflexivity.
  - left. reflexivity.
  - vm_compute. tauto.
  - vm_compute. intuition discriminate.
  - vm_compute. lia.
Defined.

(* ================================================================== *)
(** * The request handler *)

Lemma rstrip_cons (c : ascii) (s : string) :
  rstrip (String c s)
  = match rstrip s with
    | EmptyString => if is_space c then EmptyString else String c EmptyString
    | t => String c t
    end.
Proof. reflexivity. Qed.

Lemma rstrip_idem (s : string) : rstrip (rstrip s) = rstrip s.
Proof.
  induction s as [|c s IH]; [reflexivity|].
  rewrite rstrip_cons. destruct (rstrip s) as [|a r] eqn:E.
  - destruct (is_space c) eqn:Hc; [reflexivity|].
    rewrite rstrip_cons. cbn [rstrip]. now rewrite Hc.
  - rewrite rstrip_cons, IH. reflexivity.
Qed.

(** [strip] of a stripped string changes nothing. *)
Lemma strip_idem (s : string) : strip (strip s) = strip s.
Proof.
  unfold strip.
  assert (H : lstrip (rstrip (lstrip s)) = rstrip (lstrip s)).
  { assert (G : lstrip s = "" \/ exists c t, lstrip s = String c t
                                             /\ is_space c = false).
    { induction s as [|c s IH]; [now left|]. cbn [lstrip].
      destruct (is_space c) eqn:Hc; [exact IH|]. right. now exists c, s. }
    destruct G as [-> | (c & t & -> & Hc)]; [reflexivity|].
    rewrite rstrip_cons.
    destruct (rstrip t); [rewrite Hc|]; cbn [lstrip]; now rewrite Hc. }
  rewrite H. apply rstrip_idem.
Qed.

Lemma valid_shift_fixed (s : string) :
  In s VALID_SHIFTS -> strip (lower s) = s.
Proof.
  intros [<- | [<- | [<- | []]]]; reflexivity.
Qed.

Lemma py_set_fresh (items : list (pyval * pyval)) (k : string) (v : pyval) :
  ~ In (PyStr k) (map fst items) ->
  py_set items k v = items ++ [(PyStr k, v)].
Proof.
  induction items as [|[k' v'] items IH]; cbn [py_set map fst In app];
    intros H; [reflexivity|].
  destruct k'; try (rewrite IH by tauto; reflexivity).
  destruct (String.eqb_spec s k) as [-> | Hne]; [tauto|].
  rewrite IH by tauto. reflexivity.
Qed.

(** The test of line 52 on a string: it passes for a valid shift name that
    was not chosen before. *)
Lemma choose_str (st : list (pyval * pyval) * list string * Z) (t : string) :
  choose st (PyStr t)
  = if mem t VALID_SHIFTS && negb (mem t (snd (fst st)))
    then Fine (py_set (fst (fst st)) t (PyInt (snd st)),
               set_add t (snd (fst st)), (snd st + 1)%Z)
    else Fine st.
Proof.
  unfold choose. cbn [truthy].
  destruct (String.eqb_spec t "") as [-> | _]; [reflexivity|]. cbn [negb].
  destruct (String.eqb_spec t "none") as [-> | _]; [reflexivity|].
  destruct (mem t (snd (fst st))); cbn [negb]; [now rewrite andb_false_r|].
  rewrite andb_true_r. reflexivity.
Qed.

Lemma choose_ui (st : list (pyval * pyval) * list string * Z) (s : pyval) :
  ui_choice s ->
  choose st s = Fine st
  \/ exists t, s = PyStr t /\ In t VALID_SHIFTS /\ ~ In t (snd (fst st))
               /\ choose st s
                  = Fine (py_set (fst (fst st)) t (PyInt (snd st)),
                          t :: snd (fst st), (snd st + 1)%Z).
Proof.
  intros [-> | [t ->]]; [now left|].
  rewrite choose_str.
  destruct (mem t VALID_SHIFTS) eqn:Hv; [|now left].
  destruct (mem t (snd (fst st))) eqn:Hu; [now left|].
  right. exists t. apply mem_In in Hv. pose proof Hu as Hu'.
  apply mem_false in Hu'. cbn [andb negb]. unfold set_add. rewrite Hu. auto.
Qed.

(** At most two choices give a priority map of at most two entries. *)
Lemma choices_ranked (l : list pyval) :
  (length l <= 2)%nat -> Forall ui_choice l ->
  exists st, attempt_each choose l ([], [], 1%Z) = Fine st
             /\ ranked_choices (fst (fst st)).
Proof.
  intros Hlen Hui.
  destruct l as [|a [|b [|c l]]]; [| | |cbn [length] in Hlen; lia].
  - eexists. split; [reflexivity | constructor].
  - apply Forall_inv in Hui.
    destruct (@choose_ui ([], [], 1%Z) a Hui) as [E | (t & -> & Hv & _ & E)];
      cbn [attempt_each]; rewrite E; eexists; (split; [reflexivity|]);
      cbn [fst snd py_set]; now constructor.
  - pose proof (Forall_inv Hui) as Ha.
    pose proof (Forall_inv (Forall_inv_tail Hui)) as Hb.
    destruct (@choose_ui ([], [], 1%Z) a Ha) as [E | (t & -> & Hv & _ & E)];
      cbn [attempt_each]; rewrite E; cbn [fst snd py_set].
    + destruct (@choose_ui ([], [], 1%Z) b Hb) as [E2 | (t & -> & Hv & _ & E2)];
        rewrite E2; eexists; (split; [reflexivity|]);
        cbn [fst snd py_set]; now constructor.
    + change (1 + 1)%Z with 2%Z.
      destruct (@choose_ui ([(PyStr t, PyInt 1)], [t], 2%Z) b Hb)
        as [E2 | (t2 & -> & Hv2 & Hn & E2)];
        rewrite E2; eexists; (split; [reflexivity|]); cbn [fst snd].
      * now constructor.
      * cbn [fst snd In] in Hn.
        rewrite py_set_fresh by (cbn [map fst In]; intros [H | []];
                                 injection H as ->; tauto).
        cbn [app]. constructor; auto; intros ->; tauto.
Qed.

(** The normaliser accepts the priority maps that the conversion builds. *)
Lemma ranked_choices_accepted (pri_map : list (pyval * pyval)) :
  ranked_choices pri_map ->
  exists l, normalize_day (match pri_map with
                           | [] => PyNone
                           | _ :: _ => PyDict pri_map
                           end) = Ok l.
Proof.
  intros [|s Hs|s1 s2 H1 H2 Hne].
  - eexists. reflexivity.
  - eexists. apply (@normalize_one s (PyInt 1) 1%Z);
      [now rewrite valid_shift_fixed | reflexivity | lia].
  - eexists. apply (@normalize_two s1 s2 (PyInt 1) (PyInt 2) 1%Z 2%Z);
      try reflexivity; try lia; rewrite ?valid_shift_fixed; assumption.
Qed.

Lemma day_choice_ui (prefs : list (pyval * pyval)) (day : string) (l : list pyval) :
  py_get prefs day (PyList [PyNone; PyNone]) = PyList l ->
  (length l <= 2)%nat -> Forall ui_choice l ->
  exists v r, day_choice prefs day = Fine v /\ normalize_day v = Ok r.
Proof.
  intros Hget Hlen Hui. unfold day_choice. rewrite Hget. cbn [iterate].
  destruct (choices_ranked Hlen Hui) as (st & -> & Hr).
  destruct (ranked_choices_accepted Hr) as [r Hn]. eauto.
Qed.

(** The day loop of lines 46-56 appends one value for each day. *)
Lemma add_days (prefs : list (pyval * pyval)) (days : list string) :
  NoDup days ->
  (forall day, In day days ->
     exists v r, day_choice prefs day = Fine v /\ normalize_day v = Ok r) ->
  forall done,
    (forall day, In day days -> ~ In (PyStr day) (map fst done)) ->
    exists vs,
      attempt_each (add_day prefs) days done
      = Fine (done ++ combine (map PyStr days) vs)
      /\ length vs = length days
      /\ Forall (fun v => exists r, normalize_day v = Ok r) vs.
Proof.
  induction days as [|day days IH]; intros Hnd Hday done Hfresh.
  - exists []. cbn [attempt_each map combine]. rewrite app_nil_r. auto.
  - apply NoDup_cons_iff in Hnd. destruct Hnd as [Hnew Hnd].
    destruct (Hday day (or_introl eq_refl)) as (v & r & Hv & Hr).
    cbn [attempt_each]. unfold add_day at 1. rewrite Hv.
    rewrite py_set_fresh by (apply Hfresh; now left).
    destruct (IH Hnd (fun d Hd => Hday d (or_intror Hd))
                 (done ++ [(PyStr day, v)])) as (vs & E & Hl & Hok).
    { intros d Hd. rewrite map_app, in_app_iff. cbn [map fst In].
      intros [H | [H | []]].
      - exact (Hfresh d (or_intror Hd) H).
      - injection H as ->. tauto. }
    exists (v :: vs). rewrite E, <- app_assoc. cbn [map combine app length].
    split; [reflexivity|]. split; [now rewrite Hl|].
    constructor; eauto.
Qed.

Lemma NoDup_DAYS_OF_WEEK : NoDup DAYS_OF_WEEK.
Proof. apply has_dup_false. reflexivity. Qed.

Lemma week_ui (prefs : list (pyval * pyval)) :
  (forall day, In day DAYS_OF_WEEK ->
     exists l, py_get prefs day (PyList [PyNone; PyNone]) = PyList l
               /\ (length l <= 2)%nat /\ Forall ui_choice l) ->
  exists vs, attempt_each (add_day prefs) DAYS_OF_WEEK []
             = Fine (combine (map PyStr DAYS_OF_WEEK) vs)
             /\ accepted_week vs.
Proof.
  intros H.
  destruct (@add_days prefs DAYS_OF_WEEK NoDup_DAYS_OF_WEEK) with (done := @nil (pyval * pyval))
    as (vs & E & Hl & Hok).
  - intros day Hd. destruct (H day Hd) as (l & Hg & Hlen & Hui).
    eapply day_choice_ui; eassumption.
  - intros day _ [].
  - exists vs. split; [exact E | split; assumption].
Qed.

Lemma combine_fst {A B} (l : list A) (l' : list B) :
  length l = length l' -> map fst (combine l l') = l.
Proof.
  revert l'. induction l as [|a l IH]; intros [|b l'] H; try discriminate;
    cbn [combine map fst]; [reflexivity|].
  f_equal. apply IH. now injection H.
Qed.

Lemma PyStr_NoDup (l : list string) : NoDup l -> NoDup (map PyStr l).
Proof.
  induction 1 as [|x l Hx _ IH]; cbn [map]; constructor; [|exact IH].
  rewrite in_map_iff. intros (y & E & Hy). injection E as ->. contradiction.
Qed.

(** The normaliser accepts a week that the conversion builds. *)
Lemma employee_entry_accepts (normalized : dict (dict (list string)))
      (name : string) (vs : list pyval) :
  strip name <> "" -> accepted_week vs ->
  exists t,
    employee_entry normalized
                   (PyStr name, PyDict (combine (map PyStr DAYS_OF_WEEK) vs))
    = Ok t.
Proof.
  intros Hname [Hlen Hok].
  set (day_map := combine (map PyStr DAYS_OF_WEEK) vs).
  assert (Hkeys : map fst day_map = map PyStr DAYS_OF_WEEK).
  { apply combine_fst. now rewrite length_map. }
  assert (Hnd : NoDup (map fst day_map)).
  { rewrite Hkeys. apply PyStr_NoDup, NoDup_DAYS_OF_WEEK. }
  assert (Hhas : forall d, In d DAYS_OF_WEEK -> exists v, In (PyStr d, v) day_map).
  { intros d Hd.
    assert (Hin : In (PyStr d) (map fst day_map))
      by (rewrite Hkeys; now apply in_map).
    apply in_map_iff in Hin. destruct Hin as ([k v] & E & Hin).
    cbn [fst] in E. subst k. eauto. }
  assert (Hitem : forall x, In x day_map ->
            exists d v r, x = (PyStr d, v) /\ In d DAYS_OF_WEEK
                          /\ normalize_day v = Ok r).
  { intros [k v] Hin. pose proof (in_combine_l _ _ _ _ Hin) as Hk.
    pose proof (in_combine_r _ _ _ _ Hin) as Hv.
    apply in_map_iff in Hk. destruct Hk as (d & <- & Hd).
    destruct (proj1 (Forall_forall _ _) Hok v Hv) as [r Hr]. eauto 6. }
  destruct (@for_each_total _ _ day_entry day_map) with (s := @nil (string * list string))
    as [entry He].
  { intros s x Hin. destruct (Hitem x Hin) as (d & v & r & -> & Hd & Hr).
    unfold day_entry. apply mem_In in Hd. rewrite Hd, Hr. cbn [negb bind]. eauto. }
  unfold employee_entry.
  destruct (String.eqb_spec (strip name) "") as [|_]; [contradiction|].
  assert (H1 : forallb (fun required_day => has_key required_day day_map)
                       DAYS_OF_WEEK = true).
  { apply forallb_forall. intros d Hd. destruct (Hhas d Hd) as [v Hin].
    unfold has_key. apply existsb_exists. exists (PyStr d, v).
    cbn [fst]. now rewrite String.eqb_refl. }
  rewrite H1. cbn [negb]. cbv zeta. rewrite He. cbn [bind].
  assert (H2 : forallb (fun day => match dict_get entry day with
                                   | Some v => (length v =? 3)%nat
                                   | None => false
                                   end) DAYS_OF_WEEK = true).
  { apply forallb_forall. intros d Hd. destruct (Hhas d Hd) as [v Hin].
    destruct (@day_loop_spec _ _ He Hnd d v Hin) as (l & Hn & ->).
    apply normalize_day_shape in Hn. destruct Hn as [-> _]. reflexivity. }
  rewrite H2. eauto.
Qed.

Lemma emp_names_converted (weeks : list (string * list pyval)) :
  emp_names (converted weeks)
  = Ok (map (fun nw => lower (strip (fst nw))) weeks).
Proof.
  induction weeks as [|[n vs] weeks IH]; [reflexivity|].
  cbn [converted map emp_names fst]. fold (converted weeks).
  rewrite IH. reflexivity.
Qed.

(** The normaliser accepts the converted mapping when the names differ
    once lower-cased ... *)
Lemma collect_converted (weeks : list (string * list pyval)) :
  weeks <> [] ->
  Forall (fun nw => strip (fst nw) <> "" /\ accepted_week (snd nw)) weeks ->
  NoDup (map (fun nw => lower (strip (fst nw))) weeks) ->
  exists preferences,
    collect_employee_preferences (PyDict (converted weeks)) = Ok preferences.
Proof.
  intros Hne Hok Hnd.
  destruct (@for_each_total _ _ employee_entry (converted weeks))
    with (s := @nil (string * dict (list string))) as [preferences Hp].
  { intros s x Hin. unfold converted in Hin. apply in_map_iff in Hin.
    destruct Hin as ([n vs] & <- & Hin).
    destruct (proj1 (Forall_forall _ _) Hok _ Hin) as [Hn Hw].
    now apply employee_entry_accepts. }
  exists preferences. apply collect_inv. split.
  - intros E. apply map_eq_nil in E. contradiction.
  - eexists. split; [apply emp_names_converted|].
    split; [now apply has_dup_false | exact Hp].
Qed.

(** ... and refuses it when two of them are equal. *)
Lemma collect_converted_dup (weeks : list (string * list pyval)) :
  weeks <> [] ->
  ~ NoDup (map (fun nw => lower (strip (fst nw))) weeks) ->
  collect_employee_preferences (PyDict (converted weeks))
  = Raise (ValueError InvalidInput).
Proof.
  intros Hne Hd. unfold collect_employee_preferences.
  destruct (converted weeks) as [|x xs] eqn:E.
  { apply map_eq_nil in E. contradiction. }
  rewrite <- E, emp_names_converted. cbn [bind].
  destruct (has_dup _) eqn:Hh; [reflexivity|].
  apply has_dup_false in Hh. contradiction.
Qed.

Lemma converted_keys (weeks : list (string * list pyval)) :
  map fst (converted weeks) = map PyStr (map fst weeks).
Proof. unfold converted. now rewrite !map_map. Qed.

(** The employee loop of lines 39-57 on employees as the page sends them,
    with names that differ once trimmed: one entry for each, in order. *)
Lemma convert_ui (emps : list pyval) (names : list string) :
  Forall2 ui_employee emps names ->
  NoDup (map strip names) ->
  forall done,
    (forall n, In n names -> ~ In (strip n) (map fst done)) ->
    exists ws,
      attempt_each convert_employee emps (converted done)
      = Fine (converted (done ++ combine (map strip names) ws))
      /\ length ws = length names
      /\ Forall accepted_week ws.
Proof.
  induction 1 as [|emp n emps names Hemp Hrest IH]; intros Hnd done Hfresh.
  - exists []. cbn [attempt_each map combine]. rewrite app_nil_r. auto.
  - cbn [map] in Hnd. apply NoDup_cons_iff in Hnd. destruct Hnd as [Hnew Hnd].
    destruct Hemp as (fields & prefs & -> & Hname & Hblank & Hprefs & Hdays).
    destruct (week_ui prefs Hdays) as (vs & Hweek & Hvs).
    cbn [attempt_each]. unfold convert_employee at 1.
    rewrite Hname, Hprefs. cbv zeta.
    destruct (String.eqb_spec (strip n) "") as [|_]; [contradiction|].
    rewrite Hweek.
    rewrite py_set_fresh.
    2:{ rewrite converted_keys. intros Hin. apply in_map_iff in Hin.
        destruct Hin as (k & E & Hin). injection E as ->.
        exact (Hfresh n (or_introl eq_refl) Hin). }
    change (converted done ++ [(PyStr (strip n),
                                PyDict (combine (map PyStr DAYS_OF_WEEK) vs))])
      with (converted done ++ converted [(strip n, vs)]).
    unfold converted at 1 2. rewrite <- map_app. fold (converted (done ++ [(strip n, vs)])).
    destruct (IH Hnd (done ++ [(strip n, vs)])) as (ws & E & Hl & Hok).
    { intros m Hm. rewrite map_app, in_app_iff. cbn [map fst In].
      intros [Hin | [Hin | []]].
      - exact (Hfresh m (or_intror Hm) Hin).
      - apply Hnew. rewrite Hin. now apply in_map. }
    exists (vs :: ws). rewrite E, <- app_assoc. cbn [map combine app length].
    split; [reflexivity|]. split; [now rewrite Hl|]. now constructor.
Qed.

(** What the conversion hands to the scheduler, for a request as the page
    sends it. *)
Lemma conversion_ui (emps : list pyval) (names : list string) :
  Forall2 ui_employee emps names ->
  NoDup (map strip names) ->
  exists weeks,
    attempt_each convert_employee emps [] = Fine (converted weeks)
    /\ map fst weeks = map strip names
    /\ Forall (fun nw => strip (fst nw) <> "" /\ accepted_week (snd nw)) weeks.
Proof.
  intros Hui Hnd.
  destruct (@convert_ui emps names Hui Hnd []) as (ws & E & Hl & Hok);
    [intros n _ []|].
  cbn [app] in E. exists (combine (map strip names) ws).
  split; [exact E|]. split.
  - apply combine_fst. now rewrite length_map.
  - apply Forall_forall. intros [k vs] Hin.
    pose proof (in_combine_l _ _ _ _ Hin) as Hk.
    pose proof (in_combine_r _ _ _ _ Hin) as Hv.
    apply in_map_iff in Hk. destruct Hk as (n & <- & Hn). cbn [fst snd].
    split; [|exact (proj1 (Forall_forall _ _) Hok vs Hv)].
    rewrite strip_idem.
    clear - Hui Hn. induction Hui as [|emp m emps names Hemp _ IH];
      [destruct Hn|].
    destruct Hn as [-> | Hn]; [|now apply IH].
    destruct Hemp as (_ & _ & _ & _ & Hb & _). exact Hb.
Qed.

Lemma converted_lowered (weeks : list (string * list pyval)) (names : list string) :
  map fst weeks = map strip names ->
  map (fun nw => lower (strip (fst nw))) weeks
  = map (fun n => lower (strip n)) names.
Proof.
  intros H.
  rewrite <- (map_map fst (fun n => lower (strip n))), H, map_map.
  apply map_ext. intros n. now rewrite strip_idem.
Qed.

Lemma choose_ignored (st : list (pyval * pyval) * list string * Z) (v : pyval) :
  ignored v -> choose st v = Fine st.
Proof.
  intros [-> | (t & -> & Ht)]; [reflexivity|].
  rewrite choose_str, (proj2 (mem_false _ _) Ht). reflexivity.
Qed.

Lemma choose_first (s : string) :
  In s VALID_SHIFTS ->
  choose ([], [], 1%Z) (PyStr s) = Fine ([(PyStr s, PyInt 1)], [s], 2%Z).
Proof. intros [<- | [<- | [<- | []]]]; reflexivity. Qed.

Lemma choose_repeat (pri_map : list (pyval * pyval)) (rank : Z) (s : string) :
  choose (pri_map, [s], rank) (PyStr s) = Fine (pri_map, [s], rank).
Proof.
  rewrite choose_str. cbn [fst snd mem existsb].
  now rewrite String.eqb_refl, andb_false_r.
Qed.

Lemma one_choice_ranking (s : string) :
  In s VALID_SHIFTS ->
  normalize_day (PyDict [(PyStr s, PyInt 1)]) = Ok (s :: others_alphabetical s).
Proof.
  intros Hs. pose proof (@normalize_one s (PyInt 1) 1%Z) as H.
  rewrite (valid_shift_fixed Hs) in H. apply H; [assumption | reflexivity | lia].
Qed.

(** X19 (from choices to a ranking).  For the pair [[first, second]] that a
    request states for a day, the handler builds a priority map and the
    normaliser ranks the shifts from it: two different shift names give
    the first, the second, then the third shift; one shift name beside a
    choice that is passed over, or stated twice, gives that shift then the
    two others in alphabetical order; no shift name gives [None], which
    the normaliser reads as the alphabetical order.  A string is passed
    over unless it is a shift name as written in [VALID_SHIFTS]. *)
Theorem choices_become_ranking (prefs : list (pyval * pyval)) (day : string)
        (a b : pyval) :
  py_get prefs day (PyList [PyNone; PyNone]) = PyList [a; b] ->
  (forall s1 s2,
      a = PyStr s1 -> b = PyStr s2 ->
      In s1 VALID_SHIFTS -> In s2 VALID_SHIFTS -> s1 <> s2 ->
      day_choice prefs day
      = Fine (PyDict [(PyStr s1, PyInt 1); (PyStr s2, PyInt 2)])
      /\ normalize_day (PyDict [(PyStr s1, PyInt 1); (PyStr s2, PyInt 2)])
         = Ok ([s1; s2] ++ unnamed [s1; s2]))
  /\ (forall s,
         In s VALID_SHIFTS ->
         (a = PyStr s /\ (ignored b \/ b = PyStr s))
         \/ (ignored a /\ b = PyStr s) ->
         day_choice prefs day = Fine (PyDict [(PyStr s, PyInt 1)])
         /\ normalize_day (PyDict [(PyStr s, PyInt 1)])
            = Ok (s :: others_alphabetical s))
  /\ (ignored a -> ignored b ->
      day_choice prefs day = Fine PyNone
      /\ normalize_day PyNone = Ok ["afternoon"; "evening"; "morning"]).
Proof.
  intros Hget. unfold day_choice. rewrite Hget. cbn [iterate attempt_each].
  split; [|split].
  - intros s1 s2 -> -> H1 H2 Hne.
    destruct H1 as [<- | [<- | [<- | []]]];
      destruct H2 as [<- | [<- | [<- | []]]];
      try congruence; split; vm_compute; reflexivity.
  - intros s Hs H. split; [|now apply one_choice_ranking].
    destruct H as [[-> [Hb | ->]] | [Ha ->]].
    + rewrite (choose_first Hs), (choose_ignored _ Hb). reflexivity.
    + rewrite (choose_first Hs), choose_repeat. reflexivity.
    + rewrite (choose_ignored _ Ha), (choose_first Hs). reflexivity.
  - intros Ha Hb. rewrite (choose_ignored _ Ha), (choose_ignored _ Hb).
    split; reflexivity.
Qed.

Lemma choices_become_ranking_witness :
  day_choice [(PyStr "Monday", PyList [PyStr "evening"; PyStr "morning"])]
             "Monday"
  = Fine (PyDict [(PyStr "evening", PyInt 1); (PyStr "morning", PyInt 2)])
  /\ normalize_day (PyDict [(PyStr "evening", PyInt 1);
                            (PyStr "morning", PyInt 2)])
     = Ok ["evening"; "morning"; "afternoon"].
Proof.
  apply (proj1 (@choices_become_ranking
                  [(PyStr "Monday", PyList [PyStr "evening"; PyStr "morning"])]
                  "Monday" (PyStr "evening") (PyStr "morning") eq_refl)
               "evening" "morning" eq_refl eq_refl).
  - simpl. tauto.
  - simpl. tauto.
  - discriminate.
Defined.

Lemma ui_entry_ui (n : string) (a b : pyval) :
  strip n <> "" -> ui_choice a -> ui_choice b ->
  ui_employee (ui_entry n a b) n.
Proof.
  intros Hn Ha Hb. unfold ui_employee, ui_entry.
  eexists. eexists. split; [reflexivity|]. split; [reflexivity|].
  split; [exact Hn|]. split; [reflexivity|].
  intros day [<- | [<- | [<- | [<- | [<- | [<- | [<- | []]]]]]]];
    eexists; (split; [reflexivity|]); (split; [cbn [length]; lia|]);
    repeat (apply Forall_cons; [first [exact Ha | exact Hb | now left]|]);
    apply Forall_nil.
Qed.

(** X18 (a request as the page sends it).  When every employee of the
    request is an object with a name that is not blank and a [preferences]
    object that states, for a day, at most two choices (strings or
    nothing), the names are ASCII strings that differ once trimmed and
    lower-cased, and there are at least six employees, [create_schedule]
    renders a schedule: the one that [generate_schedule] returns for the
    mapping whose keys are the trimmed names in the order of the request.
    No exception of the conversion or of the scheduler reaches the
    [except] clause. *)
Theorem ui_request_scheduled (fields : list (pyval * pyval))
        (emps : list pyval) (names : list string) :
  py_get fields "employees" (PyList []) = PyList emps ->
  Forall2 ui_employee emps names ->
  Forall (fun n => is_ascii n = true) names ->
  NoDup (map (fun n => lower (strip n)) names) ->
  (6 <= length emps)%nat ->
  (Z.of_nat (length emps) < 2 ^ 53)%Z ->
  exists raw sched,
    map fst raw = map (fun n => PyStr (strip n)) names
    /\ generate_schedule (PyDict raw) = Ok sched
    /\ create_schedule (Some (PyDict fields)) = SchedulePage sched.
Proof.
  intros Hget Hui _ Hnd H6 Hsize.
  assert (Hnd' : NoDup (map strip names)).
  { rewrite <- (map_map strip lower) in Hnd. exact (NoDup_map_inv _ _ Hnd). }
  destruct (conversion_ui Hui Hnd') as (weeks & E & Hk & Hok).
  assert (Hlen : length (converted weeks) = length emps).
  { unfold converted. rewrite length_map, <- (length_map fst), Hk, length_map.
    symmetry. exact (Forall2_length Hui). }
  destruct (@collect_converted weeks) as [preferences Hc].
  { intros ->. cbn [converted map length] in Hlen. lia. }
  { exact Hok. }
  { now rewrite (converted_lowered _ _ Hk). }
  destruct (@generate_schedule_returns _ _ Hc) as [sched Hs];
    [rewrite Hlen; exact H6 | rewrite Hlen; exact Hsize |].
  exists (converted weeks), sched. split; [|split; [exact Hs|]].
  - now rewrite converted_keys, Hk, map_map.
  - unfold create_schedule. rewrite Hget.
    destruct emps as [|emp emps]; [cbn [length] in H6; lia|].
    now rewrite E, Hs.
Qed.

Lemma ui_request_scheduled_witness :
  exists raw sched,
    map fst raw = map PyStr ["Ann"; "Bob"; "Cy"; "Di"; "Ed"; "Flo"]
    /\ generate_schedule (PyDict raw) = Ok sched
    /\ create_schedule
         (ui_request (map (fun n => ui_entry n (PyStr "morning") PyNone)
                          ["Ann "; "Bob"; "Cy"; "Di"; "Ed"; " Flo"]))
       = SchedulePage sched.
Proof.
  apply (@ui_request_scheduled
           [(PyStr "employees",
             PyList (map (fun n => ui_entry n (PyStr "morning") PyNone)
                         ["Ann "; "Bob"; "Cy"; "Di"; "Ed"; " Flo"]))]
           (map (fun n => ui_entry n (PyStr "morning") PyNone)
                ["Ann "; "Bob"; "Cy"; "Di"; "Ed"; " Flo"])
           ["Ann "; "Bob"; "Cy"; "Di"; "Ed"; " Flo"]).
  - reflexivity.
  - cbn [map]. repeat constructor;
      (apply ui_entry_ui; [vm_compute; discriminate
                          | right; eexists; reflexivity | now left]).
  - repeat constructor.
  - apply has_dup_false. vm_compute. reflexivity.
  - cbn [map length]. lia.
  - vm_compute. reflexivity.
Defined.

(** X20 (requests that are refused).  For a request as the page sends it,
    with ASCII names that differ once trimmed: when two names are equal once
    lower-cased as well, the normaliser's [ValueError] is caught and
    rendered; otherwise, with fewer than six employees, the
    [ValueError] of the staffing check.  In both cases the page gets the
    employee list of the request back. *)
Theorem ui_request_refused (fields : list (pyval * pyval))
        (emps : list pyval) (names : list string) :
  py_get fields "employees" (PyList []) = PyList emps ->
  Forall2 ui_employee emps names ->
  Forall (fun n => is_ascii n = true) names ->
  NoDup (map strip names) ->
  emps <> [] ->
  (~ NoDup (map (fun n => lower (strip n)) names) ->
   create_schedule (Some (PyDict fields))
   = ErrorPage (Exn (ValueError InvalidInput)) (PyList emps))
  /\ (NoDup (map (fun n => lower (strip n)) names) ->
      (length emps < 6)%nat ->
      create_schedule (Some (PyDict fields))
      = ErrorPage (Exn (ValueError InsufficientStaff)) (PyList emps)).
Proof.
  intros Hget Hui _ Hnd' Hne.
  destruct (conversion_ui Hui Hnd') as (weeks & E & Hk & Hok).
  assert (Hlen : length (converted weeks) = length emps).
  { unfold converted. rewrite length_map, <- (length_map fst), Hk, length_map.
    symmetry. exact (Forall2_length Hui). }
  assert (Hw : weeks <> []).
  { intros ->. destruct emps; [congruence | discriminate Hlen]. }
  unfold create_schedule. rewrite Hget.
  destruct emps as [|emp emps]; [congruence|]. rewrite E.
  unfold generate_schedule, generate_schedule_with. split.
  - intros Hdup. rewrite collect_converted_dup; [reflexivity | exact Hw |].
    now rewrite (converted_lowered _ _ Hk).
  - intros Hnd Hfew.
    destruct (@collect_converted weeks Hw Hok) as [preferences Hc];
      [now rewrite (converted_lowered _ _ Hk)|].
    rewrite Hc. cbn [bind]. rewrite (@collect_length _ _ Hc), Hlen.
    destruct (Nat.ltb_spec (length (emp :: emps)) 6); [reflexivity | lia].
Qed.

Lemma ui_request_refused_witness :
  create_schedule
    (ui_request (map (fun n => ui_entry n (PyStr "morning") PyNone)
                     ["Ann"; "Bob"; "Cy"; "Di"; "Ed"; "ann"]))
  = ErrorPage (Exn (ValueError InvalidInput))
              (PyList (map (fun n => ui_entry n (PyStr "morning") PyNone)
                           ["Ann"; "Bob"; "Cy"; "Di"; "Ed"; "ann"]))
  /\ create_schedule
       (ui_request (map (fun n => ui_entry n (PyStr "morning") PyNone)
                        ["Ann"; "Bob"]))
     = ErrorPage (Exn (ValueError InsufficientStaff))
                 (PyList (map (fun n => ui_entry n (PyStr "morning") PyNone)
                              ["Ann"; "Bob"])).
Proof.
  split.
  - apply (proj1 (@ui_request_refused
                    [(PyStr "employees",
                      PyList (map (fun n => ui_entry n (PyStr "morning") PyNone)
                                  ["Ann"; "Bob"; "Cy"; "Di"; "Ed"; "ann"]))]
                    (map (fun n => ui_entry n (PyStr "morning") PyNone)
                         ["Ann"; "Bob"; "Cy"; "Di"; "Ed"; "ann"])
                    ["Ann"; "Bob"; "Cy"; "Di"; "Ed"; "ann"]
                    eq_refl
                    ltac:(cbn [map]; repeat constructor;
                          (apply ui_entry_ui;
                           [vm_compute; discriminate
                           | right; eexists; reflexivity | now left]))
                    ltac:(repeat constructor)
                    ltac:(apply has_dup_false; vm_compute; reflexivity)
                    ltac:(discriminate))).
    intros H. apply has_dup_false in H. vm_compute in H. discriminate H.
  - apply (proj2 (@ui_request_refused
                    [(PyStr "employees",
                      PyList (map (fun n => ui_entry n (PyStr "morning") PyNone)
                                  ["Ann"; "Bob"]))]
                    (map (fun n => ui_entry n (PyStr "morning") PyNone)
                         ["Ann"; "Bob"])
                    ["Ann"; "Bob"]
                    eq_refl
                    ltac:(cbn [map]; repeat constructor;
                          (apply ui_entry_ui;
                           [vm_compute; discriminate
                           | right; eexists; reflexivity | now left]))
                    ltac:(repeat constructor)
                    ltac:(apply has_dup_false; vm_compute; reflexivity)
                    ltac:(discriminate))).
    + apply has_dup_false. vm_compute. reflexivity.
    + cbn [map length]. lia.
Defined.

Lemma convert_blank (emps : list pyval) (raw : list (pyval * pyval)) :
  Forall blank_entry emps ->
  attempt_each convert_employee emps raw = Fine raw.
Proof.
  induction 1 as [|emp emps (fields & n & -> & Hn & Hb) _ IH]; [reflexivity|].
  cbn [attempt_each]. unfold convert_employee at 1. rewrite Hn. cbv zeta.
  rewrite Hb. cbn [String.eqb].
  destruct (py_get fields "preferences" (PyDict [])); exact IH.
Qed.

(** X21 (blank names).  Employees whose name is blank, or missing, are
    passed over; when a request holds no other employee, the scheduler is
    called with an empty mapping, and what is rendered is the
    [ValueError] of the normaliser, not the message of line 36. *)
Theorem blank_names_refused (fields : list (pyval * pyval)) (emps : list pyval) :
  py_get fields "employees" (PyList []) = PyList emps ->
  emps <> [] ->
  Forall blank_entry emps ->
  create_schedule (Some (PyDict fields))
  = ErrorPage (Exn (ValueError InvalidInput)) (PyList emps).
Proof.
  intros Hget Hne Hb. unfold create_schedule. rewrite Hget.
  destruct emps as [|emp emps]; [congruence|].
  now rewrite (convert_blank [] Hb).
Qed.

Lemma blank_names_refused_witness :
  create_schedule (ui_request [ui_entry "  " (PyStr "morning") PyNone;
                               PyDict []])
  = ErrorPage (Exn (ValueError InvalidInput))
              (PyList [ui_entry "  " (PyStr "morning") PyNone; PyDict []]).
Proof.
  apply (@blank_names_refused
           [(PyStr "employees",
             PyList [ui_entry "  " (PyStr "morning") PyNone; PyDict []])]
           [ui_entry "  " (PyStr "morning") PyNone; PyDict []]).
  - reflexivity.
  - discriminate.
  - repeat constructor.
    + exists [(PyStr "name", PyStr "  ");
              (PyStr "preferences",
               PyDict (map (fun day => (PyStr day,
                                        PyList [PyStr "morning"; PyNone]))
                           ["Monday"; "Tuesday"; "Wednesday"; "Thursday";
                            "Friday"; "Saturday"]))], "  ".
      repeat split; reflexivity.
    + exists [], "". repeat split; reflexivity.
Defined.

(* ================================================================== *)
(** * Single choices *)

Lemma is_ascii_lower_ascii (c : ascii) :
  (nat_of_ascii (lower_ascii c) <? 128)%nat = (nat_of_ascii c <? 128)%nat.
Proof. destruct c as [[] [] [] [] [] [] [] []]; reflexivity. Qed.

Lemma is_ascii_lower (s : string) : is_ascii (lower s) = is_ascii s.
Proof.
  unfold is_ascii. induction s as [|c s IH]; [reflexivity|].
  cbn [lower list_ascii_of_string forallb]. now rewrite IH, is_ascii_lower_ascii.
Qed.

Lemma is_space_ascii (c : ascii) :
  is_space c = true -> (nat_of_ascii c <? 128)%nat = true.
Proof.
  destruct c as [[] [] [] [] [] [] [] []]; vm_compute; intros H;
    (reflexivity || discriminate H).
Qed.

Lemma is_ascii_lstrip (s : string) : is_ascii (lstrip s) = is_ascii s.
Proof.
  unfold is_ascii. induction s as [|c s IH]; [reflexivity|].
  cbn [lstrip]. destruct (is_space c) eqn:Hc; [|reflexivity].
  cbn [list_ascii_of_string forallb]. now rewrite IH, (is_space_ascii _ Hc).
Qed.

Lemma is_ascii_rstrip (s : string) : is_ascii (rstrip s) = is_ascii s.
Proof.
  unfold is_ascii. induction s as [|c s IH]; [reflexivity|].
  rewrite rstrip_cons. cbn [list_ascii_of_string forallb]. rewrite <- IH.
  destruct (rstrip s) as [|a r].
  - destruct (is_space c) eqn:Hc; cbn [list_ascii_of_string forallb].
    + now rewrite (is_space_ascii _ Hc).
    + reflexivity.
  - reflexivity.
Qed.

(** Only ASCII strings name a shift: what [lower] and [strip] do to a
    string that, lower-cased and trimmed, is a shift name is what
    [str.lower] and [str.strip] do to it. *)
Lemma shift_name_is_ascii (t : string) :
  In (strip (lower t)) VALID_SHIFTS -> is_ascii t = true.
Proof.
  intros H. rewrite <- (is_ascii_lower t), <- (is_ascii_lstrip (lower t)),
              <- (is_ascii_rstrip (lstrip (lower t))).
  fold (strip (lower t)).
  destruct H as [<- | [<- | [<- | []]]]; reflexivity.
Qed.

Lemma normalize_str_accepts (t : string) :
  In (strip (lower t)) VALID_SHIFTS ->
  normalize_day (PyStr t) = Ok (strip (lower t) :: others (strip (lower t))).
Proof.
  intros H. cbn [normalize_day]. unfold normalize_str.
  generalize dependent (strip (lower t)). intros s H.
  destruct H as [<- | [<- | [<- | []]]]; reflexivity.
Qed.

(** An input written with [staff] is a converted mapping. *)
Lemma staff_converted (names : list string) (f : string -> string -> pyval) :
  staff names f
  = PyDict (converted (map (fun n => (n, map (f n) DAYS_OF_WEEK)) names)).
Proof.
  unfold staff, converted. f_equal. rewrite map_map.
  apply map_ext. intros n. reflexivity.
Qed.

(** C2, as amended (single choice).  A single string [t] that, lower-cased
    and trimmed, is one of the three shift names (an ASCII string, by
    [shift_name_is_ascii]) is accepted, and its normalised preference is
    that shift followed by the two other shifts in the order of
    [VALID_SHIFTS] (morning, afternoon, evening), not in alphabetical
    order.  This list is what every accepted input holds under a day
    stated as [t]; and an input in which every employee states [t] on every
    day is accepted. *)
Theorem single_choice_order (t : string) :
  In (strip (lower t)) VALID_SHIFTS ->
  normalize_day (PyStr t) = Ok (strip (lower t) :: others (strip (lower t)))
  /\ (forall items preferences emp day day_map,
         collect_employee_preferences (PyDict items) = Ok preferences ->
         In (PyStr emp, PyDict day_map) items ->
         NoDup (map fst day_map) ->
         In (PyStr day, PyStr t) day_map ->
         at2 preferences emp day
         = strip (lower t) :: others (strip (lower t)))
  /\ (forall names,
         names <> [] ->
         Forall (fun n => is_ascii n = true /\ strip n <> "") names ->
         NoDup (map (fun n => lower (strip n)) names) ->
         exists preferences,
           collect_employee_preferences (staff names (fun _ _ => PyStr t))
           = Ok preferences
           /\ forall n day, In n names -> In day DAYS_OF_WEEK ->
                at2 preferences n day
                = strip (lower t) :: others (strip (lower t))).
Proof.
  intros Ht. pose proof (normalize_str_accepts t Ht) as Hn.
  assert (Hstored : forall items preferences emp day day_map,
             collect_employee_preferences (PyDict items) = Ok preferences ->
             In (PyStr emp, PyDict day_map) items ->
             NoDup (map fst day_map) ->
             In (PyStr day, PyStr t) day_map ->
             at2 preferences emp day
             = strip (lower t) :: others (strip (lower t))).
  { intros items preferences emp day day_map Hc He Hnd Hd.
    destruct (@collect_spec _ _ Hc) as [_ L].
    destruct (L _ _ He) as (entry & Hentry & Hloop).
    destruct (@day_loop_spec _ _ Hloop Hnd _ _ Hd) as (l & Hl & Hget).
    rewrite Hn in Hl. apply Ok_inj in Hl. subst l.
    unfold at2. now rewrite Hentry, Hget. }
  split; [exact Hn|]. split; [exact Hstored|].
  intros names Hne Hnames Hnd.
  destruct (@collect_converted
              (map (fun n => (n, map (fun _ : string => PyStr t) DAYS_OF_WEEK))
                   names)) as [preferences Hc].
  - intros E. apply map_eq_nil in E. contradiction.
  - apply Forall_forall. intros [n vs] Hin. apply in_map_iff in Hin.
    destruct Hin as (m & E & Hm). apply pair_equal_spec in E.
    destruct E as [<- <-]. cbn [fst snd].
    split; [exact (proj2 (proj1 (Forall_forall _ _) Hnames m Hm))|].
    split; [now rewrite length_map|].
    apply Forall_forall. intros v Hv. apply in_map_iff in Hv.
    destruct Hv as (d & <- & _). eauto.
  - rewrite map_map. cbn [fst]. exact Hnd.
  - rewrite <- staff_converted in Hc.
    exists preferences. split; [exact Hc|]. intros n day Hin Hday.
    apply (Hstored (map (fun n => (PyStr n, week_of (fun _ => PyStr t))) names)
                   preferences n day
                   (map (fun d => (PyStr d, PyStr t)) DAYS_OF_WEEK)).
    + exact Hc.
    + apply in_map_iff. exists n. split; [reflexivity | exact Hin].
    + rewrite map_map. cbn [fst]. apply PyStr_NoDup, NoDup_DAYS_OF_WEEK.
    + apply in_map_iff. exists day. split; [reflexivity | exact Hday].
Qed.

Lemma single_choice_order_witness :
  normalize_day (PyStr " Evening") = Ok ["evening"; "morning"; "afternoon"]
  /\ exists preferences,
       collect_employee_preferences
         (staff ["Ann"; "Bob"] (fun _ _ => PyStr " Evening"))
       = Ok preferences
       /\ forall n day, In n ["Ann"; "Bob"] -> In day DAYS_OF_WEEK ->
            at2 preferences n day = ["evening"; "morning"; "afternoon"].
Proof.
  assert (H : In (strip (lower " Evening")) VALID_SHIFTS)
    by (vm_compute; tauto).
  destruct (@single_choice_order " Evening" H) as (H1 & _ & H3).
  split; [exact H1|].
  apply (H3 ["Ann"; "Bob"]).
  - discriminate.
  - repeat constructor; vm_compute; discriminate.
  - apply has_dup_false. vm_compute. reflexivity.
Defined.
